(** * shadowsocks-libev: the cipher layer (encrypt.c), the server's
      connection engine (server.c) and the first packets of the tunnel
      (tunnel.c), embedded and verified.

    Conventions of the embedding.
    - A byte ([uint8_t], [char] used as a byte) is a [Z]; the bit operations
      of the source are [Z.lor], [Z.lxor] and [Z.land].
    - A [size_t] or an index that the source only ever adds to, or subtracts
      from after a guard, is a [nat]; the counters that are sent over the wire
      ([uint16_t] chunk length, [uint32_t] chunk counter) are [Z] with their
      wrap-around written out.
    - A C array is a [list Z] whose length is the allocated size.  Every read
      and write checks its bounds: an access outside the array is undefined
      in C, and the embedding returns [Fault] there.
    - The crypto library (OpenSSL / PolarSSL / mbed TLS / libsodium) is not
      part of the repository; its primitives are the fields of the class
      [Backend], and what the proofs need of them are the fields of
      [BackendLaws]. *)

From Stdlib Require Import String Ascii.
From Stdlib Require Import ZArith List Lia Bool Arith Permutation.
Import ListNotations.

(** ** Outcomes of a C function *)

(** A function returns ([Ok]), stops the process ([Exit]: [FATAL], [exit]),
    or touches memory outside an array, takes a remainder by 0 or recurses
    without end ([Fault]: undefined behaviour). *)
Inductive result (A : Type) : Type :=
| Ok (a : A)
| Exit (msg : string)
| Fault.

Arguments Ok {A} a.
Arguments Exit {A} msg.
Arguments Fault {A}.

Definition bind {A B : Type} (m : result A) (k : A -> result B) : result B :=
  match m with
  | Ok a => k a
  | Exit msg => Exit msg
  | Fault => Fault
  end.

Declare Scope result_scope.
Delimit Scope result_scope with result.

Notation "x <- m ;; k" := (bind m (fun x => k))
  (at level 61, m at next level, right associativity) : result_scope.
Notation "' p <- m ;; k" := (bind m (fun x => let p := x in k))
  (at level 61, p pattern, m at next level, right associativity) : result_scope.

Open Scope result_scope.

(** ** Arrays *)

Module Mem.

(** [n] bytes read at offset [off]. *)
Definition read (a : list Z) (off n : nat) : result (list Z) :=
  if off + n <=? length a then Ok (firstn n (skipn off a)) else Fault.

(** [src] written at offset [off]. *)
Definition write (a : list Z) (off : nat) (src : list Z) : result (list Z) :=
  if off + length src <=? length a
  then Ok (firstn off a ++ src ++ skipn (off + length src) a)
  else Fault.

(** [a[i]] *)
Definition get (a : list Z) (i : nat) : result Z :=
  match nth_error a i with
  | Some b => Ok b
  | None => Fault
  end.

(** [a[i] = b] *)
Definition set (a : list Z) (i : nat) (b : Z) : result (list Z) :=
  write a i [b].

(** [memcpy(dst + doff, src + soff, n)]; [memmove] is the same function
    here, the copy being made of the bytes as they were before the call. *)
Definition memcpy (dst : list Z) (doff : nat) (src : list Z) (soff n : nat)
  : result (list Z) :=
  bytes <- read src soff n ;;
  write dst doff bytes.

Definition memmove := memcpy.

(** [memset(dst + off, c, n)] *)
Definition memset (dst : list Z) (off : nat) (c : Z) (n : nat) : result (list Z) :=
  write dst off (repeat c n).

(** [realloc]: the old bytes are kept, the new ones are unspecified in C;
    they are zero here, as are the bytes of a fresh [malloc] and of an
    uninitialised local array. *)
Definition resize (a : list Z) (n : nat) : list Z :=
  firstn n a ++ repeat 0%Z (n - length a).

End Mem.

(** ** encrypt.c *)

Module Encrypt.

(** *** Constants of encrypt.h *)

(** Modelled from the spec: the header encrypt.h is not among the sources;
    the method numbers are the positions in the ordered catalog
    [supported_ciphers], the sizes are those of the wire format (LEN:2,
    MAC:10) and of the largest IV and key of the size tables. *)
Definition TABLE : Z := 0.
Definition RC4 : Z := 1.
Definition RC4_MD5 : Z := 2.
Definition AES_128_CFB : Z := 3.
Definition AES_192_CFB : Z := 4.
Definition AES_256_CFB : Z := 5.
Definition BF_CFB : Z := 6.
Definition CAMELLIA_128_CFB : Z := 7.
Definition CAMELLIA_192_CFB : Z := 8.
Definition CAMELLIA_256_CFB : Z := 9.
Definition CAST5_CFB : Z := 10.
Definition DES_CFB : Z := 11.
Definition IDEA_CFB : Z := 12.
Definition RC2_CFB : Z := 13.
Definition SEED_CFB : Z := 14.
Definition SALSA20 : Z := 15.
Definition CHACHA20 : Z := 16.
Definition CHACHA20IETF : Z := 17.
Definition CIPHER_NUM : Z := 18.

Definition MAX_KEY_LENGTH : nat := 64.
Definition MAX_IV_LENGTH : nat := 16.
Definition SODIUM_BLOCK_SIZE : Z := 64.
Definition ONETIMEAUTH_FLAG : Z := 16.
Definition ADDRTYPE_MASK : Z := 15.
Definition ONETIMEAUTH_BYTES : nat := 10.
Definition CLEN_BYTES : nat := 2.
Definition AUTH_BYTES : nat := ONETIMEAUTH_BYTES + CLEN_BYTES.

(** *** The catalog and its size tables *)

Definition supported_ciphers : list string :=
  [ "table"; "rc4"; "rc4-md5"; "aes-128-cfb"; "aes-192-cfb"; "aes-256-cfb";
    "bf-cfb"; "camellia-128-cfb"; "camellia-192-cfb"; "camellia-256-cfb";
    "cast5-cfb"; "des-cfb"; "idea-cfb"; "rc2-cfb"; "seed-cfb"; "salsa20";
    "chacha20"; "chacha20-ietf" ]%string.

Definition supported_ciphers_iv_size : list nat :=
  [ 0; 0; 16; 16; 16; 16; 8; 16; 16; 16; 8; 8; 8; 8; 16; 8; 8; 12 ].

Definition supported_ciphers_key_size : list nat :=
  [ 0; 16; 16; 16; 24; 32; 16; 16; 24; 32; 16; 8; 16; 16; 16; 32; 32; 32 ].

(** The cipher-sizes table of the specification (section 6), row by row:
    method, key bytes, IV bytes.  It is written from the specification and
    compared with the three tables above. *)
Definition spec_cipher_sizes : list (string * nat * nat) :=
  [ ("table", 0, 0); ("rc4", 16, 0); ("rc4-md5", 16, 16);
    ("aes-128-cfb", 16, 16); ("aes-192-cfb", 24, 16); ("aes-256-cfb", 32, 16);
    ("bf-cfb", 16, 8);
    ("camellia-128-cfb", 16, 16); ("camellia-192-cfb", 24, 16);
    ("camellia-256-cfb", 32, 16);
    ("cast5-cfb", 16, 8); ("des-cfb", 8, 8); ("idea-cfb", 16, 8);
    ("rc2-cfb", 16, 8); ("seed-cfb", 16, 16);
    ("salsa20", 32, 8); ("chacha20", 32, 8); ("chacha20-ietf", 32, 12) ]%string.

(** The row of the implementation's tables for method number [m]. *)
Definition table_row (m : nat) : option (string * nat * nat) :=
  match nth_error supported_ciphers m,
        nth_error supported_ciphers_key_size m,
        nth_error supported_ciphers_iv_size m with
  | Some name, Some k, Some iv => Some (name, k, iv)
  | _, _, _ => None
  end.

(** *** safe_memcmp *)

(** [s1] and [s2] are the arrays from the two pointers on; the loop reads
    index [i] of each for [i] from 0 to [n - 1]. *)
Definition safe_memcmp_loop (s1 s2 : list Z) (n : nat) : Z :=
  fold_left (fun ret i => Z.lor ret (Z.lxor (nth i s1 0%Z) (nth i s2 0%Z)))
            (seq 0 n) 0%Z.

Definition safe_memcmp (s1 s2 : list Z) (n : nat) : Z :=
  (* !!ret *)
  if Z.eqb (safe_memcmp_loop s1 s2 n) 0 then 0%Z else 1%Z.

(** *** Buffers *)

Record buffer_t := mkbuffer
  { idx : nat; len : nat; capacity : nat; array : list Z }.

Definition balloc (capacity : nat) : buffer_t :=
  {| idx := 0; len := 0; capacity := capacity; array := repeat 0%Z capacity |}.

Definition brealloc (ptr : buffer_t) (len capacity : nat) : buffer_t :=
  let real_capacity := Nat.max len capacity in
  if ptr.(Encrypt.capacity) <? real_capacity
  then {| idx := ptr.(idx); len := ptr.(Encrypt.len);
          capacity := real_capacity;
          array := Mem.resize ptr.(array) real_capacity |}
  else ptr.

(** [bfree]: the array is released; nothing of it can be read again. *)
Definition bfree (ptr : buffer_t) : buffer_t :=
  {| idx := 0; len := 0; capacity := 0; array := [] |}.

Definition set_len (b : buffer_t) (n : nat) : buffer_t :=
  {| idx := b.(idx); len := n; capacity := b.(capacity); array := b.(array) |}.

Definition set_idx (b : buffer_t) (n : nat) : buffer_t :=
  {| idx := n; len := b.(len); capacity := b.(capacity); array := b.(array) |}.

Definition set_array (b : buffer_t) (a : list Z) : buffer_t :=
  {| idx := b.(idx); len := b.(len); capacity := b.(capacity); array := a |}.

(** The bytes a buffer holds: the first [len] of its array. *)
Definition contents (b : buffer_t) : list Z := firstn b.(len) b.(array).

(** A buffer of [balloc(capacity)] after [bytes] were received into it;
    one that the bytes do not fit was grown to hold them. *)
Definition holding (capacity : nat) (bytes : list Z) : buffer_t :=
  {| idx := 0; len := length bytes;
     capacity := Nat.max (length bytes) capacity;
     array := bytes ++ repeat 0%Z (capacity - length bytes) |}.

(** *** The crypto library

    The OpenSSL build of the source ([USE_CRYPTO_OPENSSL], the first branch
    of every conditional) with libsodium.  A pointer argument is the array
    from the pointer on; a function that writes through a pointer returns
    the bytes it writes, and the caller stores them with [Mem.write]. *)

(** [EVP_CIPHER]: what the source reads and, for the Salsa20/ChaCha20
    family, writes of it. *)
Record cipher_kt_t := mkcipher { nid : Z; key_len : nat; iv_len : nat }.

Class Backend : Type :=
  { MD5 : list Z -> list Z;
    (** [HMAC(EVP_sha1(), key, key_len, msg, msg_len, hash, NULL)] *)
    HMAC_SHA1 : list Z -> list Z -> list Z;
    EVP_get_digestbyname : string -> bool;
    EVP_get_cipherbyname : string -> option cipher_kt_t;
    (** the return value and the bytes written to [key] *)
    EVP_BytesToKey : cipher_kt_t -> list Z -> nat * list Z;
    cipher_evp_t : Type;
    (** the context after [memset(ctx, 0, sizeof(enc_ctx_t))] *)
    EVP_zeroed : cipher_evp_t;
    EVP_CIPHER_CTX_init : cipher_evp_t -> cipher_evp_t;
    (** context, cipher, key, iv, enc *)
    EVP_CipherInit_ex :
      cipher_evp_t -> option cipher_kt_t -> option (list Z) ->
      option (list Z) -> Z -> Z * cipher_evp_t;
    EVP_CIPHER_CTX_set_key_length : cipher_evp_t -> nat -> Z * cipher_evp_t;
    EVP_CIPHER_CTX_set_padding : cipher_evp_t -> Z -> cipher_evp_t;
    (** context, input: return value, context, bytes written to the output *)
    EVP_CipherUpdate : cipher_evp_t -> list Z -> Z * cipher_evp_t * list Z;
    sodium_init : Z;
    (** message, nonce, block counter, key *)
    crypto_stream_salsa20_xor_ic : list Z -> list Z -> Z -> list Z -> list Z;
    crypto_stream_chacha20_xor_ic : list Z -> list Z -> Z -> list Z -> list Z;
    crypto_stream_chacha20_ietf_xor_ic : list Z -> list Z -> Z -> list Z -> list Z }.

(** *** The replay cache *)

(** Modelled from the spec: cache.c is not among the sources.  "A bounded
    set keyed by the raw bytes of a received IV. Capacity 256 entries;
    eviction order is insertion order (oldest evicted first)"; "if absent,
    insert; if over capacity, evict oldest".  The entries are kept oldest
    first. *)
Record cache := mkcache { max_entries : nat; entries : list (list Z) }.

Definition key_eqb (k1 k2 : list Z) : bool :=
  if list_eq_dec Z.eq_dec k1 k2 then true else false.

(** Modelled from the spec: [cache_create(&cache, capacity, NULL)]. *)
Definition cache_create (capacity : nat) : cache :=
  {| max_entries := capacity; entries := [] |}.

(** Modelled from the spec: [cache_key_exist(cache, key, key_len)], the
    membership test. *)
Definition cache_key_exist (c : cache) (key : list Z) : bool :=
  existsb (key_eqb key) c.(entries).

(** Modelled from the spec: [cache_insert(cache, key, key_len, NULL)]. *)
Definition cache_insert (c : cache) (key : list Z) : cache :=
  let es := c.(entries) ++ [key] in
  {| max_entries := c.(max_entries);
     entries := if c.(max_entries) <? length es then tl es else es |}.

(** *** The process-wide state of encrypt.c *)

Record globals := mkglobals
  { enc_table : list Z;
    dec_table : list Z;
    enc_key : list Z;
    enc_key_len : nat;
    enc_iv_len : nat;
    enc_method : Z;
    iv_cache : option cache;
    (** the [static buffer_t tmp] of [ss_encrypt] and of [ss_decrypt] *)
    tmp_encrypt : buffer_t;
    tmp_decrypt : buffer_t }.

(** The state a process starts in: zeroed statics, null pointers. *)
Definition globals0 : globals :=
  {| enc_table := []; dec_table := [];
     enc_key := repeat 0%Z MAX_KEY_LENGTH;
     enc_key_len := 0; enc_iv_len := 0; enc_method := 0%Z;
     iv_cache := None;
     tmp_encrypt := mkbuffer 0 0 0 [];
     tmp_decrypt := mkbuffer 0 0 0 [] |}.

Definition set_enc_iv_len (g : globals) (n : nat) : globals :=
  {| enc_table := g.(enc_table); dec_table := g.(dec_table);
     enc_key := g.(enc_key); enc_key_len := g.(enc_key_len);
     enc_iv_len := n; enc_method := g.(enc_method);
     iv_cache := g.(iv_cache);
     tmp_encrypt := g.(tmp_encrypt); tmp_decrypt := g.(tmp_decrypt) |}.

Definition set_iv_cache (g : globals) (c : option cache) : globals :=
  {| enc_table := g.(enc_table); dec_table := g.(dec_table);
     enc_key := g.(enc_key); enc_key_len := g.(enc_key_len);
     enc_iv_len := g.(enc_iv_len); enc_method := g.(enc_method);
     iv_cache := c;
     tmp_encrypt := g.(tmp_encrypt); tmp_decrypt := g.(tmp_decrypt) |}.

Definition set_tmp_encrypt (g : globals) (b : buffer_t) : globals :=
  {| enc_table := g.(enc_table); dec_table := g.(dec_table);
     enc_key := g.(enc_key); enc_key_len := g.(enc_key_len);
     enc_iv_len := g.(enc_iv_len); enc_method := g.(enc_method);
     iv_cache := g.(iv_cache);
     tmp_encrypt := b; tmp_decrypt := g.(tmp_decrypt) |}.

Definition set_tmp_decrypt (g : globals) (b : buffer_t) : globals :=
  {| enc_table := g.(enc_table); dec_table := g.(dec_table);
     enc_key := g.(enc_key); enc_key_len := g.(enc_key_len);
     enc_iv_len := g.(enc_iv_len); enc_method := g.(enc_method);
     iv_cache := g.(iv_cache);
     tmp_encrypt := g.(tmp_encrypt); tmp_decrypt := b |}.

Definition set_tables (g : globals) (e d : list Z) : globals :=
  {| enc_table := e; dec_table := d;
     enc_key := g.(enc_key); enc_key_len := g.(enc_key_len);
     enc_iv_len := g.(enc_iv_len); enc_method := g.(enc_method);
     iv_cache := g.(iv_cache);
     tmp_encrypt := g.(tmp_encrypt); tmp_decrypt := g.(tmp_decrypt) |}.

(** *** The table cipher *)

Definition UINT32_MOD : Z := 2 ^ 32.
Definition UINT64_MOD : Z := 2 ^ 64.

(** conversion of a 64-bit unsigned value to [int] *)
Definition to_int (z : Z) : Z := ((z + 2 ^ 31) mod 2 ^ 32 - 2 ^ 31)%Z.

(** [a % (x + i) - a % (y + i)]: [x + i] is a 32-bit unsigned sum, the
    remainders and their difference are 64-bit unsigned, the result is
    converted to [int].  A remainder by 0 is undefined: the call faults
    when [x + i] or [y + i] is 0 as a 32-bit sum. *)
Definition random_compare (x y : Z) (i : Z) (a : Z) : result Z :=
  let dx := ((x + i) mod UINT32_MOD)%Z in
  let dy := ((y + i) mod UINT32_MOD)%Z in
  if ((dx =? 0) || (dy =? 0))%Z then Fault
  else Ok (to_int ((a mod dx - a mod dy) mod UINT64_MOD)%Z).

(** [merge]: [ll] and [rr] are the copies [ltmp] and [rtmp]; the result is
    what is written from [left] on. *)
Fixpoint merge (ll rr : list Z) (salt key : Z) : result (list Z) :=
  let fix merge_right (rr : list Z) : result (list Z) :=
    match ll, rr with
    | [], _ => Ok rr
    | _, [] => Ok ll
    | x :: ll', y :: rr' =>
        c <- random_compare x y salt key ;;
        if (c <=? 0)%Z
        then rest <- merge ll' rr salt key ;; Ok (x :: rest)
        else rest <- merge_right rr' ;; Ok (y :: rest)
    end in
  merge_right rr.

(** [merge_sort(array, length, salt, key)] on the [length] bytes of the
    array.  [stack] bounds the depth of the recursion: the source recurses
    for ever, and overflows its stack, when [middle] is 0 (a length whose
    half is a multiple of 256). *)
Fixpoint merge_sort (stack : nat) (array : list Z) (salt key : Z)
  : result (list Z) :=
  match stack with
  | O => Fault
  | S stack' =>
      let length := List.length array in
      if length <=? 1 then Ok array
      else
        let middle := (length / 2) mod 256 in (* uint8_t middle *)
        let llength := length - middle in
        left <- merge_sort stack' (firstn llength array) salt key ;;
        right <- merge_sort stack' (skipn llength array) salt key ;;
        merge left right salt key
  end.

Definition STACK_DEPTH : nat := 1000.

Definition OFFSET_ROL (p : list Z) (o : nat) : Z :=
  (Z.shiftl (nth o p 0) (8 * Z.of_nat o) mod UINT64_MOD)%Z.

Definition string_bytes (s : string) : list Z :=
  map (fun c => Z.of_nat (nat_of_ascii c)) (list_ascii_of_string s).

(** the loop [for (i = 1; i < 1024; ++i) merge_sort(enc_table, 256, i, key)],
    [n] rounds from salt [i] on *)
Fixpoint shuffle_rounds (n : nat) (i : Z) (table : list Z) (key : Z)
  : result (list Z) :=
  match n with
  | O => Ok table
  | S n' =>
      table' <- merge_sort STACK_DEPTH table i key ;;
      shuffle_rounds n' (i + 1)%Z table' key
  end.

(** the loop [for (i = 0; i < 256; ++i) dec_table[enc_table[i]] = i],
    [n] rounds from index [i] on *)
Fixpoint invert_rounds (n : nat) (i : nat) (enc dec : list Z)
  : result (list Z) :=
  match n with
  | O => Ok dec
  | S n' =>
      e <- Mem.get enc i ;;
      dec' <- Mem.set dec (Z.to_nat e) (Z.of_nat i) ;;
      invert_rounds n' (S i) enc dec'
  end.

Section WithBackend.

Context {B : Backend}.

Definition enc_md5 (d : list Z) (n : nat) : result (list Z) :=
  bytes <- Mem.read d 0 n ;;
  Ok (MD5 bytes).

Definition enc_table_init (g : globals) (pass : string) : result globals :=
  let p := string_bytes pass in
  digest <- enc_md5 p (length p) ;;
  let key := fold_left (fun key i => ((key + OFFSET_ROL digest i) mod UINT64_MOD)%Z)
                       (seq 0 8) 0%Z in
  let enc0 := map Z.of_nat (seq 0 256) in
  enc <- shuffle_rounds 1023 1 enc0 key ;;
  dec <- invert_rounds 256 0 enc (repeat 0%Z 256) ;;
  Ok (set_tables g enc dec).

(** *** Cipher contexts *)

Record cipher_ctx_t := mkcipher_ctx
  { evp_ctx : cipher_evp_t;        (* cipher_evp_t evp *)
    iv : list Z }.                 (* uint8_t iv[MAX_IV_LENGTH] *)

Record enc_ctx_t := mkenc_ctx
  { init : Z;                      (* uint8_t init *)
    counter : Z;                   (* uint64_t counter *)
    evp : cipher_ctx_t }.

Definition get_cipher_type (method : Z) : option cipher_kt_t :=
  if ((method <=? TABLE) || (CIPHER_NUM <=? method))%Z then None
  else
    let method := if (method =? RC4_MD5)%Z then RC4 else method in
    if (SALSA20 <=? method)%Z then None
    else EVP_get_cipherbyname (nth (Z.to_nat method) supported_ciphers ""%string).

Definition cipher_iv_size (cipher : cipher_kt_t) : nat := cipher.(iv_len).

Definition cipher_context_init (g : globals) (ctx : cipher_ctx_t)
           (method : Z) (enc : Z) : result (globals * cipher_ctx_t) :=
  if ((method <=? TABLE) || (CIPHER_NUM <=? method))%Z then Ok (g, ctx)
  else if (SALSA20 <=? method)%Z then
    Ok (set_enc_iv_len g (nth (Z.to_nat method) supported_ciphers_iv_size 0), ctx)
  else
    match get_cipher_type method with
    | None => Exit "Cannot initialize cipher"
    | Some cipher =>
        let e := EVP_CIPHER_CTX_init ctx.(evp_ctx) in
        let '(r, e) := EVP_CipherInit_ex e (Some cipher) None None enc in
        if (r =? 0)%Z then Exit "Cannot initialize cipher"
        else
          let '(r, e) := EVP_CIPHER_CTX_set_key_length e g.(enc_key_len) in
          if (r =? 0)%Z then Exit "Invalid key length"
          else
            let e := if (RC4_MD5 <? method)%Z
                     then EVP_CIPHER_CTX_set_padding e 1 else e in
            Ok (g, {| evp_ctx := e; iv := ctx.(iv) |})
    end.

(** [iv_arg] is the array the pointer [iv] points into. *)
Definition cipher_context_set_iv (g : globals) (ctx : cipher_ctx_t)
           (iv_arg : list Z) (iv_len : nat) (enc : Z) : result cipher_ctx_t :=
  ctx_iv <- (if (enc =? 0)%Z then Mem.memcpy ctx.(iv) 0 iv_arg 0 iv_len
             else Ok ctx.(iv)) ;;
  if (SALSA20 <=? g.(enc_method))%Z then
    Ok {| evp_ctx := ctx.(evp_ctx); iv := ctx_iv |}
  else
    true_key <- (if (g.(enc_method) =? RC4_MD5)%Z then
                   key_iv <- Mem.memcpy (repeat 0%Z 32) 0 g.(enc_key) 0 16 ;;
                   key_iv <- Mem.memcpy key_iv 16 iv_arg 0 16 ;;
                   enc_md5 key_iv 32
                 else Ok g.(enc_key)) ;;
    let '(r, e) := EVP_CipherInit_ex ctx.(evp_ctx) None (Some true_key)
                                     (Some iv_arg) enc in
    if (r =? 0)%Z then Exit "Cannot set key and IV"
    else Ok {| evp_ctx := e; iv := ctx_iv |}.

(** [crypto_stream_xor_ic]: the bytes written to [c], none when the
    method is not of the family. *)
Definition crypto_stream_xor_ic (m : list Z) (n : list Z) (ic : Z)
           (k : list Z) (method : Z) : option (list Z) :=
  if (method =? SALSA20)%Z then Some (crypto_stream_salsa20_xor_ic m n ic k)
  else if (method =? CHACHA20)%Z then Some (crypto_stream_chacha20_xor_ic m n ic k)
  else if (method =? CHACHA20IETF)%Z
       then Some (crypto_stream_chacha20_ietf_xor_ic m n (ic mod UINT32_MOD)%Z k)
  else None.

Definition write_opt (a : list Z) (off : nat) (out : option (list Z))
  : result (list Z) :=
  match out with
  | Some bytes => Mem.write a off bytes
  | None => Ok a
  end.

(** the table substitution of [len] bytes in place *)
Fixpoint substitute (table : list Z) (bytes : list Z) : result (list Z) :=
  match bytes with
  | [] => Ok []
  | b :: rest =>
      c <- Mem.get table (Z.to_nat (b mod 256)%Z) ;;
      rest' <- substitute table rest ;;
      Ok (c :: rest')
  end.

Definition table_crypt (table : list Z) (buf : buffer_t) : result buffer_t :=
  bytes <- Mem.read buf.(array) 0 buf.(len) ;;
  out <- substitute table bytes ;;
  a <- Mem.write buf.(array) 0 out ;;
  Ok (set_array buf a).

(** [ss_encrypt(plain, ctx, capacity)]: the return value and the state
    after the call. *)
Definition ss_encrypt (g : globals) (plain : buffer_t)
           (ctx : option enc_ctx_t) (capacity : nat)
  : result (Z * globals * buffer_t * option enc_ctx_t) :=
  match ctx with
  | Some ctx =>
      let iv_len := if (ctx.(init) =? 0)%Z then g.(enc_iv_len) else 0 in
      let cipher := brealloc g.(tmp_encrypt) (iv_len + plain.(len)) capacity in
      let cipher := set_len cipher plain.(len) in
      '(ctx, cipher) <-
        (if (ctx.(init) =? 0)%Z then
           e <- cipher_context_set_iv g ctx.(evp) ctx.(evp).(iv) iv_len 1 ;;
           a <- Mem.memcpy cipher.(array) 0 e.(iv) 0 iv_len ;;
           Ok ({| init := 1; counter := 0; evp := e |}, set_array cipher a)
         else Ok (ctx, cipher)) ;;
      '(err, ctx, plain, cipher) <-
        (if (SALSA20 <=? g.(enc_method))%Z then
           let padding := Z.to_nat (ctx.(counter) mod SODIUM_BLOCK_SIZE) in
           let cipher := brealloc cipher (iv_len + (padding + cipher.(len)) * 2)
                                  capacity in
           plain <- (if padding =? 0 then Ok plain
                     else
                       let plain := brealloc plain (plain.(len) + padding)
                                             capacity in
                       a <- Mem.memmove plain.(array) padding
                                        plain.(array) 0 plain.(len) ;;
                       a <- Mem.memset a 0 0 padding ;;
                       Ok (set_array plain a)) ;;
           m <- Mem.read plain.(array) 0 (plain.(len) + padding) ;;
           a <- write_opt cipher.(array) iv_len
                          (crypto_stream_xor_ic m ctx.(evp).(iv)
                             (ctx.(counter) / SODIUM_BLOCK_SIZE)
                             g.(enc_key) g.(enc_method)) ;;
           let ctx := {| init := ctx.(init);
                         counter := ((ctx.(counter) + Z.of_nat plain.(len))
                                     mod UINT64_MOD)%Z;
                         evp := ctx.(evp) |} in
           a <- (if padding =? 0 then Ok a
                 else Mem.memmove a iv_len a (iv_len + padding) cipher.(len)) ;;
           Ok (1%Z, ctx, plain, set_array cipher a)
         else
           input <- Mem.read plain.(array) 0 plain.(len) ;;
           let '(err, e, out) := EVP_CipherUpdate ctx.(evp).(evp_ctx) input in
           a <- Mem.write cipher.(array) iv_len out ;;
           Ok (err,
               {| init := ctx.(init); counter := ctx.(counter);
                  evp := {| evp_ctx := e; iv := ctx.(evp).(iv) |} |},
               plain,
               set_len (set_array cipher a) (length out))) ;;
      if (err =? 0)%Z then
        Ok ((-1)%Z, set_tmp_encrypt g cipher, plain, Some ctx)
      else
        let plain := brealloc plain (iv_len + cipher.(len)) capacity in
        a <- Mem.memcpy plain.(array) 0 cipher.(array) 0 (iv_len + cipher.(len)) ;;
        Ok (0%Z, set_tmp_encrypt g cipher,
            set_len (set_array plain a) (iv_len + cipher.(len)), Some ctx)
  | None =>
      plain <- table_crypt g.(enc_table) plain ;;
      Ok (0%Z, g, plain, None)
  end.

(** [ss_decrypt(cipher, ctx, capacity)].  On the first call of a context
    [plain->len -= iv_len] wraps around when the buffer is shorter than
    the IV, and the library is then given a length far beyond the array:
    [Fault]. *)
Definition ss_decrypt (g : globals) (cipher : buffer_t)
           (ctx : option enc_ctx_t) (capacity : nat)
  : result (Z * globals * buffer_t * option enc_ctx_t) :=
  match ctx with
  | Some ctx =>
      let plain := brealloc g.(tmp_decrypt) cipher.(len) capacity in
      let plain := set_len plain cipher.(len) in
      '(replay, iv_len, g, ctx, plain) <-
        (if (ctx.(init) =? 0)%Z then
           let iv_len := g.(enc_iv_len) in
           if cipher.(len) <? iv_len then Fault
           else
             let plain := set_len plain (plain.(len) - iv_len) in
             iv_local <- Mem.memcpy (repeat 0%Z MAX_IV_LENGTH) 0
                                    cipher.(array) 0 iv_len ;;
             e <- cipher_context_set_iv g ctx.(evp) iv_local iv_len 0 ;;
             let ctx := {| init := 1; counter := 0; evp := e |} in
             if (RC4_MD5 <=? g.(enc_method))%Z then
               match g.(iv_cache) with
               | None => Fault
               | Some c =>
                   key <- Mem.read iv_local 0 iv_len ;;
                   if cache_key_exist c key
                   then Ok (true, iv_len, g, ctx, plain)
                   else Ok (false, iv_len,
                            set_iv_cache g (Some (cache_insert c key)),
                            ctx, plain)
               end
             else Ok (false, iv_len, g, ctx, plain)
         else Ok (false, 0, g, ctx, plain)) ;;
      if replay : bool then
        Ok ((-1)%Z, set_tmp_decrypt g plain, bfree cipher, Some ctx)
      else
        '(err, ctx, cipher, plain) <-
          (if (SALSA20 <=? g.(enc_method))%Z then
             let padding := Z.to_nat (ctx.(counter) mod SODIUM_BLOCK_SIZE) in
             let plain := brealloc plain ((plain.(len) + padding) * 2) capacity in
             cipher <- (if padding =? 0 then Ok cipher
                        else
                          let cipher := brealloc cipher (cipher.(len) + padding)
                                                 capacity in
                          a <- Mem.memmove cipher.(array) (iv_len + padding)
                                           cipher.(array) iv_len
                                           (cipher.(len) - iv_len) ;;
                          a <- Mem.memset a iv_len 0 padding ;;
                          Ok (set_array cipher a)) ;;
             m <- Mem.read cipher.(array) iv_len
                           (cipher.(len) - iv_len + padding) ;;
             a <- write_opt plain.(array) 0
                            (crypto_stream_xor_ic m ctx.(evp).(iv)
                               (ctx.(counter) / SODIUM_BLOCK_SIZE)
                               g.(enc_key) g.(enc_method)) ;;
             let ctx := {| init := ctx.(init);
                           counter := ((ctx.(counter)
                                        + Z.of_nat (cipher.(len) - iv_len))
                                       mod UINT64_MOD)%Z;
                           evp := ctx.(evp) |} in
             a <- (if padding =? 0 then Ok a
                   else Mem.memmove a 0 a padding plain.(len)) ;;
             Ok (1%Z, ctx, cipher, set_array plain a)
           else
             input <- Mem.read cipher.(array) iv_len (cipher.(len) - iv_len) ;;
             let '(err, e, out) := EVP_CipherUpdate ctx.(evp).(evp_ctx) input in
             a <- Mem.write plain.(array) 0 out ;;
             Ok (err,
                 {| init := ctx.(init); counter := ctx.(counter);
                    evp := {| evp_ctx := e; iv := ctx.(evp).(iv) |} |},
                 cipher,
                 set_len (set_array plain a) (length out))) ;;
        if (err =? 0)%Z then
          Ok ((-1)%Z, set_tmp_decrypt g plain, bfree cipher, Some ctx)
        else
          let cipher := brealloc cipher plain.(len) capacity in
          a <- Mem.memcpy cipher.(array) 0 plain.(array) 0 plain.(len) ;;
          Ok (0%Z, set_tmp_decrypt g plain,
              set_len (set_array cipher a) plain.(len), Some ctx)
  | None =>
      cipher <- table_crypt g.(dec_table) cipher ;;
      Ok (0%Z, g, cipher, None)
  end.

(** [rand_bytes(output, len)]: the bytes written; [rnd] is the stream of
    the library's random generator. *)
Definition rand_bytes (rnd : nat -> Z) (len : nat) : list Z :=
  map rnd (seq 0 len).

(** [enc_ctx_init(method, ctx, enc)] *)
Definition enc_ctx_init (g : globals) (method : Z) (enc : Z) (rnd : nat -> Z)
  : result (globals * enc_ctx_t) :=
  let zeroed := {| evp_ctx := EVP_zeroed; iv := repeat 0%Z MAX_IV_LENGTH |} in
  '(g, e) <- cipher_context_init g zeroed method enc ;;
  if (enc =? 0)%Z then Ok (g, {| init := 0; counter := 0; evp := e |})
  else
    a <- Mem.write e.(iv) 0 (rand_bytes rnd g.(enc_iv_len)) ;;
    Ok (g, {| init := 0; counter := 0;
              evp := {| evp_ctx := e.(evp_ctx); iv := a |} |}).

(** [enc_key_init(method, pass)] *)
Definition enc_key_init (g : globals) (method : Z) (pass : string)
  : result globals :=
  if ((method <=? TABLE) || (CIPHER_NUM <=? method))%Z then Ok g
  else
    let g := set_iv_cache g (Some (cache_create 256)) in
    cipher <-
      (if ((method =? SALSA20) || (method =? CHACHA20)
           || (method =? CHACHA20IETF))%Z then
         if (sodium_init =? -1)%Z then Exit "Failed to initialize sodium"
         else Ok (Some {| nid := 0;
                          key_len := nth (Z.to_nat method)
                                         supported_ciphers_key_size 0;
                          iv_len := nth (Z.to_nat method)
                                        supported_ciphers_iv_size 0 |})
       else Ok (get_cipher_type method)) ;;
    match cipher with
    | None => Exit "Cannot initialize cipher"
    | Some cipher =>
        if negb (EVP_get_digestbyname "MD5")
        then Exit "MD5 Digest not found in crypto library"
        else
          let '(n, key) := EVP_BytesToKey cipher (string_bytes pass) in
          k <- Mem.write g.(enc_key) 0 key ;;
          if n =? 0 then Exit "Cannot generate key and IV"
          else
            Ok {| enc_table := g.(enc_table); dec_table := g.(dec_table);
                  enc_key := k; enc_key_len := n;
                  enc_iv_len := if (method =? RC4_MD5)%Z then 16
                                else cipher_iv_size cipher;
                  enc_method := method;
                  iv_cache := g.(iv_cache);
                  tmp_encrypt := g.(tmp_encrypt);
                  tmp_decrypt := g.(tmp_decrypt) |}
    end.

(** the loop [for (m = TABLE; m < CIPHER_NUM; m++)] of [enc_init] over
    the names from number [m] on: the value of [m] after it *)
Fixpoint find_method (name : string) (names : list string) (m : Z) : Z :=
  match names with
  | [] => m
  | n :: rest =>
      if String.eqb name n then m else find_method name rest (m + 1)%Z
  end.

(** [enc_init(pass, method)]: the method number it returns, the state,
    and the lines it logs with [LOGE]. *)
Definition enc_init (g : globals) (pass : string) (method : option string)
  : result (Z * globals * list string) :=
  let '(m, log) :=
    match method with
    | Some name =>
        let m := find_method name supported_ciphers TABLE in
        if (CIPHER_NUM <=? m)%Z
        then (TABLE, [("Invalid cipher name: " ++ name
                         ++ ", use table instead")%string])
        else (m, [])
    | None => (TABLE, [])
    end in
  if (m =? TABLE)%Z then
    g <- enc_table_init g pass ;;
    Ok (m, g, log)
  else
    g <- enc_key_init g m pass ;;
    Ok (m, g, log).

(** *** One-time authentication of the header *)

(** [uint8_t hash[ONETIMEAUTH_BYTES * 2]] after the library has written
    the digest of [msg] under [key] into it. *)
Definition hmac_into_hash (key msg : list Z) : result (list Z) :=
  Mem.write (repeat 0%Z (ONETIMEAUTH_BYTES * 2)) 0 (HMAC_SHA1 key msg).

(** the local [auth_key] of [ss_onetimeauth] and [ss_onetimeauth_verify],
    and the first [enc_iv_len + enc_key_len] bytes of it *)
Definition auth_key (g : globals) (iv_arg : list Z) : result (list Z) :=
  a <- Mem.memcpy (repeat 0%Z (MAX_IV_LENGTH + MAX_KEY_LENGTH)) 0
                  iv_arg 0 g.(enc_iv_len) ;;
  a <- Mem.memcpy a g.(enc_iv_len) g.(enc_key) 0 g.(enc_key_len) ;;
  Mem.read a 0 (g.(enc_iv_len) + g.(enc_key_len)).

Definition ss_onetimeauth (g : globals) (buf : buffer_t) (iv_arg : list Z)
           (capacity : nat) : result (Z * buffer_t) :=
  key <- auth_key g iv_arg ;;
  let buf := brealloc buf (ONETIMEAUTH_BYTES + buf.(len)) capacity in
  msg <- Mem.read buf.(array) 0 buf.(len) ;;
  hash <- hmac_into_hash key msg ;;
  a <- Mem.memcpy buf.(array) buf.(len) hash 0 ONETIMEAUTH_BYTES ;;
  Ok (0%Z, set_len (set_array buf a) (buf.(len) + ONETIMEAUTH_BYTES)).

(** [buf->len - ONETIMEAUTH_BYTES] wraps around below 10 bytes, and the
    library is then given a length far beyond the array: [Fault]. *)
Definition ss_onetimeauth_verify (g : globals) (buf : buffer_t)
           (iv_arg : list Z) : result Z :=
  key <- auth_key g iv_arg ;;
  if buf.(len) <? ONETIMEAUTH_BYTES then Fault
  else
    let len := buf.(len) - ONETIMEAUTH_BYTES in
    msg <- Mem.read buf.(array) 0 len ;;
    hash <- hmac_into_hash key msg ;;
    mac <- Mem.read buf.(array) len ONETIMEAUTH_BYTES ;;
    Ok (safe_memcmp mac hash ONETIMEAUTH_BYTES).

(** *** Chunk authentication *)

(** [htons((uint16_t)n)] and [htonl(c)] as the bytes in memory *)
Definition htons_bytes (n : Z) : list Z :=
  [ ((n mod 2 ^ 16) / 2 ^ 8)%Z; (n mod 2 ^ 8)%Z ].

Definition htonl_bytes (c : Z) : list Z :=
  [ ((c mod 2 ^ 32) / 2 ^ 24)%Z; ((c / 2 ^ 16) mod 2 ^ 8)%Z;
    ((c / 2 ^ 8) mod 2 ^ 8)%Z; (c mod 2 ^ 8)%Z ].

(** [ntohs(*((uint16_t *)p))] *)
Definition ntohs_bytes (p : list Z) : Z :=
  ((nth 0 p 0 mod 2 ^ 8) * 2 ^ 8 + nth 1 p 0 mod 2 ^ 8)%Z.

(** the local [key] of [ss_check_hash] and [ss_gen_hash], and the first
    [enc_iv_len + 4] bytes of it; a null context has no IV to read *)
Definition chunk_key (g : globals) (ctx : option enc_ctx_t) (counter : Z)
  : result (list Z) :=
  let ctx_iv := match ctx with Some c => c.(evp).(iv) | None => [] end in
  a <- Mem.memcpy (repeat 0%Z (MAX_IV_LENGTH + 4)) 0 ctx_iv 0 g.(enc_iv_len) ;;
  a <- Mem.write a g.(enc_iv_len) (htonl_bytes counter) ;;
  Mem.read a 0 (g.(enc_iv_len) + 4).

Record chunk_t := mkchunk
  { chunk_idx : nat;               (* uint32_t idx *)
    chunk_len : nat;               (* uint32_t len *)
    chunk_counter : Z;             (* uint32_t counter *)
    chunk_buf : buffer_t }.

(** [ss_gen_hash(buf, counter, ctx, capacity)]: the return value, the
    buffer and [*counter] after the call. *)
Definition ss_gen_hash (g : globals) (buf : buffer_t) (counter : Z)
           (ctx : option enc_ctx_t) (capacity : nat)
  : result (Z * buffer_t * Z) :=
  let blen := buf.(len) in
  let buf := brealloc buf (AUTH_BYTES + blen) capacity in
  key <- chunk_key g ctx counter ;;
  msg <- Mem.read buf.(array) 0 blen ;;
  hash <- hmac_into_hash key msg ;;
  a <- Mem.memmove buf.(array) AUTH_BYTES buf.(array) 0 blen ;;
  a <- Mem.memcpy a CLEN_BYTES hash 0 ONETIMEAUTH_BYTES ;;
  a <- Mem.write a 0 (htons_bytes (Z.of_nat blen)) ;;
  Ok (0%Z, set_len (set_array buf a) (blen + AUTH_BYTES),
      ((counter + 1) mod UINT32_MOD)%Z).

(** The variables of the loop of [ss_check_hash]. *)
Record check_state := mkcheck
  { cs_j : nat; cs_k : nat; cs_cidx : nat;
    cs_buf : buffer_t; cs_chunk : chunk_t }.

(** One round of the loop, for the value [i] of the loop variable; the
    flag tells that the MAC did not match ([return 0]). *)
Definition check_hash_round (g : globals) (ctx : option enc_ctx_t)
           (capacity blen i : nat) (st : check_state)
  : result (bool * check_state) :=
  let buf := st.(cs_buf) in
  let chunk := st.(cs_chunk) in
  b <- Mem.get buf.(array) st.(cs_k) ;;
  ca <- Mem.set chunk.(chunk_buf).(array) st.(cs_cidx) b ;;
  let cbuf := set_array chunk.(chunk_buf) ca in
  let cidx := S st.(cs_cidx) in
  let k := S st.(cs_k) in
  '(cbuf, clen) <-
    (if cidx =? CLEN_BYTES then
       hdr <- Mem.read cbuf.(array) 0 2 ;;
       let clen := Z.to_nat (ntohs_bytes hdr) in
       Ok (brealloc cbuf (clen + AUTH_BYTES) capacity, clen)
     else Ok (cbuf, chunk.(chunk_len))) ;;
  if cidx =? clen + AUTH_BYTES then
    key <- chunk_key g ctx chunk.(chunk_counter) ;;
    msg <- Mem.read cbuf.(array) AUTH_BYTES clen ;;
    hash <- hmac_into_hash key msg ;;
    mac <- Mem.read cbuf.(array) CLEN_BYTES ONETIMEAUTH_BYTES ;;
    if negb (safe_memcmp hash mac ONETIMEAUTH_BYTES =? 0)%Z then
      Ok (true,
          {| cs_j := st.(cs_j); cs_k := k; cs_cidx := cidx; cs_buf := buf;
             cs_chunk := {| chunk_idx := chunk.(chunk_idx); chunk_len := clen;
                            chunk_counter := chunk.(chunk_counter);
                            chunk_buf := cbuf |} |})
    else
      a <- Mem.memmove buf.(array) (st.(cs_j) + clen) buf.(array) k
                       (blen - i - 1) ;;
      a <- Mem.memcpy a st.(cs_j) cbuf.(array) AUTH_BYTES clen ;;
      Ok (false,
          {| cs_j := st.(cs_j) + clen; cs_k := st.(cs_j) + clen; cs_cidx := 0;
             cs_buf := set_array buf a;
             cs_chunk := {| chunk_idx := chunk.(chunk_idx); chunk_len := clen;
                            chunk_counter := ((chunk.(chunk_counter) + 1)
                                              mod UINT32_MOD)%Z;
                            chunk_buf := cbuf |} |})
  else
    Ok (false,
        {| cs_j := st.(cs_j); cs_k := k; cs_cidx := cidx; cs_buf := buf;
           cs_chunk := {| chunk_idx := chunk.(chunk_idx); chunk_len := clen;
                          chunk_counter := chunk.(chunk_counter);
                          chunk_buf := cbuf |} |}).

(** [n] rounds of the loop from [i] on: the value returned from inside
    the loop (0) or 1 when the loop runs to its end. *)
Fixpoint check_hash_loop (g : globals) (ctx : option enc_ctx_t)
         (capacity blen : nat) (n i : nat) (st : check_state)
  : result (Z * check_state) :=
  match n with
  | O => Ok (1%Z, st)
  | S n' =>
      '(bad, st') <- check_hash_round g ctx capacity blen i st ;;
      if bad : bool then Ok (0%Z, st')
      else check_hash_loop g ctx capacity blen n' (S i) st'
  end.

(** [ss_check_hash(buf, chunk, ctx, capacity)]: the return value, the
    buffer and the chunk state after the call. *)
Definition ss_check_hash (g : globals) (buf : buffer_t) (chunk : chunk_t)
           (ctx : option enc_ctx_t) (capacity : nat)
  : result (Z * buffer_t * chunk_t) :=
  let blen := buf.(len) in
  let cbuf := brealloc chunk.(chunk_buf) (chunk.(chunk_len) + blen) capacity in
  let buf := brealloc buf (chunk.(chunk_len) + blen) capacity in
  let st := {| cs_j := 0; cs_k := 0; cs_cidx := chunk.(chunk_idx);
               cs_buf := buf;
               cs_chunk := {| chunk_idx := chunk.(chunk_idx);
                              chunk_len := chunk.(chunk_len);
                              chunk_counter := chunk.(chunk_counter);
                              chunk_buf := cbuf |} |} in
  '(ret, st) <- check_hash_loop g ctx capacity blen blen 0 st ;;
  if (ret =? 0)%Z then Ok (0%Z, st.(cs_buf), st.(cs_chunk))
  else
    Ok (1%Z, set_len st.(cs_buf) st.(cs_j),
        {| chunk_idx := st.(cs_cidx);
           chunk_len := st.(cs_chunk).(chunk_len);
           chunk_counter := st.(cs_chunk).(chunk_counter);
           chunk_buf := st.(cs_chunk).(chunk_buf) |}).

(** *** Datagrams *)

(** [ss_encrypt_all(plain, method, auth, capacity)]: the return value and
    the state after the call.  [tmp] is the static buffer of the function;
    the locals [evp] and [iv] are taken as zeroed, as the context of
    [enc_ctx_init] and the local [iv] of [ss_decrypt] are. *)
Definition ss_encrypt_all (g : globals) (tmp plain : buffer_t) (method : Z)
           (auth : Z) (capacity : nat) (rnd : nat -> Z)
  : result (Z * globals * buffer_t * buffer_t) :=
  if (TABLE <? method)%Z then
    let zeroed := {| evp_ctx := EVP_zeroed; iv := repeat 0%Z MAX_IV_LENGTH |} in
    '(g, e) <- cipher_context_init g zeroed method 1 ;;
    let iv_len := g.(enc_iv_len) in
    let cipher := brealloc tmp (iv_len + plain.(len)) capacity in
    let cipher := set_len cipher plain.(len) in
    iv_local <- Mem.write (repeat 0%Z MAX_IV_LENGTH) 0 (rand_bytes rnd iv_len) ;;
    e <- cipher_context_set_iv g e iv_local iv_len 1 ;;
    a <- Mem.memcpy cipher.(array) 0 iv_local 0 iv_len ;;
    let cipher := set_array cipher a in
    '(plain, cipher) <-
      (if negb (auth =? 0)%Z then
         '(_, plain) <- ss_onetimeauth g plain iv_local capacity ;;
         Ok (plain, set_len cipher plain.(len))
       else Ok (plain, cipher)) ;;
    '(err, cipher) <-
      (if (SALSA20 <=? method)%Z then
         m <- Mem.read plain.(array) 0 plain.(len) ;;
         a <- write_opt cipher.(array) iv_len
                        (crypto_stream_xor_ic m iv_local 0 g.(enc_key) method) ;;
         Ok (1%Z, set_array cipher a)
       else
         input <- Mem.read plain.(array) 0 plain.(len) ;;
         let '(err, _, out) := EVP_CipherUpdate e.(evp_ctx) input in
         a <- Mem.write cipher.(array) iv_len out ;;
         Ok (err, set_len (set_array cipher a) (length out))) ;;
    if (err =? 0)%Z then Ok ((-1)%Z, g, cipher, bfree plain)
    else
      let plain := brealloc plain (iv_len + cipher.(len)) capacity in
      a <- Mem.memcpy plain.(array) 0 cipher.(array) 0 (iv_len + cipher.(len)) ;;
      Ok (0%Z, g, cipher, set_len (set_array plain a) (iv_len + cipher.(len)))
  else
    plain <- table_crypt g.(enc_table) plain ;;
    Ok (0%Z, g, tmp, plain).

(** [ss_decrypt_all(cipher, method, auth, capacity)]; [tmp] is the static
    buffer of the function.  [plain->array[0]] is read only when [auth] is
    0, as [||] has it. *)
Definition ss_decrypt_all (g : globals) (tmp cipher : buffer_t) (method : Z)
           (auth : Z) (capacity : nat)
  : result (Z * globals * buffer_t * buffer_t) :=
  if (TABLE <? method)%Z then
    let iv_len := g.(enc_iv_len) in
    if cipher.(len) <=? iv_len then Ok ((-1)%Z, g, tmp, cipher)
    else
      let zeroed := {| evp_ctx := EVP_zeroed; iv := repeat 0%Z MAX_IV_LENGTH |} in
      '(g, e) <- cipher_context_init g zeroed method 0 ;;
      let plain := brealloc tmp cipher.(len) capacity in
      let plain := set_len plain (cipher.(len) - iv_len) in
      iv_local <- Mem.memcpy (repeat 0%Z MAX_IV_LENGTH) 0 cipher.(array) 0 iv_len ;;
      e <- cipher_context_set_iv g e iv_local iv_len 0 ;;
      '(ret, plain) <-
        (if (SALSA20 <=? method)%Z then
           m <- Mem.read cipher.(array) iv_len (cipher.(len) - iv_len) ;;
           a <- write_opt plain.(array) 0
                          (crypto_stream_xor_ic m iv_local 0 g.(enc_key) method) ;;
           Ok (1%Z, set_array plain a)
         else
           input <- Mem.read cipher.(array) iv_len (cipher.(len) - iv_len) ;;
           let '(err, _, out) := EVP_CipherUpdate e.(evp_ctx) input in
           a <- Mem.write plain.(array) 0 out ;;
           Ok (err, set_len (set_array plain a) (length out))) ;;
      flagged <- (if negb (auth =? 0)%Z then Ok true
                  else
                    b <- Mem.get plain.(array) 0 ;;
                    Ok (negb (Z.land b ONETIMEAUTH_FLAG =? 0)%Z)) ;;
      '(ret, plain) <-
        (if flagged : bool then
           if ONETIMEAUTH_BYTES <? plain.(len) then
             v <- ss_onetimeauth_verify g plain iv_local ;;
             if (v =? 0)%Z
             then Ok (1%Z, set_len plain (plain.(len) - ONETIMEAUTH_BYTES))
             else Ok (0%Z, plain)
           else Ok (0%Z, plain)
         else Ok (ret, plain)) ;;
      if (ret =? 0)%Z then Ok ((-1)%Z, g, plain, bfree cipher)
      else
        let cipher := brealloc cipher plain.(len) capacity in
        a <- Mem.memcpy cipher.(array) 0 plain.(array) 0 plain.(len) ;;
        Ok (0%Z, g, plain, set_len (set_array cipher a) plain.(len))
  else
    cipher <- table_crypt g.(dec_table) cipher ;;
    Ok (0%Z, g, tmp, cipher).

End WithBackend.

End Encrypt.

(** ** server.c *)

Module Server.

Import Encrypt.

Definition BUF_SIZE : nat := 2048.

(** *** What the sockets and the resolver answer

    The system calls are not part of the program; what they return is
    given to each callback with the event that wakes it. *)

(** [recv]: the bytes the socket has ready ([r] is their number, cut to the
    size asked for: 0 is an orderly shutdown), or -1 with [errno] being
    [EAGAIN]/[EWOULDBLOCK] or not. *)
Inductive recv_result :=
| Recv (bytes : list Z)
| RecvFail (eagain : bool).

(** [send]: the number of bytes accepted, or -1 with [errno]. *)
Inductive send_result :=
| Sent (s : nat)
| SendFail (eagain : bool).

(** [sendto(..., MSG_FASTOPEN, ...)] in [connect_to_remote] *)
Inductive tfo_result :=
| TfoSent (s : nat)
| TfoInProgress                  (* EINPROGRESS, EAGAIN, EWOULDBLOCK *)
| TfoNotSupported                (* EOPNOTSUPP, EPROTONOSUPPORT, ENOPROTOOPT *)
| TfoError.

(** [socket] failing, or the socket with what the fast-open send returns *)
Inductive connect_result :=
| SocketFailed
| Connecting (tfo : tfo_result).

(** The address a connection is opened to: the address family (4 or 6; 0
    for a name still to be resolved), the address or name bytes and the
    two port bytes as they stand in the header. *)
Record target := mktarget { family : Z; host : list Z; port : list Z }.

(** *** Connection records *)

Section WithBackend.

Context {B : Backend}.

(** [remote_t] with its two watchers *)
Record remote_t := mkremote
  { rbuf : buffer_t;
    r_recv_io : bool;              (* remote->recv_ctx->io is active *)
    r_send_io : bool;              (* remote->send_ctx->io is active *)
    connected : Z;                 (* remote->send_ctx->connected *)
    peer : target }.

(** [server_t] with its watchers *)
Record server_t := mkserver
  { buf : buffer_t;
    stage : Z;
    auth : Z;
    chunk : chunk_t;
    e_ctx : option enc_ctx_t;
    d_ctx : option enc_ctx_t;
    recv_io : bool;                (* server->recv_ctx->io is active *)
    send_io : bool;                (* server->send_ctx->io is active *)
    timer : bool;                  (* server->recv_ctx->watcher is active *)
    query : option target }.       (* server->query *)

(** One accepted connection and the process state it runs in.  The
    pointers [server->remote] and [remote->server] are non-null exactly
    when both records exist: [free_server] and [free_remote] reset the
    pointer of the other side.  The traffic counters [tx] and [rx] and
    the log are left out: nothing is decided on them. *)
Record world := mkworld
  { g : globals;
    cfg_auth : Z;                  (* static int auth *)
    fast_open : bool;              (* static int fast_open *)
    server : option server_t;
    remote : option remote_t;
    (** the bytes the two sockets have accepted from [send] so far *)
    to_client : list Z;
    to_remote : list Z }.

Definition set_g (w : world) (g' : globals) : world :=
  {| g := g'; cfg_auth := w.(cfg_auth); fast_open := w.(fast_open);
     server := w.(server); remote := w.(remote);
     to_client := w.(to_client); to_remote := w.(to_remote) |}.

Definition set_server (w : world) (s : option server_t) : world :=
  {| g := w.(g); cfg_auth := w.(cfg_auth); fast_open := w.(fast_open);
     server := s; remote := w.(remote);
     to_client := w.(to_client); to_remote := w.(to_remote) |}.

Definition set_remote (w : world) (r : option remote_t) : world :=
  {| g := w.(g); cfg_auth := w.(cfg_auth); fast_open := w.(fast_open);
     server := w.(server); remote := r;
     to_client := w.(to_client); to_remote := w.(to_remote) |}.

Definition set_fast_open (w : world) (b : bool) : world :=
  {| g := w.(g); cfg_auth := w.(cfg_auth); fast_open := b;
     server := w.(server); remote := w.(remote);
     to_client := w.(to_client); to_remote := w.(to_remote) |}.

(** the socket of the client accepts [bytes] *)
Definition emit_client (w : world) (bytes : list Z) : world :=
  {| g := w.(g); cfg_auth := w.(cfg_auth); fast_open := w.(fast_open);
     server := w.(server); remote := w.(remote);
     to_client := w.(to_client) ++ bytes; to_remote := w.(to_remote) |}.

(** the socket of the target accepts [bytes] *)
Definition emit_remote (w : world) (bytes : list Z) : world :=
  {| g := w.(g); cfg_auth := w.(cfg_auth); fast_open := w.(fast_open);
     server := w.(server); remote := w.(remote);
     to_client := w.(to_client); to_remote := w.(to_remote) ++ bytes |}.

Definition close_and_free_server (w : world) : world := set_server w None.
Definition close_and_free_remote (w : world) : world := set_remote w None.
Definition close_both (w : world) : world :=
  close_and_free_server (close_and_free_remote w).

Definition set_buf (s : server_t) (b : buffer_t) : server_t :=
  {| buf := b; stage := s.(stage); auth := s.(auth); chunk := s.(chunk);
     e_ctx := s.(e_ctx); d_ctx := s.(d_ctx); recv_io := s.(recv_io);
     send_io := s.(send_io); timer := s.(timer); query := s.(query) |}.

Definition set_stage (s : server_t) (n : Z) : server_t :=
  {| buf := s.(buf); stage := n; auth := s.(auth); chunk := s.(chunk);
     e_ctx := s.(e_ctx); d_ctx := s.(d_ctx); recv_io := s.(recv_io);
     send_io := s.(send_io); timer := s.(timer); query := s.(query) |}.

Definition set_auth (s : server_t) (n : Z) : server_t :=
  {| buf := s.(buf); stage := s.(stage); auth := n; chunk := s.(chunk);
     e_ctx := s.(e_ctx); d_ctx := s.(d_ctx); recv_io := s.(recv_io);
     send_io := s.(send_io); timer := s.(timer); query := s.(query) |}.

Definition set_chunk (s : server_t) (c : chunk_t) : server_t :=
  {| buf := s.(buf); stage := s.(stage); auth := s.(auth); chunk := c;
     e_ctx := s.(e_ctx); d_ctx := s.(d_ctx); recv_io := s.(recv_io);
     send_io := s.(send_io); timer := s.(timer); query := s.(query) |}.

Definition set_e_ctx (s : server_t) (c : option enc_ctx_t) : server_t :=
  {| buf := s.(buf); stage := s.(stage); auth := s.(auth); chunk := s.(chunk);
     e_ctx := c; d_ctx := s.(d_ctx); recv_io := s.(recv_io);
     send_io := s.(send_io); timer := s.(timer); query := s.(query) |}.

Definition set_d_ctx (s : server_t) (c : option enc_ctx_t) : server_t :=
  {| buf := s.(buf); stage := s.(stage); auth := s.(auth); chunk := s.(chunk);
     e_ctx := s.(e_ctx); d_ctx := c; recv_io := s.(recv_io);
     send_io := s.(send_io); timer := s.(timer); query := s.(query) |}.

(** [ev_io_start] / [ev_io_stop] on [server->recv_ctx->io] *)
Definition set_recv_io (s : server_t) (b : bool) : server_t :=
  {| buf := s.(buf); stage := s.(stage); auth := s.(auth); chunk := s.(chunk);
     e_ctx := s.(e_ctx); d_ctx := s.(d_ctx); recv_io := b;
     send_io := s.(send_io); timer := s.(timer); query := s.(query) |}.

(** [ev_io_start] / [ev_io_stop] on [server->send_ctx->io] *)
Definition set_send_io (s : server_t) (b : bool) : server_t :=
  {| buf := s.(buf); stage := s.(stage); auth := s.(auth); chunk := s.(chunk);
     e_ctx := s.(e_ctx); d_ctx := s.(d_ctx); recv_io := s.(recv_io);
     send_io := b; timer := s.(timer); query := s.(query) |}.

Definition set_query (s : server_t) (q : option target) : server_t :=
  {| buf := s.(buf); stage := s.(stage); auth := s.(auth); chunk := s.(chunk);
     e_ctx := s.(e_ctx); d_ctx := s.(d_ctx); recv_io := s.(recv_io);
     send_io := s.(send_io); timer := s.(timer); query := q |}.

Definition set_rbuf (r : remote_t) (b : buffer_t) : remote_t :=
  {| rbuf := b; r_recv_io := r.(r_recv_io); r_send_io := r.(r_send_io);
     connected := r.(connected); peer := r.(peer) |}.

(** [ev_io_start] / [ev_io_stop] on [remote->recv_ctx->io] *)
Definition set_r_recv_io (r : remote_t) (b : bool) : remote_t :=
  {| rbuf := r.(rbuf); r_recv_io := b; r_send_io := r.(r_send_io);
     connected := r.(connected); peer := r.(peer) |}.

(** [ev_io_start] / [ev_io_stop] on [remote->send_ctx->io] *)
Definition set_r_send_io (r : remote_t) (b : bool) : remote_t :=
  {| rbuf := r.(rbuf); r_recv_io := r.(r_recv_io); r_send_io := b;
     connected := r.(connected); peer := r.(peer) |}.

Definition set_connected (r : remote_t) (c : Z) : remote_t :=
  {| rbuf := r.(rbuf); r_recv_io := r.(r_recv_io); r_send_io := r.(r_send_io);
     connected := c; peer := r.(peer) |}.

(** [new_remote(fd)] *)
Definition new_remote (t : target) : remote_t :=
  {| rbuf := balloc BUF_SIZE; r_recv_io := false; r_send_io := false;
     connected := 0; peer := t |}.

(** [new_server(fd, listener)]; [rnd] is the random stream the encrypt
    IV is drawn from. *)
Definition new_server (g0 : globals) (method : Z) (rnd : nat -> Z)
  : result (globals * server_t) :=
  '(g1, e, d) <-
    (if (method =? 0)%Z then Ok (g0, None, None)
     else
       '(g1, e) <- enc_ctx_init g0 method 1 rnd ;;
       '(g2, d) <- enc_ctx_init g1 method 0 rnd ;;
       Ok (g2, Some e, Some d)) ;;
  Ok (g1,
      {| buf := balloc BUF_SIZE; stage := 0; auth := 0;
         chunk := {| chunk_idx := 0; chunk_len := 0; chunk_counter := 0;
                     chunk_buf := mkbuffer 0 0 0 [] |};
         e_ctx := e; d_ctx := d;
         recv_io := false; send_io := false; timer := false;
         query := None |}).

(** [accept_cb] for a connection that is let in: the record is made and
    its read watcher and timer are started. *)
Definition accept_cb (g0 : globals) (auth0 : Z) (fast_open0 : bool)
           (method : Z) (rnd : nat -> Z) : result world :=
  '(g1, s) <- new_server g0 method rnd ;;
  Ok {| g := g1; cfg_auth := auth0; fast_open := fast_open0;
        server := Some {| buf := s.(buf); stage := s.(stage);
                          auth := s.(auth); chunk := s.(chunk);
                          e_ctx := s.(e_ctx); d_ctx := s.(d_ctx);
                          recv_io := true; send_io := s.(send_io);
                          timer := true; query := s.(query) |};
        remote := None; to_client := []; to_remote := [] |}.

(** *** Connecting to the target *)

(** [connect_to_remote(res, server)]: the new [remote_t], or null when
    [socket] fails.  With fast open the first bytes of [server->buf] go
    out with the connection. *)
Definition connect_to_remote (w : world) (s : server_t) (t : target)
           (c : connect_result) : world * server_t * option remote_t :=
  match c with
  | SocketFailed => (w, s, None)
  | Connecting tfo =>
      let remote := new_remote t in
      if w.(fast_open) then
        match tfo with
        | TfoSent n =>
            let b := s.(buf) in
            let data := firstn n (firstn b.(len) (skipn b.(idx) b.(array))) in
            let b' := if n <=? b.(len)
                      then set_len (set_idx b (b.(idx) + n)) (b.(len) - n)
                      else set_len (set_idx b 0) 0 in
            (emit_remote w data, set_buf s b', Some remote)
        | TfoInProgress => (w, s, Some remote)
        | TfoNotSupported => (set_fast_open w false, s, Some remote)
        | TfoError => (w, s, Some remote)
        end
      else (w, s, Some remote)
  end.

(** the hand-over of what is left in [server->buf] to [remote->buf],
    read from offset [from] of the array *)
Definition hand_over (s : server_t) (r : remote_t) (from : nat)
  : result (server_t * remote_t) :=
  if 0 <? s.(buf).(len) then
    a <- Mem.memcpy r.(rbuf).(array) 0 s.(buf).(array) from s.(buf).(len) ;;
    Ok (set_buf s (set_idx (set_len s.(buf) 0) 0),
        set_rbuf r (set_idx (set_len (set_array r.(rbuf) a) s.(buf).(len)) 0))
  else Ok (s, r).

(** *** The header *)

Definition parse_header_len (atyp : Z) (data : list Z) (offset : nat)
  : result nat :=
  let t := Z.land atyp ADDRTYPE_MASK in
  if (t =? 1)%Z then Ok (4 + 2)
  else if (t =? 3)%Z then
    name_len <- Mem.get data offset ;;
    Ok (Z.to_nat (name_len mod 256)%Z + 1 + 2)
  else if (t =? 4)%Z then Ok (16 + 2)
  else Ok 2.

(** The address part of the header: null when the header is too short
    for its address type, otherwise the offset after the address, the
    flag [need_query], the family and the address or name bytes.  [ip]
    is what [cork_ip_init] answers for a name: -1, or the IP version of
    a literal address. *)
Definition parse_address (b : buffer_t) (atyp : Z) (ip : Z)
  : result (option (nat * bool * Z * list Z)) :=
  let t := Z.land atyp ADDRTYPE_MASK in
  if (t =? 1)%Z then
    if 4 + 3 <=? b.(len) then
      addr <- Mem.read b.(array) 1 4 ;;
      Ok (Some (1 + 4, false, 4%Z, addr))
    else Ok None
  else if (t =? 3)%Z then
    n <- Mem.get b.(array) 1 ;;
    let name_len := Z.to_nat (n mod 256)%Z in
    if name_len + 4 <=? b.(len) then
      name <- Mem.read b.(array) 2 name_len ;;
      if (ip =? -1)%Z then Ok (Some (1 + (name_len + 1), true, 0%Z, name))
      else Ok (Some (1 + (name_len + 1), false, ip, name))
    else Ok None
  else if (t =? 4)%Z then
    if 16 + 3 <=? b.(len) then
      addr <- Mem.read b.(array) 1 16 ;;
      Ok (Some (1 + 16, false, 6%Z, addr))
    else Ok None
  else Ok (Some (1, false, 0%Z, [])).

Definition ctx_iv (c : option enc_ctx_t) : list Z :=
  match c with
  | Some c => c.(evp).(iv)
  | None => []
  end.

(** The one-time authentication of the header in stage 0: null when the
    connection is to be closed, otherwise the connection record, with
    [auth] set when the MAC was asked for and found right. *)
Definition header_auth (w : world) (s : server_t) (atyp : Z)
  : result (option server_t) :=
  if (negb (w.(cfg_auth) =? 0) || negb (Z.land atyp ONETIMEAUTH_FLAG =? 0))%Z
  then
    header_len <- parse_header_len atyp s.(buf).(array) 1 ;;
    if s.(buf).(len) <? 1 + header_len + ONETIMEAUTH_BYTES then Ok None
    else
      v <- ss_onetimeauth_verify w.(g)
             (set_len s.(buf) (1 + header_len + ONETIMEAUTH_BYTES))
             (ctx_iv s.(d_ctx)) ;;
      if negb (v =? 0)%Z then Ok None
      else Ok (Some (set_auth s 1))
  else Ok (Some s).

(** Stage 0 of [server_recv_cb] from the header on, [server->buf] holding
    the decrypted bytes. *)
Definition server_handshake (w : world) (s : server_t) (ip : Z)
           (c : connect_result) : result world :=
  atyp <- Mem.get s.(buf).(array) 0 ;;
  checked <- header_auth w s atyp ;;
  match checked with
  | None => Ok (close_and_free_server w)
  | Some s =>
      parsed <- parse_address s.(buf) atyp ip ;;
      match parsed with
      | None => Ok (close_and_free_server w)
      | Some (offset, need_query, fam, addr) =>
          if offset =? 1 then Ok (close_and_free_server w)
          else
            port_bytes <- Mem.read s.(buf).(array) offset 2 ;;
            let offset := offset + 2 in
            let offset := if negb (s.(auth) =? 0)%Z
                          then offset + ONETIMEAUTH_BYTES else offset in
            if s.(buf).(len) <? offset then Ok (close_and_free_server w)
            else
              let n := s.(buf).(len) - offset in
              a <- Mem.memmove s.(buf).(array) 0 s.(buf).(array) offset n ;;
              let s := set_buf s (set_len (set_array s.(buf) a) n) in
              hashed <-
                (if negb (s.(auth) =? 0)%Z then
                   '(ret, b, ch) <- ss_check_hash w.(g) s.(buf) s.(chunk)
                                                 s.(d_ctx) BUF_SIZE ;;
                   Ok (negb (ret =? 0)%Z, set_chunk (set_buf s b) ch)
                 else Ok (true, s)) ;;
              let '(ok, s) := hashed in
              if negb ok then Ok (close_and_free_server w)
              else
                let t := {| family := fam; host := addr; port := port_bytes |} in
                if negb need_query then
                  let '(w, s, r) := connect_to_remote w s t c in
                  match r with
                  | None => Ok (close_and_free_server w)
                  | Some r =>
                      '(s, r) <- hand_over s r 0 ;;
                      let s := set_recv_io (set_stage s 4) false in
                      let r := set_r_send_io r true in
                      Ok (set_remote (set_server w (Some s)) (Some r))
                  end
                else
                  let s := set_recv_io (set_query (set_stage s 4) (Some t))
                                       false in
                  Ok (set_server w (Some s))
      end
  end.

(** *** The callbacks *)

(** what [send(fd, array + from, len, 0)] is given *)
Definition offered (b : buffer_t) (from : nat) : list Z :=
  firstn b.(len) (skipn from b.(array)).

(** Stage 5 of [server_recv_cb] after the decryption, [remote->buf]
    holding the decrypted bytes. *)
Definition server_relay (w : world) (s : server_t) (r : remote_t)
           (sv : send_result) : result world :=
  hashed <-
    (if negb (s.(auth) =? 0)%Z then
       '(ret, b, ch) <- ss_check_hash w.(g) r.(rbuf) s.(chunk) s.(d_ctx)
                                     BUF_SIZE ;;
       Ok (negb (ret =? 0)%Z, set_chunk s ch, set_rbuf r b)
     else Ok (true, s, r)) ;;
  let '(ok, s, r) := hashed in
  if negb ok then Ok (close_both w)
  else
    match sv with
    | SendFail eagain =>
        if eagain then
          Ok (set_remote
                (set_server w (Some (set_recv_io s false)))
                (Some (set_r_send_io (set_rbuf r (set_idx r.(rbuf) 0)) true)))
        else Ok (close_both w)
    | Sent n =>
        let w := emit_remote w (firstn n (offered r.(rbuf) 0)) in
        if n <? r.(rbuf).(len) then
          let b := set_idx (set_len r.(rbuf) (r.(rbuf).(len) - n)) n in
          Ok (set_remote
                (set_server w (Some (set_recv_io s false)))
                (Some (set_r_send_io (set_rbuf r b) true)))
        else Ok (set_remote (set_server w (Some s)) (Some r))
    end.

(** [server_recv_cb]: the client socket is readable.  [rv] is what
    [recv] returns, [sv] what [send] returns if it is called, [ip] and
    [c] what [cork_ip_init] and [connect_to_remote]'s system calls
    return if they are called.

    When [ss_decrypt] returns -1 it has called [bfree] on [buf], which
    gives the array to [ss_free]; [ss_free] is a function (utils.h) that
    frees the array and sets its own parameter to NULL, so the pointer
    stays in the buffer.  The callback then closes both sides, and
    [free_server] (stage 0, [buf] is [server->buf]) or [free_remote]
    (later stages, [buf] is [remote->buf]) calls [bfree] on that buffer
    again: the array is freed a second time, [Fault].  [ss_encrypt] calls
    no [bfree], and [remote_recv_cb] closes both sides when it fails. *)
Definition server_recv_cb (w : world) (rv : recv_result) (sv : send_result)
           (ip : Z) (c : connect_result) : result world :=
  match w.(server) with
  | None => Fault
  | Some s =>
      if (s.(stage) =? 0)%Z then
        match rv with
        | RecvFail eagain => if eagain then Ok w else Ok (close_both w)
        | Recv bytes =>
            let r := Nat.min (length bytes) (BUF_SIZE - s.(buf).(len)) in
            if r =? 0 then Ok (close_both w)
            else
              a <- Mem.write s.(buf).(array) s.(buf).(len) (firstn r bytes) ;;
              let b := set_len (set_array s.(buf) a) (s.(buf).(len) + r) in
              if b.(len) <=? w.(g).(enc_iv_len) then
                Ok (set_server w (Some (set_buf s b)))
              else
                '(err, g', b, d) <- ss_decrypt w.(g) b s.(d_ctx) BUF_SIZE ;;
                let w := set_g w g' in
                let s := set_d_ctx (set_buf s b) d in
                if negb (err =? 0)%Z then Fault (* [server->buf] freed twice *)
                else server_handshake (set_server w (Some s)) s ip c
        end
      else
        match w.(remote) with
        | None => Fault
        | Some rm =>
            match rv with
            | RecvFail eagain => if eagain then Ok w else Ok (close_both w)
            | Recv bytes =>
                let r := Nat.min (length bytes) BUF_SIZE in
                if r =? 0 then Ok (close_both w)
                else
                  a <- Mem.write rm.(rbuf).(array) 0 (firstn r bytes) ;;
                  let b := set_len (set_array rm.(rbuf) a) r in
                  '(err, g', b, d) <- ss_decrypt w.(g) b s.(d_ctx) BUF_SIZE ;;
                  let w := set_g w g' in
                  let s := set_d_ctx s d in
                  let rm := set_rbuf rm b in
                  if negb (err =? 0)%Z then Fault (* [remote->buf] freed twice *)
                  else if (s.(stage) =? 5)%Z then server_relay w s rm sv
                  else Exit "server context error"
            end
        end
  end.

(** [server_send_cb]: the client socket is writable. *)
Definition server_send_cb (w : world) (sv : send_result) : result world :=
  match w.(server) with
  | None => Fault
  | Some s =>
      match w.(remote) with
      | None => Ok (close_and_free_server w)
      | Some r =>
          if s.(buf).(len) =? 0 then Ok (close_both w)
          else
            match sv with
            | SendFail eagain => if eagain then Ok w else Ok (close_both w)
            | Sent n =>
                let w := emit_client w
                           (firstn n (offered s.(buf) s.(buf).(idx))) in
                if n <? s.(buf).(len) then
                  let b := set_idx (set_len s.(buf) (s.(buf).(len) - n))
                                   (s.(buf).(idx) + n) in
                  Ok (set_server w (Some (set_buf s b)))
                else
                  let b := set_idx (set_len s.(buf) 0) 0 in
                  Ok (set_remote
                        (set_server w (Some (set_send_io (set_buf s b) false)))
                        (Some (set_r_recv_io r true)))
            end
      end
  end.

(** [remote_recv_cb]: the target socket is readable. *)
Definition remote_recv_cb (w : world) (rv : recv_result) (sv : send_result)
  : result world :=
  match w.(remote) with
  | None => Fault
  | Some r =>
      match w.(server) with
      | None => Ok (close_and_free_remote w)
      | Some s =>
          match rv with
          | RecvFail eagain => if eagain then Ok w else Ok (close_both w)
          | Recv bytes =>
              let n := Nat.min (length bytes) BUF_SIZE in
              if n =? 0 then Ok (close_both w)
              else
                a <- Mem.write s.(buf).(array) 0 (firstn n bytes) ;;
                let b := set_len (set_array s.(buf) a) n in
                '(err, g', b, e) <- ss_encrypt w.(g) b s.(e_ctx) BUF_SIZE ;;
                let w := set_g w g' in
                let s := set_e_ctx (set_buf s b) e in
                if negb (err =? 0)%Z then Ok (close_both w)
                else
                  match sv with
                  | SendFail eagain =>
                      if eagain then
                        Ok (set_remote
                              (set_server w
                                 (Some (set_send_io
                                          (set_buf s (set_idx s.(buf) 0)) true)))
                              (Some (set_r_recv_io r false)))
                      else Ok (close_both w)
                  | Sent k =>
                      let w := emit_client w (firstn k (offered s.(buf) 0)) in
                      if k <? s.(buf).(len) then
                        let b := set_idx (set_len s.(buf) (s.(buf).(len) - k)) k in
                        Ok (set_remote
                              (set_server w
                                 (Some (set_send_io (set_buf s b) true)))
                              (Some (set_r_recv_io r false)))
                      else Ok (set_server w (Some s))
                  end
          end
      end
  end.

(** [remote_send_cb]: the target socket is writable.  [peer_ok] tells
    that [getpeername] returns 0. *)
Definition remote_send_cb (w : world) (peer_ok : bool) (sv : send_result)
  : result world :=
  match w.(remote) with
  | None => Fault
  | Some r =>
      match w.(server) with
      | None => Ok (close_and_free_remote w)
      | Some s =>
          let go (r : remote_t) : result world :=
            if r.(rbuf).(len) =? 0 then Ok (close_both w)
            else
              match sv with
              | SendFail eagain =>
                  if eagain then Ok (set_remote w (Some r))
                  else Ok (close_both w)
              | Sent n =>
                  let w := emit_remote w
                             (firstn n (offered r.(rbuf) r.(rbuf).(idx))) in
                  if n <? r.(rbuf).(len) then
                    let b := set_idx (set_len r.(rbuf) (r.(rbuf).(len) - n))
                                     (r.(rbuf).(idx) + n) in
                    Ok (set_remote w (Some (set_rbuf r b)))
                  else
                    let b := set_idx (set_len r.(rbuf) 0) 0 in
                    let r := set_r_send_io (set_rbuf r b) false in
                    let s := set_recv_io s true in
                    if (s.(stage) =? 4)%Z then
                      Ok (set_remote (set_server w (Some (set_stage s 5)))
                                     (Some (set_r_recv_io r true)))
                    else Ok (set_remote (set_server w (Some s)) (Some r))
              end in
          if (r.(connected) =? 0)%Z then
            if peer_ok then
              let r := set_connected r 1 in
              if r.(rbuf).(len) =? 0 then
                Ok (set_remote
                      (set_server w (Some (set_recv_io (set_stage s 5) true)))
                      (Some (set_r_recv_io (set_r_send_io r false) true)))
              else go r
            else Ok (close_both w)
          else go r
      end
  end.

(** [server_timeout_cb]: the idle timer fires. *)
Definition server_timeout_cb (w : world) : result world :=
  Ok (close_both w).

(** [server_resolve_cb]: the resolver answers; [resolved] tells that the
    address is not null, and carries its family and bytes. *)
Definition server_resolve_cb (w : world) (resolved : option (Z * list Z))
           (c : connect_result) : result world :=
  match w.(server) with
  | None => Fault
  | Some s =>
      let q := s.(query) in
      let s := set_query s None in
      match resolved with
      | None => Ok (close_and_free_server w)
      | Some (fam, addr) =>
          let t := {| family := fam; host := addr;
                      port := match q with Some t => t.(port) | None => [] end |} in
          let '(w, s, r) := connect_to_remote w s t c in
          match r with
          | None => Ok (close_and_free_server w)
          | Some r =>
              '(s, r) <- hand_over s r s.(buf).(idx) ;;
              Ok (set_remote (set_server w (Some s))
                             (Some (set_r_send_io r true)))
          end
      end
  end.

(** *** The event loop *)

Inductive event :=
| ServerRecv (rv : recv_result) (sv : send_result) (ip : Z) (c : connect_result)
| ServerSend (sv : send_result)
| RemoteRecv (rv : recv_result) (sv : send_result)
| RemoteSend (peer_ok : bool) (sv : send_result)
| ServerTimeout
| ServerResolve (resolved : option (Z * list Z)) (c : connect_result).

(** libev calls a callback only for a watcher that is active; the
    resolver calls back only for a query that is pending. *)
Definition enabled (w : world) (e : event) : bool :=
  match e with
  | ServerRecv _ _ _ _ =>
      match w.(server) with Some s => s.(recv_io) | None => false end
  | ServerSend _ =>
      match w.(server) with Some s => s.(send_io) | None => false end
  | RemoteRecv _ _ =>
      match w.(remote) with Some r => r.(r_recv_io) | None => false end
  | RemoteSend _ _ =>
      match w.(remote) with Some r => r.(r_send_io) | None => false end
  | ServerTimeout =>
      match w.(server) with Some s => s.(timer) | None => false end
  | ServerResolve _ _ =>
      match w.(server) with
      | Some s => match s.(query) with Some _ => true | None => false end
      | None => false
      end
  end.

Definition step (w : world) (e : event) : result world :=
  match e with
  | ServerRecv rv sv ip c => server_recv_cb w rv sv ip c
  | ServerSend sv => server_send_cb w sv
  | RemoteRecv rv sv => remote_recv_cb w rv sv
  | RemoteSend peer_ok sv => remote_send_cb w peer_ok sv
  | ServerTimeout => server_timeout_cb w
  | ServerResolve resolved c => server_resolve_cb w resolved c
  end.

(** The states a connection goes through from [w0] on. *)
Inductive reachable (w0 : world) : world -> Prop :=
| reach_start : reachable w0 w0
| reach_step : forall w e w',
    reachable w0 w -> enabled w e = true -> step w e = Ok w' ->
    reachable w0 w'.

(** The events [es] take the connection from the first state to the last. *)
Inductive steps : world -> list event -> world -> Prop :=
| steps_nil : forall w, steps w [] w
| steps_cons : forall w e w1 es w2,
    enabled w e = true -> step w e = Ok w1 -> steps w1 es w2 ->
    steps w (e :: es) w2.

End WithBackend.

End Server.

(** ** tunnel.c *)

Module Tunnel.

Import Encrypt.

Definition BUF_SIZE : nat := 2048.

(** [ss_addr_t]: the destination the tunnel is configured with; [host] is
    the string [sa->host] as bytes, [port] is what [atoi(sa->port)]
    returns. *)
Record ss_addr_t := mkaddr { host : list Z; port : Z }.

Section WithBackend.

Context {B : Backend}.

(** [abuf->array[abuf->len++] = b] *)
Definition push (abuf : buffer_t) (b : Z) : result buffer_t :=
  a <- Mem.set abuf.(array) abuf.(len) b ;;
  Ok (set_len (set_array abuf a) (abuf.(len) + 1)).

(** [memcpy(abuf->array + abuf->len, src, n); abuf->len += n] *)
Definition append (abuf : buffer_t) (src : list Z) (n : nat) : result buffer_t :=
  a <- Mem.memcpy abuf.(array) abuf.(len) src 0 n ;;
  Ok (set_len (set_array abuf a) (abuf.(len) + n)).

(** The address part of the header that [remote_send_cb] builds when the
    connection to the server is made.  [ip] is what [cork_ip_init] answers
    for [sa->host]: -1, or the version of a literal address; [pton] is
    what [dns_pton] writes for it, none when it returns -1. *)
Definition address_header (sa : ss_addr_t) (ip : Z) (pton : option (list Z))
  : result buffer_t :=
  let abuf := balloc BUF_SIZE in
  if negb (ip =? -1)%Z then
    if (ip =? 4)%Z then
      match pton with
      | None => Exit "IP parser error"
      | Some a =>
          abuf <- push abuf 1 ;;
          append abuf a 4
      end
    else if (ip =? 6)%Z then
      match pton with
      | None => Exit "IP parser error"
      | Some a =>
          abuf <- push abuf 4 ;;
          append abuf a 16
      end
    else Exit "IP parser error"
  else
    let host_len := length sa.(host) in
    abuf <- push abuf 3 ;;
    abuf <- push abuf (Z.of_nat host_len mod 256)%Z ;;
    append abuf sa.(host) host_len.

(** The header as it is given to [ss_encrypt]: the address, the port in
    network order and, when [auth] is set, the flag in the first byte and
    the MAC behind the port.  [e_iv] is [server->e_ctx->evp.iv]. *)
Definition request_header (g : globals) (sa : ss_addr_t) (ip : Z)
           (pton : option (list Z)) (auth : Z) (e_iv : list Z)
  : result buffer_t :=
  abuf <- address_header sa ip pton ;;
  abuf <- append abuf (htons_bytes sa.(port)) 2 ;;
  if negb (auth =? 0)%Z then
    b0 <- Mem.get abuf.(array) 0 ;;
    a <- Mem.set abuf.(array) 0 (Z.lor b0 ONETIMEAUTH_FLAG) ;;
    '(_, abuf) <- ss_onetimeauth g (set_array abuf a) e_iv BUF_SIZE ;;
    Ok abuf
  else Ok abuf.

(** What [server_recv_cb] gives to [ss_encrypt] for the [r] bytes it has
    received into [remote->buf]: with [auth] set, the frame that
    [ss_gen_hash] makes of them; the buffer and [remote->counter] after. *)
Definition payload_frame (g : globals) (auth : Z) (buf : buffer_t)
           (counter : Z) (e_ctx : option enc_ctx_t) : result (buffer_t * Z) :=
  if negb (auth =? 0)%Z then
    '(_, buf, counter) <- ss_gen_hash g buf counter e_ctx BUF_SIZE ;;
    Ok (buf, counter)
  else Ok (buf, counter).

End WithBackend.

End Tunnel.

(** ** What is assumed of the crypto library *)

Module Laws.

Import Encrypt.

Section WithBackend.

Context (B : Backend).

(** SHA-1 digests are 20 bytes long. *)
Definition hmac_law : Prop :=
  forall key msg : list Z, length (HMAC_SHA1 key msg) = 20.

(** A cipher found by name has an IV and a key that fit the arrays of
    the source; [EVP_BytesToKey] returns the key length of the cipher and
    writes that many bytes. *)
Definition cipher_law : Prop :=
  forall (name : string) (c : cipher_kt_t),
    EVP_get_cipherbyname name = Some c ->
    c.(iv_len) <= MAX_IV_LENGTH /\ c.(key_len) <= MAX_KEY_LENGTH.

Definition kdf_law : Prop :=
  forall (c : cipher_kt_t) (pass : list Z),
    fst (EVP_BytesToKey c pass) = c.(key_len)
    /\ length (snd (EVP_BytesToKey c pass)) = c.(key_len).

(** The context after the calls of [cipher_context_init] and
    [cipher_context_set_iv] on a zeroed context. *)
Definition evp_keyed (c : cipher_kt_t) (pad : bool) (key iv_arg : list Z)
           (enc : Z) : cipher_evp_t :=
  let x1 := snd (EVP_CipherInit_ex (EVP_CIPHER_CTX_init EVP_zeroed)
                                   (Some c) None None enc) in
  let x2 := snd (EVP_CIPHER_CTX_set_key_length x1 c.(key_len)) in
  let x3 := if pad then EVP_CIPHER_CTX_set_padding x2 1 else x2 in
  snd (EVP_CipherInit_ex x3 None (Some key) (Some iv_arg) enc).

(** Setting up a cipher found by name, with a key of its length,
    succeeds (the calls return 1). *)
Definition evp_setup_law : Prop :=
  forall (name : string) (c : cipher_kt_t) (pad : bool) (key iv_arg : list Z)
         (enc : Z),
    EVP_get_cipherbyname name = Some c ->
    let r1 := EVP_CipherInit_ex (EVP_CIPHER_CTX_init EVP_zeroed)
                                (Some c) None None enc in
    let r2 := EVP_CIPHER_CTX_set_key_length (snd r1) c.(key_len) in
    let x3 := if pad then EVP_CIPHER_CTX_set_padding (snd r2) 1 else snd r2 in
    let r3 := EVP_CipherInit_ex x3 None (Some key) (Some iv_arg) enc in
    fst r1 = 1%Z /\ fst r2 = 1%Z /\ fst r3 = 1%Z.

(** The ciphers of the catalog are stream ciphers or block ciphers in CFB
    mode: an update writes as many bytes as it reads. *)
Definition evp_length_law : Prop :=
  forall (x : cipher_evp_t) (input : list Z),
    length (snd (EVP_CipherUpdate x input)) = length input.

(** A decrypting context inverts an encrypting context set up with the
    same cipher, key and IV. *)
Definition evp_inverse_law : Prop :=
  forall (name : string) (c : cipher_kt_t) (pad : bool) (key iv_arg : list Z)
         (P : list Z),
    EVP_get_cipherbyname name = Some c ->
    let e := EVP_CipherUpdate (evp_keyed c pad key iv_arg 1) P in
    let d := EVP_CipherUpdate (evp_keyed c pad key iv_arg 0) (snd e) in
    fst (fst e) = 1%Z /\ fst (fst d) = 1%Z /\ snd d = P.

Definition xor_stream (f : list Z -> list Z -> Z -> list Z -> list Z) : Prop :=
  forall (m n : list Z) (ic : Z) (k : list Z),
    length (f m n ic k) = length m /\ f (f m n ic k) n ic k = m.

(** The libsodium functions xor the message with a key stream that the
    nonce, the block counter and the key determine. *)
Definition stream_law : Prop :=
  xor_stream crypto_stream_salsa20_xor_ic
  /\ xor_stream crypto_stream_chacha20_xor_ic
  /\ xor_stream crypto_stream_chacha20_ietf_xor_ic.

(** A library context for encryption and one for decryption are in step
    when they were set up with the same cipher, key and IV and the second
    has been given, update by update, what the first wrote. *)
Inductive evp_in_step : cipher_evp_t -> cipher_evp_t -> Prop :=
| in_step_keyed (name : string) (c : cipher_kt_t) (pad : bool)
                (key iv_arg : list Z) :
    EVP_get_cipherbyname name = Some c ->
    evp_in_step (evp_keyed c pad key iv_arg 1)
                (evp_keyed c pad key iv_arg 0)
| in_step_update (e d : cipher_evp_t) (P : list Z) :
    evp_in_step e d ->
    evp_in_step (snd (fst (EVP_CipherUpdate e P)))
                (snd (fst (EVP_CipherUpdate d (snd (EVP_CipherUpdate e P))))).

(** The ciphers of the catalog are stream ciphers or block ciphers in CFB
    mode: contexts in step invert each other at every update. *)
Definition evp_stream_law : Prop :=
  forall (e d : cipher_evp_t) (P : list Z),
    evp_in_step e d ->
    let r := EVP_CipherUpdate e P in
    let r' := EVP_CipherUpdate d (snd r) in
    fst (fst r) = 1%Z /\ fst (fst r') = 1%Z /\ snd r' = P.

Definition suffix_stream (f : list Z -> list Z -> Z -> list Z -> list Z) : Prop :=
  forall (a a' b n : list Z) (ic : Z) (k : list Z),
    length a = length a' ->
    skipn (length a) (f (a ++ b) n ic k) = skipn (length a') (f (a' ++ b) n ic k).

(** What the libsodium functions write at a position depends on the
    message only through its byte at that position. *)
Definition stream_suffix_law : Prop :=
  suffix_stream crypto_stream_salsa20_xor_ic
  /\ suffix_stream crypto_stream_chacha20_xor_ic
  /\ suffix_stream crypto_stream_chacha20_ietf_xor_ic.

End WithBackend.

End Laws.

(** ** A small backend to run the embedding on

    Digests are checksums and the ciphers xor with one byte drawn from the
    key and the IV: enough to satisfy the laws above and to evaluate the
    functions of the source on concrete inputs. *)

Module Toy.

Import Encrypt.

Definition sum_bytes (l : list Z) : Z := fold_right Z.add 0%Z l.

Definition checksum (n : nat) (l : list Z) : list Z :=
  repeat (sum_bytes l mod 256)%Z n.

(** the position of a name in the catalog *)
Fixpoint index_of (name : string) (names : list string) (i : nat) : option nat :=
  match names with
  | [] => None
  | n :: rest => if String.eqb name n then Some i else index_of name rest (S i)
  end.

Definition cipher_by_name (name : string) : option cipher_kt_t :=
  match index_of name supported_ciphers 0 with
  | Some i => Some {| nid := Z.of_nat i;
                      key_len := nth i supported_ciphers_key_size 0;
                      iv_len := nth i supported_ciphers_iv_size 0 |}
  | None => None
  end.

Definition opt_sum (o : option (list Z)) : Z :=
  match o with
  | Some l => sum_bytes l
  | None => 0%Z
  end.

Definition xor_with (pad : Z) (m : list Z) : list Z := map (Z.lxor pad) m.

#[export] Instance backend : Backend :=
  {| MD5 := checksum 16;
     HMAC_SHA1 := fun key msg => checksum 20 (key ++ msg);
     EVP_get_digestbyname := fun _ => true;
     EVP_get_cipherbyname := cipher_by_name;
     EVP_BytesToKey := fun c pass => (c.(key_len), checksum c.(key_len) pass);
     cipher_evp_t := Z;
     EVP_zeroed := 0%Z;
     EVP_CIPHER_CTX_init := fun _ => 0%Z;
     EVP_CipherInit_ex := fun x _ key iv_arg _ =>
       (1%Z, match key with
             | Some k => ((sum_bytes k + opt_sum iv_arg) mod 256)%Z
             | None => x
             end);
     EVP_CIPHER_CTX_set_key_length := fun x _ => (1%Z, x);
     EVP_CIPHER_CTX_set_padding := fun x _ => x;
     EVP_CipherUpdate := fun x input => (1%Z, x, xor_with x input);
     sodium_init := 0%Z;
     crypto_stream_salsa20_xor_ic := fun m n ic k =>
       xor_with ((sum_bytes k + sum_bytes n + ic) mod 256)%Z m;
     crypto_stream_chacha20_xor_ic := fun m n ic k =>
       xor_with ((sum_bytes k + sum_bytes n + ic + 1) mod 256)%Z m;
     crypto_stream_chacha20_ietf_xor_ic := fun m n ic k =>
       xor_with ((sum_bytes k + sum_bytes n + ic + 2) mod 256)%Z m |}.

(** a random stream *)
Definition rnd (i : nat) : Z := ((Z.of_nat i * 37 + 11) mod 256)%Z.

End Toy.

(** ** Sample states

    A process started with the password "secret" and the method
    aes-256-cfb on the small backend, and a session of a connection it
    accepts.  The states are evaluated once, here. *)

Module Samples.

Import Encrypt Server.

Definition g_aes : globals :=
  Eval vm_compute in
    match enc_init (B := Toy.backend) globals0 "secret" (Some "aes-256-cfb"%string) with
    | Ok (_, g, _) => g
    | _ => globals0
    end.

Definition w_closed : world (B := Toy.backend) :=
  {| g := globals0; cfg_auth := 0; fast_open := false;
     server := None; remote := None; to_client := []; to_remote := [] |}.

(** the two records of a state, for a state that has them *)
Definition the_server (w : world (B := Toy.backend)) : server_t (B := Toy.backend) :=
  match w.(server) with
  | Some s => s
  | None => {| buf := balloc 0; stage := 0; auth := 0;
               chunk := mkchunk 0 0 0 (balloc 0);
               e_ctx := None; d_ctx := None;
               recv_io := false; send_io := false; timer := false;
               query := None |}
  end.

Definition the_remote (w : world (B := Toy.backend)) : remote_t :=
  match w.(remote) with
  | Some r => r
  | None => new_remote (mktarget 0 [] [])
  end.

(** the state after the events [es], an event that does not return being
    skipped *)
Definition run (w : world (B := Toy.backend)) (es : list event)
  : world (B := Toy.backend) :=
  fold_left (fun w e => match step w e with Ok w' => w' | _ => w end) es w.

(** the byte the small backend xors with, for the key of [g_aes] and an IV *)
Definition pad_of (iv_bytes : list Z) : Z :=
  ((Toy.sum_bytes g_aes.(enc_key)
    + Toy.sum_bytes (iv_bytes ++ repeat 0%Z (MAX_IV_LENGTH - length iv_bytes)))
   mod 256)%Z.

Definition client_iv : list Z :=
  [1; 2; 3; 4; 5; 6; 7; 8; 9; 10; 11; 12; 13; 14; 15; 16]%Z.

(** a header for 93.184.216.34:80 followed by two bytes of payload *)
Definition plain_request : list Z :=
  [1; 93; 184; 216; 34; 0; 80; 104; 105]%Z.

(** what the client sends first: its IV and the encrypted request *)
Definition request : list Z :=
  Eval vm_compute in client_iv ++ Toy.xor_with (pad_of client_iv) plain_request.

(** what the client sends next: five more bytes of payload, encrypted *)
Definition more_payload : list Z :=
  Eval vm_compute in Toy.xor_with (pad_of client_iv) [10; 20; 30; 40; 50]%Z.

(** the request arrives whole *)
Definition request_arrives : event :=
  ServerRecv (Recv request) (Sent 0) (-1) (Connecting TfoInProgress).

(** the target is connected and takes the two bytes of payload *)
Definition target_connects : event := RemoteSend true (Sent 2).

(** more payload arrives from the client, and the target socket takes two
    bytes of the five *)
Definition client_data_partly_sent : event :=
  ServerRecv (Recv more_payload) (Sent 2) (-1) SocketFailed.

(** three bytes arrive from the target, and the client socket takes one
    byte of what they are encrypted to *)
Definition target_data_partly_sent : event :=
  RemoteRecv (Recv [7; 8; 9]%Z) (Sent 1).

(** the connection as [accept_cb] makes it *)
Definition w_accepted : world (B := Toy.backend) :=
  Eval vm_compute in
    match accept_cb (B := Toy.backend) g_aes 0 false AES_256_CFB Toy.rnd with
    | Ok w => w
    | _ => w_closed
    end.

Definition s_accepted : server_t (B := Toy.backend) :=
  Eval vm_compute in the_server w_accepted.

(** stage 4: the header is read, the target socket is connecting *)
Definition w_connecting : world (B := Toy.backend) :=
  Eval vm_compute in run w_accepted [request_arrives].

(** stage 5: the relay *)
Definition w_relay : world (B := Toy.backend) :=
  Eval vm_compute in run w_connecting [target_connects].

(** a send to the target is pending *)
Definition w_pending_remote : world (B := Toy.backend) :=
  Eval vm_compute in run w_relay [client_data_partly_sent].

(** a send is pending in both directions *)
Definition w_pending_both : world (B := Toy.backend) :=
  Eval vm_compute in run w_pending_remote [target_data_partly_sent].

Definition s_pending_both : server_t (B := Toy.backend) :=
  Eval vm_compute in the_server w_pending_both.

Definition r_pending_both : remote_t :=
  Eval vm_compute in the_remote w_pending_both.

(** the decrypt context of the connection as [accept_cb] makes it *)
Definition d_accepted : enc_ctx_t (B := Toy.backend) :=
  Eval vm_compute in
    match s_accepted.(d_ctx) with
    | Some d => d
    | None => {| init := 0; counter := 0;
                 evp := {| evp_ctx := EVP_zeroed; iv := [] |} |}
    end.

(** the buffer of the connection with [request] received into it *)
Definition request_buffer : buffer_t :=
  Eval vm_compute in holding BUF_SIZE request.

(** the cipher context of [d_accepted] with the key and the IV of the client *)
Definition e_request : cipher_ctx_t (B := Toy.backend) :=
  Eval vm_compute in
    match cipher_context_set_iv (B := Toy.backend) g_aes d_accepted.(evp)
                                client_iv 16 0 with
    | Ok e => e
    | _ => d_accepted.(evp)
    end.

(** the process state after the connection has decrypted [request] *)
Definition g_seen : globals :=
  Eval vm_compute in w_connecting.(g).

(** *** A round trip in the process of [g_aes] *)

(** the request of [plain_request] in a buffer *)
Definition plain_buffer : buffer_t :=
  Eval vm_compute in holding BUF_SIZE plain_request.

(** the connection record with its two fresh contexts *)
Definition s_new : server_t (B := Toy.backend) :=
  Eval vm_compute in
    match new_server (B := Toy.backend) g_aes AES_256_CFB Toy.rnd with
    | Ok (_, s) => s
    | _ => s_accepted
    end.

(** what [ss_encrypt] returns on the fresh encrypt context *)
Definition trip_encrypt
  : Z * globals * buffer_t * option (enc_ctx_t (B := Toy.backend)) :=
  Eval vm_compute in
    match ss_encrypt (B := Toy.backend) g_aes plain_buffer s_new.(e_ctx)
                     BUF_SIZE with
    | Ok r => r
    | _ => (0%Z, g_aes, plain_buffer, None)
    end.

Definition g_encrypted : globals := Eval vm_compute in snd (fst (fst trip_encrypt)).
Definition encrypted : buffer_t := Eval vm_compute in snd (fst trip_encrypt).

(** what [ss_decrypt] returns on the fresh decrypt context over [encrypted] *)
Definition trip_decrypt
  : Z * globals * buffer_t * option (enc_ctx_t (B := Toy.backend)) :=
  Eval vm_compute in
    match ss_decrypt (B := Toy.backend) g_encrypted encrypted s_new.(d_ctx)
                     BUF_SIZE with
    | Ok r => r
    | _ => (0%Z, g_aes, plain_buffer, None)
    end.

Definition g_decrypted : globals := Eval vm_compute in snd (fst (fst trip_decrypt)).
Definition decrypted : buffer_t := Eval vm_compute in snd (fst trip_decrypt).

(** what [ss_decrypt] returns on a fresh decrypt context over [encrypted]
    once more, in the process that has decrypted it *)
Definition trip_replay
  : Z * globals * buffer_t * option (enc_ctx_t (B := Toy.backend)) :=
  Eval vm_compute in
    match ss_decrypt (B := Toy.backend) g_decrypted encrypted s_new.(d_ctx)
                     BUF_SIZE with
    | Ok r => r
    | _ => (0%Z, g_aes, plain_buffer, None)
    end.

(** what a second round trip returns in the process that has made the
    first, when the random generator gives the bytes it gave before *)
Definition trip_encrypt_again
  : Z * globals * buffer_t * option (enc_ctx_t (B := Toy.backend)) :=
  Eval vm_compute in
    match ss_encrypt (B := Toy.backend) g_decrypted plain_buffer s_new.(e_ctx)
                     BUF_SIZE with
    | Ok r => r
    | _ => (0%Z, g_aes, plain_buffer, None)
    end.

Definition trip_decrypt_again
  : Z * globals * buffer_t * option (enc_ctx_t (B := Toy.backend)) :=
  Eval vm_compute in
    match ss_decrypt (B := Toy.backend) (snd (fst (fst trip_encrypt_again)))
                     (snd (fst trip_encrypt_again)) s_new.(d_ctx) BUF_SIZE with
    | Ok r => r
    | _ => (0%Z, g_aes, plain_buffer, None)
    end.

(** the decrypt context of the connection, holding the IV of the client *)
Definition ctx_client : option enc_ctx_t :=
  Eval vm_compute in (the_server w_connecting).(d_ctx).

(** a header for 93.184.216.34:80 that asks for authentication *)
Definition auth_header : list Z := [17; 93; 184; 216; 34; 0; 80]%Z.

(** the header with its MAC, as [ss_onetimeauth] signs it *)
Definition signed_header : buffer_t :=
  Eval vm_compute in
    match ss_onetimeauth (B := Toy.backend) g_aes
                         (holding BUF_SIZE auth_header) client_iv BUF_SIZE with
    | Ok (_, b) => b
    | _ => balloc 0
    end.

(** the two bytes of payload as chunk 0, as [ss_gen_hash] frames them *)
Definition first_frame : buffer_t :=
  Eval vm_compute in
    match ss_gen_hash (B := Toy.backend) g_aes (holding BUF_SIZE [104; 105]%Z)
                      0 ctx_client BUF_SIZE with
    | Ok (_, b, _) => b
    | _ => balloc 0
    end.

(** what a client that asks for authentication sends first: its IV, then
    encrypted the signed header and the first chunk *)
Definition auth_request : list Z :=
  Eval vm_compute in
    client_iv ++ Toy.xor_with (pad_of client_iv)
                              (contents signed_header ++ contents first_frame).


(** the connection of [w_accepted] when [server_recv_cb] has decrypted
    [auth_request] and comes to the header *)
Definition s_handshake : server_t (B := Toy.backend) :=
  Eval vm_compute in
    match ss_decrypt (B := Toy.backend) g_aes (holding BUF_SIZE auth_request)
                     s_accepted.(d_ctx) BUF_SIZE with
    | Ok (_, _, b, d) => set_d_ctx (set_buf s_accepted b) d
    | _ => s_accepted
    end.

Definition w_handshake : world (B := Toy.backend) :=
  Eval vm_compute in
    match ss_decrypt (B := Toy.backend) g_aes (holding BUF_SIZE auth_request)
                     s_accepted.(d_ctx) BUF_SIZE with
    | Ok (_, g', _, _) => set_server (set_g w_accepted g') (Some s_handshake)
    | _ => w_accepted
    end.




(** [ss_check_hash] on [first_frame]: the loop as it starts, before the
    last byte of the frame, and after it *)
Definition check_start : check_state :=
  Eval vm_compute in
    {| cs_j := 0; cs_k := 0; cs_cidx := 0; cs_buf := first_frame;
       cs_chunk := {| chunk_idx := 0; chunk_len := 0; chunk_counter := 0;
                      chunk_buf := brealloc (mkbuffer 0 0 0 []) 14 BUF_SIZE |} |}.

Definition check_before_last : check_state :=
  Eval vm_compute in
    match check_hash_loop (B := Toy.backend) g_aes ctx_client BUF_SIZE 14 13 0
                          check_start with
    | Ok (_, st) => st
    | _ => check_start
    end.

Definition check_after_last : check_state :=
  Eval vm_compute in
    match check_hash_round (B := Toy.backend) g_aes ctx_client BUF_SIZE 14 13
                           check_before_last with
    | Ok (_, st) => st
    | _ => check_start
    end.

End Samples.

(** * Properties *)

Lemma bind_Ok {A B : Type} (a : A) (k : A -> result B) : bind (Ok a) k = k a.
Proof. reflexivity. Qed.

(** A function that returns went through each of its calls. *)
Lemma bind_inv {A B : Type} (m : result A) (k : A -> result B) (b : B) :
  bind m k = Ok b -> exists a, m = Ok a /\ k a = Ok b.
Proof.
  destruct m as [a | msg |]; simpl; intros H; try discriminate.
  exists a. now split.
Qed.

Lemma Ok_inj {A : Type} (a b : A) : Ok a = Ok b -> a = b.
Proof. intros H. now injection H. Qed.

Lemma pair_inj {A B : Type} (a a' : A) (b b' : B) :
  (a, b) = (a', b') -> a = a' /\ b = b'.
Proof. intros H. now injection H. Qed.

Lemma Some_inj {A : Type} (a b : A) : Some a = Some b -> a = b.
Proof. intros H. now injection H. Qed.

(** Taking apart a hypothesis that says that a function returned. *)
Ltac returned H :=
  repeat (cbv beta zeta in H;
          match type of H with
          | bind ?m _ = Ok _ =>
              let x := fresh "x" in
              let E := fresh "E" in
              apply bind_inv in H; destruct H as [x [E H]]
          | Ok _ = Ok _ => apply Ok_inj in H
          | (_, _) = (_, _) =>
              let H' := fresh H in
              apply pair_inj in H; destruct H as [H H']
          | Some _ = Some _ => apply Some_inj in H
          | Fault = Ok _ => discriminate H
          | Exit _ = Ok _ => discriminate H
          | (if ?c then _ else _) = Ok _ => destruct c eqn:?
          | match ?x with _ => _ end = Ok _ => destruct x eqn:?
          end).

Ltac returned_all :=
  repeat match goal with
         | H : (if _ then _ else _) = Ok _ |- _ => returned H
         | H : bind _ _ = Ok _ |- _ => returned H
         | H : match _ with _ => _ end = Ok _ |- _ => returned H
         end.

(** ** Arrays *)

Module MemFacts.

Import Mem.

Lemma read_ok (a : list Z) (off n : nat) :
  off + n <= length a -> read a off n = Ok (firstn n (skipn off a)).
Proof.
  intros H. unfold read.
  destruct (Nat.leb_spec (off + n) (length a)); [reflexivity | lia].
Qed.

Lemma read_length (a : list Z) (off n : nat) (bytes : list Z) :
  read a off n = Ok bytes -> length bytes = n /\ off + n <= length a.
Proof.
  unfold read. destruct (Nat.leb_spec (off + n) (length a)); [|discriminate].
  intros E. injection E as <-. rewrite length_firstn, length_skipn. lia.
Qed.

Lemma write_ok (a : list Z) (off : nat) (src : list Z) :
  off + length src <= length a ->
  write a off src = Ok (firstn off a ++ src ++ skipn (off + length src) a).
Proof.
  intros H. unfold write.
  destruct (Nat.leb_spec (off + length src) (length a)); [reflexivity | lia].
Qed.

Lemma write_length (a : list Z) (off : nat) (src a' : list Z) :
  write a off src = Ok a' -> length a' = length a.
Proof.
  unfold write.
  destruct (Nat.leb_spec (off + length src) (length a)); [|discriminate].
  intros E. injection E as <-.
  rewrite !length_app, length_firstn, length_skipn. lia.
Qed.

Lemma get_ok (a : list Z) (i : nat) :
  i < length a -> get a i = Ok (nth i a 0%Z).
Proof.
  intros H. unfold get.
  destruct (nth_error a i) eqn:E.
  - now rewrite (nth_error_nth _ _ _ E).
  - apply nth_error_None in E. lia.
Qed.

Lemma resize_length (a : list Z) (n : nat) : length (resize a n) = n.
Proof.
  unfold resize. rewrite length_app, length_firstn, repeat_length. lia.
Qed.

Lemma resize_firstn (a : list Z) (n k : nat) :
  k <= length a -> k <= n -> firstn k (resize a n) = firstn k a.
Proof.
  intros Hk Hn. unfold resize.
  rewrite firstn_app, length_firstn.
  replace (k - Nat.min n (length a)) with 0 by lia.
  rewrite firstn_firstn. simpl. rewrite app_nil_r.
  f_equal. lia.
Qed.

Lemma set_nth (a : list Z) (i : nat) (b : Z) (a' : list Z) :
  set a i b = Ok a' ->
  i < length a /\ length a' = length a
  /\ forall p, nth p a' 0%Z = if p =? i then b else nth p a 0%Z.
Proof.
  unfold set. intros E. pose proof (write_length _ _ _ _ E) as HL.
  unfold write in E. simpl in E.
  destruct (Nat.leb_spec (i + 1) (length a)) as [Hi | Hi]; [|discriminate].
  injection E as <-. repeat split; [lia | assumption |].
  intros p. destruct (Nat.eqb_spec p i) as [-> | Hp].
  - rewrite app_nth2; rewrite length_firstn; [|lia].
    replace (i - Nat.min i (length a)) with 0 by lia. reflexivity.
  - destruct (Nat.lt_ge_cases p i) as [Hlt | Hge].
    + rewrite app_nth1 by (rewrite length_firstn; lia).
      rewrite nth_firstn. destruct (Nat.ltb_spec p i); [reflexivity | lia].
    + rewrite app_nth2 by (rewrite length_firstn; lia).
      rewrite length_firstn.
      replace (p - Nat.min i (length a)) with (S (p - i - 1)) by lia.
      simpl. rewrite nth_skipn. f_equal. lia.
Qed.

Lemma write_inv (a : list Z) (off : nat) (src a' : list Z) :
  write a off src = Ok a' ->
  off + length src <= length a
  /\ a' = firstn off a ++ src ++ skipn (off + length src) a.
Proof.
  unfold write.
  destruct (Nat.leb_spec (off + length src) (length a)); [|discriminate].
  intros E. apply Ok_inj in E. now split.
Qed.

(** the bytes up to the end of what was written *)
Lemma write_firstn (a : list Z) (off : nat) (src a' : list Z) :
  write a off src = Ok a' ->
  firstn (off + length src) a' = firstn off a ++ src.
Proof.
  intros E. apply write_inv in E. destruct E as [Hb ->].
  rewrite firstn_app, length_firstn.
  replace (off + length src - Nat.min off (length a)) with (length src) by lia.
  rewrite firstn_firstn.
  replace (Nat.min (off + length src) off) with off by lia.
  rewrite firstn_app, firstn_all, Nat.sub_diag. simpl.
  now rewrite app_nil_r.
Qed.

(** the bytes before what was written *)
Lemma write_before (a : list Z) (off : nat) (src a' : list Z) (k : nat) :
  write a off src = Ok a' -> k <= off -> firstn k a' = firstn k a.
Proof.
  intros E Hk. apply write_inv in E. destruct E as [Hb ->].
  rewrite firstn_app, length_firstn.
  replace (k - Nat.min off (length a)) with 0 by lia.
  rewrite firstn_firstn. simpl. rewrite app_nil_r. f_equal. lia.
Qed.

(** the bytes after what was written *)
Lemma write_after (a : list Z) (off : nat) (src a' : list Z) (k : nat) :
  write a off src = Ok a' -> off + length src <= k -> skipn k a' = skipn k a.
Proof.
  intros E Hk. apply write_inv in E. destruct E as [Hb ->].
  rewrite skipn_app, length_firstn.
  rewrite (skipn_all2 (firstn off a)) by (rewrite length_firstn; lia).
  simpl.
  replace (k - Nat.min off (length a)) with (length src + (k - off - length src))
    by lia.
  rewrite skipn_app.
  rewrite (skipn_all2 src) by lia. simpl.
  replace (length src + (k - off - length src) - length src)
    with (k - off - length src) by lia.
  rewrite skipn_skipn. f_equal. lia.
Qed.

(** what was written *)
Lemma write_at (a : list Z) (off : nat) (src a' : list Z) :
  write a off src = Ok a' -> firstn (length src) (skipn off a') = src.
Proof.
  intros E. apply write_inv in E. destruct E as [Hb ->].
  rewrite skipn_app, length_firstn.
  rewrite (skipn_all2 (firstn off a)) by (rewrite length_firstn; lia).
  simpl. replace (off - Nat.min off (length a)) with 0 by lia. simpl.
  rewrite firstn_app, firstn_all, Nat.sub_diag. simpl. apply app_nil_r.
Qed.

Lemma memcpy_ok (dst : list Z) (doff : nat) (src : list Z) (soff n : nat) :
  soff + n <= length src -> doff + n <= length dst ->
  memcpy dst doff src soff n
  = Ok (firstn doff dst ++ firstn n (skipn soff src) ++ skipn (doff + n) dst).
Proof.
  intros Hs Hd. unfold memcpy. rewrite read_ok by assumption. rewrite bind_Ok.
  assert (HL : length (firstn n (skipn soff src)) = n).
  { rewrite length_firstn, length_skipn. lia. }
  rewrite write_ok by (rewrite HL; assumption).
  now rewrite HL.
Qed.

Lemma memcpy_inv (dst : list Z) (doff : nat) (src : list Z) (soff n : nat)
      (a' : list Z) :
  memcpy dst doff src soff n = Ok a' ->
  soff + n <= length src /\ doff + n <= length dst
  /\ write dst doff (firstn n (skipn soff src)) = Ok a'
  /\ length (firstn n (skipn soff src)) = n.
Proof.
  unfold memcpy. intros E. apply bind_inv in E. destruct E as [bytes [Er Ew]].
  pose proof (read_length _ _ _ _ Er) as [HL Hb].
  unfold read in Er.
  destruct (Nat.leb_spec (soff + n) (length src)); [|discriminate].
  apply Ok_inj in Er. subst bytes.
  pose proof (write_inv _ _ _ _ Ew) as [Hw _].
  rewrite HL in Hw. repeat split; assumption.
Qed.

(** A copy within bounds succeeds, and changes the bytes it writes only. *)
Lemma write_ex (a : list Z) (off : nat) (src : list Z) :
  off + length src <= length a ->
  exists a',
    write a off src = Ok a'
    /\ length a' = length a
    /\ firstn (off + length src) a' = firstn off a ++ src
    /\ firstn (length src) (skipn off a') = src
    /\ (forall k, k <= off -> firstn k a' = firstn k a)
    /\ (forall k, off + length src <= k -> skipn k a' = skipn k a).
Proof.
  intros H. pose proof (write_ok a off src H) as E.
  eexists. split; [exact E|].
  split; [exact (write_length _ _ _ _ E)|].
  split; [exact (write_firstn _ _ _ _ E)|].
  split; [exact (write_at _ _ _ _ E)|].
  split; intros k Hk.
  - exact (write_before _ _ _ _ k E Hk).
  - exact (write_after _ _ _ _ k E Hk).
Qed.

Lemma memcpy_ex (dst : list Z) (doff : nat) (src : list Z) (soff n : nat) :
  soff + n <= length src -> doff + n <= length dst ->
  exists a',
    memcpy dst doff src soff n = Ok a'
    /\ length a' = length dst
    /\ firstn (doff + n) a' = firstn doff dst ++ firstn n (skipn soff src)
    /\ firstn n (skipn doff a') = firstn n (skipn soff src)
    /\ (forall k, k <= doff -> firstn k a' = firstn k dst)
    /\ (forall k, doff + n <= k -> skipn k a' = skipn k dst).
Proof.
  intros Hs Hd. unfold memcpy. rewrite read_ok by assumption. rewrite bind_Ok.
  assert (HL : length (firstn n (skipn soff src)) = n).
  { rewrite length_firstn, length_skipn. lia. }
  destruct (write_ex dst doff (firstn n (skipn soff src))) as [a' H].
  { rewrite HL. assumption. }
  rewrite HL in H. exists a'. exact H.
Qed.

End MemFacts.

(** ** encrypt.c *)

Module EncryptFacts.

Import Encrypt.

(** *** The size tables *)

(** C9.  Every row of the implementation's tables (the name of
    [supported_ciphers], the key length of [supported_ciphers_key_size],
    the IV length of [supported_ciphers_iv_size]) is the row of the
    specification's cipher-sizes table at the same position, the tables
    have [CIPHER_NUM] rows, and the three rows the claim quotes read as it
    says. *)
Theorem cipher_size_catalog :
  (forall m : nat, table_row m = nth_error spec_cipher_sizes m)
  /\ Z.of_nat (length supported_ciphers) = CIPHER_NUM
  /\ length supported_ciphers_key_size = length supported_ciphers
  /\ length supported_ciphers_iv_size = length supported_ciphers
  /\ table_row (Z.to_nat AES_256_CFB) = Some ("aes-256-cfb"%string, 32, 16)
  /\ table_row (Z.to_nat CHACHA20IETF) = Some ("chacha20-ietf"%string, 32, 12)
  /\ table_row (Z.to_nat RC4) = Some ("rc4"%string, 16, 0).
Proof.
  split; [|repeat split; reflexivity].
  intros m.
  do 19 (destruct m as [|m]; [reflexivity|]).
  reflexivity.
Qed.

(** *** safe_memcmp *)

Lemma safe_memcmp_loop_zero (s1 s2 : list Z) (l : list nat) (ret : Z) :
  fold_left (fun ret i => Z.lor ret (Z.lxor (nth i s1 0%Z) (nth i s2 0%Z))) l ret
  = 0%Z
  <-> ret = 0%Z /\ (forall i, In i l -> nth i s1 0%Z = nth i s2 0%Z).
Proof.
  revert ret. induction l as [|i l IH]; intros ret; simpl.
  - split; [intros H; split; [assumption | intros i []] | intros [H _]; assumption].
  - rewrite IH, Z.lor_eq_0_iff, Z.lxor_eq_0_iff. split.
    + intros [[Hr Hi] Hl]. split; [assumption|].
      intros j [<- | Hj]; [assumption | now apply Hl].
    + intros [Hr Hl]. repeat split.
      * assumption.
      * apply Hl. now left.
      * intros j Hj. apply Hl. now right.
Qed.

Lemma safe_memcmp_zero (s1 s2 : list Z) (n : nat) :
  safe_memcmp s1 s2 n = 0%Z
  <-> (forall i, i < n -> nth i s1 0%Z = nth i s2 0%Z).
Proof.
  unfold safe_memcmp, safe_memcmp_loop.
  destruct (Z.eqb_spec
              (fold_left (fun ret i => Z.lor ret (Z.lxor (nth i s1 0%Z) (nth i s2 0%Z)))
                         (seq 0 n) 0%Z) 0%Z) as [E | E].
  - apply safe_memcmp_loop_zero in E. destruct E as [_ E].
    split; [intros _ i Hi | reflexivity].
    apply E, in_seq. lia.
  - split; [discriminate|].
    intros H. exfalso. apply E, safe_memcmp_loop_zero.
    split; [reflexivity|]. intros i Hi. apply in_seq in Hi. apply H. lia.
Qed.

Lemma safe_memcmp_bool (s1 s2 : list Z) (n : nat) :
  safe_memcmp s1 s2 n = 0%Z \/ safe_memcmp s1 s2 n = 1%Z.
Proof.
  unfold safe_memcmp. destruct (_ =? 0)%Z; [now left | now right].
Qed.

Lemma firstn_eq_nth (n : nat) (s1 s2 : list Z) :
  n <= length s1 -> n <= length s2 ->
  (firstn n s1 = firstn n s2 <-> forall i, i < n -> nth i s1 0%Z = nth i s2 0%Z).
Proof.
  revert s1 s2. induction n as [|n IH]; intros s1 s2 H1 H2.
  - simpl. split; [intros _ i Hi; lia | reflexivity].
  - destruct s1 as [|a s1]; [simpl in H1; lia|].
    destruct s2 as [|b s2]; [simpl in H2; lia|].
    simpl in *. split.
    + intros E. injection E as -> E. intros [|i] Hi; [reflexivity|].
      apply (IH s1 s2); [lia | lia | assumption | lia].
    + intros H. f_equal.
      * apply (H 0). lia.
      * apply IH; [lia | lia |]. intros i Hi. apply (H (S i)). lia.
Qed.

(** [safe_memcmp] on two arrays that hold at least [n] bytes each. *)
Lemma safe_memcmp_firstn (s1 s2 : list Z) (n : nat) :
  n <= length s1 -> n <= length s2 ->
  (safe_memcmp s1 s2 n = 0%Z <-> firstn n s1 = firstn n s2).
Proof.
  intros H1 H2. rewrite safe_memcmp_zero. symmetry. now apply firstn_eq_nth.
Qed.

(** *** The table cipher *)

(** the divisors [x + salt] of [random_compare], for the bytes [x] of an
    array, are not 0 as 32-bit sums *)
Definition divisors_ok (salt : Z) (array : list Z) : Prop :=
  Forall (fun x => ((x + salt) mod UINT32_MOD)%Z <> 0%Z) array.

Lemma divisors_ok_bytes (salt : Z) (array : list Z) :
  (0 < salt)%Z -> (salt + 255 < UINT32_MOD)%Z ->
  (forall x, In x array -> (0 <= x < 256)%Z) ->
  divisors_ok salt array.
Proof.
  intros Hlo Hhi Hb. apply Forall_forall. intros x Hx.
  pose proof (Hb x Hx). rewrite Z.mod_small by lia. lia.
Qed.

Lemma divisors_ok_perm (salt : Z) (a b : list Z) :
  Permutation a b -> divisors_ok salt b -> divisors_ok salt a.
Proof.
  intros P H. unfold divisors_ok in *. rewrite Forall_forall in *.
  intros x Hx. apply H. exact (Permutation_in _ P Hx).
Qed.

Lemma random_compare_ok (x y salt key : Z) :
  ((x + salt) mod UINT32_MOD)%Z <> 0%Z ->
  ((y + salt) mod UINT32_MOD)%Z <> 0%Z ->
  exists c, random_compare x y salt key = Ok c.
Proof.
  intros Hx Hy. unfold random_compare. cbv zeta.
  apply Z.eqb_neq in Hx, Hy. rewrite Hx, Hy. simpl. eexists. reflexivity.
Qed.

Lemma random_compare_zero (x y salt key : Z) :
  ((x + salt) mod UINT32_MOD)%Z = 0%Z \/ ((y + salt) mod UINT32_MOD)%Z = 0%Z ->
  random_compare x y salt key = Fault.
Proof.
  intros H. unfold random_compare. cbv zeta.
  destruct H as [H | H]; rewrite H; [reflexivity|].
  rewrite orb_true_r. reflexivity.
Qed.

Lemma merge_unfold (x y : Z) (ll rr : list Z) (salt key : Z) :
  merge (x :: ll) (y :: rr) salt key
  = (c <- random_compare x y salt key ;;
     if (c <=? 0)%Z
     then rest <- merge ll (y :: rr) salt key ;; Ok (x :: rest)
     else rest <- merge (x :: ll) rr salt key ;; Ok (y :: rest)).
Proof. reflexivity. Qed.

Lemma merge_perm (ll rr : list Z) (salt key : Z) :
  divisors_ok salt ll -> divisors_ok salt rr ->
  exists out,
    merge ll rr salt key = Ok out /\ Permutation out (ll ++ rr).
Proof.
  revert rr. induction ll as [|x ll IH]; intros rr Hl Hr.
  - exists rr. split; [destruct rr; reflexivity | apply Permutation_refl].
  - induction rr as [|y rr IHr].
    + exists (x :: ll). split; [reflexivity|].
      rewrite app_nil_r. apply Permutation_refl.
    + rewrite merge_unfold.
      pose proof (Forall_inv Hl) as Hx. pose proof (Forall_inv Hr) as Hy.
      destruct (random_compare_ok x y salt key Hx Hy) as [c Ec].
      rewrite Ec, bind_Ok.
      destruct (c <=? 0)%Z.
      * destruct (IH (y :: rr) (Forall_inv_tail Hl) Hr) as [t [Et Pt]].
        rewrite Et, bind_Ok. exists (x :: t). split; [reflexivity|].
        apply perm_skip. exact Pt.
      * destruct (IHr (Forall_inv_tail Hr)) as [t [Et Pt]].
        rewrite Et, bind_Ok. exists (y :: t). split; [reflexivity|].
        apply Permutation_trans with (y :: x :: ll ++ rr).
        -- apply perm_skip. exact Pt.
        -- apply Permutation_trans with (x :: y :: ll ++ rr).
           ++ apply perm_swap.
           ++ apply perm_skip. apply Permutation_middle.
Qed.

Lemma half_bounds (n : nat) :
  2 <= n -> n < 512 -> 1 <= (n / 2) mod 256 /\ (n / 2) mod 256 < n.
Proof.
  intros H2 H512.
  assert (Hdiv : n / 2 < 256) by (apply Nat.Div0.div_lt_upper_bound; lia).
  rewrite Nat.mod_small by assumption.
  split.
  - apply Nat.div_le_lower_bound; lia.
  - apply Nat.div_lt; lia.
Qed.

Lemma merge_sort_unfold (stack : nat) (array : list Z) (salt key : Z) :
  merge_sort (S stack) array salt key
  = if length array <=? 1 then Ok array
    else
      let llength := length array - (length array / 2) mod 256 in
      left <- merge_sort stack (firstn llength array) salt key ;;
      right <- merge_sort stack (skipn llength array) salt key ;;
      merge left right salt key.
Proof. reflexivity. Qed.

(** [merge_sort] returns, with a permutation of the array, on every array
    shorter than 512 bytes that the stack is deep enough for and whose
    bytes give no divisor 0. *)
Lemma merge_sort_perm (stack : nat) (array : list Z) (salt key : Z) :
  length array < stack -> length array < 512 -> divisors_ok salt array ->
  exists out, merge_sort stack array salt key = Ok out /\ Permutation out array.
Proof.
  revert array. induction stack as [|stack IH]; intros array Hs H512 Hd; [lia|].
  rewrite merge_sort_unfold.
  destruct (Nat.leb_spec (length array) 1) as [H1 | H1].
  - exists array. split; [reflexivity | apply Permutation_refl].
  - destruct (half_bounds _ H1 H512) as [Hlo Hhi].
    set (ll := length array - (length array / 2) mod 256) in *.
    assert (Hll : ll < length array) by (unfold ll; lia).
    assert (Hdl : divisors_ok salt (firstn ll array)).
    { unfold divisors_ok. apply Forall_forall. intros x Hx.
      apply (proj1 (Forall_forall _ _) Hd).
      rewrite <- (firstn_skipn ll array). apply in_or_app. now left. }
    assert (Hdr : divisors_ok salt (skipn ll array)).
    { unfold divisors_ok. apply Forall_forall. intros x Hx.
      apply (proj1 (Forall_forall _ _) Hd).
      rewrite <- (firstn_skipn ll array). apply in_or_app. now right. }
    destruct (IH (firstn ll array)) as [l [El Pl]].
    { rewrite length_firstn. lia. }
    { rewrite length_firstn. lia. }
    { exact Hdl. }
    destruct (IH (skipn ll array)) as [r [Er Pr]].
    { rewrite length_skipn. lia. }
    { rewrite length_skipn. lia. }
    { exact Hdr. }
    cbv zeta. rewrite El, bind_Ok, Er, bind_Ok.
    destruct (merge_perm l r salt key) as [out [Eo Po]].
    { exact (divisors_ok_perm salt _ _ Pl Hdl). }
    { exact (divisors_ok_perm salt _ _ Pr Hdr). }
    exists out. split; [exact Eo|].
    eapply Permutation_trans; [exact Po|].
    apply Permutation_trans with (firstn ll array ++ skipn ll array).
    + now apply Permutation_app.
    + rewrite firstn_skipn. apply Permutation_refl.
Qed.

Lemma shuffle_rounds_unfold (n : nat) (i : Z) (table : list Z) (key : Z) :
  shuffle_rounds (S n) i table key
  = (table' <- merge_sort STACK_DEPTH table i key ;;
     shuffle_rounds n (i + 1)%Z table' key).
Proof. reflexivity. Qed.

(** The rounds of sorting return on a table of bytes, the salts from [i]
    on being positive and, with a byte added, below 2^32: no divisor of
    [random_compare] is 0. *)
Lemma shuffle_rounds_perm (n : nat) (i : Z) (table : list Z) (key : Z) :
  length table < 512 ->
  (0 < i)%Z -> (i + Z.of_nat n + 255 <= UINT32_MOD)%Z ->
  (forall x, In x table -> (0 <= x < 256)%Z) ->
  exists out, shuffle_rounds n i table key = Ok out /\ Permutation out table.
Proof.
  revert i table. induction n as [|n IH]; intros i table H Hlo Hhi Hb.
  - exists table. split; [reflexivity | apply Permutation_refl].
  - rewrite shuffle_rounds_unfold.
    destruct (merge_sort_perm STACK_DEPTH table i key) as [t [Et Pt]].
    { change STACK_DEPTH with (512 + 488). lia. }
    { assumption. }
    { apply divisors_ok_bytes; [lia | lia | exact Hb]. }
    rewrite Et, bind_Ok.
    destruct (IH (i + 1)%Z t) as [out [Eo Po]].
    { rewrite (Permutation_length Pt). assumption. }
    { lia. }
    { lia. }
    { intros x Hx. apply Hb. exact (Permutation_in _ Pt Hx). }
    exists out. split; [assumption|].
    eapply Permutation_trans; eassumption.
Qed.

(** The loop that builds [dec_table] returns, and leaves at the position
    each entry of [enc] names the index of that entry. *)
Lemma invert_rounds_spec (n i : nat) (enc dec : list Z) :
  i + n <= length enc ->
  (forall j, j < length enc ->
             (0 <= nth j enc 0 < Z.of_nat (length dec))%Z) ->
  NoDup enc ->
  exists dec',
    invert_rounds n i enc dec = Ok dec'
    /\ length dec' = length dec
    /\ (forall j, i <= j < i + n ->
                  nth (Z.to_nat (nth j enc 0%Z)) dec' 0%Z = Z.of_nat j)
    /\ (forall p, (forall j, i <= j < i + n -> Z.to_nat (nth j enc 0%Z) <> p) ->
                  nth p dec' 0%Z = nth p dec 0%Z).
Proof.
  revert i dec. induction n as [|n IH]; intros i dec Hlen Hrange Hnd.
  - exists dec. split; [reflexivity|]. split; [reflexivity|].
    split; [intros j Hj; lia | intros; reflexivity].
  - simpl. rewrite MemFacts.get_ok by lia. rewrite bind_Ok.
    pose proof (Hrange i ltac:(lia)) as Hi.
    destruct (Mem.set dec (Z.to_nat (nth i enc 0%Z)) (Z.of_nat i)) as [dec1 | |] eqn:E.
    2,3: unfold Mem.set in E; rewrite MemFacts.write_ok in E
      by (simpl; lia); discriminate.
    rewrite bind_Ok.
    destruct (MemFacts.set_nth _ _ _ _ E) as [_ [HL1 Hnth1]].
    destruct (IH (S i) dec1) as [dec' [E' [HL' [Hset Hframe]]]].
    { lia. }
    { intros j Hj. rewrite HL1. now apply Hrange. }
    { assumption. }
    exists dec'. split; [assumption|]. split; [lia|]. split.
    + intros j Hj. destruct (Nat.eq_dec j i) as [-> | Hne].
      * rewrite Hframe.
        -- rewrite Hnth1, Nat.eqb_refl. reflexivity.
        -- intros j Hj' Heq.
           pose proof (Hrange j ltac:(lia)) as Hjr.
           assert (Hz : nth j enc 0%Z = nth i enc 0%Z) by lia.
           apply (proj1 (NoDup_nth enc 0%Z) Hnd) in Hz; lia.
      * apply Hset. lia.
    + intros p Hp. rewrite Hframe.
      * rewrite Hnth1. destruct (Nat.eqb_spec p (Z.to_nat (nth i enc 0%Z))) as [-> | _].
        -- exfalso. apply (Hp i); [lia | reflexivity].
        -- reflexivity.
      * intros j Hj. apply Hp. lia.
Qed.

Lemma identity_table_facts :
  length (map Z.of_nat (seq 0 256)) = 256
  /\ NoDup (map Z.of_nat (seq 0 256))
  /\ forall x, In x (map Z.of_nat (seq 0 256)) -> (0 <= x < 256)%Z.
Proof.
  repeat split.
  - apply Finite.Injective_map_NoDup.
    + intros a b H. lia.
    + apply seq_NoDup.
  - apply in_map_iff in H. destruct H as [k [<- _]]. lia.
  - apply in_map_iff in H. destruct H as [k [<- Hk]]. apply in_seq in Hk. lia.
Qed.

(** The two tables of a process started in table mode: 256 entries each,
    [dec_table] undoing [enc_table] on every byte. *)
Definition tables_inverse (enc dec : list Z) : Prop :=
  length enc = 256 /\ length dec = 256
  /\ forall b : Z, (0 <= b < 256)%Z ->
       (0 <= nth (Z.to_nat b) enc 0 < 256)%Z
       /\ nth (Z.to_nat (nth (Z.to_nat b) enc 0%Z)) dec 0%Z = b.

Section WithBackend.

Context {B : Backend}.

(** [enc_table_init] always returns, whatever the digest of the
    password is, and builds a pair of inverse tables. *)
Lemma enc_table_init_ok (g : globals) (pass : string) :
  exists enc dec,
    enc_table_init g pass = Ok (set_tables g enc dec)
    /\ tables_inverse enc dec.
Proof.
  unfold enc_table_init, enc_md5.
  rewrite MemFacts.read_ok by lia. rewrite !bind_Ok.
  set (key := fold_left _ _ _).
  destruct identity_table_facts as [HL [HND HR]].
  destruct (shuffle_rounds_perm 1023 1 (map Z.of_nat (seq 0 256)) key)
    as [enc [Ee Pe]].
  { rewrite HL. lia. }
  { lia. }
  { unfold UINT32_MOD. simpl. lia. }
  { exact HR. }
  rewrite Ee, bind_Ok.
  assert (HLe : length enc = 256) by (rewrite (Permutation_length Pe); exact HL).
  assert (HRe : forall j, j < length enc -> (0 <= nth j enc 0 < 256)%Z).
  { intros j Hj. apply HR. apply (Permutation_in _ Pe). now apply nth_In. }
  destruct (invert_rounds_spec 256 0 enc (repeat 0%Z 256))
    as [dec [Ed [HLd [Hinv _]]]].
  { lia. }
  { intros j Hj. rewrite repeat_length. now apply HRe. }
  { apply (Permutation_NoDup (Permutation_sym Pe)). exact HND. }
  rewrite Ed, bind_Ok. exists enc, dec. split; [reflexivity|].
  rewrite repeat_length in HLd.
  repeat split; try assumption.
  - apply HRe. lia.
  - apply HRe. lia.
  - rewrite Hinv by lia. lia.
Qed.

(** *** enc_init *)

Lemma find_method_absent (name : string) (names : list string) (m : Z) :
  ~ In name names ->
  find_method name names m = (m + Z.of_nat (length names))%Z.
Proof.
  revert m. induction names as [|n names IH]; intros m H; simpl.
  - lia.
  - destruct (String.eqb_spec name n) as [-> | Hne].
    + exfalso. apply H. now left.
    + rewrite IH by (intros Hin; apply H; now right). lia.
Qed.

(** A name outside the catalog: the loop of [enc_init] runs to
    [CIPHER_NUM], the error is logged, and [enc_table_init] is called. *)
Lemma enc_init_unknown (g : globals) (pass name : string) :
  ~ In name supported_ciphers ->
  enc_init g pass (Some name)
  = (g' <- enc_table_init g pass ;;
     Ok (TABLE, g',
         [("Invalid cipher name: " ++ name ++ ", use table instead")%string])).
Proof.
  intros H. unfold enc_init.
  rewrite find_method_absent by exact H.
  reflexivity.
Qed.

(** C4 (amended).  For every method name that is not in the catalog,
    [enc_init] does not stop the process: it logs "Invalid cipher name:
    ..., use table instead", sets up the table cipher (a pair of inverse
    256-byte tables) and returns the method number [TABLE]. *)
Theorem enc_init_unknown_method_uses_table (g : globals) (pass name : string) :
  ~ In name supported_ciphers ->
  exists enc dec,
    enc_init g pass (Some name)
    = Ok (TABLE, set_tables g enc dec,
          [("Invalid cipher name: " ++ name ++ ", use table instead")%string])
    /\ tables_inverse enc dec.
Proof.
  intros H.
  destruct (enc_table_init_ok g pass) as [enc [dec [E Hinv]]].
  exists enc, dec. split.
  - rewrite enc_init_unknown by exact H.
    rewrite E, bind_Ok. reflexivity.
  - exact Hinv.
Qed.

(** *** One-time authentication *)

(** two byte strings copied one behind the other into a local array, and
    read back *)
Lemma copy_two (z src1 src2 : list Z) (n1 n2 : nat) :
  n1 <= length src1 -> n2 <= length src2 -> n1 + n2 <= length z ->
  (a <- Mem.memcpy z 0 src1 0 n1 ;;
   a <- Mem.memcpy a n1 src2 0 n2 ;;
   Mem.read a 0 (n1 + n2))
  = Ok (firstn n1 src1 ++ firstn n2 src2).
Proof.
  intros H1 H2 Hz.
  rewrite MemFacts.memcpy_ok by (simpl; lia). rewrite bind_Ok.
  set (a1 := firstn 0 z ++ firstn n1 (skipn 0 src1) ++ skipn (0 + n1) z).
  assert (HL1 : length a1 = length z).
  { unfold a1. simpl. rewrite length_app, length_firstn, length_skipn. lia. }
  assert (HF1 : firstn n1 a1 = firstn n1 src1).
  { unfold a1. simpl. rewrite firstn_app, length_firstn.
    replace (n1 - Nat.min n1 (length src1)) with 0 by lia.
    rewrite firstn_firstn, Nat.min_id. simpl. apply app_nil_r. }
  rewrite MemFacts.memcpy_ok by (simpl; lia). rewrite bind_Ok.
  rewrite MemFacts.read_ok
    by (rewrite !length_app, length_firstn, length_firstn, length_skipn;
        simpl; rewrite length_skipn; lia).
  f_equal. simpl.
  rewrite firstn_app, length_firstn.
  replace (Nat.min n1 (length a1)) with n1 by lia.
  rewrite firstn_firstn.
  replace (Nat.min (n1 + n2) n1) with n1 by lia.
  rewrite HF1. f_equal.
  replace (n1 + n2 - n1) with n2 by lia.
  rewrite firstn_app, length_firstn.
  replace (n2 - Nat.min n2 (length src2)) with 0 by lia.
  rewrite firstn_firstn, Nat.min_id. simpl. apply app_nil_r.
Qed.

(** What the one-time authentication needs of the process state and of the
    IV it is given: the IV and the key fit the local array and are there to
    be read. *)
Definition auth_ready (g : globals) (iv_arg : list Z) : Prop :=
  g.(enc_iv_len) <= MAX_IV_LENGTH /\ g.(enc_iv_len) <= length iv_arg
  /\ g.(enc_key_len) <= MAX_KEY_LENGTH /\ g.(enc_key_len) <= length g.(enc_key).

Lemma auth_key_ok (g : globals) (iv_arg : list Z) :
  auth_ready g iv_arg ->
  auth_key g iv_arg
  = Ok (firstn g.(enc_iv_len) iv_arg ++ firstn g.(enc_key_len) g.(enc_key)).
Proof.
  intros [H1 [H2 [H3 H4]]]. unfold auth_key.
  apply copy_two; [assumption | assumption |].
  rewrite repeat_length. lia.
Qed.

Lemma hmac_into_hash_ok (key msg : list Z) :
  Laws.hmac_law B -> hmac_into_hash key msg = Ok (HMAC_SHA1 key msg).
Proof.
  intros HL. unfold hmac_into_hash.
  rewrite MemFacts.write_ok by (rewrite HL, repeat_length; simpl; lia).
  f_equal. rewrite HL. simpl. apply app_nil_r.
Qed.

(** the IV that a context holds; a null context has none *)
Definition iv_of (ctx : option enc_ctx_t) : list Z :=
  match ctx with
  | Some c => c.(evp).(iv)
  | None => []
  end.

(** What the chunk authentication needs of the process state and of the
    context: the IV fits the local array and is there to be read. *)
Definition chunk_ready (g : globals) (ctx : option enc_ctx_t) : Prop :=
  g.(enc_iv_len) <= MAX_IV_LENGTH /\ g.(enc_iv_len) <= length (iv_of ctx).

(** the key of the chunk with number [counter] *)
Definition chunk_key_of (g : globals) (ctx : option enc_ctx_t) (counter : Z)
  : list Z :=
  firstn g.(enc_iv_len) (iv_of ctx) ++ htonl_bytes counter.

Lemma chunk_key_ok (g : globals) (ctx : option enc_ctx_t) (counter : Z) :
  chunk_ready g ctx ->
  chunk_key g ctx counter = Ok (chunk_key_of g ctx counter).
Proof.
  intros [H1 H2]. unfold chunk_key, chunk_key_of. fold (iv_of ctx).
  unfold MAX_IV_LENGTH in *.
  destruct (MemFacts.memcpy_ex (repeat 0%Z (16 + 4)) 0 (iv_of ctx) 0
              g.(enc_iv_len)) as [a1 [E1 [L1 [F1 _]]]].
  { simpl. lia. }
  { rewrite repeat_length. lia. }
  rewrite E1, bind_Ok.
  rewrite repeat_length in L1.
  destruct (MemFacts.write_ex a1 g.(enc_iv_len) (htonl_bytes counter))
    as [a2 [E2 [L2 [F2 _]]]].
  { rewrite L1. simpl. lia. }
  rewrite E2, bind_Ok.
  rewrite MemFacts.read_ok by (rewrite L2, L1; lia).
  f_equal. simpl skipn. simpl length in F2. rewrite F2.
  f_equal. simpl in F1. exact F1.
Qed.

(** The flag of a round of [ss_check_hash]: a round that does not complete
    a chunk raises none; the round that completes a chunk raises it exactly
    when the 10 bytes received after the length differ from the first 10 of
    the digest of the payload. *)
Lemma check_hash_round_flag (g : globals) (ctx : option enc_ctx_t)
      (capacity blen i : nat) (st st' : check_state) (bad : bool) :
  Laws.hmac_law B -> chunk_ready g ctx ->
  check_hash_round g ctx capacity blen i st = Ok (bad, st') ->
  let c' := st'.(cs_chunk) in
  let received := firstn ONETIMEAUTH_BYTES
                         (skipn CLEN_BYTES c'.(chunk_buf).(array)) in
  let payload := firstn c'.(chunk_len) (skipn AUTH_BYTES c'.(chunk_buf).(array)) in
  let computed := HMAC_SHA1 (chunk_key_of g ctx st.(cs_chunk).(chunk_counter))
                            payload in
  if S st.(cs_cidx) =? c'.(chunk_len) + AUTH_BYTES
  then bad = false <-> received = firstn ONETIMEAUTH_BYTES computed
  else bad = false.
Proof.
  intros HL Hready H. unfold check_hash_round in H.
  apply bind_inv in H. destruct H as [b [Eb H]].
  apply bind_inv in H. destruct H as [ca [Eca H]].
  apply bind_inv in H. destruct H as [[cbuf clen] [Ec H]].
  cbv beta iota zeta in H.
  destruct (S (cs_cidx st) =? clen + AUTH_BYTES) eqn:Efull.
  - rewrite chunk_key_ok in H by assumption. rewrite bind_Ok in H.
    apply bind_inv in H. destruct H as [msg [Emsg H]].
    rewrite hmac_into_hash_ok in H by assumption. rewrite bind_Ok in H.
    apply bind_inv in H. destruct H as [mac [Emac H]].
    pose proof (MemFacts.read_length _ _ _ _ Emsg) as [_ Bmsg].
    pose proof (MemFacts.read_length _ _ _ _ Emac) as [Lmac Bmac].
    rewrite MemFacts.read_ok in Emsg by assumption. apply Ok_inj in Emsg.
    rewrite MemFacts.read_ok in Emac by assumption. apply Ok_inj in Emac.
    assert (Hcmp : safe_memcmp (HMAC_SHA1 (chunk_key_of g ctx
                                             (chunk_counter (cs_chunk st))) msg)
                               mac ONETIMEAUTH_BYTES = 0%Z
                   <-> mac = firstn ONETIMEAUTH_BYTES
                               (HMAC_SHA1 (chunk_key_of g ctx
                                             (chunk_counter (cs_chunk st))) msg)).
    { rewrite safe_memcmp_firstn.
      - rewrite (firstn_all2 mac) by lia. split; intros E; now symmetry.
      - rewrite HL. unfold ONETIMEAUTH_BYTES. lia.
      - lia. }
    destruct (safe_memcmp _ mac ONETIMEAUTH_BYTES =? 0)%Z eqn:Ecmp;
      cbn [negb] in H.
    + apply Z.eqb_eq in Ecmp.
      apply bind_inv in H. destruct H as [a1 [_ H]].
      apply bind_inv in H. destruct H as [a2 [_ H]].
      apply Ok_inj in H. apply pair_inj in H. destruct H as [<- <-].
      cbn [cs_chunk chunk_len chunk_buf]. rewrite Efull.
      rewrite Emsg, Emac. split; [intros _; now apply Hcmp | reflexivity].
    + apply Z.eqb_neq in Ecmp.
      apply Ok_inj in H. apply pair_inj in H. destruct H as [<- <-].
      cbn [cs_chunk chunk_len chunk_buf]. rewrite Efull.
      rewrite Emsg, Emac. split; [discriminate|].
      intros E. exfalso. now apply Ecmp, Hcmp.
  - apply Ok_inj in H. apply pair_inj in H. destruct H as [<- <-].
    cbn [cs_chunk chunk_len]. rewrite Efull. reflexivity.
Qed.

(** [ss_onetimeauth_verify] returns what [safe_memcmp] finds between the
    last 10 bytes of the buffer and the digest of the bytes before them,
    keyed by the IV and the key: 0 exactly when the 10 bytes are the first
    10 of the digest. *)
Lemma ss_onetimeauth_verify_spec (g : globals) (buf : buffer_t) (iv_arg : list Z) :
  Laws.hmac_law B -> auth_ready g iv_arg ->
  ONETIMEAUTH_BYTES <= buf.(len) -> buf.(len) <= length buf.(array) ->
  let n := buf.(len) - ONETIMEAUTH_BYTES in
  let key := firstn g.(enc_iv_len) iv_arg ++ firstn g.(enc_key_len) g.(enc_key) in
  let msg := firstn n buf.(array) in
  let mac := firstn ONETIMEAUTH_BYTES (skipn n buf.(array)) in
  ss_onetimeauth_verify g buf iv_arg
  = Ok (safe_memcmp mac (HMAC_SHA1 key msg) ONETIMEAUTH_BYTES)
  /\ (safe_memcmp mac (HMAC_SHA1 key msg) ONETIMEAUTH_BYTES = 0%Z
      <-> mac = firstn ONETIMEAUTH_BYTES (HMAC_SHA1 key msg)).
Proof.
  intros HL Hready Hlen Hcap n key msg mac.
  assert (Hmac : length mac = ONETIMEAUTH_BYTES).
  { unfold mac. rewrite length_firstn, length_skipn. unfold n. lia. }
  split.
  - unfold ss_onetimeauth_verify.
    rewrite auth_key_ok by assumption. rewrite bind_Ok.
    destruct (Nat.ltb_spec (len buf) ONETIMEAUTH_BYTES) as [H | _]; [lia|].
    fold n. rewrite MemFacts.read_ok by (unfold n; lia). rewrite bind_Ok.
    rewrite hmac_into_hash_ok by assumption. rewrite bind_Ok.
    rewrite MemFacts.read_ok by (unfold n; lia). rewrite bind_Ok.
    reflexivity.
  - rewrite safe_memcmp_firstn.
    + rewrite firstn_all2 by lia. reflexivity.
    + lia.
    + rewrite HL. unfold ONETIMEAUTH_BYTES. lia.
Qed.

(** *** Buffers *)

(** A buffer as [balloc] and [brealloc] keep it: the array has the
    capacity recorded, and the length is within it. *)
Definition buffer_ok (b : buffer_t) : Prop :=
  length b.(array) = b.(capacity) /\ b.(len) <= b.(capacity).

Lemma brealloc_spec (b : buffer_t) (n cap : nat) :
  length b.(array) = b.(capacity) ->
  length (brealloc b n cap).(array) = (brealloc b n cap).(capacity)
  /\ n <= (brealloc b n cap).(capacity)
  /\ cap <= (brealloc b n cap).(capacity)
  /\ b.(capacity) <= (brealloc b n cap).(capacity)
  /\ (brealloc b n cap).(len) = b.(len)
  /\ (brealloc b n cap).(idx) = b.(idx)
  /\ forall k, k <= b.(capacity) ->
       firstn k (brealloc b n cap).(array) = firstn k b.(array).
Proof.
  intros HL. unfold brealloc.
  destruct (Nat.ltb_spec (capacity b) (Nat.max n cap)) as [Hlt | Hge];
    cbn [array capacity len idx].
  - rewrite MemFacts.resize_length.
    repeat split; try lia.
    intros k Hk. apply MemFacts.resize_firstn; lia.
  - repeat split; try lia; try assumption.
Qed.


(** C10.  [safe_memcmp] on two arrays of at least [n] bytes returns 0 when
    the first [n] bytes of the two are equal one by one, and 1 when they are
    not.  Hence [ss_onetimeauth_verify] returns 0 (the header is accepted)
    exactly when the last 10 bytes of the buffer are the first 10 bytes of
    the digest computed over the bytes before them, and the round of
    [ss_check_hash] that completes a chunk lets it pass exactly when the 10
    bytes received after the length are the first 10 bytes of the digest
    computed over the payload. *)
Theorem mac_comparison_decides_equality
        (s1 s2 : list Z) (n : nat)
        (g : globals) (buf : buffer_t) (iv_arg : list Z)
        (ctx : option enc_ctx_t) (capacity blen i : nat)
        (st st' : check_state) (bad : bool) :
  n <= length s1 -> n <= length s2 ->
  Laws.hmac_law B -> auth_ready g iv_arg ->
  ONETIMEAUTH_BYTES <= buf.(len) -> buf.(len) <= length buf.(array) ->
  chunk_ready g ctx ->
  check_hash_round g ctx capacity blen i st = Ok (bad, st') ->
  S st.(cs_cidx) = st'.(cs_chunk).(chunk_len) + AUTH_BYTES ->
  (safe_memcmp s1 s2 n = 0%Z
   <-> forall p, p < n -> nth p s1 0%Z = nth p s2 0%Z)
  /\ (safe_memcmp s1 s2 n = 0%Z <-> firstn n s1 = firstn n s2)
  /\ (safe_memcmp s1 s2 n = 1%Z <-> firstn n s1 <> firstn n s2)
  /\ (exists v,
         ss_onetimeauth_verify g buf iv_arg = Ok v
         /\ (v = 0%Z
             <-> firstn ONETIMEAUTH_BYTES
                        (skipn (buf.(len) - ONETIMEAUTH_BYTES) buf.(array))
                 = firstn ONETIMEAUTH_BYTES
                     (HMAC_SHA1
                        (firstn g.(enc_iv_len) iv_arg
                         ++ firstn g.(enc_key_len) g.(enc_key))
                        (firstn (buf.(len) - ONETIMEAUTH_BYTES) buf.(array)))))
  /\ (bad = false
      <-> firstn ONETIMEAUTH_BYTES
                 (skipn CLEN_BYTES st'.(cs_chunk).(chunk_buf).(array))
          = firstn ONETIMEAUTH_BYTES
              (HMAC_SHA1
                 (chunk_key_of g ctx st.(cs_chunk).(chunk_counter))
                 (firstn st'.(cs_chunk).(chunk_len)
                         (skipn AUTH_BYTES st'.(cs_chunk).(chunk_buf).(array))))).
Proof.
  intros H1 H2 HL Hauth Hlen Hcap Hchunk Hround Hlast.
  split; [apply safe_memcmp_zero|].
  split; [now apply safe_memcmp_firstn|].
  split.
  - pose proof (safe_memcmp_firstn s1 s2 n H1 H2) as Hz.
    destruct (safe_memcmp_bool s1 s2 n) as [E | E]; rewrite E.
    + split; [discriminate|]. intros Hne. exfalso. apply Hne, Hz, E.
    + split; [|reflexivity]. intros _ Heq. apply Hz in Heq.
      rewrite E in Heq. discriminate Heq.
  - split.
    + destruct (ss_onetimeauth_verify_spec g buf iv_arg HL Hauth Hlen Hcap)
        as [E Hz].
      eexists. split; [exact E | exact Hz].
    + pose proof (check_hash_round_flag g ctx capacity blen i st st' bad
                    HL Hchunk Hround) as Hflag.
      cbv zeta in Hflag. rewrite Hlast, Nat.eqb_refl in Hflag. exact Hflag.
Qed.

(** *** The replay cache *)






(** *** The first call of [ss_decrypt] on a context *)

(** the local [iv] of [ss_decrypt] after the [memcpy] from the buffer *)
Definition iv_local_of (g : globals) (cipher : buffer_t) : list Z :=
  firstn g.(enc_iv_len) cipher.(array)
  ++ skipn g.(enc_iv_len) (repeat 0%Z MAX_IV_LENGTH).

(** What the cipher of the process makes of [input] in a context that has
    its key and IV and has not been used: the value [err] of the source and
    the bytes written. *)
Definition crypt_bytes (g : globals) (e : cipher_ctx_t) (input : list Z)
  : Z * list Z :=
  if (SALSA20 <=? g.(enc_method))%Z then
    (1%Z, match crypto_stream_xor_ic input e.(iv) 0 g.(enc_key) g.(enc_method) with
          | Some out => out
          | None => []
          end)
  else let '(err, _, out) := EVP_CipherUpdate e.(evp_ctx) input in (err, out).

(** The replay cache lets the IV [key] in, and the process state is then
    [g1]; the methods table and rc4 have no cache to ask. *)
Definition admits (g : globals) (key : list Z) (g1 : globals) : Prop :=
  if (RC4_MD5 <=? g.(enc_method))%Z
  then exists c, g.(iv_cache) = Some c /\ cache_key_exist c key = false
                 /\ g1 = set_iv_cache g (Some (cache_insert c key))
  else g1 = g.

Lemma iv_local_key (g : globals) (cipher : buffer_t) :
  g.(enc_iv_len) <= length cipher.(array) ->
  firstn g.(enc_iv_len) (skipn 0 (iv_local_of g cipher))
  = firstn g.(enc_iv_len) cipher.(array).
Proof.
  intros H. unfold iv_local_of. simpl skipn.
  rewrite firstn_app, length_firstn.
  replace (enc_iv_len g - Nat.min (enc_iv_len g) (length (array cipher)))
    with 0 by lia.
  rewrite firstn_firstn, Nat.min_id. simpl. apply app_nil_r.
Qed.

Lemma stream_xor_some (m n : list Z) (ic : Z) (k : list Z) (method : Z) :
  Laws.stream_law B -> (SALSA20 <= method < CIPHER_NUM)%Z ->
  exists out,
    crypto_stream_xor_ic m n ic k method = Some out
    /\ length out = length m
    /\ crypto_stream_xor_ic out n ic k method = Some m.
Proof.
  intros [H1 [H2 H3]] Hm. unfold crypto_stream_xor_ic.
  unfold SALSA20, CHACHA20, CHACHA20IETF, CIPHER_NUM in *.
  destruct (Z.eqb_spec method 15) as [E | N1].
  { eexists. split; [reflexivity|]. destruct (H1 m n ic k) as [L I].
    split; [exact L | now rewrite I]. }
  destruct (Z.eqb_spec method 16) as [E | N2].
  { eexists. split; [reflexivity|]. destruct (H2 m n ic k) as [L I].
    split; [exact L | now rewrite I]. }
  destruct (Z.eqb_spec method 17) as [E | N3]; [|lia].
  eexists. split; [reflexivity|].
  destruct (H3 m n (ic mod UINT32_MOD)%Z k) as [L I].
  split; [exact L | now rewrite I].
Qed.

(** The first call on a context whose IV is let in returns, -1 when the
    library reports an error and 0 with the bytes it wrote otherwise. *)
Lemma ss_decrypt_admitted (g g1 : globals) (cipher : buffer_t) (ctx : enc_ctx_t)
      (cap : nat) (e : cipher_ctx_t) :
  Laws.evp_length_law B -> Laws.stream_law B ->
  buffer_ok cipher -> buffer_ok g.(tmp_decrypt) ->
  ctx.(init) = 0%Z -> (g.(enc_method) < CIPHER_NUM)%Z ->
  g.(enc_iv_len) <= MAX_IV_LENGTH -> g.(enc_iv_len) <= cipher.(len) ->
  cipher_context_set_iv g ctx.(evp) (iv_local_of g cipher) g.(enc_iv_len) 0 = Ok e ->
  admits g (firstn g.(enc_iv_len) cipher.(array)) g1 ->
  let body := firstn (cipher.(len) - g.(enc_iv_len))
                     (skipn g.(enc_iv_len) cipher.(array)) in
  exists td ctx' p,
    ss_decrypt g cipher (Some ctx) cap
    = Ok (if (fst (crypt_bytes g e body) =? 0)%Z then (-1)%Z else 0%Z,
          set_tmp_decrypt g1 td, p, Some ctx')
    /\ buffer_ok td
    /\ (fst (crypt_bytes g e body) <> 0%Z ->
        buffer_ok p /\ contents p = snd (crypt_bytes g e body)).
Proof.
  intros Hlen Hstream [Lc Bc] [Lt Bt] Hinit Hm Hiv Hivc Hset Hadm body.
  unfold ss_decrypt. rewrite Hinit.
  change (0 =? 0)%Z with true. cbv beta iota zeta.
  destruct (Nat.ltb_spec (len cipher) (enc_iv_len g)) as [Hlt|_]; [lia|].
  rewrite MemFacts.memcpy_ok.
  2:{ simpl. lia. }
  2:{ rewrite repeat_length. simpl. lia. }
  rewrite bind_Ok.
  change (firstn 0 (repeat 0%Z MAX_IV_LENGTH) ++
          firstn (enc_iv_len g) (skipn 0 (array cipher)) ++
          skipn (0 + enc_iv_len g) (repeat 0%Z MAX_IV_LENGTH))
    with (iv_local_of g cipher).
  rewrite Hset, bind_Ok.
  destruct (brealloc_spec (tmp_decrypt g) (len cipher) cap Lt)
    as [Lp [Bp1 [Bp2 [_ [_ [_ _]]]]]].
  set (p0 := brealloc (tmp_decrypt g) (len cipher) cap) in *.
  cbn [len set_len].
  match goal with
  | |- context [bind ?m _] =>
      assert (E0 : m = Ok (false, enc_iv_len g, g1,
                           {| init := 1; counter := 0; evp := e |},
                           set_len (set_len p0 (len cipher))
                                   (len cipher - enc_iv_len g)))
  end.
  { unfold admits in Hadm.
    destruct (RC4_MD5 <=? enc_method g)%Z.
    - destruct Hadm as [c [Ec [Ek ->]]]. rewrite Ec.
      rewrite MemFacts.read_ok.
      2:{ unfold iv_local_of. rewrite length_app, length_firstn, length_skipn,
            repeat_length. lia. }
      rewrite bind_Ok.
      rewrite (iv_local_key g cipher) by lia.
      rewrite Ek. reflexivity.
    - subst g1. reflexivity. }
  rewrite E0, bind_Ok. clear E0. cbv beta iota.
  assert (Eg : enc_method g1 = enc_method g /\ enc_key g1 = enc_key g).
  { unfold admits in Hadm. destruct (RC4_MD5 <=? enc_method g)%Z.
    - destruct Hadm as [c [_ [_ ->]]]. split; reflexivity.
    - subst g1. split; reflexivity. }
  destruct Eg as [Eg1 Eg2]. rewrite Eg1, Eg2.
  cbn [counter init evp len set_len array set_array].
  unfold crypt_bytes.
  destruct (SALSA20 <=? enc_method g)%Z eqn:Efam.
  - change (Z.to_nat (0 mod SODIUM_BLOCK_SIZE)) with 0.
    change (0 =? 0) with true. cbv beta iota.
    change (0 / SODIUM_BLOCK_SIZE)%Z with 0%Z.
    rewrite !Nat.add_0_r. rewrite bind_Ok. rewrite !Nat.add_0_r.
    rewrite MemFacts.read_ok by lia. rewrite bind_Ok. fold body.
    destruct (stream_xor_some body (iv e) 0 (enc_key g) (enc_method g) Hstream)
      as [out [Eo [Lo _]]].
    { apply Z.leb_le in Efam. lia. }
    rewrite Eo. cbn [write_opt fst snd].
    assert (Lbody : length body = len cipher - enc_iv_len g).
    { unfold body. rewrite length_firstn, length_skipn. lia. }
    destruct (brealloc_spec
                (set_len (set_len p0 (len cipher)) (len cipher - enc_iv_len g))
                ((len cipher - enc_iv_len g) * 2) cap Lp)
      as [Lp1 [Bp3 [_ [_ [Ep1 [_ _]]]]]].
    set (p1 := brealloc _ ((len cipher - enc_iv_len g) * 2) cap) in *.
    cbn [len set_len] in Ep1.
    destruct (MemFacts.write_ex (array p1) 0 out) as [a1 [E1 [L1 [F1 _]]]].
    { lia. }
    rewrite E1, !bind_Ok. cbv beta iota.
    change (1 =? 0)%Z with false. cbv iota.
    cbn [len set_array array]. rewrite Ep1.
    destruct (brealloc_spec cipher (len cipher - enc_iv_len g) cap Lc)
      as [Lc1 [Bc1 [_ [_ [_ [_ _]]]]]].
    set (c1 := brealloc cipher (len cipher - enc_iv_len g) cap) in *.
    destruct (MemFacts.memcpy_ex (array c1) 0 a1 0 (len cipher - enc_iv_len g))
      as [a2 [E2 [L2 [F2 _]]]]; [lia | lia |].
    rewrite E2, bind_Ok.
    eexists. eexists. eexists. split; [reflexivity|].
    split.
    { split; cbn [array capacity len set_array]; lia. }
    intros _. split.
    { split; cbn [array capacity len set_array set_len]; lia. }
    unfold contents. cbn [array len set_array set_len].
    simpl in F2. rewrite F2. simpl in F1.
    replace (len cipher - enc_iv_len g) with (length out) by lia. exact F1.
  - rewrite MemFacts.read_ok by lia. rewrite bind_Ok. fold body.
    assert (Lbody : length body = len cipher - enc_iv_len g).
    { unfold body. rewrite length_firstn, length_skipn. lia. }
    pose proof (Hlen (evp_ctx e) body) as Lo.
    destruct (EVP_CipherUpdate (evp_ctx e) body) as [[err x] out].
    cbn [fst snd] in *.
    destruct (MemFacts.write_ex (array p0) 0 out) as [a1 [E1 [L1 [F1 _]]]].
    { lia. }
    rewrite E1, !bind_Ok. cbv beta iota.
    destruct (Z.eqb_spec err 0) as [E | N].
    + eexists. eexists. eexists. split; [reflexivity|].
      split; [|intros C; contradiction].
      split; cbn [array capacity len set_array set_len]; lia.
    + cbn [len set_array set_len array].
      destruct (brealloc_spec cipher (length out) cap Lc)
        as [Lc1 [Bc1 [_ [_ [_ [_ _]]]]]].
      set (c1 := brealloc cipher (length out) cap) in *.
      destruct (MemFacts.memcpy_ex (array c1) 0 a1 0 (length out))
        as [a2 [E2 [L2 [F2 _]]]]; [lia | lia |].
      rewrite E2, bind_Ok.
      eexists. eexists. eexists. split; [reflexivity|].
      split.
      { split; cbn [array capacity len set_array set_len]; lia. }
      intros _. split.
      { split; cbn [array capacity len set_array set_len]; lia. }
      unfold contents. cbn [array len set_array set_len].
      simpl in F2. rewrite F2. simpl in F1. exact F1.
Qed.

(** The first call on a context whose IV the cache holds returns -1 and
    releases the buffer. *)
Lemma ss_decrypt_replay (g : globals) (cipher : buffer_t) (ctx : enc_ctx_t)
      (cap : nat) (e : cipher_ctx_t) (c : cache) :
  ctx.(init) = 0%Z -> (RC4_MD5 <= g.(enc_method))%Z ->
  g.(enc_iv_len) <= MAX_IV_LENGTH -> g.(enc_iv_len) <= cipher.(len) ->
  cipher.(len) <= length cipher.(array) ->
  cipher_context_set_iv g ctx.(evp) (iv_local_of g cipher) g.(enc_iv_len) 0 = Ok e ->
  g.(iv_cache) = Some c ->
  cache_key_exist c (firstn g.(enc_iv_len) cipher.(array)) = true ->
  ss_decrypt g cipher (Some ctx) cap
  = Ok ((-1)%Z,
        set_tmp_decrypt g
          (set_len (brealloc g.(tmp_decrypt) cipher.(len) cap)
                   (cipher.(len) - g.(enc_iv_len))),
        bfree cipher, Some {| init := 1; counter := 0; evp := e |}).
Proof.
  intros Hinit Hm Hiv Hivc Hcap Hset Hc Hseen.
  unfold ss_decrypt. rewrite Hinit.
  change (0 =? 0)%Z with true. cbv beta iota zeta.
  destruct (Nat.ltb_spec (len cipher) (enc_iv_len g)) as [Hlt|_]; [lia|].
  rewrite MemFacts.memcpy_ok.
  2:{ simpl. lia. }
  2:{ rewrite repeat_length. simpl. lia. }
  rewrite bind_Ok.
  change (firstn 0 (repeat 0%Z MAX_IV_LENGTH) ++
          firstn (enc_iv_len g) (skipn 0 (array cipher)) ++
          skipn (0 + enc_iv_len g) (repeat 0%Z MAX_IV_LENGTH))
    with (iv_local_of g cipher).
  rewrite Hset, bind_Ok.
  apply Z.leb_le in Hm. rewrite Hm, Hc.
  rewrite MemFacts.read_ok.
  2:{ unfold iv_local_of. rewrite length_app, length_firstn, length_skipn,
        repeat_length. lia. }
  rewrite bind_Ok.
  rewrite (iv_local_key g cipher) by lia.
  rewrite Hseen, bind_Ok. reflexivity.
Qed.

(** The first call of [ss_encrypt] on a context returns, -1 when the
    library reports an error and 0 with the IV and the bytes the cipher
    wrote otherwise. *)
Lemma ss_encrypt_first (g : globals) (plain : buffer_t) (ctx : enc_ctx_t)
      (cap : nat) (e : cipher_ctx_t) :
  Laws.evp_length_law B -> Laws.stream_law B ->
  buffer_ok plain -> buffer_ok g.(tmp_encrypt) ->
  ctx.(init) = 0%Z -> (g.(enc_method) < CIPHER_NUM)%Z ->
  cipher_context_set_iv g ctx.(evp) ctx.(evp).(iv) g.(enc_iv_len) 1 = Ok e ->
  g.(enc_iv_len) <= length e.(iv) ->
  exists te ctx' c,
    ss_encrypt g plain (Some ctx) cap
    = Ok (if (fst (crypt_bytes g e (contents plain)) =? 0)%Z
          then (-1)%Z else 0%Z,
          set_tmp_encrypt g te, c, Some ctx')
    /\ buffer_ok te
    /\ (fst (crypt_bytes g e (contents plain)) <> 0%Z ->
        buffer_ok c
        /\ contents c = firstn g.(enc_iv_len) e.(iv)
                        ++ snd (crypt_bytes g e (contents plain))).
Proof.
  intros Hlen Hstream [Lp Bp] [Lt Bt] Hinit Hm Hset Hiv.
  unfold ss_encrypt. rewrite Hinit.
  change (0 =? 0)%Z with true. cbv beta iota zeta.
  rewrite Hset, bind_Ok.
  destruct (brealloc_spec (tmp_encrypt g) (enc_iv_len g + len plain) cap Lt)
    as [Lc [Bc1 [Bc2 [_ [_ [_ _]]]]]].
  set (c0 := brealloc (tmp_encrypt g) (enc_iv_len g + len plain) cap) in *.
  cbn [len set_len array set_array].
  destruct (MemFacts.memcpy_ex (array c0) 0 (iv e) 0 (enc_iv_len g))
    as [a1 [E1 [L1 [F1 _]]]]; [lia | lia |].
  rewrite E1, !bind_Ok. cbv beta iota.
  simpl in F1.
  cbn [counter init evp len set_len array set_array].
  unfold crypt_bytes.
  assert (LP : length (contents plain) = len plain).
  { unfold contents. rewrite length_firstn. lia. }
  destruct (SALSA20 <=? enc_method g)%Z eqn:Efam.
  - change (Z.to_nat (0 mod SODIUM_BLOCK_SIZE)) with 0.
    change (0 =? 0) with true. cbv beta iota.
    change (0 / SODIUM_BLOCK_SIZE)%Z with 0%Z.
    change (0 + len plain) with (len plain).
    rewrite bind_Ok. rewrite Nat.add_0_r.
    rewrite MemFacts.read_ok by lia. rewrite bind_Ok.
    change (firstn (len plain) (skipn 0 (array plain))) with (contents plain).
    destruct (stream_xor_some (contents plain) (iv e) 0 (enc_key g)
                (enc_method g) Hstream) as [out [Eo [Lo _]]].
    { apply Z.leb_le in Efam. lia. }
    rewrite Eo. cbn [write_opt fst snd].
    assert (Lc0 : length (array (set_array (set_len c0 (len plain)) a1))
                  = capacity (set_array (set_len c0 (len plain)) a1)).
    { cbn [array capacity set_array set_len]. lia. }
    destruct (brealloc_spec (set_array (set_len c0 (len plain)) a1)
                (enc_iv_len g + len plain * 2) cap Lc0)
      as [Lc1 [Bc3 [_ [Bc4 [Ec1 [_ Fc1]]]]]].
    set (c1 := brealloc _ (enc_iv_len g + len plain * 2) cap) in *.
    cbn [len capacity array set_array set_len] in Ec1, Fc1, Bc4.
    destruct (MemFacts.write_ex (array c1) (enc_iv_len g) out)
      as [a2 [E2 [L2 [F2 _]]]]; [lia|].
    rewrite E2, !bind_Ok. cbv beta iota.
    change (1 =? 0)%Z with false. cbv iota.
    cbn [len set_array array]. rewrite Ec1.
    destruct (brealloc_spec plain (enc_iv_len g + len plain) cap Lp)
      as [Lp1 [Bp1 [_ [_ [_ [_ _]]]]]].
    set (p1 := brealloc plain (enc_iv_len g + len plain) cap) in *.
    destruct (MemFacts.memcpy_ex (array p1) 0 a2 0 (enc_iv_len g + len plain))
      as [a3 [E3 [L3 [F3 _]]]]; [lia | lia |].
    rewrite E3, bind_Ok.
    eexists. eexists. eexists. split; [reflexivity|].
    split.
    { split; cbn [array capacity len set_array]; lia. }
    intros _. split.
    { split; cbn [array capacity len set_array set_len]; lia. }
    unfold contents at 1. cbn [array len set_array set_len].
    simpl in F3. rewrite F3.
    replace (enc_iv_len g + len plain) with (enc_iv_len g + length out) by lia.
    rewrite F2. f_equal.
    rewrite Fc1 by lia. exact F1.
  - rewrite MemFacts.read_ok by lia. rewrite bind_Ok.
    change (firstn (len plain) (skipn 0 (array plain))) with (contents plain).
    pose proof (Hlen (evp_ctx e) (contents plain)) as Lo.
    destruct (EVP_CipherUpdate (evp_ctx e) (contents plain)) as [[err x] out].
    cbn [fst snd] in *.
    destruct (MemFacts.write_ex a1 (enc_iv_len g) out) as [a2 [E2 [L2 [F2 _]]]].
    { lia. }
    rewrite E2, !bind_Ok. cbv beta iota.
    destruct (Z.eqb_spec err 0) as [E | N].
    + eexists. eexists. eexists. split; [reflexivity|].
      split; [|intros C; contradiction].
      split; cbn [array capacity len set_array set_len]; lia.
    + cbn [len set_array set_len array].
      destruct (brealloc_spec plain (enc_iv_len g + length out) cap Lp)
        as [Lp1 [Bp1 [_ [_ [_ [_ _]]]]]].
      set (p1 := brealloc plain (enc_iv_len g + length out) cap) in *.
      destruct (MemFacts.memcpy_ex (array p1) 0 a2 0 (enc_iv_len g + length out))
        as [a3 [E3 [L3 [F3 _]]]]; [lia | lia |].
      rewrite E3, bind_Ok.
      eexists. eexists. eexists. split; [reflexivity|].
      split.
      { split; cbn [array capacity len set_array set_len]; lia. }
      intros _. split.
      { split; cbn [array capacity len set_array set_len]; lia. }
      unfold contents at 1. cbn [array len set_array set_len].
      simpl in F3. rewrite F3, F2. f_equal. exact F1.
Qed.



(** *** The table cipher on a buffer *)

(** the values an array element takes *)
Definition is_byte (b : Z) : Prop := (0 <= b < 256)%Z.

(** the is_byte that a table has for [b] *)
Definition table_at (table : list Z) (b : Z) : Z :=
  nth (Z.to_nat (b mod 256)%Z) table 0%Z.

Lemma substitute_ok (table bytes : list Z) :
  length table = 256 ->
  substitute table bytes = Ok (map (table_at table) bytes).
Proof.
  intros HL. induction bytes as [|b rest IH]; [reflexivity|].
  cbn [substitute map].
  rewrite MemFacts.get_ok.
  2:{ rewrite HL. pose proof (Z.mod_pos_bound b 256). lia. }
  rewrite bind_Ok, IH, bind_Ok. reflexivity.
Qed.

Lemma table_crypt_ok (table : list Z) (buf : buffer_t) :
  length table = 256 -> buffer_ok buf ->
  exists b',
    table_crypt table buf = Ok b'
    /\ buffer_ok b'
    /\ contents b' = map (table_at table) (contents buf).
Proof.
  intros HL [La Bd]. unfold table_crypt.
  rewrite MemFacts.read_ok by lia. rewrite bind_Ok.
  change (firstn (len buf) (skipn 0 (array buf))) with (contents buf).
  rewrite substitute_ok by assumption. rewrite bind_Ok.
  assert (LP : length (map (table_at table) (contents buf)) = len buf).
  { rewrite length_map. unfold contents. rewrite length_firstn. lia. }
  destruct (MemFacts.write_ex (array buf) 0 (map (table_at table) (contents buf)))
    as [a [E [L [F _]]]]; [lia|].
  rewrite E, bind_Ok. eexists. split; [reflexivity|].
  split.
  - split; cbn [array capacity len set_array]; lia.
  - unfold contents at 1. cbn [array len set_array].
    rewrite LP in F. simpl in F. exact F.
Qed.

Lemma table_round_trip (enc dec : list Z) (l : list Z) :
  tables_inverse enc dec -> Forall is_byte l ->
  map (table_at dec) (map (table_at enc) l) = l.
Proof.
  intros [_ [_ Hinv]] Hl. rewrite map_map.
  induction Hl as [|b l Hb _ IH]; [reflexivity|].
  cbn [map]. rewrite IH. f_equal.
  unfold table_at. destruct (Hinv b Hb) as [Hr He].
  rewrite (Z.mod_small b) by exact Hb.
  rewrite Z.mod_small by exact Hr. exact He.
Qed.

(** *** The process state and the contexts of a keyed cipher *)

(** The process state as [enc_key_init] leaves it for method [m], whatever
    the replay cache holds and the two [tmp] buffers are. *)
Definition keyed (m : Z) (g : globals) : Prop :=
  (TABLE < m < CIPHER_NUM)%Z /\ g.(enc_method) = m
  /\ length g.(enc_key) = MAX_KEY_LENGTH
  /\ g.(enc_iv_len) <= MAX_IV_LENGTH
  /\ (if (SALSA20 <=? m)%Z
      then g.(enc_iv_len) = nth (Z.to_nat m) supported_ciphers_iv_size 0
      else exists name cipher,
             EVP_get_cipherbyname name = Some cipher
             /\ get_cipher_type m = Some cipher
             /\ g.(enc_key_len) = cipher.(key_len)
             /\ g.(enc_iv_len) = if (m =? RC4_MD5)%Z then 16
                                 else cipher.(iv_len)).

Lemma get_cipher_type_named (m : Z) (cipher : cipher_kt_t) :
  get_cipher_type m = Some cipher ->
  exists name, EVP_get_cipherbyname name = Some cipher.
Proof.
  unfold get_cipher_type. intros H.
  destruct ((m <=? TABLE) || (CIPHER_NUM <=? m))%Z; [discriminate|].
  destruct (SALSA20 <=? _)%Z; [discriminate|].
  eexists. exact H.
Qed.

Lemma sodium_iv_size (m : Z) :
  (SALSA20 <= m < CIPHER_NUM)%Z ->
  nth (Z.to_nat m) supported_ciphers_iv_size 0 <= MAX_IV_LENGTH.
Proof.
  unfold SALSA20, CIPHER_NUM, MAX_IV_LENGTH. intros H.
  assert (E : m = 15%Z \/ m = 16%Z \/ m = 17%Z) by lia.
  destruct E as [-> | [-> | ->]]; simpl; lia.
Qed.

Lemma enc_key_init_keyed (g : globals) (m : Z) (pass : string) (g' : globals) :
  Laws.cipher_law B -> Laws.kdf_law B ->
  (TABLE < m < CIPHER_NUM)%Z ->
  length g.(enc_key) = MAX_KEY_LENGTH ->
  enc_key_init g m pass = Ok g' ->
  keyed m g'
  /\ g'.(iv_cache) = Some (cache_create 256)
  /\ g'.(tmp_encrypt) = g.(tmp_encrypt)
  /\ g'.(tmp_decrypt) = g.(tmp_decrypt).
Proof.
  intros Hcl Hkdf Hm HLk H. unfold enc_key_init in H.
  destruct ((m <=? TABLE) || (CIPHER_NUM <=? m))%Z eqn:E.
  { apply orb_true_iff in E. destruct E as [E | E]; apply Z.leb_le in E; lia. }
  apply bind_inv in H. destruct H as [oc [Ec H]].
  destruct oc as [cipher|]; [|discriminate].
  destruct (negb (EVP_get_digestbyname "MD5")); [discriminate|].
  pose proof (Hkdf cipher (string_bytes pass)) as [Hn Hk].
  destruct (EVP_BytesToKey cipher (string_bytes pass)) as [n key].
  cbn [fst snd] in Hn, Hk.
  apply bind_inv in H. destruct H as [k [Ek H]].
  destruct (n =? 0); [discriminate|].
  apply Ok_inj in H. subst g'.
  pose proof (MemFacts.write_length _ _ _ _ Ek) as Lk.
  cbn [enc_key set_iv_cache] in Lk.
  split; [|repeat split].
  unfold keyed.
  cbn [enc_method enc_key enc_key_len enc_iv_len].
  split; [exact Hm|]. split; [reflexivity|]. split; [lia|].
  unfold cipher_iv_size.
  destruct (Z.leb_spec SALSA20 m) as [Hs | Hs].
  - assert (Em : ((m =? SALSA20) || (m =? CHACHA20) || (m =? CHACHA20IETF))%Z
                 = true).
    { unfold SALSA20, CHACHA20, CHACHA20IETF, CIPHER_NUM in *.
      assert (E3 : m = 15%Z \/ m = 16%Z \/ m = 17%Z) by lia.
      destruct E3 as [-> | [-> | ->]]; reflexivity. }
    rewrite Em in Ec.
    destruct (sodium_init =? -1)%Z; [discriminate|].
    apply Ok_inj in Ec. apply Some_inj in Ec. subst cipher.
    cbn [iv_len].
    assert (Er : (m =? RC4_MD5)%Z = false).
    { apply Z.eqb_neq. unfold SALSA20, RC4_MD5 in *. lia. }
    rewrite Er. split; [|reflexivity].
    apply sodium_iv_size. lia.
  - assert (Em : ((m =? SALSA20) || (m =? CHACHA20) || (m =? CHACHA20IETF))%Z
                 = false).
    { unfold SALSA20, CHACHA20, CHACHA20IETF in *.
      repeat (apply orb_false_iff; split); apply Z.eqb_neq; lia. }
    rewrite Em in Ec. apply Ok_inj in Ec.
    destruct (get_cipher_type_named m cipher Ec) as [name En].
    destruct (Hcl name cipher En) as [Hiv _].
    split.
    + destruct (m =? RC4_MD5)%Z; [unfold MAX_IV_LENGTH; lia | exact Hiv].
    + exists name, cipher. repeat split; assumption.
Qed.

Lemma find_method_from (name : string) (names : list string) (m0 : Z) :
  (m0 <= find_method name names m0)%Z.
Proof.
  revert m0. induction names as [|n rest IH]; intros m0; simpl; [lia|].
  destruct (String.eqb name n); [lia|].
  specialize (IH (m0 + 1)%Z). lia.
Qed.

(** What [enc_init] leaves: the two tables for the table method, the key
    and an empty replay cache otherwise. *)
Lemma enc_init_state (pass : string) (method : option string) (m : Z)
      (g : globals) (log : list string) :
  Laws.cipher_law B -> Laws.kdf_law B ->
  enc_init globals0 pass method = Ok (m, g, log) ->
  g.(tmp_encrypt) = mkbuffer 0 0 0 [] /\ g.(tmp_decrypt) = mkbuffer 0 0 0 []
  /\ ((m = TABLE /\ g.(enc_iv_len) = 0
       /\ tables_inverse g.(enc_table) g.(dec_table))
      \/ (keyed m g /\ g.(iv_cache) = Some (cache_create 256))).
Proof.
  intros Hcl Hkdf H. unfold enc_init in H.
  set (ml := match method with
             | Some name => _
             | None => _
             end) in H.
  assert (Hml : (TABLE <= fst ml < CIPHER_NUM)%Z).
  { unfold ml. destruct method as [name|]; [|cbn; unfold TABLE, CIPHER_NUM; lia].
    destruct (Z.leb_spec CIPHER_NUM (find_method name supported_ciphers TABLE));
      cbn [fst].
    - unfold TABLE, CIPHER_NUM; lia.
    - pose proof (find_method_from name supported_ciphers TABLE). lia. }
  destruct ml as [m' log']. cbn [fst] in Hml.
  destruct (Z.eqb_spec m' TABLE) as [-> | Hne].
  - apply bind_inv in H. destruct H as [g' [Eg H]].
    apply Ok_inj in H. apply pair_inj in H. destruct H as [H _].
    apply pair_inj in H. destruct H as [<- <-].
    destruct (enc_table_init_ok globals0 pass) as [enc [dec [Et Hinv]]].
    rewrite Et in Eg. apply Ok_inj in Eg. subst g'.
    split; [reflexivity|]. split; [reflexivity|]. left. split; [reflexivity|].
    split; [reflexivity | exact Hinv].
  - apply bind_inv in H. destruct H as [g' [Eg H]].
    apply Ok_inj in H. apply pair_inj in H. destruct H as [H _].
    apply pair_inj in H. destruct H as [<- <-].
    destruct (enc_key_init_keyed globals0 m' pass g' Hcl Hkdf) as [Hk [Hc [Ht1 Ht2]]];
      [lia | reflexivity | exact Eg |].
    split; [exact Ht1|]. split; [exact Ht2|]. right. split; assumption.
Qed.

(** the library context of a new cipher context, before the key is set *)
Definition fresh_evp (g : globals) (enc : Z) : cipher_evp_t :=
  if (SALSA20 <=? g.(enc_method))%Z then EVP_zeroed
  else
    match get_cipher_type g.(enc_method) with
    | Some cipher =>
        let x1 := snd (EVP_CipherInit_ex (EVP_CIPHER_CTX_init EVP_zeroed)
                                         (Some cipher) None None enc) in
        let x2 := snd (EVP_CIPHER_CTX_set_key_length x1 g.(enc_key_len)) in
        if (RC4_MD5 <? g.(enc_method))%Z
        then EVP_CIPHER_CTX_set_padding x2 1 else x2
    | None => EVP_zeroed
    end.

(** the IV array of a new encrypt context *)
Definition fresh_iv (g : globals) (rnd : nat -> Z) : list Z :=
  rand_bytes rnd g.(enc_iv_len) ++ skipn g.(enc_iv_len) (repeat 0%Z MAX_IV_LENGTH).

Definition zero_iv : list Z := repeat 0%Z MAX_IV_LENGTH.

Lemma set_enc_iv_len_same (g : globals) (n : nat) :
  g.(enc_iv_len) = n -> set_enc_iv_len g n = g.
Proof. intros <-. destruct g. reflexivity. Qed.

Lemma fresh_iv_length (g : globals) (rnd : nat -> Z) :
  g.(enc_iv_len) <= MAX_IV_LENGTH -> length (fresh_iv g rnd) = MAX_IV_LENGTH.
Proof.
  intros H. unfold fresh_iv, rand_bytes.
  rewrite length_app, length_map, length_seq, length_skipn, repeat_length. lia.
Qed.

Lemma enc_ctx_init_keyed (g : globals) (m enc : Z) (rnd : nat -> Z) :
  Laws.evp_setup_law B -> keyed m g ->
  enc_ctx_init g m enc rnd
  = Ok (g, {| init := 0; counter := 0;
              evp := {| evp_ctx := fresh_evp g enc;
                        iv := if (enc =? 0)%Z then zero_iv
                              else fresh_iv g rnd |} |}).
Proof.
  intros Hsetup [Hm [Em [Lk [Hiv Hfam]]]].
  unfold enc_ctx_init, cipher_context_init, fresh_evp. rewrite Em.
  assert (E1 : ((m <=? TABLE) || (CIPHER_NUM <=? m))%Z = false).
  { apply orb_false_iff. split; apply Z.leb_gt; lia. }
  rewrite E1.
  assert (Hw : Mem.write zero_iv 0 (rand_bytes rnd (enc_iv_len g))
               = Ok (fresh_iv g rnd)).
  { rewrite MemFacts.write_ok.
    - unfold fresh_iv. unfold rand_bytes at 2.
      rewrite length_map, length_seq. reflexivity.
    - unfold rand_bytes, zero_iv.
      rewrite length_map, length_seq, repeat_length. lia. }
  destruct (SALSA20 <=? m)%Z eqn:Efam.
  - rewrite bind_Ok. cbv beta iota.
    rewrite (set_enc_iv_len_same g) by exact Hfam.
    destruct (enc =? 0)%Z; [reflexivity|].
    cbn [iv evp_ctx]. fold zero_iv. rewrite Hw, bind_Ok.
    reflexivity.
  - destruct Hfam as [name [cipher [En [Eg [Ekl Eil]]]]].
    rewrite Eg. cbn [evp_ctx iv].
    destruct (Hsetup name cipher (RC4_MD5 <? m)%Z [] [] enc En) as [R1 [R2 _]].
    cbv zeta in R1, R2.
    rewrite Ekl.
    destruct (EVP_CipherInit_ex (EVP_CIPHER_CTX_init EVP_zeroed) (Some cipher)
                                None None enc) as [r1 x1].
    cbn [fst snd] in *. subst r1. change (1 =? 0)%Z with false. cbv iota.
    destruct (EVP_CIPHER_CTX_set_key_length x1 (key_len cipher)) as [r2 x2].
    cbn [fst snd] in *. subst r2. change (1 =? 0)%Z with false. cbv iota.
    rewrite bind_Ok. cbv beta iota.
    destruct (enc =? 0)%Z; [reflexivity|].
    cbn [iv evp_ctx]. fold zero_iv.
    rewrite Hw, bind_Ok. reflexivity.
Qed.

(** the key that the library is given with the IV [iv_arg] *)
Definition true_key (g : globals) (iv_arg : list Z) : list Z :=
  if (g.(enc_method) =? RC4_MD5)%Z
  then MD5 (firstn 16 g.(enc_key) ++ firstn 16 iv_arg)
  else g.(enc_key).

(** the library context of a cipher context with its key and IV *)
Definition keyed_evp (g : globals) (iv_arg : list Z) (enc : Z) : cipher_evp_t :=
  if (SALSA20 <=? g.(enc_method))%Z then EVP_zeroed
  else
    match get_cipher_type g.(enc_method) with
    | Some cipher =>
        Laws.evp_keyed B cipher (RC4_MD5 <? g.(enc_method))%Z
                       (true_key g iv_arg) iv_arg enc
    | None => EVP_zeroed
    end.

Lemma set_iv_keyed (g : globals) (m enc : Z) (ctx_iv iv_arg : list Z) :
  Laws.evp_setup_law B -> keyed m g ->
  length iv_arg = MAX_IV_LENGTH -> length ctx_iv = MAX_IV_LENGTH ->
  cipher_context_set_iv g {| evp_ctx := fresh_evp g enc; iv := ctx_iv |}
                        iv_arg g.(enc_iv_len) enc
  = Ok {| evp_ctx := keyed_evp g iv_arg enc;
          iv := if (enc =? 0)%Z
                then firstn g.(enc_iv_len) iv_arg ++ skipn g.(enc_iv_len) ctx_iv
                else ctx_iv |}.
Proof.
  intros Hsetup [Hm [Em [Lk [Hiv Hfam]]]] La Lc.
  unfold cipher_context_set_iv, keyed_evp, fresh_evp. cbn [iv evp_ctx].
  assert (E0 : (if (enc =? 0)%Z
                then Mem.memcpy ctx_iv 0 iv_arg 0 (enc_iv_len g)
                else Ok ctx_iv)
               = Ok (if (enc =? 0)%Z
                     then firstn (enc_iv_len g) iv_arg
                          ++ skipn (enc_iv_len g) ctx_iv
                     else ctx_iv)).
  { destruct (enc =? 0)%Z; [|reflexivity].
    rewrite MemFacts.memcpy_ok by (simpl; lia). reflexivity. }
  rewrite E0, bind_Ok. clear E0.
  rewrite Em.
  destruct (SALSA20 <=? m)%Z eqn:Efam; [reflexivity|].
  destruct Hfam as [name [cipher [En [Eg [Ekl Eil]]]]].
  rewrite Eg.
  assert (Ek : (if (m =? RC4_MD5)%Z
                then key_iv <- Mem.memcpy (repeat 0%Z 32) 0 (enc_key g) 0 16 ;;
                     key_iv <- Mem.memcpy key_iv 16 iv_arg 0 16 ;;
                     enc_md5 key_iv 32
                else Ok (enc_key g))
               = Ok (true_key g iv_arg)).
  { unfold true_key. rewrite Em.
    destruct (m =? RC4_MD5)%Z; [|reflexivity].
    unfold MAX_KEY_LENGTH, MAX_IV_LENGTH in *.
    destruct (MemFacts.memcpy_ex (repeat 0%Z 32) 0 (enc_key g) 0 16)
      as [a1 [E1 [L1 [F1 _]]]]; [lia | rewrite repeat_length; lia |].
    rewrite E1, bind_Ok. rewrite repeat_length in L1.
    destruct (MemFacts.memcpy_ex a1 16 iv_arg 0 16)
      as [a2 [E2 [L2 [F2 _]]]]; [lia | lia |].
    rewrite E2, bind_Ok. unfold enc_md5.
    rewrite MemFacts.read_ok by lia. rewrite bind_Ok.
    f_equal. f_equal. simpl skipn in *. simpl plus in *.
    rewrite F2. f_equal. simpl in F1. exact F1. }
  rewrite Ek, bind_Ok. clear Ek.
  unfold Laws.evp_keyed.
  destruct (Hsetup name cipher (RC4_MD5 <? m)%Z (true_key g iv_arg) iv_arg enc En)
    as [_ [_ R3]].
  cbv zeta in R3. rewrite Ekl.
  destruct (EVP_CipherInit_ex _ None (Some (true_key g iv_arg)) (Some iv_arg) enc)
    as [r3 x3].
  cbn [fst snd] in *. subst r3. change (1 =? 0)%Z with false. cbv iota.
  reflexivity.
Qed.

(** The process state [g] is the state [g0] that [enc_init] left, but for
    what the replay cache holds and for the two [tmp] buffers. *)
Definition same_cipher (g0 g : globals) : Prop :=
  g.(enc_table) = g0.(enc_table) /\ g.(dec_table) = g0.(dec_table)
  /\ g.(enc_key) = g0.(enc_key) /\ g.(enc_key_len) = g0.(enc_key_len)
  /\ g.(enc_iv_len) = g0.(enc_iv_len) /\ g.(enc_method) = g0.(enc_method)
  /\ (g0.(iv_cache) <> None -> g.(iv_cache) <> None)
  /\ buffer_ok g.(tmp_encrypt) /\ buffer_ok g.(tmp_decrypt).

Lemma same_cipher_keyed (g0 g : globals) (m : Z) :
  keyed m g0 -> same_cipher g0 g -> keyed m g.
Proof.
  intros Hk [_ [_ [E3 [E4 [E5 [E6 _]]]]]]. unfold keyed in *.
  rewrite E3, E4, E5, E6. exact Hk.
Qed.

(** the first call of [ss_encrypt] and the first call of [ss_decrypt] on
    what it returns, for a keyed cipher *)
Lemma keyed_round_trip (g : globals) (m : Z) (rnd : nat -> Z)
      (plain : buffer_t) (cap : nat) :
  Laws.evp_setup_law B -> Laws.evp_length_law B -> Laws.evp_inverse_law B ->
  Laws.stream_law B ->
  keyed m g -> buffer_ok plain ->
  buffer_ok g.(tmp_encrypt) -> buffer_ok g.(tmp_decrypt) ->
  g.(iv_cache) <> None ->
  (forall c0, g.(iv_cache) = Some c0 -> (RC4_MD5 <= m)%Z ->
              cache_key_exist c0 (rand_bytes rnd g.(enc_iv_len)) = false) ->
  let e0 := {| init := 0; counter := 0;
               evp := {| evp_ctx := fresh_evp g 1; iv := fresh_iv g rnd |} |} in
  let d0 := {| init := 0; counter := 0;
               evp := {| evp_ctx := fresh_evp g 0; iv := zero_iv |} |} in
  exists g2 c e',
    ss_encrypt g plain (Some e0) cap = Ok (0%Z, g2, c, e')
    /\ firstn g.(enc_iv_len) (contents c) = rand_bytes rnd g.(enc_iv_len)
    /\ exists g3 p d',
        ss_decrypt g2 c (Some d0) cap = Ok (0%Z, g3, p, d')
        /\ contents p = contents plain
        /\ same_cipher g g3.
Proof.
  intros Hsetup Hlen Hinv Hstream Hk Hp Hte Htd Hsome Hnew e0 d0.
  pose proof Hk as [Hm [Em [Lk [Hiv Hfam]]]].
  pose proof (fresh_iv_length g rnd Hiv) as LIV.
  set (IV := fresh_iv g rnd) in *.
  assert (Lr : length (rand_bytes rnd (enc_iv_len g)) = enc_iv_len g).
  { unfold rand_bytes. now rewrite length_map, length_seq. }
  assert (FIV : firstn (enc_iv_len g) IV = rand_bytes rnd (enc_iv_len g)).
  { unfold IV, fresh_iv. rewrite firstn_app, Lr, Nat.sub_diag.
    rewrite <- Lr at 1. rewrite firstn_all. simpl. apply app_nil_r. }
  (* encryption *)
  pose proof (set_iv_keyed g m 1 IV IV Hsetup Hk LIV LIV) as Hset1.
  change (1 =? 0)%Z with false in Hset1. cbv iota in Hset1.
  destruct (ss_encrypt_first g plain e0 cap
              {| evp_ctx := keyed_evp g IV 1; iv := IV |}
              Hlen Hstream Hp Hte)
    as [te [e' [c [Eenc [Hte' Hc]]]]].
  { reflexivity. }
  { lia. }
  { exact Hset1. }
  { cbn [iv]. lia. }
  set (cb := crypt_bytes g {| evp_ctx := keyed_evp g IV 1; iv := IV |}
                         (contents plain)) in *.
  (* what the cipher makes of the plaintext, and of that *)
  assert (Hcb : fst cb = 1%Z
                /\ crypt_bytes (set_tmp_encrypt g te)
                               {| evp_ctx := keyed_evp g IV 0; iv := IV |}
                               (snd cb)
                   = (1%Z, contents plain)).
  { unfold cb, crypt_bytes. cbn [enc_method enc_key set_tmp_encrypt iv evp_ctx].
    rewrite Em. destruct (SALSA20 <=? m)%Z eqn:Efam.
    - destruct (stream_xor_some (contents plain) IV 0 (enc_key g) m Hstream)
        as [out [Eo [_ Ei]]].
      { apply Z.leb_le in Efam. lia. }
      rewrite Eo. cbn [fst snd]. rewrite Ei. split; reflexivity.
    - destruct Hfam as [name [cipher [En [Eg _]]]].
      unfold keyed_evp. rewrite Em, Efam, Eg.
      destruct (Hinv name cipher (RC4_MD5 <? m)%Z (true_key g IV) IV
                     (contents plain) En) as [I1 [I2 I3]].
      cbv zeta in I1, I2, I3.
      destruct (EVP_CipherUpdate
                  (Laws.evp_keyed B cipher (RC4_MD5 <? m)%Z (true_key g IV) IV 1)
                  (contents plain)) as [[err1 x1] out1].
      cbn [fst snd] in *.
      destruct (EVP_CipherUpdate
                  (Laws.evp_keyed B cipher (RC4_MD5 <? m)%Z (true_key g IV) IV 0)
                  out1) as [[err2 x2] out2].
      cbn [fst snd] in *. subst. split; reflexivity. }
  destruct Hcb as [Hcb1 Hcb2].
  rewrite Hcb1 in Eenc. change (1 =? 0)%Z with false in Eenc. cbv iota in Eenc.
  destruct Hc as [Hcok Hcc]; [rewrite Hcb1; discriminate|].
  cbn [iv] in Hcc. rewrite FIV in Hcc.
  exists (set_tmp_encrypt g te), c, (Some e').
  split; [exact Eenc|].
  split.
  { rewrite Hcc, firstn_app, Lr, Nat.sub_diag.
    rewrite <- Lr at 1. rewrite firstn_all. simpl. apply app_nil_r. }
  (* decryption *)
  set (g2 := set_tmp_encrypt g te) in *.
  assert (Hk2 : keyed m g2) by exact Hk.
  destruct Hcok as [Lc Bc].
  assert (Llen : len c = enc_iv_len g + length (snd cb)).
  { apply (f_equal (@length Z)) in Hcc. unfold contents in Hcc.
    rewrite length_firstn, length_app, Lr in Hcc. lia. }
  assert (Fc : firstn (enc_iv_len g) (array c) = rand_bytes rnd (enc_iv_len g)).
  { apply (f_equal (firstn (enc_iv_len g))) in Hcc. unfold contents in Hcc.
    rewrite firstn_firstn in Hcc.
    replace (Nat.min (enc_iv_len g) (len c)) with (enc_iv_len g) in Hcc by lia.
    rewrite Hcc, firstn_app, Lr, Nat.sub_diag.
    rewrite <- Lr at 1. rewrite firstn_all. simpl. apply app_nil_r. }
  assert (Hloc : iv_local_of g2 c = IV).
  { unfold iv_local_of. cbn [enc_iv_len g2 set_tmp_encrypt]. rewrite Fc.
    reflexivity. }
  assert (Hbody : firstn (len c - enc_iv_len g) (skipn (enc_iv_len g) (array c))
                  = snd cb).
  { rewrite firstn_skipn_comm.
    replace (enc_iv_len g + (len c - enc_iv_len g)) with (len c) by lia.
    fold (contents c). rewrite Hcc.
    rewrite skipn_app, Lr, Nat.sub_diag.
    rewrite <- Lr at 1. rewrite skipn_all. reflexivity. }
  pose proof (set_iv_keyed g2 m 0 zero_iv IV Hsetup Hk2 LIV) as Hset0.
  change (0 =? 0)%Z with true in Hset0. cbv iota in Hset0.
  replace (firstn (enc_iv_len g2) IV ++ skipn (enc_iv_len g2) zero_iv) with IV
    in Hset0.
  2:{ cbn [enc_iv_len g2 set_tmp_encrypt]. rewrite FIV. reflexivity. }
  set (g3 := if (RC4_MD5 <=? m)%Z
             then match iv_cache g with
                  | Some c0 => set_iv_cache g2
                                 (Some (cache_insert c0
                                          (rand_bytes rnd (enc_iv_len g))))
                  | None => g2
                  end
             else g2).
  destruct (ss_decrypt_admitted g2 g3 c d0 cap
              {| evp_ctx := keyed_evp g2 IV 0; iv := IV |} Hlen Hstream)
    as [td [d' [p [Edec [Htd' Hpc]]]]].
  { split; assumption. }
  { exact Htd. }
  { reflexivity. }
  { cbn [enc_method g2 set_tmp_encrypt]. lia. }
  { exact Hiv. }
  { cbn [enc_iv_len g2 set_tmp_encrypt]. lia. }
  { rewrite Hloc. apply Hset0. unfold zero_iv. apply repeat_length. }
  { unfold admits, g3. cbn [enc_method enc_iv_len g2 set_tmp_encrypt iv_cache].
    rewrite Em, Fc.
    destruct (Z.leb_spec RC4_MD5 m) as [Hr | Hr]; [|reflexivity].
    destruct (iv_cache g) as [c0|] eqn:Ec0; [|contradiction].
    exists c0. split; [reflexivity|]. split; [|reflexivity].
    apply Hnew; [reflexivity | exact Hr]. }
  cbn [enc_iv_len g2 set_tmp_encrypt] in Edec, Hpc.
  rewrite Hbody in Edec, Hpc.
  change (keyed_evp g2 IV 0) with (keyed_evp g IV 0) in Edec, Hpc.
  fold g2 in Hcb2. rewrite Hcb2 in Edec, Hpc. cbn [fst snd] in Edec, Hpc.
  change (1 =? 0)%Z with false in Edec. cbv iota in Edec.
  destruct Hpc as [_ Hpc]; [discriminate|].
  eexists. exists p. eexists. split; [exact Edec|]. split; [exact Hpc|].
  unfold same_cipher, g3.
  destruct (RC4_MD5 <=? m)%Z; [destruct (iv_cache g) as [c0|] eqn:Ec0|];
    cbn; repeat split; try assumption; try discriminate;
    try (destruct Hte'; assumption); try (destruct Htd'; assumption);
    try tauto; congruence.
Qed.

(** C2.  A process that [enc_init] has set up, in the state [g] it has
    at some later time: the tables, the key and the method are those of
    [enc_init]; the replay cache and the two [tmp] buffers are what the
    calls made since have left.  [new_server] makes a fresh encrypt context
    and a fresh decrypt context.  [ss_encrypt] on the fresh encrypt context
    returns 0 with a buffer that starts with the IV drawn for the context.
    Provided the replay cache does not hold that IV (a condition on the
    methods from rc4-md5 on; the cache of a process that has decrypted
    nothing is empty), [ss_decrypt] on the fresh decrypt context over that
    buffer returns 0 with a buffer that holds the plaintext. *)
Theorem crypto_round_trip
        (pass : string) (method : option string) (m : Z) (g0 g : globals)
        (log : list string) (rnd : nat -> Z) (plain : buffer_t) (cap : nat) :
  Laws.cipher_law B -> Laws.kdf_law B -> Laws.evp_setup_law B ->
  Laws.evp_length_law B -> Laws.evp_inverse_law B -> Laws.stream_law B ->
  enc_init globals0 pass method = Ok (m, g0, log) ->
  same_cipher g0 g ->
  buffer_ok plain -> Forall is_byte (contents plain) ->
  (forall c0, g.(iv_cache) = Some c0 -> (RC4_MD5 <= m)%Z ->
              cache_key_exist c0 (rand_bytes rnd g.(enc_iv_len)) = false) ->
  exists s,
    Server.new_server g m rnd = Ok (g, s)
    /\ exists g2 c e',
        ss_encrypt g plain s.(Server.e_ctx) cap = Ok (0%Z, g2, c, e')
        /\ firstn g.(enc_iv_len) (contents c) = rand_bytes rnd g.(enc_iv_len)
        /\ exists g3 p d',
            ss_decrypt g2 c s.(Server.d_ctx) cap = Ok (0%Z, g3, p, d')
            /\ contents p = contents plain
            /\ same_cipher g0 g3.
Proof.
  intros Hcl Hkdf Hsetup Hlen Hinv Hstream Hinit Hsame Hp Hbytes Hnew.
  destruct (enc_init_state pass method m g0 log Hcl Hkdf Hinit)
    as [_ [_ [[-> [Hiv0 Htab]] | [Hk Hc]]]].
  - (* the table method *)
    unfold Server.new_server. change (TABLE =? 0)%Z with true. cbv iota.
    rewrite bind_Ok. cbv beta iota.
    eexists. split; [reflexivity|]. cbn [Server.e_ctx Server.d_ctx].
    pose proof Hsame as [Et [Ed [_ [_ [Eiv _]]]]].
    pose proof Htab as [Le [Ld _]].
    destruct (table_crypt_ok (enc_table g) plain) as [c [Ec [Hcok Hcc]]];
      [rewrite Et; exact Le | exact Hp |].
    destruct (table_crypt_ok (dec_table g) c) as [p [Ep [_ Hpc]]];
      [rewrite Ed; exact Ld | exact Hcok |].
    exists g, c, None. unfold ss_encrypt. rewrite Ec, bind_Ok.
    split; [reflexivity|]. split.
    { rewrite Eiv, Hiv0. reflexivity. }
    exists g, p, None. unfold ss_decrypt. rewrite Ep, bind_Ok.
    split; [reflexivity|]. split; [|exact Hsame].
    rewrite Hpc, Hcc, Et, Ed. apply table_round_trip; assumption.
  - (* a keyed cipher *)
    pose proof (same_cipher_keyed g0 g m Hk Hsame) as Hkg.
    pose proof Hkg as [Hm _].
    pose proof Hsame as [_ [_ [_ [_ [_ [_ [Hcache [Hte Htd]]]]]]]].
    unfold Server.new_server.
    assert (Em : (m =? 0)%Z = false).
    { apply Z.eqb_neq. unfold TABLE in Hm. lia. }
    rewrite Em.
    rewrite (enc_ctx_init_keyed g m 1 rnd Hsetup Hkg), bind_Ok. cbv beta iota.
    rewrite (enc_ctx_init_keyed g m 0 rnd Hsetup Hkg), !bind_Ok. cbv beta iota.
    change (1 =? 0)%Z with false. change (0 =? 0)%Z with true. cbv iota.
    eexists. split; [reflexivity|]. cbn [Server.e_ctx Server.d_ctx].
    destruct (keyed_round_trip g m rnd plain cap Hsetup Hlen Hinv Hstream
                               Hkg Hp Hte Htd)
      as [g2 [c [e' [Eenc [Hiv [g3 [p [d' [Edec [Hpc Hs3]]]]]]]]]].
    { apply Hcache. rewrite Hc. discriminate. }
    { exact Hnew. }
    exists g2, c, e'. split; [exact Eenc|]. split; [exact Hiv|].
    exists g3, p, d'. split; [exact Edec|]. split; [exact Hpc|].
    unfold same_cipher in *. intuition congruence.
Qed.

End WithBackend.

Lemma toy_hmac_law : Laws.hmac_law Toy.backend.
Proof. intros key msg. apply repeat_length. Qed.

Lemma xor_with_involutive (pad : Z) (m : list Z) :
  Toy.xor_with pad (Toy.xor_with pad m) = m.
Proof.
  unfold Toy.xor_with. rewrite map_map.
  induction m as [|b m IH]; simpl; [reflexivity|].
  rewrite IH. f_equal.
  now rewrite <- Z.lxor_assoc, Z.lxor_nilpotent, Z.lxor_0_l.
Qed.

Lemma toy_evp_length_law : Laws.evp_length_law Toy.backend.
Proof. intros x input. apply length_map. Qed.

Lemma toy_stream_law : Laws.stream_law Toy.backend.
Proof.
  repeat split; try apply length_map; apply xor_with_involutive.
Qed.

Lemma nth_bounded (l : list nat) (bound i : nat) :
  Forall (fun x => x <= bound) l -> nth i l 0 <= bound.
Proof.
  intros H. revert i. induction H as [|x l Hx _ IH]; intros [|i]; simpl;
    try lia. apply IH.
Qed.

Lemma toy_cipher_law : Laws.cipher_law Toy.backend.
Proof.
  intros name c H. cbn in H. unfold Toy.cipher_by_name in H.
  destruct (Toy.index_of name supported_ciphers 0) as [i|]; [|discriminate].
  apply Some_inj in H. subst c. cbn [iv_len key_len].
  split; apply nth_bounded; repeat constructor;
    unfold MAX_IV_LENGTH, MAX_KEY_LENGTH; lia.
Qed.

Lemma toy_kdf_law : Laws.kdf_law Toy.backend.
Proof. intros c pass. split; [reflexivity | apply repeat_length]. Qed.

Lemma toy_evp_setup_law : Laws.evp_setup_law Toy.backend.
Proof. intros name c pad key iv_arg enc _. repeat split. Qed.

Lemma toy_evp_inverse_law : Laws.evp_inverse_law Toy.backend.
Proof.
  intros name c pad key iv_arg P _. cbv zeta.
  split; [reflexivity|]. split; [reflexivity|].
  apply xor_with_involutive.
Qed.


(** The process of [Samples.g_aes] right after [enc_init], the method
    aes-256-cfb and the request of [Samples.plain_request]. *)
Lemma crypto_round_trip_witness :
  exists s,
    Server.new_server (B := Toy.backend) Samples.g_aes AES_256_CFB Toy.rnd
    = Ok (Samples.g_aes, s)
    /\ exists g2 c e',
        ss_encrypt Samples.g_aes Samples.plain_buffer s.(Server.e_ctx)
                   Server.BUF_SIZE
        = Ok (0%Z, g2, c, e')
        /\ firstn Samples.g_aes.(enc_iv_len) (contents c)
           = rand_bytes Toy.rnd Samples.g_aes.(enc_iv_len)
        /\ exists g3 p d',
            ss_decrypt g2 c s.(Server.d_ctx) Server.BUF_SIZE
            = Ok (0%Z, g3, p, d')
            /\ contents p = contents Samples.plain_buffer
            /\ same_cipher Samples.g_aes g3.
Proof.
  apply (@crypto_round_trip Toy.backend "secret" (Some "aes-256-cfb"%string)
           AES_256_CFB Samples.g_aes Samples.g_aes [] Toy.rnd
           Samples.plain_buffer Server.BUF_SIZE).
  - exact toy_cipher_law.
  - exact toy_kdf_law.
  - exact toy_evp_setup_law.
  - exact toy_evp_length_law.
  - exact toy_evp_inverse_law.
  - exact toy_stream_law.
  - reflexivity.
  - repeat split; try reflexivity; try (intros H; exact H); cbv; lia.
  - split; [reflexivity | cbv; lia].
  - repeat constructor; cbv; discriminate.
  - intros c0 E _. apply Some_inj in E. subst c0. reflexivity.
Defined.

(** The round trip of [crypto_round_trip_witness] succeeds, and the replay
    cache then holds the IV.  From then on, in the same process, the
    encrypted bytes do not decrypt on a fresh decrypt context: the call
    returns -1 and releases the buffer.  Nor does a second round trip
    succeed whose encrypt context draws the same IV. *)
Lemma crypto_round_trip_fails_on_seen_iv :
  enc_init (B := Toy.backend) globals0 "secret" (Some "aes-256-cfb"%string)
  = Ok (AES_256_CFB, Samples.g_aes, [])
  /\ Server.new_server Samples.g_aes AES_256_CFB Toy.rnd
     = Ok (Samples.g_aes, Samples.s_new)
  /\ ss_encrypt Samples.g_aes Samples.plain_buffer
                Samples.s_new.(Server.e_ctx) Server.BUF_SIZE
     = Ok Samples.trip_encrypt
  /\ fst (fst (fst Samples.trip_encrypt)) = 0%Z
  /\ ss_decrypt Samples.g_encrypted Samples.encrypted
                Samples.s_new.(Server.d_ctx) Server.BUF_SIZE
     = Ok Samples.trip_decrypt
  /\ fst (fst (fst Samples.trip_decrypt)) = 0%Z
  /\ contents Samples.decrypted = contents Samples.plain_buffer
  /\ same_cipher Samples.g_aes Samples.g_decrypted
  /\ Server.new_server Samples.g_decrypted AES_256_CFB Toy.rnd
     = Ok (Samples.g_decrypted, Samples.s_new)
  /\ ss_decrypt Samples.g_decrypted Samples.encrypted
                Samples.s_new.(Server.d_ctx) Server.BUF_SIZE
     = Ok Samples.trip_replay
  /\ fst (fst (fst Samples.trip_replay)) = (-1)%Z
  /\ contents (snd (fst Samples.trip_replay)) = []
  /\ ss_encrypt Samples.g_decrypted Samples.plain_buffer
                Samples.s_new.(Server.e_ctx) Server.BUF_SIZE
     = Ok Samples.trip_encrypt_again
  /\ fst (fst (fst Samples.trip_encrypt_again)) = 0%Z
  /\ ss_decrypt (snd (fst (fst Samples.trip_encrypt_again)))
                (snd (fst Samples.trip_encrypt_again))
                Samples.s_new.(Server.d_ctx) Server.BUF_SIZE
     = Ok Samples.trip_decrypt_again
  /\ fst (fst (fst Samples.trip_decrypt_again)) = (-1)%Z
  /\ contents (snd (fst Samples.trip_decrypt_again))
     <> contents Samples.plain_buffer.
Proof.
  repeat (split; [reflexivity|]).
  split.
  { repeat split; try reflexivity; try discriminate; cbv; lia. }
  repeat (split; [reflexivity|]).
  discriminate.
Qed.

(** The same bytes come again, on a new connection of the same process:
    the cache holds their IV, and the first call of [ss_decrypt] on the
    new decrypt context returns -1. *)
Lemma replayed_request_is_refused :
  exists td d,
    ss_decrypt (B := Toy.backend) Samples.g_seen Samples.request_buffer
               (Some Samples.d_accepted) Server.BUF_SIZE
    = Ok ((-1)%Z, set_tmp_decrypt Samples.g_seen td,
          bfree Samples.request_buffer, d).
Proof.
  eexists. eexists.
  apply (ss_decrypt_replay (B := Toy.backend) Samples.g_seen
           Samples.request_buffer Samples.d_accepted Server.BUF_SIZE
           Samples.e_request
           (cache_insert (cache_create 256) Samples.client_iv)).
  - reflexivity.
  - cbv. discriminate.
  - cbv. lia.
  - cbv. lia.
  - cbv. lia.
  - reflexivity.
  - reflexivity.
  - reflexivity.
Qed.

(** The header of [Samples.signed_header], signed under the IV of the client
    and the key of [Samples.g_aes], and the last round of [ss_check_hash] on
    the frame of [Samples.first_frame]. *)
Lemma mac_comparison_decides_equality_witness :
  (safe_memcmp [1; 2; 3]%Z [1; 2; 4]%Z 2 = 0%Z
   <-> forall p, p < 2 -> nth p [1; 2; 3]%Z 0%Z = nth p [1; 2; 4]%Z 0%Z)
  /\ (safe_memcmp [1; 2; 3]%Z [1; 2; 4]%Z 2 = 0%Z
      <-> firstn 2 [1; 2; 3]%Z = firstn 2 [1; 2; 4]%Z)
  /\ (safe_memcmp [1; 2; 3]%Z [1; 2; 4]%Z 2 = 1%Z
      <-> firstn 2 [1; 2; 3]%Z <> firstn 2 [1; 2; 4]%Z)
  /\ (exists v,
         ss_onetimeauth_verify (B := Toy.backend) Samples.g_aes
                               Samples.signed_header Samples.client_iv = Ok v
         /\ (v = 0%Z
             <-> firstn ONETIMEAUTH_BYTES
                        (skipn (Samples.signed_header.(len) - ONETIMEAUTH_BYTES)
                               Samples.signed_header.(array))
                 = firstn ONETIMEAUTH_BYTES
                     (HMAC_SHA1 (Backend := Toy.backend)
                        (firstn Samples.g_aes.(enc_iv_len) Samples.client_iv
                         ++ firstn Samples.g_aes.(enc_key_len)
                                   Samples.g_aes.(enc_key))
                        (firstn (Samples.signed_header.(len) - ONETIMEAUTH_BYTES)
                                Samples.signed_header.(array)))))
  /\ (false = false
      <-> firstn ONETIMEAUTH_BYTES
                 (skipn CLEN_BYTES
                        Samples.check_after_last.(cs_chunk).(chunk_buf).(array))
          = firstn ONETIMEAUTH_BYTES
              (HMAC_SHA1 (Backend := Toy.backend)
                 (chunk_key_of Samples.g_aes Samples.ctx_client
                               Samples.check_before_last.(cs_chunk).(chunk_counter))
                 (firstn Samples.check_after_last.(cs_chunk).(chunk_len)
                         (skipn AUTH_BYTES
                                Samples.check_after_last.(cs_chunk).(chunk_buf).(array))))).
Proof.
  apply (@mac_comparison_decides_equality Toy.backend
           [1; 2; 3]%Z [1; 2; 4]%Z 2
           Samples.g_aes Samples.signed_header Samples.client_iv
           Samples.ctx_client Server.BUF_SIZE 14 13
           Samples.check_before_last Samples.check_after_last false).
  - simpl. lia.
  - simpl. lia.
  - exact toy_hmac_law.
  - cbv. lia.
  - cbv. lia.
  - cbv. lia.
  - cbv. lia.
  - reflexivity.
  - reflexivity.
Defined.

Lemma aes_512_not_in_catalog : ~ In "aes-512-cfb"%string supported_ciphers.
Proof.
  unfold supported_ciphers. simpl.
  intros H. repeat (destruct H as [H | H]; [discriminate H|]). exact H.
Qed.

Lemma enc_init_unknown_method_uses_table_witness :
  ~ In "aes-512-cfb"%string supported_ciphers
  /\ exists enc dec,
      enc_init (B := Toy.backend) globals0 "secret" (Some "aes-512-cfb"%string)
      = Ok (TABLE, set_tables globals0 enc dec,
            ["Invalid cipher name: aes-512-cfb, use table instead"%string])
      /\ tables_inverse enc dec.
Proof.
  split.
  - exact aes_512_not_in_catalog.
  - apply (@enc_init_unknown_method_uses_table Toy.backend globals0 "secret"
                                               "aes-512-cfb").
    exact aes_512_not_in_catalog.
Defined.

(** C4 as stated fails: the name "aes-512-cfb" is not in the catalog, and
    [enc_init] returns for it instead of stopping the process. *)
Lemma enc_init_unknown_method_does_not_abort :
  ~ In "aes-512-cfb"%string supported_ciphers
  /\ forall msg : string,
      enc_init (B := Toy.backend) globals0 "secret" (Some "aes-512-cfb"%string)
      <> Exit msg.
Proof.
  split.
  - exact aes_512_not_in_catalog.
  - intros msg.
    rewrite enc_init_unknown by exact aes_512_not_in_catalog.
    destruct (enc_table_init_ok (B := Toy.backend) globals0 "secret")
      as [enc [dec [E _]]].
    rewrite E, bind_Ok. discriminate.
Qed.

(** *** The chunks of an authenticated stream *)

Lemma firstn_plus (a b : nat) (l : list Z) :
  firstn (a + b) l = firstn a l ++ firstn b (skipn a l).
Proof.
  revert l. induction a as [|a IH]; intros l; [reflexivity|].
  destruct l as [|x l]; simpl.
  - now rewrite firstn_nil.
  - now rewrite IH.
Qed.

Lemma nth_in_window (arr F : list Z) (j m : nat) :
  firstn (length F) (skipn j arr) = F -> m < length F ->
  nth (j + m) arr 0%Z = nth m F 0%Z /\ j + m < length arr.
Proof.
  intros H Hm.
  assert (HL : length F <= length (skipn j arr)).
  { apply (f_equal (@length Z)) in H. rewrite length_firstn in H. lia. }
  rewrite length_skipn in HL. split; [|lia].
  transitivity (nth m (firstn (length F) (skipn j arr)) 0%Z);
    [|now rewrite H].
  rewrite nth_firstn.
  destruct (Nat.ltb_spec m (length F)); [|lia].
  now rewrite nth_skipn.
Qed.

Lemma firstn_snoc_nth (F : list Z) (m : nat) :
  m < length F -> firstn (S m) F = firstn m F ++ [nth m F 0%Z].
Proof.
  revert m. induction F as [|x F IH]; intros m H; simpl in H; [lia|].
  destruct m as [|m]; [reflexivity|].
  cbn [firstn nth app]. f_equal. apply IH. lia.
Qed.

Lemma ntohs_htons (n : Z) :
  (0 <= n < 65536)%Z -> ntohs_bytes (htons_bytes n) = n.
Proof.
  intros H. unfold ntohs_bytes, htons_bytes. cbn [nth].
  change (2 ^ 16)%Z with 65536%Z. change (2 ^ 8)%Z with 256%Z.
  rewrite (Z.mod_small n 65536) by lia.
  rewrite (Z.mod_small (n / 256) 256).
  2:{ split; [apply Z.div_pos; lia | apply Z.div_lt_upper_bound; lia]. }
  rewrite Z.mod_mod by lia.
  pose proof (Z.div_mod n 256). lia.
Qed.

Lemma prefix_window (a b : list Z) (N off n : nat) :
  firstn N a = firstn N b -> off + n <= N ->
  firstn n (skipn off a) = firstn n (skipn off b).
Proof.
  intros H Hn. rewrite !firstn_skipn_comm.
  f_equal.
  assert (E : forall l : list Z, firstn (off + n) l = firstn (off + n) (firstn N l)).
  { intros l. rewrite firstn_firstn. f_equal. lia. }
  rewrite (E a), (E b), H. reflexivity.
Qed.

Lemma window_split (X Y1 Y2 : list Z) :
  firstn (length Y1 + length Y2) X = Y1 ++ Y2 ->
  firstn (length Y1) X = Y1
  /\ firstn (length Y2) (skipn (length Y1) X) = Y2
  /\ length Y1 + length Y2 <= length X.
Proof.
  intros H.
  assert (HL : length Y1 + length Y2 <= length X).
  { apply (f_equal (@length Z)) in H.
    rewrite length_firstn, length_app in H. lia. }
  rewrite firstn_plus in H.
  assert (E1 : length (firstn (length Y1) X) = length Y1)
    by (rewrite length_firstn; lia).
  destruct (app_eq_app _ _ _ _ H) as [l [[Ha Hb] | [Ha Hb]]].
  - assert (l = []).
    { apply (f_equal (@length Z)) in Ha. rewrite length_app, E1 in Ha.
      destruct l; [reflexivity | simpl in Ha; lia]. }
    subst l. rewrite app_nil_r in Ha. simpl in Hb. subst. repeat split; auto.
  - assert (l = []).
    { apply (f_equal (@length Z)) in Ha. rewrite length_app, E1 in Ha.
      destruct l; [reflexivity | simpl in Ha; lia]. }
    subst l. rewrite app_nil_r in Ha. simpl in Hb. subst. repeat split; auto.
Qed.

Section Frames.
Context {B : Backend}.

(** the frame of the chunk [P] with number [counter]: LEN, MAC, payload *)
Definition frame_of (g : globals) (ctx : option enc_ctx_t) (counter : Z)
           (P : list Z) : list Z :=
  htons_bytes (Z.of_nat (length P))
  ++ firstn ONETIMEAUTH_BYTES (HMAC_SHA1 (chunk_key_of g ctx counter) P)
  ++ P.

Lemma frame_length (g : globals) (ctx : option enc_ctx_t) (counter : Z)
      (P : list Z) :
  Laws.hmac_law B -> length (frame_of g ctx counter P) = 12 + length P.
Proof.
  intros HL. unfold frame_of.
  rewrite !length_app, length_firstn, HL. reflexivity.
Qed.

Lemma ss_gen_hash_ok (g : globals) (buf : buffer_t) (counter : Z)
      (ctx : option enc_ctx_t) (cap : nat) :
  Laws.hmac_law B -> chunk_ready g ctx -> buffer_ok buf ->
  exists buf',
    ss_gen_hash g buf counter ctx cap
    = Ok (0%Z, buf', ((counter + 1) mod UINT32_MOD)%Z)
    /\ buffer_ok buf'
    /\ contents buf' = frame_of g ctx counter (contents buf).
Proof.
  intros HL Hready [La Bd]. unfold ss_gen_hash. cbv zeta.
  destruct (brealloc_spec buf (AUTH_BYTES + len buf) cap La)
    as [L1 [B1 [_ [B2 [E1 [_ F1]]]]]].
  set (b1 := brealloc buf (AUTH_BYTES + len buf) cap) in *.
  rewrite chunk_key_ok by assumption. rewrite bind_Ok.
  rewrite MemFacts.read_ok by lia. rewrite bind_Ok.
  assert (EP : firstn (len buf) (skipn 0 (array b1)) = contents buf).
  { simpl skipn. unfold contents. apply F1. lia. }
  rewrite EP.
  rewrite hmac_into_hash_ok by assumption. rewrite bind_Ok.
  set (hash := HMAC_SHA1 (chunk_key_of g ctx counter) (contents buf)).
  assert (Lh : length hash = 20) by apply HL.
  unfold AUTH_BYTES, ONETIMEAUTH_BYTES, CLEN_BYTES in *. simpl plus in *.
  unfold Mem.memmove.
  destruct (MemFacts.memcpy_ex (array b1) 12 (array b1) 0 (len buf))
    as [a1 [Ea1 [La1 [_ [Fa1 _]]]]]; [lia | lia |].
  rewrite Ea1, bind_Ok.
  destruct (MemFacts.memcpy_ex a1 2 hash 0 10)
    as [a2 [Ea2 [La2 [_ [Fa2 [_ Ga2]]]]]]; [lia | lia |].
  rewrite Ea2, bind_Ok.
  destruct (MemFacts.write_ex a2 0 (htons_bytes (Z.of_nat (len buf))))
    as [a3 [Ea3 [La3 [_ [Fa3 [_ Ga3]]]]]]; [simpl; lia |].
  rewrite Ea3, bind_Ok.
  eexists. split; [reflexivity|]. split.
  - split; cbn [array capacity len set_array set_len]; lia.
  - unfold contents at 1. cbn [array len set_array set_len].
    unfold frame_of.
    assert (LP : length (contents buf) = len buf).
    { unfold contents. rewrite length_firstn. lia. }
    rewrite LP.
    replace (len buf + 12) with (2 + (10 + len buf)) by lia.
    rewrite (firstn_plus 2), (firstn_plus 10), skipn_skipn.
    change (firstn 2 a3 = htons_bytes (Z.of_nat (len buf))) in Fa3.
    rewrite Fa3. f_equal.
    rewrite (Ga3 2) by (simpl; lia).
    rewrite Fa2. change (skipn 0 hash) with hash. f_equal.
    change (10 + 2) with 12.
    rewrite (Ga3 12) by (simpl; lia).
    rewrite (Ga2 12) by lia.
    rewrite Fa1. exact EP.
Qed.

End Frames.


Lemma window_tail (a b : list Z) (p q n r : nat) :
  firstn (n + r) (skipn p a) = firstn (n + r) (skipn q b) ->
  firstn n (skipn p a) = firstn n (skipn q b)
  /\ firstn r (skipn (p + n) a) = firstn r (skipn (q + n) b).
Proof.
  intros H. split.
  - apply (f_equal (firstn n)) in H. rewrite !firstn_firstn in H.
    replace (Nat.min n (n + r)) with n in H by lia. exact H.
  - apply (f_equal (skipn n)) in H.
    rewrite <- !firstn_skipn_comm, !skipn_skipn in H.
    replace (p + n) with (n + p) by lia. replace (q + n) with (n + q) by lia.
    exact H.
Qed.

Lemma window_nth (arr F : list Z) (k0 c0 w d : nat) :
  firstn w (skipn k0 arr) = firstn w (skipn c0 F) ->
  w <= length F - c0 -> d < w ->
  nth (k0 + d) arr 0%Z = nth (c0 + d) F 0%Z /\ k0 + d < length arr.
Proof.
  intros H Hw Hd.
  assert (HL : w <= length arr - k0).
  { apply (f_equal (@length Z)) in H.
    rewrite !length_firstn, !length_skipn in H. lia. }
  split; [|lia].
  rewrite <- nth_skipn, <- (nth_skipn c0 F).
  transitivity (nth d (firstn w (skipn k0 arr)) 0%Z).
  - rewrite nth_firstn. destruct (Nat.ltb_spec d w); [reflexivity | lia].
  - rewrite H, nth_firstn. destruct (Nat.ltb_spec d w); [reflexivity | lia].
Qed.

Section CheckHash.
Context {B : Backend}.
Variables (g : globals) (ctx : option enc_ctx_t) (cap blen : nat).
Hypothesis HL : Laws.hmac_law B.
Hypothesis Hready : chunk_ready g ctx.

(** [F] has the layout of a frame with a payload of [n] bytes *)
Definition framed (F : list Z) (n : nat) : Prop :=
  firstn 2 F = htons_bytes (Z.of_nat n) /\ length F = 12 + n
  /\ (Z.of_nat n < 65536)%Z.

(** [m] bytes of the frame [F] are in the chunk buffer; [c0] of them were
    there in the state [st0], the others were taken from the buffer, from
    [cs_k st0] on *)
Definition in_frame (F : list Z) (n c0 : nat) (st0 : check_state) (m : nat)
           (st : check_state) : Prop :=
  let cb := chunk_buf (cs_chunk st) in
  c0 <= m
  /\ cs_j st = cs_j st0 /\ cs_buf st = cs_buf st0
  /\ cs_k st = cs_k st0 + (m - c0) /\ cs_cidx st = m
  /\ chunk_counter (cs_chunk st) = chunk_counter (cs_chunk st0)
  /\ chunk_idx (cs_chunk st) = chunk_idx (cs_chunk st0)
  /\ (2 <= m -> chunk_len (cs_chunk st) = n)
  /\ length (array cb) = capacity cb /\ 2 <= capacity cb
  /\ (2 <= m -> 12 + n <= capacity cb)
  /\ firstn m (array cb) = firstn m F.

Lemma frame_framed (counter : Z) (P : list Z) :
  (Z.of_nat (length P) < 65536)%Z ->
  framed (frame_of g ctx counter P) (length P).
Proof.
  intros HP. split; [reflexivity|]. split; [|exact HP].
  apply frame_length. exact HL.
Qed.

(** the length field, read when the second byte of a frame is in *)
Lemma chunk_head (cb : buffer_t) (ca F : list Z) (n m old : nat) :
  framed F n ->
  length ca = capacity cb -> 2 <= capacity cb ->
  (2 <= m -> 12 + n <= capacity cb) -> (2 <= m -> old = n) ->
  firstn (S m) ca = firstn (S m) F ->
  exists cb' clen,
    (if S m =? CLEN_BYTES
     then bind (Mem.read (array (set_array cb ca)) 0 2)
               (fun hdr =>
                  Ok (brealloc (set_array cb ca)
                               (Z.to_nat (ntohs_bytes hdr) + AUTH_BYTES) cap,
                      Z.to_nat (ntohs_bytes hdr)))
     else Ok (set_array cb ca, old))
    = Ok (cb', clen)
    /\ (2 <= S m -> clen = n) /\ (S m < 2 -> clen = old)
    /\ length (array cb') = capacity cb' /\ 2 <= capacity cb'
    /\ (2 <= S m -> 12 + n <= capacity cb')
    /\ firstn (S m) (array cb') = firstn (S m) F.
Proof.
  intros [H2 [LF HP]] Lca Ccb Ccb2 Hold Fca.
  destruct (Nat.eqb_spec (S m) CLEN_BYTES) as [E | N].
  - unfold CLEN_BYTES in E. assert (m = 1) by lia. subst m.
    cbn [array set_array].
    rewrite MemFacts.read_ok by lia. rewrite bind_Ok.
    change (firstn 2 (skipn 0 ca)) with (firstn 2 ca).
    rewrite Fca, H2, ntohs_htons by lia. rewrite Nat2Z.id.
    assert (Lsa : length (array (set_array cb ca)) = capacity (set_array cb ca))
      by exact Lca.
    destruct (brealloc_spec (set_array cb ca) (n + AUTH_BYTES) cap Lsa)
      as [L1 [B1 [_ [B2 [_ [_ F1]]]]]].
    eexists. eexists. split; [reflexivity|].
    cbn [array capacity set_array] in B2, F1.
    unfold AUTH_BYTES, ONETIMEAUTH_BYTES, CLEN_BYTES in *.
    repeat split; try lia; try assumption.
    rewrite F1 by lia. rewrite Fca. exact H2.
  - unfold CLEN_BYTES in N.
    eexists. eexists. split; [reflexivity|]. cbn [array capacity set_array].
    repeat split; try lia; try assumption;
      intros H; first [apply Hold | apply Ccb2]; lia.
Qed.

(** What every round does first: a byte goes from the buffer to the chunk
    buffer, and the length field is read when it is complete. *)
Lemma round_intake (F : list Z) (n c0 w : nat) (st0 st : check_state) (m : nat) :
  framed F n ->
  firstn w (skipn (cs_k st0) (array (cs_buf st0))) = firstn w (skipn c0 F) ->
  w <= 12 + n - c0 ->
  in_frame F n c0 st0 m st -> m - c0 < w -> m < 12 + n ->
  exists ca cb' clen,
    Mem.get (array (cs_buf st)) (cs_k st) = Ok (nth m F 0%Z)
    /\ Mem.set (array (chunk_buf (cs_chunk st))) (cs_cidx st) (nth m F 0%Z)
       = Ok ca
    /\ (if S (cs_cidx st) =? CLEN_BYTES
        then bind (Mem.read (array (set_array (chunk_buf (cs_chunk st)) ca)) 0 2)
                  (fun hdr =>
                     Ok (brealloc (set_array (chunk_buf (cs_chunk st)) ca)
                                  (Z.to_nat (ntohs_bytes hdr) + AUTH_BYTES) cap,
                         Z.to_nat (ntohs_bytes hdr)))
        else Ok (set_array (chunk_buf (cs_chunk st)) ca,
                 chunk_len (cs_chunk st)))
       = Ok (cb', clen)
    /\ (2 <= S m -> clen = n)
    /\ length (array cb') = capacity cb' /\ 2 <= capacity cb'
    /\ (2 <= S m -> 12 + n <= capacity cb')
    /\ firstn (S m) (array cb') = firstn (S m) F.
Proof.
  intros HF HW Hw [Hc0 [Ej [Eb [Ek [Ec [Ecnt [Eidx [Elen [Lcb [Ccb [Ccb2 Fcb]]]]]]]]]]]
         Hmw Hm.
  pose proof HF as [_ [LF _]].
  rewrite Eb, Ek, Ec.
  destruct (window_nth _ F (cs_k st0) c0 w (m - c0) HW) as [En Hb]; [lia | lia |].
  replace (c0 + (m - c0)) with m in En by lia.
  rewrite MemFacts.get_ok by exact Hb. rewrite En.
  unfold Mem.set.
  destruct (MemFacts.write_ex (array (chunk_buf (cs_chunk st))) m [nth m F 0%Z])
    as [ca [Eca [Lca [Fca _]]]].
  { simpl length. destruct (Nat.le_gt_cases 2 m) as [H2m | H2m].
    - specialize (Ccb2 H2m). lia.
    - lia. }
  simpl length in Fca. rewrite Fcb, <- firstn_snoc_nth in Fca by lia.
  replace (m + 1) with (S m) in Fca by lia.
  destruct (chunk_head (chunk_buf (cs_chunk st)) ca F n m
                       (chunk_len (cs_chunk st)) HF)
    as [cb' [clen [Eh [Hc1 [_ [Lcb' [Ccb' [Ccb2' Fcb']]]]]]]];
    try assumption; try lia.
  exists ca, cb', clen. repeat split; try assumption.
Qed.

Lemma round_copy (F : list Z) (n c0 w : nat) (st0 st : check_state) (m i : nat) :
  framed F n ->
  firstn w (skipn (cs_k st0) (array (cs_buf st0))) = firstn w (skipn c0 F) ->
  w <= 12 + n - c0 ->
  in_frame F n c0 st0 m st -> m - c0 < w -> S m < 12 + n ->
  exists st',
    check_hash_round g ctx cap blen i st = Ok (false, st')
    /\ in_frame F n c0 st0 (S m) st'.
Proof.
  intros HF HW Hw Hin Hmw Hm.
  destruct (round_intake F n c0 w st0 st m HF HW Hw Hin Hmw ltac:(lia))
    as [ca [cb' [clen [Eg [Es [Eh [Hc1 [Lcb' [Ccb' [Ccb2' Fcb']]]]]]]]]].
  destruct Hin as [Hc0 [Ej [Eb [Ek [Ec [Ecnt [Eidx _]]]]]]].
  unfold check_hash_round. cbv zeta.
  rewrite Eg, bind_Ok, Es, bind_Ok, Eh, bind_Ok. cbv beta iota.
  rewrite Ec.
  assert (Et : (S m =? clen + AUTH_BYTES) = false).
  { apply Nat.eqb_neq. change AUTH_BYTES with 12.
    destruct (Nat.le_gt_cases 2 (S m)) as [H2m | H2m].
    - rewrite (Hc1 H2m). lia.
    - lia. }
  rewrite Et.
  eexists. split; [reflexivity|].
  unfold in_frame. cbn [cs_j cs_k cs_cidx cs_buf cs_chunk chunk_idx chunk_len
                        chunk_counter chunk_buf].
  repeat split; try assumption; try lia.
Qed.

Lemma frame_parts (counter : Z) (P : list Z) :
  let F := frame_of g ctx counter P in
  firstn 10 (skipn 2 F) = firstn 10 (HMAC_SHA1 (chunk_key_of g ctx counter) P)
  /\ firstn (length P) (skipn 12 F) = P.
Proof.
  cbv zeta. unfold frame_of. unfold htons_bytes at 1 2.
  set (mac := firstn ONETIMEAUTH_BYTES _).
  assert (Lm : length mac = 10).
  { unfold mac. rewrite length_firstn, HL. reflexivity. }
  cbn [app]. change (skipn 2 (?a :: ?b :: ?l)) with l.
  split.
  - rewrite firstn_app, Lm. change (10 - 10) with 0.
    change (firstn 0 P) with (@nil Z). rewrite app_nil_r.
    unfold mac. rewrite firstn_firstn. reflexivity.
  - change (skipn 12 (?a :: ?b :: ?l)) with (skipn 10 l).
    rewrite skipn_app, Lm. change (10 - 10) with 0.
    change (skipn 0 P) with P.
    rewrite <- Lm at 1. rewrite skipn_all. cbn [app]. apply firstn_all.
Qed.

(** The round that takes in the last byte of a frame, up to the comparison
    of the two MACs. *)
Lemma round_verify (F : list Z) (n c0 w : nat) (st0 st : check_state) (m i : nat) :
  framed F n ->
  firstn w (skipn (cs_k st0) (array (cs_buf st0))) = firstn w (skipn c0 F) ->
  w <= 12 + n - c0 ->
  in_frame F n c0 st0 m st -> m - c0 < w -> S m = 12 + n ->
  let payload := firstn n (skipn 12 F) in
  let hash := HMAC_SHA1 (chunk_key_of g ctx (chunk_counter (cs_chunk st0)))
                        payload in
  exists cb',
    length (array cb') = capacity cb' /\ 2 <= capacity cb'
    /\ 12 + n <= capacity cb'
    /\ firstn n (skipn 12 (array cb')) = payload
    /\ check_hash_round g ctx cap blen i st
       = if negb (safe_memcmp hash (firstn 10 (skipn 2 F)) 10 =? 0)%Z
         then
           Ok (true,
               {| cs_j := cs_j st0; cs_k := S (cs_k st0 + (m - c0));
                  cs_cidx := S m; cs_buf := cs_buf st0;
                  cs_chunk := {| chunk_idx := chunk_idx (cs_chunk st);
                                 chunk_len := n;
                                 chunk_counter := chunk_counter (cs_chunk st0);
                                 chunk_buf := cb' |} |})
         else
           bind (Mem.memmove (array (cs_buf st0)) (cs_j st0 + n)
                             (array (cs_buf st0)) (S (cs_k st0 + (m - c0)))
                             (blen - i - 1))
                (fun a =>
           bind (Mem.memcpy a (cs_j st0) (array cb') AUTH_BYTES n)
                (fun a0 =>
           Ok (false,
               {| cs_j := cs_j st0 + n; cs_k := cs_j st0 + n; cs_cidx := 0;
                  cs_buf := set_array (cs_buf st0) a0;
                  cs_chunk := {| chunk_idx := chunk_idx (cs_chunk st);
                                 chunk_len := n;
                                 chunk_counter :=
                                   ((chunk_counter (cs_chunk st0) + 1)
                                    mod UINT32_MOD)%Z;
                                 chunk_buf := cb' |} |}))).
Proof.
  intros HF HW Hw Hin Hmw Hm payload hash.
  destruct (round_intake F n c0 w st0 st m HF HW Hw Hin Hmw ltac:(lia))
    as [ca [cb' [clen [Eg [Es [Eh [Hc1 [Lcb' [Ccb' [Ccb2' Fcb']]]]]]]]]].
  destruct Hin as [Hc0 [Ej [Eb [Ek [Ec [Ecnt [Eidx _]]]]]]].
  pose proof HF as [_ [LF _]].
  specialize (Hc1 ltac:(lia)). subst clen.
  specialize (Ccb2' ltac:(lia)).
  rewrite Hm in Fcb'. rewrite <- LF in Fcb'.
  assert (Epay : firstn n (skipn 12 (array cb')) = payload).
  { unfold payload. apply (prefix_window _ _ (length F)); [exact Fcb' | lia]. }
  exists cb'. repeat split; try assumption.
  unfold check_hash_round. cbv zeta.
  rewrite Eg, bind_Ok, Es, bind_Ok, Eh, bind_Ok. cbv beta iota.
  rewrite Ec, Eb, Ek, Ej, Ecnt.
  assert (Et : (S m =? n + AUTH_BYTES) = true).
  { apply Nat.eqb_eq. change AUTH_BYTES with 12. lia. }
  rewrite Et.
  rewrite chunk_key_ok by exact Hready. rewrite bind_Ok.
  change ONETIMEAUTH_BYTES with 10. change CLEN_BYTES with 2.
  rewrite MemFacts.read_ok by (change AUTH_BYTES with 12; lia).
  rewrite bind_Ok. change AUTH_BYTES with 12. rewrite Epay.
  rewrite hmac_into_hash_ok by exact HL. rewrite bind_Ok.
  rewrite MemFacts.read_ok by lia. rewrite bind_Ok.
  rewrite (prefix_window (array cb') F (length F) 2 10 Fcb') by lia.
  reflexivity.
Qed.

(** the round that takes in the last byte of a frame whose MAC is right *)
Lemma round_last (P : list Z) (c0 : nat) (st0 st : check_state) (m i n' : nat) :
  (Z.of_nat (length P) < 65536)%Z ->
  let F := frame_of g ctx (chunk_counter (cs_chunk st0)) P in
  let arr0 := array (cs_buf st0) in
  let k1 := cs_k st0 + (12 + length P - c0) in
  firstn (12 + length P - c0) (skipn (cs_k st0) arr0) = skipn c0 F ->
  in_frame F (length P) c0 st0 m st -> S m = 12 + length P ->
  blen - i - 1 = n' ->
  k1 + n' <= length arr0 -> cs_j st0 + length P + n' <= length arr0 ->
  exists st' a',
    check_hash_round g ctx cap blen i st = Ok (false, st')
    /\ cs_j st' = cs_j st0 + length P /\ cs_k st' = cs_j st0 + length P
    /\ cs_cidx st' = 0
    /\ chunk_counter (cs_chunk st')
       = ((chunk_counter (cs_chunk st0) + 1) mod UINT32_MOD)%Z
    /\ chunk_idx (cs_chunk st') = chunk_idx (cs_chunk st0)
    /\ chunk_len (cs_chunk st') = length P
    /\ length (array (chunk_buf (cs_chunk st')))
       = capacity (chunk_buf (cs_chunk st'))
    /\ 2 <= capacity (chunk_buf (cs_chunk st'))
    /\ cs_buf st' = set_array (cs_buf st0) a'
    /\ length a' = length arr0
    /\ firstn (cs_j st0) a' = firstn (cs_j st0) arr0
    /\ firstn (length P) (skipn (cs_j st0) a') = P
    /\ firstn n' (skipn (cs_j st0 + length P) a') = firstn n' (skipn k1 arr0).
Proof.
  intros HP F arr0 k1 HW Hin Hm Hn Hb1 Hb2.
  pose proof (frame_framed (chunk_counter (cs_chunk st0)) P HP) as HF.
  fold F in HF. pose proof HF as [_ [LF _]].
  destruct (frame_parts (chunk_counter (cs_chunk st0)) P) as [Hmac Hpay].
  fold F in Hmac, Hpay.
  pose proof Hin as [Hc0 [_ [_ [_ [_ [_ [Eidx _]]]]]]].
  assert (HW' : firstn (12 + length P - c0) (skipn (cs_k st0) arr0)
                = firstn (12 + length P - c0) (skipn c0 F)).
  { rewrite HW. symmetry. apply firstn_all2. rewrite length_skipn. lia. }
  destruct (round_verify F (length P) c0 (12 + length P - c0) st0 st m i
                         HF HW' (le_n _) Hin ltac:(lia) Hm)
    as [cb' [Lcb' [Ccb' [Ccb2' [Epay Er]]]]].
  rewrite Hpay, Hmac in Er.
  set (hash := HMAC_SHA1 _ P) in *.
  assert (Ecmp : safe_memcmp hash (firstn 10 hash) 10 = 0%Z).
  { apply safe_memcmp_firstn.
    - unfold hash. rewrite HL. lia.
    - unfold hash. rewrite length_firstn, HL. lia.
    - now rewrite firstn_firstn. }
  rewrite Ecmp in Er. change (negb (0 =? 0)%Z) with false in Er. cbv iota in Er.
  rewrite Hn in Er. unfold Mem.memmove in Er. fold arr0 in Er.
  replace (S (cs_k st0 + (m - c0))) with k1 in Er by (unfold k1; lia).
  destruct (MemFacts.memcpy_ex arr0 (cs_j st0 + length P) arr0 k1 n')
    as [a1 [Ea1 [La1 [_ [Fa1 [Ga1 _]]]]]]; [lia | lia |].
  rewrite Ea1, bind_Ok in Er.
  change AUTH_BYTES with 12 in Er.
  destruct (MemFacts.memcpy_ex a1 (cs_j st0) (array cb') 12 (length P))
    as [a2 [Ea2 [La2 [_ [Fa2 [Ga2 Ha2]]]]]]; [lia | lia |].
  rewrite Ea2, bind_Ok in Er.
  eexists. exists a2. split; [exact Er|].
  cbn [cs_j cs_k cs_cidx cs_buf cs_chunk chunk_idx chunk_len
       chunk_counter chunk_buf].
  repeat split; try assumption; try lia.
  - rewrite Ga2 by lia. apply Ga1. lia.
  - rewrite Fa2, Epay. exact Hpay.
  - rewrite Ha2 by lia. exact Fa1.
Qed.

(** the round that takes in the last byte of a frame whose MAC is wrong *)
Lemma round_forged (F : list Z) (n c0 : nat) (st0 st : check_state) (m i : nat) :
  framed F n ->
  firstn (12 + n - c0) (skipn (cs_k st0) (array (cs_buf st0))) = skipn c0 F ->
  in_frame F n c0 st0 m st -> S m = 12 + n ->
  firstn 10 (skipn 2 F)
  <> firstn 10 (HMAC_SHA1 (chunk_key_of g ctx (chunk_counter (cs_chunk st0)))
                          (firstn n (skipn 12 F))) ->
  exists st', check_hash_round g ctx cap blen i st = Ok (true, st').
Proof.
  intros HF HW Hin Hm Hbad.
  pose proof HF as [_ [LF _]].
  pose proof Hin as [Hc0 _].
  assert (HW' : firstn (12 + n - c0) (skipn (cs_k st0) (array (cs_buf st0)))
                = firstn (12 + n - c0) (skipn c0 F)).
  { rewrite HW. symmetry. apply firstn_all2. rewrite length_skipn. lia. }
  destruct (round_verify F n c0 (12 + n - c0) st0 st m i
                         HF HW' (le_n _) Hin ltac:(lia) Hm)
    as [cb' [_ [_ [_ [_ Er]]]]].
  set (hash := HMAC_SHA1 _ _) in *.
  assert (Ecmp : safe_memcmp hash (firstn 10 (skipn 2 F)) 10 <> 0%Z).
  { intros E. apply Hbad. apply safe_memcmp_firstn in E.
    - rewrite firstn_firstn in E. symmetry. exact E.
    - unfold hash. rewrite HL. lia.
    - rewrite length_firstn, length_skipn. lia. }
  apply Z.eqb_neq in Ecmp. rewrite Ecmp in Er. cbn [negb] in Er.
  eexists. exact Er.
Qed.


Lemma check_hash_loop_step (n i : nat) (st st' : check_state) :
  check_hash_round g ctx cap blen i st = Ok (false, st') ->
  check_hash_loop g ctx cap blen (S n) i st
  = check_hash_loop g ctx cap blen n (S i) st'.
Proof. intros H. cbn [check_hash_loop]. rewrite H, bind_Ok. reflexivity. Qed.

(** a state between two frames *)
Definition between_frames (st : check_state) : Prop :=
  cs_cidx st = 0 /\ cs_k st = cs_j st
  /\ length (array (chunk_buf (cs_chunk st))) = capacity (chunk_buf (cs_chunk st))
  /\ 2 <= capacity (chunk_buf (cs_chunk st)).

Lemma between_in_frame (F : list Z) (n : nat) (st : check_state) :
  between_frames st -> in_frame F n 0 st 0 st.
Proof.
  intros [Hc [Hk [Lcb Ccb]]]. unfold in_frame.
  repeat split; try assumption; try lia.
Qed.

(** the rounds that take in bytes of a frame, short of the last *)
Lemma copy_rounds (F : list Z) (n c0 w : nat) (st0 : check_state) :
  framed F n ->
  firstn w (skipn (cs_k st0) (array (cs_buf st0))) = firstn w (skipn c0 F) ->
  w <= 12 + n - c0 ->
  in_frame F n c0 st0 c0 st0 ->
  forall d, d <= w -> c0 + d < 12 + n ->
  forall rem i,
  exists st,
    check_hash_loop g ctx cap blen (d + rem) i st0
    = check_hash_loop g ctx cap blen rem (i + d) st
    /\ in_frame F n c0 st0 (c0 + d) st.
Proof.
  intros HF HW Hw Hin0 d.
  induction d as [|d IH]; intros Hd Hm rem i.
  - exists st0. rewrite !Nat.add_0_r. split; [reflexivity | exact Hin0].
  - destruct (IH ltac:(lia) ltac:(lia) (S rem) i) as [st [E Hin]].
    destruct (round_copy F n c0 w st0 st (c0 + d) (i + d) HF HW Hw Hin)
      as [st' [Er Hin']]; [lia | lia |].
    exists st'. split.
    + replace (S d + rem) with (d + S rem) by lia. rewrite E.
      rewrite (check_hash_loop_step rem (i + d) st st' Er).
      f_equal. lia.
    + replace (c0 + S d) with (S (c0 + d)) by lia. exact Hin'.
Qed.

(** the rounds that take in the rest of a frame whose MAC is right: the
    payload goes to the buffer, what follows the frame moves up behind it *)
Lemma frame_rounds (P : list Z) (c0 : nat) (st0 : check_state) (rem i : nat) :
  (Z.of_nat (length P) < 65536)%Z ->
  let F := frame_of g ctx (chunk_counter (cs_chunk st0)) P in
  let arr0 := array (cs_buf st0) in
  let k1 := cs_k st0 + (12 + length P - c0) in
  firstn (12 + length P - c0) (skipn (cs_k st0) arr0) = skipn c0 F ->
  in_frame F (length P) c0 st0 c0 st0 -> c0 < 12 + length P ->
  blen = i + (12 + length P - c0) + rem ->
  k1 + rem <= length arr0 -> cs_j st0 + length P + rem <= length arr0 ->
  exists st' a',
    check_hash_loop g ctx cap blen (12 + length P - c0 + rem) i st0
    = check_hash_loop g ctx cap blen rem (i + (12 + length P - c0)) st'
    /\ cs_j st' = cs_j st0 + length P /\ cs_k st' = cs_j st0 + length P
    /\ cs_cidx st' = 0
    /\ chunk_counter (cs_chunk st')
       = ((chunk_counter (cs_chunk st0) + 1) mod UINT32_MOD)%Z
    /\ chunk_idx (cs_chunk st') = chunk_idx (cs_chunk st0)
    /\ chunk_len (cs_chunk st') = length P
    /\ length (array (chunk_buf (cs_chunk st')))
       = capacity (chunk_buf (cs_chunk st'))
    /\ 2 <= capacity (chunk_buf (cs_chunk st'))
    /\ cs_buf st' = set_array (cs_buf st0) a'
    /\ length a' = length arr0
    /\ firstn (cs_j st0) a' = firstn (cs_j st0) arr0
    /\ firstn (length P) (skipn (cs_j st0) a') = P
    /\ firstn rem (skipn (cs_j st0 + length P) a') = firstn rem (skipn k1 arr0).
Proof.
  intros HP F arr0 k1 HW Hin0 Hc0 Hblen Hb1 Hb2.
  pose proof (frame_framed (chunk_counter (cs_chunk st0)) P HP) as HF.
  fold F in HF. pose proof HF as [_ [LF _]].
  assert (HW' : firstn (12 + length P - c0) (skipn (cs_k st0) (array (cs_buf st0)))
                = firstn (12 + length P - c0) (skipn c0 F)).
  { fold arr0. rewrite HW. symmetry. apply firstn_all2. rewrite length_skipn. lia. }
  destruct (copy_rounds F (length P) c0 (12 + length P - c0) st0 HF HW' (le_n _)
                        Hin0 (11 + length P - c0) ltac:(lia) ltac:(lia)
                        (S rem) i) as [st [E Hin]].
  replace (c0 + (11 + length P - c0)) with (11 + length P) in Hin by lia.
  destruct (round_last P c0 st0 st (11 + length P) (i + (11 + length P - c0)) rem
                       HP HW Hin)
    as [st' [a' [Er Hpost]]]; [lia | lia | exact Hb1 | exact Hb2 |].
  exists st', a'. split; [|exact Hpost].
  replace (12 + length P - c0 + rem) with (11 + length P - c0 + S rem) by lia.
  rewrite E.
  rewrite (check_hash_loop_step rem _ st st' Er). f_equal. lia.
Qed.

(** the rounds that take in the rest of a frame whose MAC is wrong *)
Lemma frame_refused (F : list Z) (n c0 : nat) (st0 : check_state) (rem i : nat) :
  framed F n ->
  firstn (12 + n - c0) (skipn (cs_k st0) (array (cs_buf st0))) = skipn c0 F ->
  in_frame F n c0 st0 c0 st0 -> c0 < 12 + n ->
  firstn 10 (skipn 2 F)
  <> firstn 10 (HMAC_SHA1 (chunk_key_of g ctx (chunk_counter (cs_chunk st0)))
                          (firstn n (skipn 12 F))) ->
  exists st',
    check_hash_loop g ctx cap blen (12 + n - c0 + rem) i st0 = Ok (0%Z, st').
Proof.
  intros HF HW Hin0 Hc0 Hbad.
  pose proof HF as [_ [LF _]].
  assert (HW' : firstn (12 + n - c0) (skipn (cs_k st0) (array (cs_buf st0)))
                = firstn (12 + n - c0) (skipn c0 F)).
  { rewrite HW. symmetry. apply firstn_all2. rewrite length_skipn. lia. }
  destruct (copy_rounds F n c0 (12 + n - c0) st0 HF HW' (le_n _)
                        Hin0 (11 + n - c0) ltac:(lia) ltac:(lia)
                        (S rem) i) as [st [E Hin]].
  replace (c0 + (11 + n - c0)) with (11 + n) in Hin by lia.
  destruct (round_forged F n c0 st0 st (11 + n) (i + (11 + n - c0))
                         HF HW Hin ltac:(lia) Hbad) as [st' Er].
  exists st'.
  replace (12 + n - c0 + rem) with (11 + n - c0 + S rem) by lia.
  rewrite E. cbn [check_hash_loop]. rewrite Er, bind_Ok. reflexivity.
Qed.

(** the counter after one more chunk *)
Definition next_counter (c : Z) : Z := ((c + 1) mod UINT32_MOD)%Z.

(** the frames of the chunks [chunks], numbered from [counter] on *)
Fixpoint frames_from (counter : Z) (chunks : list (list Z)) : list Z :=
  match chunks with
  | [] => []
  | P :: rest => frame_of g ctx counter P ++ frames_from (next_counter counter) rest
  end.

Lemma frames_from_length (chunks : list (list Z)) (counter : Z) :
  length (frames_from counter chunks)
  = 12 * length chunks + length (concat chunks).
Proof.
  revert counter. induction chunks as [|P rest IH]; intros counter; [reflexivity|].
  cbn [frames_from concat length]. rewrite !length_app, IH.
  rewrite (frame_length g ctx counter P HL). lia.
Qed.

(** the rounds that take in a sequence of whole frames *)
Lemma stream_rounds (chunks : list (list Z)) :
  Forall (fun P => (Z.of_nat (length P) < 65536)%Z) chunks ->
  forall (st0 : check_state) (rem i : nat),
  let S := frames_from (chunk_counter (cs_chunk st0)) chunks in
  firstn (length S) (skipn (cs_j st0) (array (cs_buf st0))) = S ->
  between_frames st0 ->
  blen = i + length S + rem ->
  cs_j st0 + length S + rem <= length (array (cs_buf st0)) ->
  exists st' a',
    check_hash_loop g ctx cap blen (length S + rem) i st0
    = check_hash_loop g ctx cap blen rem (i + length S) st'
    /\ cs_j st' = cs_j st0 + length (concat chunks)
    /\ between_frames st'
    /\ chunk_counter (cs_chunk st')
       = Nat.iter (length chunks) next_counter (chunk_counter (cs_chunk st0))
    /\ chunk_idx (cs_chunk st') = chunk_idx (cs_chunk st0)
    /\ (chunks = [] -> chunk_len (cs_chunk st') = chunk_len (cs_chunk st0))
    /\ cs_buf st' = set_array (cs_buf st0) a'
    /\ length a' = length (array (cs_buf st0))
    /\ firstn (cs_j st0) a' = firstn (cs_j st0) (array (cs_buf st0))
    /\ firstn (length (concat chunks)) (skipn (cs_j st0) a') = concat chunks
    /\ firstn rem (skipn (cs_j st0 + length (concat chunks)) a')
       = firstn rem (skipn (cs_j st0 + length S) (array (cs_buf st0))).
Proof.
  intros Hsz.
  induction Hsz as [|P rest HP _ IH]; intros st0 rem i S HS Hbt Hb Hbound.
  - exists st0, (array (cs_buf st0)). cbn [frames_from length concat] in *.
    cbn [Nat.iter]. rewrite !Nat.add_0_r.
    repeat split; try assumption; try reflexivity; try apply Hbt.
    destruct (cs_buf st0); reflexivity.
  - subst S. cbn [frames_from] in *. rewrite length_app in HS, Hb, Hbound |- *.
    pose proof (frame_length g ctx (chunk_counter (cs_chunk st0)) P HL) as LF.
    set (F := frame_of g ctx (chunk_counter (cs_chunk st0)) P) in *.
    set (S' := frames_from (next_counter (chunk_counter (cs_chunk st0))) rest) in *.
    destruct (window_split _ F S' HS) as [HF [HS' _]].
    rewrite skipn_skipn in HS'.
    rewrite LF in HF, HS', Hb, Hbound |- *.
    pose proof Hbt as [Hc [Hk [Lcb Ccb]]].
    destruct (frame_rounds P 0 st0 (length S' + rem) i HP)
      as [st1 [a1 [E1 [Hj1 [Hk1 [Hc1 [Hcnt1 [Hidx1 [_ [Lcb1 [Ccb1
            [Hb1 [La1 [Fa1 [Pa1 Ra1]]]]]]]]]]]]]]].
    { rewrite Nat.sub_0_r, Hk. exact HF. }
    { apply between_in_frame. exact Hbt. }
    { lia. }
    { lia. }
    { lia. }
    { lia. }
    rewrite Nat.sub_0_r in E1, Ra1. rewrite Hk in Ra1.
    replace (12 + length P + length S' + rem)
      with (12 + length P + (length S' + rem)) by lia.
    rewrite E1.
    assert (Earr1 : array (cs_buf st1) = a1) by (rewrite Hb1; reflexivity).
    destruct (window_tail _ _ _ _ _ _ Ra1) as [Ra1a Ra1b].
    destruct (IH st1 rem (i + (12 + length P))) as
        [st' [a' [E' [Hj' [Hbt' [Hcnt' [Hidx' [_ [Hb' [La' [Fa' [Pa' Ra']]]]]]]]]]]].
    { rewrite Hcnt1, Earr1, Hj1. fold (next_counter (chunk_counter (cs_chunk st0))).
      fold S'. rewrite Ra1a.
      replace (12 + length P + cs_j st0) with (cs_j st0 + (12 + length P))
        in HS' by lia.
      exact HS'. }
    { repeat split; try assumption. lia. }
    { rewrite Hcnt1. fold (next_counter (chunk_counter (cs_chunk st0))).
      fold S'. lia. }
    { rewrite Hcnt1. fold (next_counter (chunk_counter (cs_chunk st0))).
      fold S'. rewrite Earr1. lia. }
    rewrite Hcnt1 in E', Hcnt', Ra'.
    fold (next_counter (chunk_counter (cs_chunk st0))) in E', Hcnt', Ra'.
    fold S' in E', Ra'.
    exists st', a'. split.
    { rewrite E'. f_equal. lia. }
    cbn [concat]. rewrite length_app.
    split; [lia|]. split; [exact Hbt'|].
    split.
    { rewrite Hcnt'. cbn [length]. rewrite Nat.iter_succ_r. reflexivity. }
    split; [congruence|].
    split; [discriminate|].
    split; [rewrite Hb', Hb1; reflexivity|].
    rewrite Earr1 in La', Fa', Ra'. rewrite Hj1 in Fa', Pa', Ra'.
    split; [lia|].
    assert (Fj : firstn (cs_j st0) a' = firstn (cs_j st0) a1).
    { apply (f_equal (firstn (cs_j st0))) in Fa'.
      rewrite !firstn_firstn in Fa'.
      replace (Nat.min (cs_j st0) (cs_j st0 + length P)) with (cs_j st0)
        in Fa' by lia.
      exact Fa'. }
    split; [rewrite Fj; exact Fa1|].
    split.
    { rewrite firstn_plus, skipn_skipn.
      replace (length P + cs_j st0) with (cs_j st0 + length P) by lia.
      rewrite Pa'. f_equal.
      rewrite (prefix_window a' a1 (cs_j st0 + length P) (cs_j st0) (length P) Fa')
        by lia.
      exact Pa1. }
    replace (cs_j st0 + (length P + length (concat rest)))
      with (cs_j st0 + length P + length (concat rest)) by lia.
    rewrite Ra', Ra1b. f_equal. f_equal. lia.
Qed.

End CheckHash.

Section CheckHashCalls.
Context {B : Backend}.
Variables (g : globals) (ctx : option enc_ctx_t) (cap : nat).
Hypothesis HL : Laws.hmac_law B.
Hypothesis Hready : chunk_ready g ctx.
Hypothesis Hcap2 : 2 <= cap.

(** the chunk state holds the first [t] bytes of the frame [F], whose
    payload has [n] bytes *)
Definition carrying (F : list Z) (n t : nat) (chunk : chunk_t) : Prop :=
  chunk_idx chunk = t
  /\ length (array (chunk_buf chunk)) = capacity (chunk_buf chunk)
  /\ (2 <= t -> chunk_len chunk = n /\ 12 + n <= capacity (chunk_buf chunk))
  /\ firstn t (array (chunk_buf chunk)) = firstn t F.

(** the variables of [ss_check_hash] when its loop begins *)
Definition entry_state (buf : buffer_t) (chunk : chunk_t) : check_state :=
  {| cs_j := 0; cs_k := 0; cs_cidx := chunk_idx chunk;
     cs_buf := brealloc buf (chunk_len chunk + len buf) cap;
     cs_chunk :=
       {| chunk_idx := chunk_idx chunk; chunk_len := chunk_len chunk;
          chunk_counter := chunk_counter chunk;
          chunk_buf := brealloc (chunk_buf chunk)
                                (chunk_len chunk + len buf) cap |} |}.

(** what [ss_check_hash] returns when its loop ran to the end *)
Definition exit_buffer (st : check_state) : buffer_t :=
  set_len (cs_buf st) (cs_j st).

Definition exit_chunk (st : check_state) : chunk_t :=
  {| chunk_idx := cs_cidx st; chunk_len := chunk_len (cs_chunk st);
     chunk_counter := chunk_counter (cs_chunk st);
     chunk_buf := chunk_buf (cs_chunk st) |}.

Lemma ss_check_hash_done (buf : buffer_t) (chunk : chunk_t) (st : check_state) :
  check_hash_loop g ctx cap (len buf) (len buf) 0 (entry_state buf chunk)
  = Ok (1%Z, st) ->
  ss_check_hash g buf chunk ctx cap = Ok (1%Z, exit_buffer st, exit_chunk st).
Proof.
  intros H. unfold ss_check_hash. cbv zeta. fold (entry_state buf chunk).
  rewrite H, bind_Ok. reflexivity.
Qed.

Lemma ss_check_hash_bad (buf : buffer_t) (chunk : chunk_t) (st : check_state) :
  check_hash_loop g ctx cap (len buf) (len buf) 0 (entry_state buf chunk)
  = Ok (0%Z, st) ->
  ss_check_hash g buf chunk ctx cap = Ok (0%Z, cs_buf st, cs_chunk st).
Proof.
  intros H. unfold ss_check_hash. cbv zeta. fold (entry_state buf chunk).
  rewrite H, bind_Ok. reflexivity.
Qed.

Lemma entry_in_frame (F : list Z) (n c0 : nat) (buf : buffer_t) (chunk : chunk_t) :
  framed F n -> carrying F n c0 chunk -> c0 < 12 + n ->
  in_frame F n c0 (entry_state buf chunk) c0 (entry_state buf chunk).
Proof.
  intros HF [Hi [Lcb [H2 Fcb]]] Hc0.
  destruct HF as [_ [LF _]].
  destruct (brealloc_spec (chunk_buf chunk) (chunk_len chunk + len buf) cap Lcb)
    as [L1 [_ [C0 [C1 [_ [_ F1]]]]]].
  unfold in_frame, entry_state.
  cbn [cs_j cs_k cs_cidx cs_buf cs_chunk chunk_idx chunk_len chunk_counter
       chunk_buf].
  repeat split; try assumption; try lia.
  rewrite F1; [exact Fcb|].
  apply (f_equal (@length Z)) in Fcb. rewrite !length_firstn in Fcb. lia.
Qed.

Lemma entry_between (F : list Z) (n : nat) (buf : buffer_t) (chunk : chunk_t) :
  carrying F n 0 chunk -> between_frames (entry_state buf chunk).
Proof.
  intros [Hi [Lcb _]].
  destruct (brealloc_spec (chunk_buf chunk) (chunk_len chunk + len buf) cap Lcb)
    as [L1 [_ [C0 [C1 _]]]].
  unfold between_frames, entry_state.
  cbn [cs_j cs_k cs_cidx cs_buf cs_chunk chunk_idx chunk_len chunk_counter
       chunk_buf].
  repeat split; try assumption; try lia.
Qed.

Lemma entry_buffer (buf : buffer_t) (chunk : chunk_t) :
  buffer_ok buf ->
  let arr0 := array (cs_buf (entry_state buf chunk)) in
  chunk_len chunk + len buf <= length arr0
  /\ length arr0 = capacity (cs_buf (entry_state buf chunk))
  /\ firstn (len buf) arr0 = contents buf.
Proof.
  intros [Lb Hb]. cbv zeta. cbn [entry_state cs_buf].
  destruct (brealloc_spec buf (chunk_len chunk + len buf) cap Lb)
    as [L1 [C1 [_ [_ [_ [_ F1]]]]]].
  repeat split; try lia; try exact L1.
  unfold contents. apply F1. exact Hb.
Qed.

Lemma in_frame_exit (F : list Z) (n c0 m : nat) (st0 st : check_state) :
  in_frame F n c0 st0 m st ->
  carrying F n m (exit_chunk st)
  /\ chunk_counter (exit_chunk st) = chunk_counter (cs_chunk st0)
  /\ exit_buffer st = set_len (cs_buf st0) (cs_j st0).
Proof.
  intros [Hc0 [Ej [Eb [Ek [Ec [Ecnt [Eidx [Elen [Lcb [Ccb [Ccb2 Fcb]]]]]]]]]]].
  unfold carrying, exit_chunk, exit_buffer.
  cbn [chunk_idx chunk_len chunk_counter chunk_buf].
  rewrite Eb, Ej. repeat split; try assumption;
    first [apply Elen | apply Ccb2]; assumption.
Qed.

(** A call on bytes that do not complete the frame being received: they
    are kept in the chunk state and nothing is given out. *)
Lemma check_hash_part (F : list Z) (n c0 w : nat) (buf : buffer_t)
      (chunk : chunk_t) :
  framed F n -> carrying F n c0 chunk -> buffer_ok buf ->
  contents buf = firstn w (skipn c0 F) -> c0 + w < 12 + n ->
  exists out chunk',
    ss_check_hash g buf chunk ctx cap = Ok (1%Z, out, chunk')
    /\ len out = 0 /\ buffer_ok out
    /\ carrying F n (c0 + w) chunk'
    /\ chunk_counter chunk' = chunk_counter chunk.
Proof.
  intros HF Hcar Hbuf Hcont Hw.
  pose proof HF as [_ [LF _]].
  destruct (entry_buffer buf chunk Hbuf) as [Hlen [Hcap Hpre]].
  cbv zeta in Hlen, Hcap, Hpre.
  assert (Lw : len buf = w).
  { apply (f_equal (@length Z)) in Hcont. unfold contents in Hcont.
    destruct Hbuf as [Lb Hb].
    rewrite !length_firstn, length_skipn in Hcont. lia. }
  pose proof (entry_in_frame F n c0 buf chunk HF Hcar ltac:(lia)) as Hin0.
  set (st0 := entry_state buf chunk) in *.
  assert (HW : firstn w (skipn (cs_k st0) (array (cs_buf st0)))
               = firstn w (skipn c0 F)).
  { change (cs_k st0) with 0. change (skipn 0 ?l) with l.
    rewrite <- Lw at 1. rewrite Hpre. exact Hcont. }
  destruct (copy_rounds g ctx cap (len buf) F n c0 w st0 HF HW
                        ltac:(lia) Hin0 w (le_n _) Hw 0 0) as [st [E Hin]].
  rewrite Nat.add_0_r in E. cbn [check_hash_loop] in E. rewrite <- Lw in E at 1.
  destruct (in_frame_exit F n c0 (c0 + w) st0 st Hin) as [Hcar' [Hcnt' Hout]].
  exists (exit_buffer st), (exit_chunk st).
  split; [apply ss_check_hash_done; exact E|].
  rewrite Hout. cbn [len set_len].
  split; [reflexivity|].
  split; [split; [exact Hcap | apply Nat.le_0_l]|].
  split; [exact Hcar' | exact Hcnt'].
Qed.

(** A call on bytes that complete the frame being received, followed by
    whole frames and by the first bytes of one more: the payloads of the
    frames completed are given out, the bytes left over are kept. *)
Lemma check_hash_frames (P : list Z) (c0 : nat) (Bs : list (list Z))
      (P' : list Z) (t : nat) (buf : buffer_t) (chunk : chunk_t) :
  let c := chunk_counter chunk in
  let c' := Nat.iter (S (length Bs)) next_counter c in
  (Z.of_nat (length P) < 65536)%Z ->
  Forall (fun Q => (Z.of_nat (length Q) < 65536)%Z) Bs ->
  (Z.of_nat (length P') < 65536)%Z ->
  carrying (frame_of g ctx c P) (length P) c0 chunk ->
  c0 < 12 + length P -> t < 12 + length P' ->
  buffer_ok buf ->
  contents buf
  = skipn c0 (frame_of g ctx c P)
    ++ frames_from g ctx (next_counter c) Bs
    ++ firstn t (frame_of g ctx c' P') ->
  exists out chunk',
    ss_check_hash g buf chunk ctx cap = Ok (1%Z, out, chunk')
    /\ contents out = P ++ concat Bs /\ buffer_ok out
    /\ carrying (frame_of g ctx c' P') (length P') t chunk'
    /\ chunk_counter chunk' = c'.
Proof.
  intros c c' HP HBs HP' Hcar Hc0 Ht Hbuf Hcont.
  pose proof (frame_length g ctx c P HL) as LF.
  pose proof (frame_length g ctx c' P' HL) as LF'.
  pose proof (frame_framed g ctx HL c' P' HP') as HF'.
  set (F := frame_of g ctx c P) in *.
  set (S := frames_from g ctx (next_counter c) Bs) in *.
  set (F' := frame_of g ctx c' P') in *.
  destruct (entry_buffer buf chunk Hbuf) as [Hlen [Hcap Hpre]].
  cbv zeta in Hlen, Hcap, Hpre.
  assert (Lb : len buf = (12 + length P - c0) + (length S + t)).
  { apply (f_equal (@length Z)) in Hcont. unfold contents in Hcont.
    destruct Hbuf as [Lb Hb].
    rewrite !length_app, !length_firstn, length_skipn in Hcont. lia. }
  pose proof (entry_in_frame F (length P) c0 buf chunk
                             (frame_framed g ctx HL c P HP) Hcar Hc0) as Hin0.
  set (st0 := entry_state buf chunk) in *.
  set (arr0 := array (cs_buf st0)) in *.
  rewrite <- Hpre in Hcont.
  assert (L1 : length (skipn c0 F) = 12 + length P - c0)
    by (rewrite length_skipn; lia).
  assert (L3 : length (firstn t F') = t) by (rewrite length_firstn; lia).
  assert (Hcont' : firstn (length (skipn c0 F) + length (S ++ firstn t F')) arr0
                   = skipn c0 F ++ S ++ firstn t F').
  { rewrite L1, length_app, L3, <- Lb. exact Hcont. }
  destruct (window_split _ _ _ Hcont') as [W1 [W23 _]].
  rewrite L1 in W1, W23. rewrite length_app, L3 in W23.
  (* the frame being received *)
  assert (Hcl : 2 <= c0 -> chunk_len chunk = length P).
  { intros H. destruct Hcar as [_ [_ [H2 _]]]. apply H2. exact H. }
  destruct (frame_rounds g ctx cap (len buf) HL Hready P c0 st0
                         (length S + t) 0 HP)
    as [st1 [a1 [E1 [Hj1 [Hk1 [Hc1 [Hcnt1 [Hidx1 [_ [Lcb1 [Ccb1
          [Hb1 [La1 [_ [Pa1 Ra1]]]]]]]]]]]]]]].
  { exact W1. }
  { exact Hin0. }
  { exact Hc0. }
  { lia. }
  { change (cs_k st0) with 0. fold arr0. lia. }
  { change (cs_j st0) with 0. fold arr0.
    destruct (Nat.le_gt_cases 2 c0) as [H | H]; [apply Hcl in H|]; lia. }
  change (cs_j st0) with 0 in Hj1, Hk1, Pa1, Ra1.
  change (cs_k st0) with 0 in Ra1.
  change (chunk_counter (cs_chunk st0)) with c in Hcnt1.
  rewrite Nat.add_0_l in Hj1, Hk1. rewrite !Nat.add_0_l in Ra1.
  fold arr0 in La1, Ra1.
  rewrite W23 in Ra1.
  assert (Earr1 : array (cs_buf st1) = a1) by (rewrite Hb1; reflexivity).
  fold (next_counter c) in Hcnt1.
  assert (Ra1' : firstn (length S + length (firstn t F')) (skipn (length P) a1)
                 = S ++ firstn t F') by (rewrite L3; exact Ra1).
  destruct (window_split _ _ _ Ra1') as [W2 [W3 _]].
  rewrite L3, skipn_skipn in W3.
  (* the whole frames *)
  destruct (stream_rounds g ctx cap (len buf) HL Hready Bs HBs st1 t
                          (12 + length P - c0))
    as [st2 [a2 [E2 [Hj2 [Hbt2 [Hcnt2 [Hidx2 [_ [Hb2 [La2 [Fa2 [Pa2 Ra2]]]]]]]]]]]].
  { rewrite Hcnt1, Earr1, Hj1. exact W2. }
  { repeat split; try assumption. lia. }
  { rewrite Hcnt1. fold S. lia. }
  { rewrite Hcnt1, Earr1, Hj1. fold S. rewrite La1.
    destruct (Nat.le_gt_cases 2 c0) as [H | H]; [apply Hcl in H|]; lia. }
  rewrite Hcnt1 in E2, Hcnt2, Ra2. fold S in E2, Ra2.
  rewrite Earr1 in La2, Fa2, Ra2. rewrite Hj1 in Hj2, Fa2, Pa2, Ra2.
  replace (length P + length S) with (length S + length P) in Ra2 by lia.
  rewrite W3 in Ra2.
  assert (Earr2 : array (cs_buf st2) = a2) by (rewrite Hb2; reflexivity).
  assert (Hc' : chunk_counter (cs_chunk st2) = c').
  { rewrite Hcnt2. unfold c'. rewrite Nat.iter_succ_r. reflexivity. }
  (* the bytes left over *)
  pose proof Hbt2 as [_ [Hk2 _]].
  destruct (copy_rounds g ctx cap (len buf) F' (length P') 0 t st2
                        HF')
    with (d := t) (rem := 0) (i := 12 + length P - c0 + length S)
    as [st3 [E3 Hin3]].
  { rewrite Hk2, Hj2, Earr2. exact Ra2. }
  { lia. }
  { apply between_in_frame. exact Hbt2. }
  { apply le_n. }
  { lia. }
  rewrite Nat.add_0_r in E3. cbn [check_hash_loop] in E3.
  destruct (in_frame_exit F' (length P') 0 (0 + t) st2 st3 Hin3)
    as [Hcar' [Hcnt' Hout]].
  exists (exit_buffer st3), (exit_chunk st3).
  split.
  { apply ss_check_hash_done. rewrite Lb at 2. fold st0.
    rewrite E1, Nat.add_0_l, E2. exact E3. }
  rewrite Hout, Hj2, Hb2.
  split.
  { unfold contents. cbn [len array set_len set_array].
    rewrite firstn_plus, Pa2. f_equal.
    apply (f_equal (firstn (length P))) in Fa2. rewrite !firstn_firstn in Fa2.
    replace (Nat.min (length P) (length P)) with (length P) in Fa2 by lia.
    rewrite Fa2. exact Pa1. }
  split.
  { unfold buffer_ok. cbn [len array capacity set_len set_array].
    rewrite La2, Hb1. cbn [capacity set_array]. rewrite La1.
    pose proof (frames_from_length g ctx HL Bs (next_counter c)) as LS.
    fold S in LS.
    split; [exact Hcap|]. rewrite <- Hcap.
    destruct (Nat.le_gt_cases 2 c0) as [H | H]; [apply Hcl in H|]; lia. }
  split; [exact Hcar'|].
  rewrite Hcnt'. exact Hc'.
Qed.


(** A frame with a wrong MAC, after any number of good frames, makes the
    call return 0. *)
Lemma check_hash_forged (A : list (list Z)) (F' : list Z) (n : nat)
      (tail : list Z) (buf : buffer_t) (chunk : chunk_t) :
  let c := chunk_counter chunk in
  let c' := Nat.iter (length A) next_counter c in
  Forall (fun Q => (Z.of_nat (length Q) < 65536)%Z) A ->
  framed F' n ->
  firstn 10 (skipn 2 F')
  <> firstn 10 (HMAC_SHA1 (chunk_key_of g ctx c') (firstn n (skipn 12 F'))) ->
  carrying F' n 0 chunk -> buffer_ok buf ->
  contents buf = frames_from g ctx c A ++ F' ++ tail ->
  exists out chunk',
    ss_check_hash g buf chunk ctx cap = Ok (0%Z, out, chunk').
Proof.
  intros c c' HA HF' Hbad Hcar Hbuf Hcont.
  pose proof HF' as [_ [LF' _]].
  set (S := frames_from g ctx c A) in *.
  destruct (entry_buffer buf chunk Hbuf) as [Hlen [Hcap Hpre]].
  cbv zeta in Hlen, Hcap, Hpre.
  assert (Lb : len buf = length S + (12 + n + length tail)).
  { apply (f_equal (@length Z)) in Hcont. unfold contents in Hcont.
    destruct Hbuf as [Lb Hb].
    rewrite !length_app, !length_firstn in Hcont. lia. }
  pose proof (entry_between F' n buf chunk Hcar) as Hbt0.
  set (st0 := entry_state buf chunk) in *.
  set (arr0 := array (cs_buf st0)) in *.
  rewrite <- Hpre in Hcont.
  assert (Hcont' : firstn (length S + length (F' ++ tail)) arr0
                   = S ++ F' ++ tail).
  { rewrite length_app, LF', <- Lb. exact Hcont. }
  destruct (window_split _ _ _ Hcont') as [W1 [W23 _]].
  rewrite length_app in W23.
  destruct (window_split _ _ _ W23) as [W2 _].
  rewrite LF' in W2.
  destruct (stream_rounds g ctx cap (len buf) HL Hready A HA st0
                          (12 + n + length tail) 0)
    as [st1 [a1 [E1 [Hj1 [Hbt1 [Hcnt1 [_ [_ [Hb1 [La1 [_ [_ Ra1]]]]]]]]]]]].
  { exact W1. }
  { exact Hbt0. }
  { change (chunk_counter (cs_chunk st0)) with c. fold S. lia. }
  { change (chunk_counter (cs_chunk st0)) with c. fold S.
    change (cs_j st0) with 0. fold arr0. lia. }
  change (chunk_counter (cs_chunk st0)) with c in E1, Hcnt1, Ra1.
  fold S in E1, Ra1. fold c' in Hcnt1.
  change (cs_j st0) with 0 in Hj1, Ra1. rewrite !Nat.add_0_l in Ra1.
  rewrite Nat.add_0_l in Hj1. fold arr0 in Ra1.
  assert (Earr1 : array (cs_buf st1) = a1) by (rewrite Hb1; reflexivity).
  replace (12 + n + length tail) with ((12 + n) + length tail) in Ra1 by lia.
  destruct (window_tail _ _ _ _ _ _ Ra1) as [Ra1a _].
  rewrite W2 in Ra1a.
  pose proof Hbt1 as [_ [Hk1 _]].
  destruct (frame_refused g ctx cap (len buf) HL Hready F' n 0 st1
                          (length tail) (length S) HF')
    as [st2 E2].
  { rewrite Hk1, Hj1, Earr1, Nat.sub_0_r. exact Ra1a. }
  { apply between_in_frame. exact Hbt1. }
  { lia. }
  { rewrite Hcnt1. exact Hbad. }
  rewrite Nat.sub_0_r in E2.
  exists (cs_buf st2), (cs_chunk st2).
  apply ss_check_hash_bad. rewrite Lb at 2. fold st0.
  rewrite E1, Nat.add_0_l. exact E2.
Qed.

Lemma frames_from_app (A R : list (list Z)) (c : Z) :
  frames_from g ctx c (A ++ R)
  = frames_from g ctx c A
    ++ frames_from g ctx (Nat.iter (length A) next_counter c) R.
Proof.
  revert c. induction A as [|P A IH]; intros c; [reflexivity|].
  cbn [app frames_from length]. rewrite IH, Nat.iter_succ_r, app_assoc.
  reflexivity.
Qed.

(** every position of a stream of frames is inside one frame, short of
    its end, or at the end of the stream *)
Lemma split_position (chunks : list (list Z)) (c : Z) (s : nat) :
  s <= length (frames_from g ctx c chunks) ->
  exists A R t,
    chunks = A ++ R /\ s = length (frames_from g ctx c A) + t
    /\ match R with [] => t = 0 | P :: _ => t < 12 + length P end.
Proof.
  clear Hcap2 Hready.
  revert c s. induction chunks as [|P rest IH]; intros c s Hs.
  - exists [], [], 0. cbn in *. repeat split; lia.
  - destruct (Nat.lt_ge_cases s (12 + length P)) as [Hlt | Hge].
    + exists [], (P :: rest), s. repeat split. exact Hlt.
    + cbn [frames_from] in Hs. rewrite length_app in Hs.
      rewrite (frame_length g ctx c P HL) in Hs.
      destruct (IH (next_counter c) (s - (12 + length P)) ltac:(lia))
        as [A [R [t [E1 [E2 E3]]]]].
      exists (P :: A), R, t. cbn [app frames_from].
      rewrite length_app, (frame_length g ctx c P HL).
      split; [rewrite E1; reflexivity|]. split; [lia | exact E3].
Qed.

(** the chunk state between two frames *)
Definition idle (chunk : chunk_t) : Prop :=
  chunk_idx chunk = 0
  /\ length (array (chunk_buf chunk)) = capacity (chunk_buf chunk).

Lemma idle_carrying (F : list Z) (n : nat) (chunk : chunk_t) :
  idle chunk <-> carrying F n 0 chunk.
Proof.
  clear Hcap2 Hready HL.
  unfold idle, carrying. split.
  - intros [H1 H2]. repeat split; try assumption; lia.
  - intros [H1 [H2 _]]. split; assumption.
Qed.

(** A call on whole frames followed by the first [t] bytes of one more. *)
Lemma check_hash_prefix (A : list (list Z)) (P : list Z) (t : nat)
      (buf : buffer_t) (chunk : chunk_t) :
  let c := chunk_counter chunk in
  let c' := Nat.iter (length A) next_counter c in
  Forall (fun Q => (Z.of_nat (length Q) < 65536)%Z) A ->
  (Z.of_nat (length P) < 65536)%Z ->
  idle chunk -> t < 12 + length P -> buffer_ok buf ->
  contents buf = frames_from g ctx c A ++ firstn t (frame_of g ctx c' P) ->
  exists out chunk',
    ss_check_hash g buf chunk ctx cap = Ok (1%Z, out, chunk')
    /\ contents out = concat A /\ buffer_ok out
    /\ carrying (frame_of g ctx c' P) (length P) t chunk'
    /\ chunk_counter chunk' = c'.
Proof.
  intros c c' HA HP Hidle Ht Hbuf Hcont.
  destruct A as [|P0 A].
  - cbn [frames_from app length Nat.iter] in *.
    destruct (check_hash_part (frame_of g ctx c' P) (length P) 0 t buf chunk)
      as [out [chunk' [E [Lo [Ho [Hcar Hcnt]]]]]].
    { apply frame_framed; assumption. }
    { apply idle_carrying. exact Hidle. }
    { exact Hbuf. }
    { exact Hcont. }
    { lia. }
    exists out, chunk'. split; [exact E|].
    split; [unfold contents; rewrite Lo; reflexivity|].
    split; [exact Ho|]. split; [exact Hcar | exact Hcnt].
  - inversion HA as [|? ? HP0 HA']; subst.
    cbn [frames_from] in Hcont. rewrite <- app_assoc in Hcont.
    destruct (check_hash_frames P0 0 A P t buf chunk HP0 HA' HP)
      as [out [chunk' H]].
    { apply idle_carrying. exact Hidle. }
    { lia. }
    { exact Ht. }
    { exact Hbuf. }
    { exact Hcont. }
    exists out, chunk'. exact H.
Qed.

(** A call on the rest of the frame being received and on whole frames. *)
Lemma check_hash_suffix (P : list Z) (t : nat) (Bs : list (list Z))
      (buf : buffer_t) (chunk : chunk_t) :
  let c := chunk_counter chunk in
  (Z.of_nat (length P) < 65536)%Z ->
  Forall (fun Q => (Z.of_nat (length Q) < 65536)%Z) Bs ->
  carrying (frame_of g ctx c P) (length P) t chunk -> t < 12 + length P ->
  buffer_ok buf ->
  contents buf
  = skipn t (frame_of g ctx c P) ++ frames_from g ctx (next_counter c) Bs ->
  exists out chunk',
    ss_check_hash g buf chunk ctx cap = Ok (1%Z, out, chunk')
    /\ contents out = P ++ concat Bs /\ buffer_ok out
    /\ idle chunk'
    /\ chunk_counter chunk' = Nat.iter (S (length Bs)) next_counter c.
Proof.
  intros c HP HBs Hcar Ht Hbuf Hcont.
  destruct (check_hash_frames P t Bs [] 0 buf chunk HP HBs)
    as [out [chunk' [E [Co [Ho [Hcar' Hcnt]]]]]]; try assumption.
  { reflexivity. }
  { cbn. lia. }
  { cbn [firstn]. rewrite app_nil_r. exact Hcont. }
  exists out, chunk'. split; [exact E|]. split; [exact Co|].
  split; [exact Ho|]. split; [|exact Hcnt].
  apply idle_carrying in Hcar'. exact Hcar'.
Qed.

End CheckHashCalls.

Lemma firstn_over (l1 l2 : list Z) (n : nat) :
  firstn (length l1 + n) (l1 ++ l2) = l1 ++ firstn n l2.
Proof. apply firstn_app_2. Qed.

Lemma skipn_over (l1 l2 : list Z) (n : nat) :
  skipn (length l1 + n) (l1 ++ l2) = skipn n l2.
Proof.
  rewrite skipn_app, skipn_all2 by lia.
  replace (length l1 + n - length l1) with n by lia. reflexivity.
Qed.

Lemma firstn_within (l1 l2 : list Z) (n : nat) :
  n <= length l1 -> firstn n (l1 ++ l2) = firstn n l1.
Proof.
  intros H. rewrite firstn_app.
  replace (n - length l1) with 0 by lia. apply app_nil_r.
Qed.

Lemma skipn_within (l1 l2 : list Z) (n : nat) :
  n <= length l1 -> skipn n (l1 ++ l2) = skipn n l1 ++ l2.
Proof.
  intros H. rewrite skipn_app.
  replace (n - length l1) with 0 by lia. reflexivity.
Qed.

Section ChunkStream.
Context {B : Backend}.

(** X1.  [ss_gen_hash] turns the payload of a buffer into a frame: the
    length of the payload in two bytes, the high one first, the first 10
    bytes of the HMAC of the payload under the IV of the context followed
    by the chunk counter, then the payload.  It returns 0, the buffer is 12
    bytes longer, and the counter is one more, modulo 2^32. *)
Theorem gen_hash_frames_the_payload (g : globals) (buf : buffer_t)
        (counter : Z) (ctx : option enc_ctx_t) (cap : nat) :
  Laws.hmac_law B -> chunk_ready g ctx -> buffer_ok buf ->
  exists buf',
    ss_gen_hash g buf counter ctx cap
    = Ok (0%Z, buf', ((counter + 1) mod UINT32_MOD)%Z)
    /\ buffer_ok buf'
    /\ len buf' = len buf + AUTH_BYTES
    /\ contents buf'
       = htons_bytes (Z.of_nat (len buf))
         ++ firstn ONETIMEAUTH_BYTES
              (HMAC_SHA1 (firstn (enc_iv_len g) (iv_of ctx)
                          ++ htonl_bytes counter)
                         (contents buf))
         ++ contents buf.
Proof.
  intros HL Hready Hbuf.
  destruct (ss_gen_hash_ok g buf counter ctx cap HL Hready Hbuf)
    as [buf' [E [Hok Hc]]].
  assert (Lc : length (contents buf) = len buf).
  { unfold contents. destruct Hbuf as [Lb Hb]. rewrite length_firstn. lia. }
  exists buf'. split; [exact E|]. split; [exact Hok|]. split.
  - apply (f_equal (@length Z)) in Hc.
    rewrite (frame_length g ctx counter _ HL), Lc in Hc.
    unfold contents in Hc. destruct Hok as [Lb' Hb'].
    rewrite length_firstn in Hc. change AUTH_BYTES with 12. lia.
  - rewrite Hc. unfold frame_of, chunk_key_of. rewrite Lc. reflexivity.
Qed.

(** X2.  What [ss_gen_hash] makes of a payload of less than 65536 bytes,
    [ss_check_hash] accepts at the other end, when the two contexts hold
    the same IV and the receiver is between two frames with the counter of
    the sender: it returns 1, the buffer holds the payload again, and the
    two counters agree afterwards. *)
Theorem chunk_round_trip (gs gr : globals) (cs cr : option enc_ctx_t)
        (buf : buffer_t) (chunk : chunk_t) (cap_s cap_r : nat) :
  Laws.hmac_law B -> chunk_ready gs cs -> chunk_ready gr cr ->
  firstn (enc_iv_len gs) (iv_of cs) = firstn (enc_iv_len gr) (iv_of cr) ->
  2 <= cap_r -> buffer_ok buf -> (Z.of_nat (len buf) < 65536)%Z ->
  idle chunk ->
  exists sent counter' out chunk',
    ss_gen_hash gs buf (chunk_counter chunk) cs cap_s = Ok (0%Z, sent, counter')
    /\ ss_check_hash gr sent chunk cr cap_r = Ok (1%Z, out, chunk')
    /\ contents out = contents buf
    /\ chunk_idx chunk' = 0 /\ chunk_counter chunk' = counter'.
Proof.
  intros HL Hs Hr Hiv Hcap Hbuf Hlen Hidle.
  destruct (ss_gen_hash_ok gs buf (chunk_counter chunk) cs cap_s HL Hs Hbuf)
    as [sent [E [Hok Hc]]].
  assert (Lc : length (contents buf) = len buf).
  { unfold contents. destruct Hbuf as [Lb Hb]. rewrite length_firstn. lia. }
  assert (EF : frame_of gs cs (chunk_counter chunk) (contents buf)
               = frame_of gr cr (chunk_counter chunk) (contents buf)).
  { unfold frame_of, chunk_key_of. rewrite Hiv. reflexivity. }
  destruct (check_hash_prefix gr cr cap_r HL Hr Hcap [contents buf] [] 0
                              sent chunk)
    as [out [chunk' [E' [Co [_ [Hcar Hcnt]]]]]].
  { constructor; [rewrite Lc; exact Hlen | constructor]. }
  { reflexivity. }
  { exact Hidle. }
  { cbn. lia. }
  { exact Hok. }
  { cbn [frames_from firstn]. rewrite !app_nil_r, Hc. exact EF. }
  exists sent, ((chunk_counter chunk + 1) mod UINT32_MOD)%Z, out, chunk'.
  split; [exact E|]. split; [exact E'|].
  split; [rewrite Co; cbn [concat]; apply app_nil_r|].
  split; [apply Hcar | exact Hcnt].
Qed.

(** X3.  A stream of frames that arrives in two reads, cut at any byte, is
    taken apart as if it had come in one: both calls of [ss_check_hash]
    return 1, the bytes the two give out are, one after the other, the
    payloads of the frames, and afterwards the receiver is between two
    frames again with its counter advanced by the number of frames. *)
Theorem chunk_stream_in_two_reads (g : globals) (ctx : option enc_ctx_t)
        (cap : nat) (chunks : list (list Z)) (s : nat)
        (buf1 buf2 : buffer_t) (chunk : chunk_t) :
  Laws.hmac_law B -> chunk_ready g ctx -> 2 <= cap ->
  Forall (fun P => (Z.of_nat (length P) < 65536)%Z) chunks ->
  idle chunk ->
  s <= length (frames_from g ctx (chunk_counter chunk) chunks) ->
  buffer_ok buf1 ->
  contents buf1 = firstn s (frames_from g ctx (chunk_counter chunk) chunks) ->
  buffer_ok buf2 ->
  contents buf2 = skipn s (frames_from g ctx (chunk_counter chunk) chunks) ->
  exists out1 chunk1 out2 chunk2,
    ss_check_hash g buf1 chunk ctx cap = Ok (1%Z, out1, chunk1)
    /\ ss_check_hash g buf2 chunk1 ctx cap = Ok (1%Z, out2, chunk2)
    /\ contents out1 ++ contents out2 = concat chunks
    /\ chunk_idx chunk2 = 0
    /\ chunk_counter chunk2
       = Nat.iter (length chunks) next_counter (chunk_counter chunk).
Proof.
  intros HL Hready Hcap Hsz Hidle Hs Hb1 Hc1 Hb2 Hc2.
  set (c := chunk_counter chunk) in *.
  destruct (split_position g ctx HL chunks c s Hs) as [A [R [t [EA [Es Ht]]]]].
  subst chunks. apply Forall_app in Hsz. destruct Hsz as [HA HR].
  rewrite (frames_from_app g ctx) in Hc1, Hc2. subst s.
  rewrite firstn_over in Hc1. rewrite skipn_over in Hc2.
  rewrite length_app, concat_app, Nat.add_comm, Nat.iter_add.
  set (c1 := Nat.iter (length A) next_counter c) in *.
  destruct R as [|P Bs].
  - subst t. cbn [frames_from firstn skipn] in Hc1, Hc2.
    destruct (check_hash_prefix g ctx cap HL Hready Hcap A [] 0 buf1 chunk)
      as [out1 [chunk1 [E1 [Co1 [_ [Hcar1 Hcnt1]]]]]];
      try assumption; try reflexivity; try (cbn; lia).
    apply idle_carrying in Hcar1.
    destruct (check_hash_prefix g ctx cap HL Hready Hcap [] [] 0 buf2 chunk1)
      as [out2 [chunk2 [E2 [Co2 [_ [Hcar2 Hcnt2]]]]]];
      try assumption; try reflexivity; try (cbn; lia); try constructor.
    exists out1, chunk1, out2, chunk2.
    split; [exact E1|]. split; [exact E2|].
    split; [rewrite Co1, Co2; reflexivity|].
    split; [apply Hcar2|].
    rewrite Hcnt2. cbn [length Nat.iter]. exact Hcnt1.
  - inversion HR as [|? ? HP HBs]; subst.
    pose proof (frame_length g ctx c1 P HL) as LF.
    cbn [frames_from] in Hc1, Hc2.
    rewrite firstn_within in Hc1 by lia. rewrite skipn_within in Hc2 by lia.
    destruct (check_hash_prefix g ctx cap HL Hready Hcap A P t buf1 chunk)
      as [out1 [chunk1 [E1 [Co1 [_ [Hcar1 Hcnt1]]]]]]; try assumption.
    fold c in Hcar1, Hcnt1. fold c1 in Hcar1, Hcnt1.
    destruct (check_hash_suffix g ctx cap HL Hready Hcap P t Bs buf2 chunk1)
      as [out2 [chunk2 [E2 [Co2 [_ [Hid2 Hcnt2]]]]]]; try assumption.
    { rewrite Hcnt1. exact Hcar1. }
    { rewrite Hcnt1. exact Hc2. }
    exists out1, chunk1, out2, chunk2.
    split; [exact E1|]. split; [exact E2|].
    split; [rewrite Co1, Co2; reflexivity|].
    split; [apply Hid2|].
    rewrite Hcnt2, Hcnt1. reflexivity.
Qed.

(** X4.  A frame whose MAC field is not the first 10 bytes of the HMAC of
    its payload under the IV and the counter the receiver has reached makes
    [ss_check_hash] return 0, whatever good frames come before it and
    whatever bytes follow it. *)
Theorem forged_chunk_is_refused (g : globals) (ctx : option enc_ctx_t)
        (cap : nat) (A : list (list Z)) (Q mac tail : list Z)
        (buf : buffer_t) (chunk : chunk_t) :
  Laws.hmac_law B -> chunk_ready g ctx -> 2 <= cap ->
  Forall (fun P => (Z.of_nat (length P) < 65536)%Z) A ->
  (Z.of_nat (length Q) < 65536)%Z -> length mac = ONETIMEAUTH_BYTES ->
  mac <> firstn ONETIMEAUTH_BYTES
           (HMAC_SHA1 (chunk_key_of g ctx
                         (Nat.iter (length A) next_counter (chunk_counter chunk)))
                      Q) ->
  idle chunk -> buffer_ok buf ->
  contents buf
  = frames_from g ctx (chunk_counter chunk) A
    ++ (htons_bytes (Z.of_nat (length Q)) ++ mac ++ Q) ++ tail ->
  exists out chunk',
    ss_check_hash g buf chunk ctx cap = Ok (0%Z, out, chunk').
Proof.
  intros HL Hready Hcap HA HQ Lmac Hbad Hidle Hbuf Hcont.
  change ONETIMEAUTH_BYTES with 10 in *.
  set (F' := htons_bytes (Z.of_nat (length Q)) ++ mac ++ Q) in *.
  assert (HF' : framed F' (length Q)).
  { split; [reflexivity|]. split; [|exact HQ].
    unfold F'. rewrite !length_app, Lmac. reflexivity. }
  assert (Hmac : firstn 10 (skipn 2 F') = mac).
  { unfold F', htons_bytes. cbn [app]. change (skipn 2 (?a :: ?b :: ?l)) with l.
    rewrite <- Lmac. rewrite firstn_app, Nat.sub_diag, firstn_all.
    apply app_nil_r. }
  assert (Hpay : firstn (length Q) (skipn 12 F') = Q).
  { unfold F', htons_bytes. cbn [app].
    change (skipn 12 (?a :: ?b :: ?l)) with (skipn 10 l).
    rewrite <- Lmac. rewrite skipn_app, skipn_all, Nat.sub_diag.
    cbn [app skipn]. apply firstn_all. }
  apply (check_hash_forged g ctx cap HL Hready Hcap A F' (length Q) tail buf chunk);
    try assumption.
  - rewrite Hmac, Hpay. exact Hbad.
  - apply idle_carrying. exact Hidle.
Qed.

End ChunkStream.

(** the chunk state of a connection just accepted *)
Definition chunk_new : chunk_t :=
  {| chunk_idx := 0; chunk_len := 0; chunk_counter := 0;
     chunk_buf := mkbuffer 0 0 0 [] |}.

(** the frames of the payloads [104; 105] and [1; 2; 3], chunks 0 and 1 of
    the connection of [Samples.ctx_client] *)
Definition two_frames : list Z :=
  Eval vm_compute in
    frames_from (B := Toy.backend) Samples.g_aes Samples.ctx_client 0
                [[104; 105]; [1; 2; 3]]%Z.

Lemma gen_hash_frames_the_payload_witness :
  exists buf',
    ss_gen_hash (B := Toy.backend) Samples.g_aes
                (holding Server.BUF_SIZE [104; 105]%Z) 0 Samples.ctx_client
                Server.BUF_SIZE
    = Ok (0%Z, buf', ((0 + 1) mod UINT32_MOD)%Z)
    /\ buffer_ok buf'
    /\ len buf' = len (holding Server.BUF_SIZE [104; 105]%Z) + AUTH_BYTES
    /\ contents buf'
       = htons_bytes (Z.of_nat (len (holding Server.BUF_SIZE [104; 105]%Z)))
         ++ firstn ONETIMEAUTH_BYTES
              (HMAC_SHA1 (Backend := Toy.backend)
                 (firstn (enc_iv_len Samples.g_aes) (iv_of Samples.ctx_client)
                  ++ htonl_bytes 0)
                 (contents (holding Server.BUF_SIZE [104; 105]%Z)))
         ++ contents (holding Server.BUF_SIZE [104; 105]%Z).
Proof.
  apply (@gen_hash_frames_the_payload Toy.backend Samples.g_aes
           (holding Server.BUF_SIZE [104; 105]%Z) 0%Z Samples.ctx_client
           Server.BUF_SIZE).
  - exact toy_hmac_law.
  - split; vm_compute; lia.
  - split; vm_compute; [reflexivity | lia].
Defined.

Lemma chunk_round_trip_witness :
  exists sent counter' out chunk',
    ss_gen_hash (B := Toy.backend) Samples.g_aes
                (holding Server.BUF_SIZE [104; 105]%Z)
                (chunk_counter chunk_new) Samples.ctx_client Server.BUF_SIZE
    = Ok (0%Z, sent, counter')
    /\ ss_check_hash (B := Toy.backend) Samples.g_aes sent chunk_new
                     Samples.ctx_client Server.BUF_SIZE
       = Ok (1%Z, out, chunk')
    /\ contents out = contents (holding Server.BUF_SIZE [104; 105]%Z)
    /\ chunk_idx chunk' = 0 /\ chunk_counter chunk' = counter'.
Proof.
  apply (@chunk_round_trip Toy.backend Samples.g_aes Samples.g_aes
           Samples.ctx_client Samples.ctx_client
           (holding Server.BUF_SIZE [104; 105]%Z) chunk_new
           Server.BUF_SIZE Server.BUF_SIZE).
  - exact toy_hmac_law.
  - split; vm_compute; lia.
  - split; vm_compute; lia.
  - reflexivity.
  - vm_compute; lia.
  - split; vm_compute; [reflexivity | lia].
  - reflexivity.
  - split; reflexivity.
Defined.

Lemma chunk_stream_in_two_reads_witness :
  exists out1 chunk1 out2 chunk2,
    ss_check_hash (B := Toy.backend) Samples.g_aes
                  (holding Server.BUF_SIZE (firstn 20 two_frames)) chunk_new
                  Samples.ctx_client Server.BUF_SIZE
    = Ok (1%Z, out1, chunk1)
    /\ ss_check_hash (B := Toy.backend) Samples.g_aes
                     (holding Server.BUF_SIZE (skipn 20 two_frames)) chunk1
                     Samples.ctx_client Server.BUF_SIZE
       = Ok (1%Z, out2, chunk2)
    /\ contents out1 ++ contents out2 = concat [[104; 105]; [1; 2; 3]]%Z
    /\ chunk_idx chunk2 = 0
    /\ chunk_counter chunk2
       = Nat.iter (length [[104; 105]; [1; 2; 3]]%Z) next_counter
                  (chunk_counter chunk_new).
Proof.
  apply (@chunk_stream_in_two_reads Toy.backend Samples.g_aes
           Samples.ctx_client Server.BUF_SIZE [[104; 105]; [1; 2; 3]]%Z 20
           (holding Server.BUF_SIZE (firstn 20 two_frames))
           (holding Server.BUF_SIZE (skipn 20 two_frames)) chunk_new).
  - exact toy_hmac_law.
  - split; vm_compute; lia.
  - vm_compute; lia.
  - repeat constructor.
  - split; reflexivity.
  - vm_compute; lia.
  - split; vm_compute; [reflexivity | lia].
  - vm_compute; reflexivity.
  - split; vm_compute; [reflexivity | lia].
  - vm_compute; reflexivity.
Defined.

Lemma forged_chunk_is_refused_witness :
  exists out chunk',
    ss_check_hash (B := Toy.backend) Samples.g_aes
                  (holding Server.BUF_SIZE
                           (firstn 14 two_frames
                            ++ [0; 3; 0; 0; 0; 0; 0; 0; 0; 0; 0; 0; 1; 2; 3; 7; 7]%Z))
                  chunk_new Samples.ctx_client Server.BUF_SIZE
    = Ok (0%Z, out, chunk').
Proof.
  apply (@forged_chunk_is_refused Toy.backend Samples.g_aes
           Samples.ctx_client Server.BUF_SIZE [[104; 105]]%Z [1; 2; 3]%Z
           (repeat 0%Z 10) [7; 7]%Z
           (holding Server.BUF_SIZE
                    (firstn 14 two_frames
                     ++ [0; 3; 0; 0; 0; 0; 0; 0; 0; 0; 0; 0; 1; 2; 3; 7; 7]%Z))
           chunk_new).
  - exact toy_hmac_law.
  - split; vm_compute; lia.
  - vm_compute; lia.
  - repeat constructor.
  - reflexivity.
  - reflexivity.
  - vm_compute. discriminate.
  - split; reflexivity.
  - split; vm_compute; [reflexivity | lia].
  - vm_compute; reflexivity.
Defined.

Section ChunkCounters.
Context {B : Backend}.






End ChunkCounters.




(** a chunk state that [ss_check_hash] can go on from: inside a frame
    whose length is known, the chunk buffer has room for the frame *)
Definition chunk_ok (chunk : chunk_t) : Prop :=
  length (array (chunk_buf chunk)) = capacity (chunk_buf chunk)
  /\ (2 <= chunk_idx chunk ->
      chunk_idx chunk < chunk_len chunk + 12
      /\ chunk_len chunk + 12 <= capacity (chunk_buf chunk)).

Section CheckHashBounds.
Context {B : Backend}.
Variables (g : globals) (ctx : option enc_ctx_t) (cap blen L : nat).
Hypothesis HL : Laws.hmac_law B.
Hypothesis Hready : chunk_ready g ctx.

(** what the loop of [ss_check_hash] keeps, for a buffer of [L] bytes *)
Definition in_bounds (i : nat) (st : check_state) : Prop :=
  let cb := chunk_buf (cs_chunk st) in
  cs_j st <= cs_k st
  /\ cs_k st + (blen - i) <= L
  /\ cs_j st + (blen - i) + cs_cidx st <= L + 12
  /\ length (array (cs_buf st)) = L /\ capacity (cs_buf st) = L
  /\ length (array cb) = capacity cb /\ 2 <= capacity cb
  /\ (2 <= cs_cidx st ->
      cs_cidx st < chunk_len (cs_chunk st) + 12
      /\ chunk_len (cs_chunk st) + 12 <= capacity cb).

Lemma round_in_bounds (i : nat) (st : check_state) :
  in_bounds i st -> i < blen ->
  exists bad st',
    check_hash_round g ctx cap blen i st = Ok (bad, st')
    /\ (bad = false -> in_bounds (S i) st').
Proof.
  intros [Hjk [Hk [Hphi [Lb [Cb [Lcb [Ccb Hin]]]]]]] Hi.
  unfold check_hash_round. cbv zeta.
  rewrite MemFacts.get_ok by lia. rewrite bind_Ok.
  set (b := nth (cs_k st) (array (cs_buf st)) 0%Z).
  unfold Mem.set.
  destruct (MemFacts.write_ex (array (chunk_buf (cs_chunk st))) (cs_cidx st) [b])
    as [ca [Eca [Lca _]]].
  { simpl length.
    destruct (Nat.le_gt_cases 2 (cs_cidx st)) as [H | H]; [apply Hin in H|]; lia. }
  rewrite Eca, bind_Ok.
  assert (Hhead : exists cb' clen,
    (if S (cs_cidx st) =? CLEN_BYTES
     then bind (Mem.read (array (set_array (chunk_buf (cs_chunk st)) ca)) 0 2)
               (fun hdr =>
                  Ok (brealloc (set_array (chunk_buf (cs_chunk st)) ca)
                               (Z.to_nat (ntohs_bytes hdr) + AUTH_BYTES) cap,
                      Z.to_nat (ntohs_bytes hdr)))
     else Ok (set_array (chunk_buf (cs_chunk st)) ca, chunk_len (cs_chunk st)))
    = Ok (cb', clen)
    /\ length (array cb') = capacity cb' /\ 2 <= capacity cb'
    /\ (2 <= S (cs_cidx st) ->
        S (cs_cidx st) <= clen + 12 /\ clen + 12 <= capacity cb')).
  { destruct (Nat.eqb_spec (S (cs_cidx st)) CLEN_BYTES) as [E | N].
    - unfold CLEN_BYTES in E. cbn [array set_array].
      rewrite MemFacts.read_ok by lia. rewrite bind_Ok.
      set (clen := Z.to_nat (ntohs_bytes _)).
      assert (Lsa : length (array (set_array (chunk_buf (cs_chunk st)) ca))
                    = capacity (set_array (chunk_buf (cs_chunk st)) ca))
        by (cbn [array capacity set_array]; lia).
      destruct (brealloc_spec (set_array (chunk_buf (cs_chunk st)) ca)
                              (clen + AUTH_BYTES) cap Lsa)
        as [L1 [B1 [_ [B2 _]]]].
      cbn [capacity set_array] in B2. unfold AUTH_BYTES, ONETIMEAUTH_BYTES,
                                      CLEN_BYTES in *.
      eexists. eexists. split; [reflexivity|].
      repeat split; try assumption; lia.
    - unfold CLEN_BYTES in N.
      eexists. eexists. split; [reflexivity|]. cbn [array capacity set_array].
      split; [lia|]. split; [exact Ccb|].
      intros H. assert (H2 : 2 <= cs_cidx st) by lia. apply Hin in H2. lia. }
  destruct Hhead as [cb' [clen [Eh [Lcb' [Ccb' Hin']]]]].
  rewrite Eh, bind_Ok. cbv beta iota.
  change AUTH_BYTES with 12.
  destruct (Nat.eqb_spec (S (cs_cidx st)) (clen + 12)) as [Et | Nt].
  - specialize (Hin' ltac:(lia)).
    rewrite chunk_key_ok by exact Hready. rewrite bind_Ok.
    rewrite MemFacts.read_ok by lia. rewrite bind_Ok.
    rewrite hmac_into_hash_ok by exact HL. rewrite bind_Ok.
    change CLEN_BYTES with 2. change ONETIMEAUTH_BYTES with 10.
    rewrite MemFacts.read_ok by lia. rewrite bind_Ok.
    destruct (negb _).
    + eexists. eexists. split; [reflexivity|]. discriminate.
    + unfold Mem.memmove.
      destruct (MemFacts.memcpy_ex (array (cs_buf st)) (cs_j st + clen)
                                   (array (cs_buf st)) (S (cs_k st))
                                   (blen - i - 1))
        as [a1 [Ea1 [La1 _]]]; [lia | lia |].
      rewrite Ea1, bind_Ok.
      destruct (MemFacts.memcpy_ex a1 (cs_j st) (array cb') 12 clen)
        as [a2 [Ea2 [La2 _]]]; [lia | lia |].
      rewrite Ea2, bind_Ok.
      eexists. eexists. split; [reflexivity|]. intros _.
      unfold in_bounds.
      cbn [cs_j cs_k cs_cidx cs_buf cs_chunk chunk_idx chunk_len chunk_counter
           chunk_buf array capacity set_array].
      repeat split; try assumption; try lia.
  - eexists. eexists. split; [reflexivity|]. intros _.
    unfold in_bounds.
    cbn [cs_j cs_k cs_cidx cs_buf cs_chunk chunk_idx chunk_len chunk_counter
         chunk_buf].
    repeat split; try assumption; try lia.
Qed.

Lemma loop_in_bounds (n : nat) :
  forall (i : nat) (st : check_state),
  in_bounds i st -> i + n = blen ->
  exists r st',
    check_hash_loop g ctx cap blen n i st = Ok (r, st')
    /\ (r = 0%Z \/ (r = 1%Z /\ in_bounds blen st')).
Proof.
  induction n as [|n IH]; intros i st Hin Hn.
  - exists 1%Z, st. split; [reflexivity|]. right. split; [reflexivity|].
    replace blen with i by lia. exact Hin.
  - destruct (round_in_bounds i st Hin ltac:(lia)) as [bad [st' [Er Hin']]].
    cbn [check_hash_loop]. rewrite Er, bind_Ok.
    destruct bad.
    + exists 0%Z, st'. split; [reflexivity|]. left. reflexivity.
    + apply IH; [apply Hin'; reflexivity | lia].
Qed.

End CheckHashBounds.

Section CheckHashSafe.
Context {B : Backend}.

(** X5.  [ss_check_hash] stays inside its arrays whatever bytes the buffer
    holds: every read and write of the loop, the [memmove] and the [memcpy]
    fall within the two buffers as [brealloc] sized them.  The call returns
    0 or 1, and when it returns 1 the buffer and the chunk state are such
    that the next call is safe as well. *)
Theorem check_hash_stays_in_bounds (g : globals) (ctx : option enc_ctx_t)
        (cap : nat) (buf : buffer_t) (chunk : chunk_t) :
  Laws.hmac_law B -> chunk_ready g ctx -> 2 <= cap ->
  buffer_ok buf -> chunk_ok chunk ->
  exists r out chunk',
    ss_check_hash g buf chunk ctx cap = Ok (r, out, chunk')
    /\ (r = 0%Z \/ (r = 1%Z /\ buffer_ok out /\ chunk_ok chunk')).
Proof.
  intros HL Hready Hcap [Lb Hb] [Lcb Hin].
  unfold ss_check_hash. cbv zeta.
  destruct (brealloc_spec buf (chunk_len chunk + len buf) cap Lb)
    as [L1 [B1 [_ [_ _]]]].
  destruct (brealloc_spec (chunk_buf chunk) (chunk_len chunk + len buf) cap Lcb)
    as [L2 [_ [B2 [B3 _]]]].
  set (b0 := brealloc buf _ _) in *. set (cb0 := brealloc (chunk_buf chunk) _ _) in *.
  match goal with
  | |- context [check_hash_loop g ctx cap (len buf) (len buf) 0 ?s] =>
      destruct (loop_in_bounds g ctx cap (len buf) (capacity b0) HL Hready
                               (len buf) 0 s)
        as [r [st' [El Hr]]]
  end.
  { unfold in_bounds.
    cbn [cs_j cs_k cs_cidx cs_buf cs_chunk chunk_idx chunk_len chunk_counter
         chunk_buf].
    repeat split; try assumption; try lia. }
  { reflexivity. }
  rewrite El, bind_Ok.
  destruct Hr as [Hr | [Hr Hin']]; subst r.
  - eexists. eexists. eexists. split; [reflexivity|]. left. reflexivity.
  - eexists. eexists. eexists. split; [reflexivity|]. right.
    split; [reflexivity|].
    destruct Hin' as [Hjk [Hk [Hphi [Lb' [Cb' [Lcb' [Ccb' Hin']]]]]]].
    split.
    + unfold buffer_ok. cbn [len array capacity set_len]. lia.
    + unfold chunk_ok. cbn [chunk_idx chunk_len chunk_buf].
      split; [exact Lcb' | exact Hin'].
Qed.

End CheckHashSafe.

Lemma check_hash_stays_in_bounds_witness :
  exists r out chunk',
    ss_check_hash (B := Toy.backend) Samples.g_aes
                  (holding Server.BUF_SIZE [0; 1; 9; 9; 9]%Z) chunk_new
                  Samples.ctx_client Server.BUF_SIZE
    = Ok (r, out, chunk')
    /\ (r = 0%Z \/ (r = 1%Z /\ buffer_ok out /\ chunk_ok chunk')).
Proof.
  apply (@check_hash_stays_in_bounds Toy.backend Samples.g_aes
           Samples.ctx_client Server.BUF_SIZE
           (holding Server.BUF_SIZE [0; 1; 9; 9; 9]%Z) chunk_new).
  - exact toy_hmac_law.
  - split; vm_compute; lia.
  - vm_compute; lia.
  - split; vm_compute; [reflexivity | lia].
  - split; [reflexivity | vm_compute; lia].
Defined.

(** *** One-time authentication *)

Section OneTimeAuth.
Context {B : Backend}.

(** the key of the one-time authentication: the IV, then the key of the
    process *)
Definition auth_key_of (g : globals) (iv_arg : list Z) : list Z :=
  firstn g.(enc_iv_len) iv_arg ++ firstn g.(enc_key_len) g.(enc_key).

(** what [ss_onetimeauth] returns *)
Lemma ss_onetimeauth_ok (g : globals) (buf : buffer_t) (iv_arg : list Z)
      (cap : nat) :
  Laws.hmac_law B -> auth_ready g iv_arg -> buffer_ok buf ->
  exists signed,
    ss_onetimeauth g buf iv_arg cap = Ok (0%Z, signed)
    /\ buffer_ok signed
    /\ len signed = len buf + ONETIMEAUTH_BYTES
    /\ contents signed
       = contents buf
         ++ firstn ONETIMEAUTH_BYTES
                   (HMAC_SHA1 (auth_key_of g iv_arg) (contents buf)).
Proof.
  intros HL Hs [Lb Hb].
  unfold ss_onetimeauth.
  rewrite auth_key_ok by exact Hs. rewrite bind_Ok. cbv zeta.
  fold (auth_key_of g iv_arg).
  destruct (brealloc_spec buf (ONETIMEAUTH_BYTES + len buf) cap Lb)
    as [L1 [B1 [_ [_ [E1 [_ F1]]]]]].
  set (b1 := brealloc buf _ cap) in *.
  rewrite E1.
  rewrite MemFacts.read_ok by lia. rewrite bind_Ok.
  change (skipn 0 (array b1)) with (array b1).
  rewrite (F1 (len buf) Hb). fold (contents buf).
  rewrite hmac_into_hash_ok by exact HL. rewrite bind_Ok.
  set (hash := HMAC_SHA1 (auth_key_of g iv_arg) (contents buf)).
  assert (Lh : length hash = 20) by apply HL.
  change ONETIMEAUTH_BYTES with 10 in *.
  destruct (MemFacts.memcpy_ex (array b1) (len buf) hash 0 10)
    as [a [Ea [La [Fa _]]]]; [lia | lia |].
  rewrite Ea, bind_Ok.
  change (skipn 0 hash) with hash in Fa.
  rewrite (F1 (len buf) Hb) in Fa. fold (contents buf) in Fa.
  eexists. split; [reflexivity|].
  split.
  { unfold buffer_ok. cbn [len array capacity set_len set_array]. lia. }
  split; [reflexivity|]. exact Fa.
Qed.

(** X6.  [ss_onetimeauth] appends to the bytes of the buffer the first 10
    bytes of their HMAC under the IV followed by the key and returns 0;
    [ss_onetimeauth_verify] at an end that has the same IV and key returns
    0 on what it made. *)
Theorem onetimeauth_round_trip (gs gr : globals) (buf : buffer_t)
        (iv_s iv_r : list Z) (cap : nat) :
  Laws.hmac_law B -> auth_ready gs iv_s -> auth_ready gr iv_r ->
  auth_key_of gs iv_s = auth_key_of gr iv_r ->
  buffer_ok buf ->
  exists signed,
    ss_onetimeauth gs buf iv_s cap = Ok (0%Z, signed)
    /\ buffer_ok signed
    /\ len signed = len buf + ONETIMEAUTH_BYTES
    /\ contents signed
       = contents buf
         ++ firstn ONETIMEAUTH_BYTES
                   (HMAC_SHA1 (auth_key_of gs iv_s) (contents buf))
    /\ ss_onetimeauth_verify gr signed iv_r = Ok 0%Z.
Proof.
  intros HL Hs Hr Hkey [Lb Hb].
  unfold ss_onetimeauth.
  rewrite auth_key_ok by exact Hs. rewrite bind_Ok. cbv zeta.
  fold (auth_key_of gs iv_s).
  destruct (brealloc_spec buf (ONETIMEAUTH_BYTES + len buf) cap Lb)
    as [L1 [B1 [_ [_ [E1 [_ F1]]]]]].
  set (b1 := brealloc buf _ cap) in *.
  rewrite E1.
  rewrite MemFacts.read_ok by lia. rewrite bind_Ok.
  change (skipn 0 (array b1)) with (array b1).
  rewrite (F1 (len buf) Hb). fold (contents buf).
  rewrite hmac_into_hash_ok by exact HL. rewrite bind_Ok.
  set (hash := HMAC_SHA1 (auth_key_of gs iv_s) (contents buf)).
  assert (Lh : length hash = 20) by apply HL.
  change ONETIMEAUTH_BYTES with 10 in *.
  destruct (MemFacts.memcpy_ex (array b1) (len buf) hash 0 10)
    as [a [Ea [La [Fa [Ga [Ha _]]]]]]; [lia | lia |].
  rewrite Ea, bind_Ok.
  change (skipn 0 hash) with hash in Fa, Ga.
  rewrite (F1 (len buf) Hb) in Fa. fold (contents buf) in Fa.
  eexists. split; [reflexivity|].
  assert (Hok : buffer_ok (set_len (set_array b1 a) (len buf + 10))).
  { unfold buffer_ok. cbn [len array capacity set_len set_array]. lia. }
  split; [exact Hok|]. split; [reflexivity|].
  split; [exact Fa|].
  destruct (ss_onetimeauth_verify_spec gr (set_len (set_array b1 a) (len buf + 10))
                                       iv_r HL Hr) as [Ev Hz].
  { cbn [len set_len]. change ONETIMEAUTH_BYTES with 10. lia. }
  { cbn [len array set_len set_array]. lia. }
  rewrite Ev. f_equal. apply Hz.
  cbn [len array set_len set_array]. change ONETIMEAUTH_BYTES with 10.
  replace (len buf + 10 - 10) with (len buf) by lia.
  fold (auth_key_of gr iv_r). rewrite <- Hkey.
  rewrite Ga.
  assert (Fm : firstn (len buf) a = contents buf).
  { apply (f_equal (firstn (len buf))) in Fa.
    rewrite firstn_firstn in Fa.
    replace (Nat.min (len buf) (len buf + 10)) with (len buf) in Fa by lia.
    rewrite Fa. rewrite firstn_app.
    assert (Lc : length (contents buf) = len buf)
      by (unfold contents; rewrite length_firstn; lia).
    rewrite Lc, Nat.sub_diag. cbn [firstn]. rewrite app_nil_r.
    apply firstn_all2. lia. }
  rewrite Fm. reflexivity.
Qed.

End OneTimeAuth.

Lemma onetimeauth_round_trip_witness :
  exists signed,
    ss_onetimeauth (B := Toy.backend) Samples.g_aes
                   (holding Server.BUF_SIZE Samples.auth_header)
                   Samples.client_iv Server.BUF_SIZE
    = Ok (0%Z, signed)
    /\ buffer_ok signed
    /\ len signed
       = len (holding Server.BUF_SIZE Samples.auth_header) + ONETIMEAUTH_BYTES
    /\ contents signed
       = contents (holding Server.BUF_SIZE Samples.auth_header)
         ++ firstn ONETIMEAUTH_BYTES
                   (HMAC_SHA1 (Backend := Toy.backend)
                      (auth_key_of Samples.g_aes Samples.client_iv)
                      (contents (holding Server.BUF_SIZE Samples.auth_header)))
    /\ ss_onetimeauth_verify (B := Toy.backend) Samples.g_aes signed
                             Samples.client_iv
       = Ok 0%Z.
Proof.
  apply (@onetimeauth_round_trip Toy.backend Samples.g_aes Samples.g_aes
           (holding Server.BUF_SIZE Samples.auth_header)
           Samples.client_iv Samples.client_iv Server.BUF_SIZE).
  - exact toy_hmac_law.
  - repeat split; vm_compute; lia.
  - repeat split; vm_compute; lia.
  - reflexivity.
  - split; vm_compute; [reflexivity | lia].
Defined.

(** *** The tables *)

(** the left part of an array of 512 bytes or more is as long again *)
Lemma left_part_long (n : nat) :
  512 <= n -> 512 <= n - (n / 2) mod 256.
Proof.
  intros H.
  destruct (Nat.le_gt_cases 767 n) as [Hbig | Hsmall].
  - pose proof (Nat.mod_upper_bound (n / 2) 256). lia.
  - assert (Hlo : 256 <= n / 2) by (apply Nat.div_le_lower_bound; lia).
    assert (Hhi : n / 2 < 512) by (apply Nat.Div0.div_lt_upper_bound; lia).
    assert (E : (n / 2) mod 256 = n / 2 - 256).
    { symmetry. apply Nat.mod_unique with (q := 1); lia. }
    rewrite E.
    assert (Hd : 2 * (n / 2) <= n) by (apply Nat.Div0.mul_div_le).
    lia.
Qed.

(** on an array of 512 bytes or more the recursion has no end *)
Lemma merge_sort_long (stack : nat) (array : list Z) (salt key : Z) :
  512 <= length array -> merge_sort stack array salt key = Fault.
Proof.
  revert array. induction stack as [|stack IH]; intros array H; [reflexivity|].
  rewrite merge_sort_unfold.
  destruct (Nat.leb_spec (length array) 1) as [H1 | _]; [lia|].
  cbv zeta. rewrite IH; [reflexivity|].
  rewrite length_firstn.
  pose proof (left_part_long (length array) H). lia.
Qed.

(** what [merge] and [merge_sort] return is a permutation of what they are
    given, and neither stops the process *)
Lemma merge_returns_perm (ll rr : list Z) (salt key : Z) (out : list Z) :
  merge ll rr salt key = Ok out -> Permutation out (ll ++ rr).
Proof.
  revert rr out. induction ll as [|x ll IH]; intros rr out.
  - destruct rr; simpl; intros H; apply Ok_inj in H; subst;
      apply Permutation_refl.
  - revert out. induction rr as [|y rr IHr]; intros out.
    + simpl. intros H. apply Ok_inj in H. subst.
      rewrite app_nil_r. apply Permutation_refl.
    + rewrite merge_unfold. intros H.
      apply bind_inv in H. destruct H as [c [_ H]].
      destruct (c <=? 0)%Z; apply bind_inv in H; destruct H as [t [Et H]];
        apply Ok_inj in H; subst out.
      * apply perm_skip. exact (IH _ _ Et).
      * apply Permutation_trans with (y :: x :: ll ++ rr).
        -- apply perm_skip. exact (IHr _ Et).
        -- apply Permutation_trans with (x :: y :: ll ++ rr).
           ++ apply perm_swap.
           ++ apply perm_skip. apply Permutation_middle.
Qed.

Lemma merge_no_exit (ll rr : list Z) (salt key : Z) (msg : string) :
  merge ll rr salt key <> Exit msg.
Proof.
  revert rr msg. induction ll as [|x ll IH]; intros rr msg.
  - destruct rr; discriminate.
  - revert msg. induction rr as [|y rr IHr]; intros msg; [discriminate|].
    rewrite merge_unfold. unfold random_compare. cbv zeta.
    destruct (_ || _)%bool; [discriminate|].
    rewrite bind_Ok.
    destruct (_ <=? 0)%Z.
    + destruct (merge ll (y :: rr) salt key) as [t | m |] eqn:E;
        [discriminate | exfalso; exact (IH _ _ E) | discriminate].
    + destruct (merge (x :: ll) rr salt key) as [t | m |];
        [discriminate | exfalso; exact (IHr m eq_refl) | discriminate].
Qed.

Lemma merge_sort_returns_perm (stack : nat) (array : list Z) (salt key : Z)
      (out : list Z) :
  merge_sort stack array salt key = Ok out -> Permutation out array.
Proof.
  revert array out. induction stack as [|stack IH]; intros array out;
    [discriminate|].
  rewrite merge_sort_unfold.
  destruct (length array <=? 1).
  - intros H. apply Ok_inj in H. subst. apply Permutation_refl.
  - cbv zeta. intros H.
    apply bind_inv in H. destruct H as [l [El H]].
    apply bind_inv in H. destruct H as [r [Er H]].
    eapply Permutation_trans; [exact (merge_returns_perm _ _ _ _ _ H)|].
    eapply Permutation_trans;
      [apply Permutation_app; [exact (IH _ _ El) | exact (IH _ _ Er)]|].
    rewrite firstn_skipn. apply Permutation_refl.
Qed.

Lemma merge_sort_no_exit (stack : nat) (array : list Z) (salt key : Z)
      (msg : string) :
  merge_sort stack array salt key <> Exit msg.
Proof.
  revert array msg.
  induction stack as [|stack IH]; intros array msg; [discriminate|].
  rewrite merge_sort_unfold.
  destruct (length array <=? 1); [discriminate|].
  cbv zeta.
  destruct (merge_sort stack (firstn _ array) salt key) as [l | m |] eqn:El;
    [|exfalso; exact (IH _ _ El) | discriminate].
  rewrite bind_Ok.
  destruct (merge_sort stack (skipn _ array) salt key) as [r | m |] eqn:Er;
    [|exfalso; exact (IH _ _ Er) | discriminate].
  rewrite bind_Ok. apply merge_no_exit.
Qed.

(** the first comparison of [merge] faults when one of the two bytes it
    compares gives the divisor 0 *)
Lemma merge_zero_head (x y : Z) (ll rr : list Z) (salt key : Z) :
  ((x + salt) mod UINT32_MOD)%Z = 0%Z \/ ((y + salt) mod UINT32_MOD)%Z = 0%Z ->
  merge (x :: ll) (y :: rr) salt key = Fault.
Proof.
  intros H. rewrite merge_unfold, (random_compare_zero x y salt key H).
  reflexivity.
Qed.

(** [merge_sort] compares every byte of an array of two bytes or more: it
    faults if one of them gives the divisor 0 *)
Lemma merge_sort_zero (stack : nat) (array : list Z) (salt key : Z) :
  2 <= length array ->
  Exists (fun x => ((x + salt) mod UINT32_MOD)%Z = 0%Z) array ->
  merge_sort stack array salt key = Fault.
Proof.
  revert array. induction stack as [|stack IH]; intros array H2 Hz;
    [reflexivity|].
  destruct (Nat.le_gt_cases 512 (length array)) as [Hlong | H512];
    [now apply merge_sort_long|].
  rewrite merge_sort_unfold.
  destruct (Nat.leb_spec (length array) 1) as [H1 | _]; [lia|].
  destruct (half_bounds _ H2 H512) as [Hlo Hhi].
  cbv zeta.
  set (ll := length array - (length array / 2) mod 256) in *.
  assert (Hll : 1 <= ll < length array) by (unfold ll; lia).
  assert (Hlen_l : length (firstn ll array) = ll)
    by (rewrite length_firstn; lia).
  assert (Hlen_r : 1 <= length (skipn ll array))
    by (rewrite length_skipn; lia).
  rewrite <- (firstn_skipn ll array) in Hz.
  apply Exists_app in Hz.
  destruct (merge_sort stack (firstn ll array) salt key) as [l | m |] eqn:El;
    [|exfalso; exact (merge_sort_no_exit _ _ _ _ _ El) | reflexivity].
  rewrite bind_Ok.
  pose proof (merge_sort_returns_perm _ _ _ _ _ El) as Pl.
  destruct (merge_sort stack (skipn ll array) salt key) as [r | m |] eqn:Er;
    [|exfalso; exact (merge_sort_no_exit _ _ _ _ _ Er) | reflexivity].
  rewrite bind_Ok.
  pose proof (merge_sort_returns_perm _ _ _ _ _ Er) as Pr.
  assert (Hl : length l = ll) by (rewrite (Permutation_length Pl); exact Hlen_l).
  assert (Hr : 1 <= length r) by (rewrite (Permutation_length Pr); exact Hlen_r).
  destruct l as [|x l]; [simpl in Hl; lia|].
  destruct r as [|y r]; [simpl in Hr; lia|].
  destruct Hz as [Hz | Hz].
  - (* a byte of the left part *)
    destruct (Nat.le_gt_cases 2 ll) as [Hbig | Hone].
    + rewrite (IH (firstn ll array)) in El; [discriminate | lia | exact Hz].
    + destruct l as [|x' l]; [|simpl in Hl; lia].
      apply merge_zero_head. left.
      apply (Permutation_Exists (Permutation_sym Pl)) in Hz.
      apply Exists_cons in Hz. destruct Hz as [Hz | Hz]; [exact Hz|].
      inversion Hz.
  - (* a byte of the right part *)
    destruct (Nat.le_gt_cases 2 (length (skipn ll array))) as [Hbig | Hone].
    + rewrite (IH (skipn ll array)) in Er; [discriminate | lia | exact Hz].
    + assert (Hr1 : length (y :: r) = 1)
        by (rewrite (Permutation_length Pr); lia).
      destruct r as [|y' r]; [|simpl in Hr1; lia].
      apply merge_zero_head. right.
      apply (Permutation_Exists (Permutation_sym Pr)) in Hz.
      apply Exists_cons in Hz. destruct Hz as [Hz | Hz]; [exact Hz|].
      inversion Hz.
Qed.

Section TableCipher.
Context {B : Backend}.

(** X7.  [merge_sort] on an array of fewer than 512 bytes returns, with a
    permutation of the array, if the array has at most one byte or none of
    its bytes gives [random_compare] the divisor 0 (the byte plus the salt
    is not 0 as a 32-bit sum).  On an array of two bytes or more one of
    which gives the divisor 0 it faults, whatever stack it is given: every
    byte is compared, and the remainder by 0 is undefined.  On an array of
    512 bytes or more it never returns: [middle] is a [uint8_t], the left
    part is never shorter than 512 bytes, and when [middle] is 0 the left
    part is the array itself, so the recursion has no end whatever stack it
    is given. *)
Theorem merge_sort_returns_below_512 (array : list Z) (salt key : Z) :
  (length array < 512 ->
   length array <= 1 \/ divisors_ok salt array ->
   exists out,
     merge_sort (S (length array)) array salt key = Ok out
     /\ Permutation out array)
  /\ (2 <= length array ->
      Exists (fun x => ((x + salt) mod UINT32_MOD)%Z = 0%Z) array ->
      forall stack, merge_sort stack array salt key = Fault)
  /\ (512 <= length array ->
      forall stack, merge_sort stack array salt key = Fault).
Proof.
  split; [|split].
  - intros H [H1 | Hd].
    + exists array. split; [|apply Permutation_refl].
      rewrite merge_sort_unfold.
      destruct (Nat.leb_spec (length array) 1) as [_ | H2];
        [reflexivity | lia].
    + apply merge_sort_perm; [lia | exact H | exact Hd].
  - intros H2 Hz stack. now apply merge_sort_zero.
  - intros H stack. now apply merge_sort_long.
Qed.

(** X8.  [enc_table_init] returns for every password, leaves the rest of
    the process state as it is, and builds two tables of 256 bytes that
    are permutations of the bytes 0 to 255 and undo each other:
    [dec_table[enc_table[b]] = b] and [enc_table[dec_table[b]] = b] for
    every byte [b]. *)
Theorem table_init_builds_inverse_permutations (g : globals) (pass : string) :
  exists enc dec,
    enc_table_init g pass = Ok (set_tables g enc dec)
    /\ Permutation enc (map Z.of_nat (seq 0 256))
    /\ Permutation dec (map Z.of_nat (seq 0 256))
    /\ forall b : Z, (0 <= b < 256)%Z ->
         nth (Z.to_nat (nth (Z.to_nat b) enc 0%Z)) dec 0%Z = b
         /\ nth (Z.to_nat (nth (Z.to_nat b) dec 0%Z)) enc 0%Z = b.
Proof.
  unfold enc_table_init, enc_md5.
  rewrite MemFacts.read_ok by lia. rewrite !bind_Ok.
  set (key := fold_left _ _ _).
  destruct identity_table_facts as [HL [HND HR]].
  destruct (shuffle_rounds_perm 1023 1 (map Z.of_nat (seq 0 256)) key)
    as [enc [Ee Pe]].
  { rewrite HL. lia. }
  { lia. }
  { unfold UINT32_MOD. simpl. lia. }
  { exact HR. }
  rewrite Ee, bind_Ok.
  assert (HLe : length enc = 256) by (rewrite (Permutation_length Pe); exact HL).
  assert (HRe : forall j, j < length enc -> (0 <= nth j enc 0 < 256)%Z).
  { intros j Hj. apply HR. apply (Permutation_in _ Pe). now apply nth_In. }
  assert (HNe : NoDup enc).
  { apply (Permutation_NoDup (Permutation_sym Pe)). exact HND. }
  destruct (invert_rounds_spec 256 0 enc (repeat 0%Z 256))
    as [dec [Ed [HLd [Hinv _]]]].
  { lia. }
  { intros j Hj. rewrite repeat_length. now apply HRe. }
  { exact HNe. }
  rewrite Ed, bind_Ok. exists enc, dec. split; [reflexivity|].
  rewrite repeat_length in HLd.
  (* every byte is an entry of [enc] *)
  assert (Hsur : forall b : Z, (0 <= b < 256)%Z ->
                   exists j, j < 256 /\ nth j enc 0%Z = b).
  { intros b Hb.
    assert (Hin : In b enc).
    { apply (Permutation_in _ (Permutation_sym Pe)).
      apply in_map_iff. exists (Z.to_nat b). split; [lia|].
      apply in_seq. lia. }
    destruct (In_nth enc b 0%Z Hin) as [j [Hj Ej]].
    exists j. split; [lia | exact Ej]. }
  assert (Hdec : forall b : Z, (0 <= b < 256)%Z ->
                   (0 <= nth (Z.to_nat b) dec 0 < 256)%Z
                   /\ nth (Z.to_nat (nth (Z.to_nat b) dec 0%Z)) enc 0%Z = b).
  { intros b Hb. destruct (Hsur b Hb) as [j [Hj Ej]].
    pose proof (Hinv j ltac:(lia)) as Hd. rewrite Ej in Hd.
    rewrite Hd, Nat2Z.id. split; [lia | exact Ej]. }
  split; [exact Pe|]. split.
  - (* [dec] has 256 entries, all bytes, no two the same *)
    apply Permutation_sym. apply NoDup_Permutation_bis.
    + exact HND.
    + rewrite HL, HLd. apply le_n.
    + intros x Hx. apply in_map_iff in Hx. destruct Hx as [k [<- Hk]].
      apply in_seq in Hk.
      destruct (Hsur (Z.of_nat k) ltac:(lia)) as [j [Hj Ej]].
      pose proof (Hinv j ltac:(lia)) as Hd.
      destruct (Hdec (Z.of_nat j) ltac:(lia)) as [_ Hdj].
      (* [k] is the entry of [dec] at [enc[k]] *)
      pose proof (Hinv k ltac:(lia)) as Hk'.
      rewrite <- Hk'. apply nth_In. rewrite HLd.
      pose proof (HRe k ltac:(lia)). lia.
  - intros b Hb. split.
    + rewrite Hinv by lia. lia.
    + apply Hdec. exact Hb.
Qed.

End TableCipher.

(** Three bytes sorted with salt 1; two bytes 0 with salt 0, the divisor
    of both being 0; 512 bytes. *)
Lemma merge_sort_returns_below_512_witness :
  (exists out,
     merge_sort (S (length [3; 1; 2]%Z)) [3; 1; 2]%Z 1 5 = Ok out
     /\ Permutation out [3; 1; 2]%Z)
  /\ (forall stack, merge_sort stack [0; 0]%Z 0 5 = Fault)
  /\ (forall stack, merge_sort stack (repeat 0%Z 512) 1 5 = Fault).
Proof.
  split; [|split].
  - apply (proj1 (merge_sort_returns_below_512 [3; 1; 2]%Z 1 5)).
    + simpl. lia.
    + right. repeat constructor; vm_compute; lia.
  - apply (proj1 (proj2 (merge_sort_returns_below_512 [0; 0]%Z 0 5))).
    + simpl. lia.
    + left. reflexivity.
  - apply (proj2 (proj2 (merge_sort_returns_below_512 (repeat 0%Z 512) 1 5))).
    rewrite repeat_length. lia.
Defined.

(** *** Datagrams *)

Section Datagrams.
Context {B : Backend}.

(** [cipher_context_init] on the zeroed local of the two functions *)
Lemma cipher_context_init_keyed (g : globals) (m enc : Z) :
  Laws.evp_setup_law B -> keyed m g ->
  cipher_context_init g {| evp_ctx := EVP_zeroed; iv := zero_iv |} m enc
  = Ok (g, {| evp_ctx := fresh_evp g enc; iv := zero_iv |}).
Proof.
  intros Hsetup [Hm [Em [Lk [Hiv Hfam]]]].
  unfold cipher_context_init, fresh_evp. rewrite Em.
  assert (E1 : ((m <=? TABLE) || (CIPHER_NUM <=? m))%Z = false).
  { apply orb_false_iff. split; apply Z.leb_gt; lia. }
  rewrite E1.
  destruct (SALSA20 <=? m)%Z eqn:Efam.
  - rewrite (set_enc_iv_len_same g) by exact Hfam. reflexivity.
  - destruct Hfam as [name [cipher [En [Eg [Ekl Eil]]]]].
    rewrite Eg. cbn [evp_ctx iv].
    destruct (Hsetup name cipher (RC4_MD5 <? m)%Z [] [] enc En) as [R1 [R2 _]].
    cbv zeta in R1, R2.
    rewrite Ekl.
    destruct (EVP_CipherInit_ex (EVP_CIPHER_CTX_init EVP_zeroed) (Some cipher)
                                None None enc) as [r1 x1].
    cbn [fst snd] in *. subst r1. change (1 =? 0)%Z with false. cbv iota.
    destruct (EVP_CIPHER_CTX_set_key_length x1 (key_len cipher)) as [r2 x2].
    cbn [fst snd] in *. subst r2. change (1 =? 0)%Z with false. cbv iota.
    reflexivity.
Qed.

(** what the cipher of the process, keyed with the IV array [IV], makes
    of [msg]: the value [err] of the source and the bytes written *)
Definition sealed (g : globals) (IV msg : list Z) (enc : Z) : Z * list Z :=
  crypt_bytes g {| evp_ctx := keyed_evp g IV enc; iv := IV |} msg.

Lemma sealed_length (g : globals) (m : Z) (IV msg : list Z) (enc : Z) :
  Laws.evp_length_law B -> Laws.stream_law B -> keyed m g ->
  length (snd (sealed g IV msg enc)) = length msg.
Proof.
  intros Hlen Hstream [Hm [Em _]]. unfold sealed, crypt_bytes. cbn [iv evp_ctx].
  rewrite Em. destruct (Z.leb_spec SALSA20 m) as [Hs | Hs].
  - destruct (stream_xor_some msg IV 0 (enc_key g) m Hstream) as [out [Eo [Lo _]]];
      [lia|].
    rewrite Eo. exact Lo.
  - pose proof (Hlen (keyed_evp g IV enc) msg) as Lo.
    destruct (EVP_CipherUpdate (keyed_evp g IV enc) msg) as [[err x] out].
    exact Lo.
Qed.

(** the bytes that [ss_encrypt_all] gives to the cipher *)
Definition datagram_body (g : globals) (IV : list Z) (auth : Z) (P : list Z)
  : list Z :=
  if (auth =? 0)%Z then P
  else P ++ firstn ONETIMEAUTH_BYTES (HMAC_SHA1 (auth_key_of g IV) P).

Lemma fresh_iv_write (g : globals) (rnd : nat -> Z) :
  g.(enc_iv_len) <= MAX_IV_LENGTH ->
  Mem.write (repeat 0%Z MAX_IV_LENGTH) 0 (rand_bytes rnd g.(enc_iv_len))
  = Ok (fresh_iv g rnd).
Proof.
  intros Hiv. rewrite MemFacts.write_ok.
  - unfold fresh_iv. unfold rand_bytes at 2.
    rewrite length_map, length_seq. reflexivity.
  - unfold rand_bytes.
    rewrite length_map, length_seq, repeat_length. lia.
Qed.

Lemma fresh_iv_firstn (g : globals) (rnd : nat -> Z) :
  firstn g.(enc_iv_len) (fresh_iv g rnd) = rand_bytes rnd g.(enc_iv_len).
Proof.
  assert (Lr : length (rand_bytes rnd (enc_iv_len g)) = enc_iv_len g).
  { unfold rand_bytes. now rewrite length_map, length_seq. }
  unfold fresh_iv. rewrite firstn_app, Lr, Nat.sub_diag.
  rewrite <- Lr at 1. rewrite firstn_all. simpl. apply app_nil_r.
Qed.

(** [ss_encrypt_all] where the static buffer has room for what the cipher
    writes *)
Lemma ss_encrypt_all_spec (g : globals) (m : Z) (tmp plain : buffer_t)
      (auth : Z) (cap : nat) (rnd : nat -> Z) :
  Laws.evp_setup_law B -> Laws.evp_length_law B -> Laws.stream_law B ->
  Laws.hmac_law B ->
  keyed m g -> buffer_ok tmp -> buffer_ok plain ->
  (auth <> 0%Z ->
   g.(enc_key_len) <= MAX_KEY_LENGTH
   /\ g.(enc_iv_len) + plain.(len) + ONETIMEAUTH_BYTES
      <= Nat.max cap tmp.(capacity)) ->
  let IV := fresh_iv g rnd in
  let cb := sealed g IV (datagram_body g IV auth (contents plain)) 1 in
  exists tmp' out,
    ss_encrypt_all g tmp plain m auth cap rnd
    = Ok (if (fst cb =? 0)%Z then (-1)%Z else 0%Z, g, tmp', out)
    /\ buffer_ok tmp'
    /\ (fst cb <> 0%Z ->
        buffer_ok out
        /\ contents out = rand_bytes rnd g.(enc_iv_len) ++ snd cb).
Proof.
  intros Hsetup Hlen Hstream HL Hk [Lt Bt] Hp Hroom IV cb.
  pose proof Hk as [Hm [Em [Lk [Hiv Hfam]]]].
  pose proof (fresh_iv_length g rnd Hiv) as LIV. fold IV in LIV.
  pose proof (fresh_iv_firstn g rnd) as FIV. fold IV in FIV.
  assert (Lr : length (rand_bytes rnd (enc_iv_len g)) = enc_iv_len g).
  { unfold rand_bytes. now rewrite length_map, length_seq. }
  unfold ss_encrypt_all.
  destruct (Z.ltb_spec TABLE m) as [_ | H]; [|lia].
  fold zero_iv. rewrite (cipher_context_init_keyed g m 1 Hsetup Hk), bind_Ok.
  cbv beta iota zeta.
  unfold zero_iv at 1. rewrite (fresh_iv_write g rnd Hiv), bind_Ok. fold IV.
  pose proof (set_iv_keyed g m 1 zero_iv IV Hsetup Hk LIV) as Hset.
  rewrite Hset by apply repeat_length. rewrite bind_Ok.
  change (1 =? 0)%Z with false. cbv iota.
  destruct (brealloc_spec tmp (enc_iv_len g + len plain) cap Lt)
    as [L1 [B1 [B1' [B1'' [_ [_ _]]]]]].
  set (c0 := brealloc tmp (enc_iv_len g + len plain) cap) in *.
  cbn [array set_len].
  destruct (MemFacts.memcpy_ex (array c0) 0 IV 0 (enc_iv_len g))
    as [a0 [E0 [L0 [F0 _]]]]; [lia | lia |].
  rewrite E0, bind_Ok.
  rewrite Nat.add_0_l in F0. cbn [firstn app skipn] in F0. rewrite FIV in F0.
  (* the message *)
  set (msg := datagram_body g IV auth (contents plain)) in *.
  assert (Hmsg : exists p1,
    (if negb (auth =? 0)%Z
     then '(_, plain0) <- ss_onetimeauth g plain IV cap ;;
          Ok (plain0, set_len (set_array (set_len c0 (len plain)) a0) (len plain0))
     else Ok (plain, set_array (set_len c0 (len plain)) a0))
    = Ok (p1, set_len (set_array c0 a0) (len p1))
    /\ buffer_ok p1 /\ contents p1 = msg
    /\ enc_iv_len g + len p1 <= capacity c0).
  { unfold msg, datagram_body.
    destruct (Z.eqb_spec auth 0) as [E | N]; cbn [negb].
    - exists plain. repeat split; try apply Hp. lia.
    - destruct (Hroom N) as [Hkl Hr].
      destruct (ss_onetimeauth_ok g plain IV cap HL) as [p1 [E1 [H1 [Ln1 C1]]]].
      { unfold auth_ready. repeat split; lia. }
      { exact Hp. }
      rewrite E1, bind_Ok. cbv beta iota.
      exists p1. repeat split; try apply H1; try exact C1.
      rewrite Ln1. unfold c0, brealloc.
      destruct (Nat.ltb_spec (capacity tmp) (Nat.max (enc_iv_len g + len plain) cap));
        cbn [capacity]; lia. }
  destruct Hmsg as [p1 [Emsg [[Lp1 Bp1] [Cp1 Hcap1]]]].
  rewrite Emsg, bind_Ok. cbv beta iota.
  assert (Lmsg : length msg = len p1).
  { rewrite <- Cp1. unfold contents. rewrite length_firstn. lia. }
  pose proof (sealed_length g m IV msg 1 Hlen Hstream Hk) as Lcb. fold cb in Lcb.
  assert (Hcrypt : exists a1,
    (if (SALSA20 <=? m)%Z
     then m0 <- Mem.read (array p1) 0 (len p1) ;;
          a <- write_opt (array (set_len (set_array c0 a0) (len p1)))
                         (enc_iv_len g)
                         (crypto_stream_xor_ic m0 IV 0 (enc_key g) m) ;;
          Ok (1%Z, set_array (set_len (set_array c0 a0) (len p1)) a)
     else input <- Mem.read (array p1) 0 (len p1) ;;
          (let '(err, _, out) :=
             EVP_CipherUpdate
               (evp_ctx {| evp_ctx := keyed_evp g IV 1; iv := zero_iv |}) input in
           a <- Mem.write (array (set_len (set_array c0 a0) (len p1)))
                          (enc_iv_len g) out ;;
           Ok (err, set_len (set_array (set_len (set_array c0 a0) (len p1)) a)
                            (length out))))
    = Ok (fst cb, set_len (set_array c0 a1) (len p1))
    /\ length a1 = capacity c0
    /\ firstn (enc_iv_len g + len p1) a1
       = rand_bytes rnd (enc_iv_len g) ++ snd cb).
  { rewrite MemFacts.read_ok by lia. rewrite !bind_Ok.
    change (firstn (len p1) (skipn 0 (array p1))) with (contents p1).
    rewrite Cp1. cbn [array set_len set_array evp_ctx].
    destruct (MemFacts.write_ex a0 (enc_iv_len g) (snd cb))
      as [a1 [E1 [L1' [F1 _]]]]; [lia|].
    rewrite Lcb, Lmsg in F1. rewrite F0 in F1.
    unfold cb, sealed, crypt_bytes in *. cbn [iv evp_ctx] in *. rewrite Em in *.
    destruct (SALSA20 <=? m)%Z eqn:Efam.
    - destruct (stream_xor_some msg IV 0 (enc_key g) m Hstream)
        as [out [Eo _]]; [apply Z.leb_le in Efam; lia|].
      rewrite Eo in *. cbn [fst snd write_opt] in *. rewrite E1, bind_Ok.
      exists a1. repeat split; [lia | exact F1].
    - destruct (EVP_CipherUpdate (keyed_evp g IV 1) msg) as [[err x] out].
      cbn [fst snd] in *. rewrite E1, bind_Ok.
      exists a1. rewrite Lcb, Lmsg. repeat split; [lia | exact F1]. }
  destruct Hcrypt as [a1 [Ecr [La1 Fa1]]].
  rewrite Ecr, bind_Ok. cbv beta iota.
  destruct (Z.eqb_spec (fst cb) 0) as [Ez | Nz].
  - eexists. eexists. split; [reflexivity|]. split.
    + split; cbn [array capacity len set_array set_len]; lia.
    + intros C. contradiction.
  - cbn [len set_len set_array array].
    destruct (brealloc_spec p1 (enc_iv_len g + len p1) cap Lp1)
      as [L2 [B2 [_ [_ [_ [_ _]]]]]].
    set (p2 := brealloc p1 (enc_iv_len g + len p1) cap) in *.
    destruct (MemFacts.memcpy_ex (array p2) 0 a1 0 (enc_iv_len g + len p1))
      as [a2 [E2 [L2' [F2 _]]]]; [lia | lia |].
    rewrite E2, bind_Ok.
    eexists. eexists. split; [reflexivity|]. split.
    + split; cbn [array capacity len set_array set_len]; lia.
    + intros _. split.
      * split; cbn [array capacity len set_array set_len]; lia.
      * unfold contents. cbn [array len set_array set_len].
        rewrite Nat.add_0_l in F2. cbn [firstn app skipn] in F2.
        rewrite F2. exact Fa1.
Qed.


(** What [ss_decrypt_all] makes of the bytes [P] that the cipher wrote with
    the value [err]: the payload, none when the datagram is refused. *)
Definition checked_payload (g : globals) (IV : list Z) (auth : Z)
           (err : Z) (P : list Z) : option (list Z) :=
  if (negb (auth =? 0) || negb (Z.land (nth 0 P 0) ONETIMEAUTH_FLAG =? 0))%Z then
    if ONETIMEAUTH_BYTES <? length P then
      let n := length P - ONETIMEAUTH_BYTES in
      if (safe_memcmp (skipn n P) (HMAC_SHA1 (auth_key_of g IV) (firstn n P))
                      ONETIMEAUTH_BYTES =? 0)%Z
      then Some (firstn n P)
      else None
    else None
  else if (err =? 0)%Z then None else Some P.

Lemma iv_local_copy (g : globals) (cipher : buffer_t) :
  g.(enc_iv_len) <= MAX_IV_LENGTH -> g.(enc_iv_len) <= length cipher.(array) ->
  Mem.memcpy (repeat 0%Z MAX_IV_LENGTH) 0 cipher.(array) 0 g.(enc_iv_len)
  = Ok (iv_local_of g cipher).
Proof.
  intros Hiv Hc. rewrite MemFacts.memcpy_ok.
  - reflexivity.
  - simpl. lia.
  - rewrite repeat_length. simpl. lia.
Qed.

Lemma iv_local_length (g : globals) (cipher : buffer_t) :
  g.(enc_iv_len) <= MAX_IV_LENGTH -> g.(enc_iv_len) <= length cipher.(array) ->
  length (iv_local_of g cipher) = MAX_IV_LENGTH.
Proof.
  intros Hiv Hc. unfold iv_local_of.
  rewrite length_app, length_firstn, length_skipn, repeat_length. lia.
Qed.

(** [ss_decrypt_all] on a datagram that is longer than the IV *)
Lemma ss_decrypt_all_spec (g : globals) (m : Z) (tmp cipher : buffer_t)
      (auth : Z) (cap : nat) :
  Laws.evp_setup_law B -> Laws.evp_length_law B -> Laws.stream_law B ->
  Laws.hmac_law B ->
  keyed m g -> g.(enc_key_len) <= MAX_KEY_LENGTH ->
  buffer_ok tmp -> buffer_ok cipher -> g.(enc_iv_len) < cipher.(len) ->
  let IV := iv_local_of g cipher in
  let body := firstn (cipher.(len) - g.(enc_iv_len))
                     (skipn g.(enc_iv_len) cipher.(array)) in
  let cb := sealed g IV body 0 in
  let o := checked_payload g IV auth (fst cb) (snd cb) in
  exists tmp' out,
    ss_decrypt_all g tmp cipher m auth cap
    = Ok (match o with Some _ => 0%Z | None => (-1)%Z end, g, tmp', out)
    /\ buffer_ok tmp'
    /\ match o with
       | Some payload => buffer_ok out /\ contents out = payload
       | None => out = bfree cipher
       end.
Proof.
  intros Hsetup Hlen Hstream HL Hk Hkl [Lt Bt] [Lc Bc] Hlong IV body cb o.
  pose proof Hk as [Hm [Em [Lk [Hiv Hfam]]]].
  assert (LIV : length IV = MAX_IV_LENGTH).
  { apply iv_local_length; lia. }
  assert (Lbody : length body = len cipher - enc_iv_len g).
  { unfold body. rewrite length_firstn, length_skipn. lia. }
  pose proof (sealed_length g m IV body 0 Hlen Hstream Hk) as Lcb. fold cb in Lcb.
  set (P := snd cb) in *.
  unfold ss_decrypt_all.
  destruct (Z.ltb_spec TABLE m) as [_ | H]; [|lia].
  cbv zeta.
  destruct (Nat.leb_spec (len cipher) (enc_iv_len g)) as [H | _]; [lia|].
  fold zero_iv. rewrite (cipher_context_init_keyed g m 0 Hsetup Hk), bind_Ok.
  cbv beta iota.
  unfold zero_iv at 1. rewrite (iv_local_copy g cipher) by lia.
  rewrite bind_Ok. fold IV.
  pose proof (set_iv_keyed g m 0 zero_iv IV Hsetup Hk LIV) as Hset.
  rewrite Hset by apply repeat_length. rewrite bind_Ok.
  change (0 =? 0)%Z with true. cbv iota.
  destruct (brealloc_spec tmp (len cipher) cap Lt)
    as [L1 [B1 [_ [_ [_ [_ _]]]]]].
  set (p0 := brealloc tmp (len cipher) cap) in *.
  assert (Hcrypt : exists a1,
    (if (SALSA20 <=? m)%Z
     then m0 <- Mem.read (array cipher) (enc_iv_len g)
                         (len cipher - enc_iv_len g) ;;
          a <- write_opt (array (set_len p0 (len cipher - enc_iv_len g))) 0
                         (crypto_stream_xor_ic m0 IV 0 (enc_key g) m) ;;
          Ok (1%Z, set_array (set_len p0 (len cipher - enc_iv_len g)) a)
     else input <- Mem.read (array cipher) (enc_iv_len g)
                            (len cipher - enc_iv_len g) ;;
          (let '(err, _, out) :=
             EVP_CipherUpdate
               (evp_ctx {| evp_ctx := keyed_evp g IV 0;
                           iv := firstn (enc_iv_len g) IV
                                 ++ skipn (enc_iv_len g) zero_iv |}) input in
           a <- Mem.write (array (set_len p0 (len cipher - enc_iv_len g))) 0 out ;;
           Ok (err, set_len (set_array (set_len p0 (len cipher - enc_iv_len g)) a)
                            (length out))))
    = Ok (fst cb, set_len (set_array p0 a1) (length P))
    /\ length a1 = capacity p0
    /\ firstn (length P) a1 = P).
  { rewrite MemFacts.read_ok by lia. rewrite !bind_Ok. fold body.
    cbn [array set_len set_array evp_ctx].
    destruct (MemFacts.write_ex (array p0) 0 P) as [a1 [E1 [L1' [F1 _]]]]; [lia|].
    rewrite Nat.add_0_l in F1. cbn [firstn app] in F1.
    unfold P, cb, sealed, crypt_bytes in *. cbn [iv evp_ctx] in *. rewrite Em in *.
    destruct (SALSA20 <=? m)%Z eqn:Efam.
    - destruct (stream_xor_some body IV 0 (enc_key g) m Hstream)
        as [out [Eo _]]; [apply Z.leb_le in Efam; lia|].
      rewrite Eo in *. cbn [fst snd write_opt] in *. rewrite E1, bind_Ok.
      exists a1. rewrite Lcb, Lbody. repeat split; [lia | ].
      rewrite <- Lbody, <- Lcb. exact F1.
    - destruct (EVP_CipherUpdate (keyed_evp g IV 0) body) as [[err x] out].
      cbn [fst snd] in *. rewrite E1, bind_Ok.
      exists a1. repeat split; [lia | exact F1]. }
  destruct Hcrypt as [a1 [Ecr [La1 Fa1]]].
  rewrite Ecr, bind_Ok. cbv beta iota. cbn [array len set_len set_array].
  assert (LP : 0 < length P <= capacity p0) by lia.
  assert (Hflag :
    (if negb (auth =? 0)%Z then Ok true
     else b <- Mem.get a1 0 ;; Ok (negb (Z.land b ONETIMEAUTH_FLAG =? 0)%Z))
    = Ok (negb (auth =? 0) || negb (Z.land (nth 0 P 0) ONETIMEAUTH_FLAG =? 0))%Z).
  { destruct (negb (auth =? 0)%Z); [reflexivity|].
    rewrite MemFacts.get_ok by lia. rewrite bind_Ok. cbn [orb].
    do 3 f_equal. rewrite <- Fa1.
    destruct a1 as [|x a1']; [simpl in La1; lia|].
    destruct (length P); [lia | reflexivity]. }
  rewrite Hflag, bind_Ok.
  unfold o, checked_payload. fold P.
  set (flagged := (negb (auth =? 0) || _)%Z).
  assert (Hcopy : forall n, n <= length P ->
    exists a2,
      Mem.memcpy (array (brealloc cipher n cap)) 0 a1 0 n = Ok a2
      /\ buffer_ok (set_len (set_array (brealloc cipher n cap) a2) n)
      /\ contents (set_len (set_array (brealloc cipher n cap) a2) n)
         = firstn n P).
  { intros n Hn.
    destruct (brealloc_spec cipher n cap Lc) as [L2 [B2 [_ [_ [_ [_ _]]]]]].
    set (c1 := brealloc cipher n cap) in *.
    destruct (MemFacts.memcpy_ex (array c1) 0 a1 0 n)
      as [a2 [E2 [L2' [F2 _]]]]; [lia | lia |].
    exists a2. split; [exact E2|]. split.
    - split; cbn [array capacity len set_array set_len]; lia.
    - unfold contents. cbn [array len set_array set_len].
      rewrite Nat.add_0_l in F2. cbn [firstn app skipn] in F2. rewrite F2.
      rewrite <- Fa1, firstn_firstn. f_equal. lia. }
  destruct flagged.
  - change ONETIMEAUTH_BYTES with 10 in *.
    destruct (Nat.ltb_spec 10 (length P)) as [Hlong10 | Hshort].
    + destruct (ss_onetimeauth_verify_spec g (set_len (set_array p0 a1) (length P))
                  IV HL) as [Ev _].
      { unfold auth_ready. repeat split; lia. }
      { cbn [len set_len]. change ONETIMEAUTH_BYTES with 10. lia. }
      { cbn [len array set_len set_array]. lia. }
      cbn [len array set_len set_array] in Ev.
      change ONETIMEAUTH_BYTES with 10 in Ev.
      rewrite Ev, bind_Ok. fold (auth_key_of g IV).
      set (n := length P - 10) in *.
      assert (W1 : firstn n a1 = firstn n P).
      { rewrite <- Fa1, firstn_firstn. f_equal. lia. }
      assert (W2 : firstn 10 (skipn n a1) = skipn n P).
      { rewrite (prefix_window a1 P (length P) n 10).
        - apply firstn_all2. rewrite length_skipn. lia.
        - rewrite Fa1. symmetry. apply firstn_all.
        - unfold n. lia. }
      rewrite W1, W2.
      destruct (safe_memcmp (skipn n P) (HMAC_SHA1 (auth_key_of g IV) (firstn n P)) 10
                =? 0)%Z.
      * rewrite bind_Ok. cbv beta iota. change (1 =? 0)%Z with false. cbv iota.
        cbn [len set_len set_array array]. fold n.
        destruct (Hcopy n ltac:(unfold n; lia)) as [a2 [E2 [H2 C2]]].
        rewrite E2, bind_Ok.
        eexists. eexists. split; [reflexivity|]. split.
        -- split; cbn [array capacity len set_array set_len]; lia.
        -- split; assumption.
      * rewrite bind_Ok. cbv beta iota. change (0 =? 0)%Z with true. cbv iota.
        eexists. eexists. split; [reflexivity|]. split; [|reflexivity].
        split; cbn [array capacity len set_array set_len]; lia.
    + rewrite bind_Ok. cbv beta iota. change (0 =? 0)%Z with true. cbv iota.
      eexists. eexists. split; [reflexivity|]. split; [|reflexivity].
      split; cbn [array capacity len set_array set_len]; lia.
  - rewrite bind_Ok. cbv beta iota.
    destruct (fst cb =? 0)%Z.
    + eexists. eexists. split; [reflexivity|]. split; [|reflexivity].
      split; cbn [array capacity len set_array set_len]; lia.
    + cbn [len set_len set_array array].
      destruct (Hcopy (length P) (Nat.le_refl _)) as [a2 [E2 [H2 C2]]].
      rewrite E2, bind_Ok.
      eexists. eexists. split; [reflexivity|]. split.
      * split; cbn [array capacity len set_array set_len]; lia.
      * split; [exact H2|]. rewrite C2. apply firstn_all.
Qed.

(** a context keyed for decryption undoes what one keyed for encryption
    with the same IV array does *)
Lemma sealed_inverse (g : globals) (m : Z) (IV msg : list Z) :
  Laws.evp_inverse_law B -> Laws.stream_law B -> keyed m g ->
  fst (sealed g IV msg 1) = 1%Z
  /\ sealed g IV (snd (sealed g IV msg 1)) 0 = (1%Z, msg).
Proof.
  intros Hinv Hstream [Hm [Em [Lk [Hiv Hfam]]]].
  unfold sealed, crypt_bytes. cbn [iv evp_ctx]. rewrite Em.
  destruct (SALSA20 <=? m)%Z eqn:Efam.
  - destruct (stream_xor_some msg IV 0 (enc_key g) m Hstream)
      as [out [Eo [_ Ei]]].
    { apply Z.leb_le in Efam. lia. }
    rewrite Eo. cbn [fst snd]. rewrite Ei. split; reflexivity.
  - destruct Hfam as [name [cipher [En [Eg _]]]].
    unfold keyed_evp. rewrite Em, Efam, Eg.
    destruct (Hinv name cipher (RC4_MD5 <? m)%Z (true_key g IV) IV msg En)
      as [I1 [I2 I3]].
    cbv zeta in I1, I2, I3.
    destruct (EVP_CipherUpdate
                (Laws.evp_keyed B cipher (RC4_MD5 <? m)%Z (true_key g IV) IV 1)
                msg) as [[err1 x1] out1].
    cbn [fst snd] in *.
    destruct (EVP_CipherUpdate
                (Laws.evp_keyed B cipher (RC4_MD5 <? m)%Z (true_key g IV) IV 0)
                out1) as [[err2 x2] out2].
    cbn [fst snd] in *. subst. split; reflexivity.
Qed.

(** [ss_encrypt_all] with room in its static buffer, and [ss_decrypt_all]
    on what it returns *)
Lemma datagram_trip (g : globals) (m : Z) (te td plain : buffer_t)
      (auth_s auth_r : Z) (cap_s cap_r : nat) (rnd : nat -> Z) :
  Laws.evp_setup_law B -> Laws.evp_length_law B -> Laws.evp_inverse_law B ->
  Laws.stream_law B -> Laws.hmac_law B ->
  keyed m g -> g.(enc_key_len) <= MAX_KEY_LENGTH ->
  buffer_ok te -> buffer_ok td -> buffer_ok plain -> 0 < plain.(len) ->
  (auth_s <> 0%Z ->
   g.(enc_iv_len) + plain.(len) + ONETIMEAUTH_BYTES
   <= Nat.max cap_s te.(capacity)) ->
  let IV := fresh_iv g rnd in
  let msg := datagram_body g IV auth_s (contents plain) in
  let o := checked_payload g IV auth_r 1 msg in
  exists te' c td' out,
    ss_encrypt_all g te plain m auth_s cap_s rnd = Ok (0%Z, g, te', c)
    /\ buffer_ok c
    /\ contents c = rand_bytes rnd g.(enc_iv_len) ++ snd (sealed g IV msg 1)
    /\ c.(len) = g.(enc_iv_len) + length msg
    /\ ss_decrypt_all g td c m auth_r cap_r
       = Ok (match o with Some _ => 0%Z | None => (-1)%Z end, g, td', out)
    /\ match o with
       | Some payload => buffer_ok out /\ contents out = payload
       | None => out = bfree c
       end.
Proof.
  intros Hsetup Hlen Hinv Hstream HL Hk Hkl Hte Htd Hp Hpos Hroom IV msg o.
  pose proof Hk as [Hm [Em [Lk [Hiv Hfam]]]].
  destruct (ss_encrypt_all_spec g m te plain auth_s cap_s rnd
              Hsetup Hlen Hstream HL Hk Hte Hp)
    as [te' [c [Ee [_ Hc]]]].
  { intros N. split; [exact Hkl | exact (Hroom N)]. }
  fold IV in Ee, Hc. fold msg in Ee, Hc.
  destruct (sealed_inverse g m IV msg Hinv Hstream Hk) as [S1 S2].
  rewrite S1 in Ee, Hc. change (1 =? 0)%Z with false in Ee. cbv iota in Ee.
  destruct Hc as [Hcok Hcc]; [discriminate|].
  pose proof (sealed_length g m IV msg 1 Hlen Hstream Hk) as Lcb.
  set (cb := sealed g IV msg 1) in *.
  assert (Lr : length (rand_bytes rnd (enc_iv_len g)) = enc_iv_len g).
  { unfold rand_bytes. now rewrite length_map, length_seq. }
  assert (Lmsg : len plain <= length msg).
  { unfold msg, datagram_body.
    assert (Lc : length (contents plain) = len plain).
    { unfold contents. destruct Hp. rewrite length_firstn. lia. }
    destruct (auth_s =? 0)%Z; [lia|]. rewrite length_app. lia. }
  pose proof Hcok as [Lc Bc].
  assert (Llen : len c = enc_iv_len g + length msg).
  { apply (f_equal (@length Z)) in Hcc. unfold contents in Hcc.
    rewrite length_firstn, length_app, Lr in Hcc. lia. }
  assert (Fc : firstn (enc_iv_len g) (array c) = rand_bytes rnd (enc_iv_len g)).
  { apply (f_equal (firstn (enc_iv_len g))) in Hcc. unfold contents in Hcc.
    rewrite firstn_firstn in Hcc.
    replace (Nat.min (enc_iv_len g) (len c)) with (enc_iv_len g) in Hcc by lia.
    rewrite Hcc, firstn_app, Lr, Nat.sub_diag.
    rewrite <- Lr at 1. rewrite firstn_all. simpl. apply app_nil_r. }
  assert (Hloc : iv_local_of g c = IV).
  { unfold iv_local_of. rewrite Fc. reflexivity. }
  assert (Hbody : firstn (len c - enc_iv_len g) (skipn (enc_iv_len g) (array c))
                  = snd cb).
  { rewrite firstn_skipn_comm.
    replace (enc_iv_len g + (len c - enc_iv_len g)) with (len c) by lia.
    fold (contents c). rewrite Hcc.
    rewrite skipn_app, Lr, Nat.sub_diag.
    rewrite <- Lr at 1. rewrite skipn_all. reflexivity. }
  destruct (ss_decrypt_all_spec g m td c auth_r cap_r
              Hsetup Hlen Hstream HL Hk Hkl Htd Hcok)
    as [td' [out [Ed [_ Ho]]]].
  { lia. }
  rewrite Hloc, Hbody, S2 in Ed, Ho. cbn [fst snd] in Ed, Ho.
  exists te', c, td', out.
  split; [exact Ee|]. split; [exact Hcok|]. split; [exact Hcc|].
  split; [exact Llen|]. split; [exact Ed | exact Ho].
Qed.

(** X17.  A datagram survives [ss_encrypt_all] followed by
    [ss_decrypt_all] in a process keyed for a method other than the table,
    both ends using the same [auth] setting.  [ss_encrypt_all] returns 0
    with the IV it drew, followed by as many bytes as the payload has, plus
    10 for the MAC with [auth] set; [ss_decrypt_all] on that returns 0 with
    the payload.  The payload must not be empty; with [auth] set the static
    buffer of [ss_encrypt_all] must have room for the MAC as well, and with
    [auth] off the first byte of the payload must not have the bit 0x10. *)
Theorem datagram_round_trip (g : globals) (m : Z) (te td plain : buffer_t)
        (auth : Z) (cap_s cap_r : nat) (rnd : nat -> Z) :
  Laws.evp_setup_law B -> Laws.evp_length_law B -> Laws.evp_inverse_law B ->
  Laws.stream_law B -> Laws.hmac_law B ->
  keyed m g -> g.(enc_key_len) <= MAX_KEY_LENGTH ->
  buffer_ok te -> buffer_ok td -> buffer_ok plain -> 0 < plain.(len) ->
  (auth <> 0%Z ->
   g.(enc_iv_len) + plain.(len) + ONETIMEAUTH_BYTES
   <= Nat.max cap_s te.(capacity)) ->
  (auth = 0%Z ->
   Z.land (nth 0 (contents plain) 0%Z) ONETIMEAUTH_FLAG = 0%Z) ->
  exists te' c td' out,
    ss_encrypt_all g te plain m auth cap_s rnd = Ok (0%Z, g, te', c)
    /\ firstn g.(enc_iv_len) (contents c) = rand_bytes rnd g.(enc_iv_len)
    /\ c.(len) = g.(enc_iv_len) + plain.(len)
                 + (if (auth =? 0)%Z then 0 else ONETIMEAUTH_BYTES)
    /\ ss_decrypt_all g td c m auth cap_r = Ok (0%Z, g, td', out)
    /\ contents out = contents plain.
Proof.
  intros Hsetup Hlen Hinv Hstream HL Hk Hkl Hte Htd Hp Hpos Hroom Hflag.
  destruct (datagram_trip g m te td plain auth auth cap_s cap_r rnd
              Hsetup Hlen Hinv Hstream HL Hk Hkl Hte Htd Hp Hpos Hroom)
    as [te' [c [td' [out [Ee [_ [Hcc [Llen [Ed Ho]]]]]]]]].
  set (IV := fresh_iv g rnd) in *.
  assert (Lr : length (rand_bytes rnd (enc_iv_len g)) = enc_iv_len g).
  { unfold rand_bytes. now rewrite length_map, length_seq. }
  assert (LP : length (contents plain) = len plain).
  { unfold contents. destruct Hp. rewrite length_firstn. lia. }
  assert (Hopen : checked_payload g IV auth 1
                    (datagram_body g IV auth (contents plain))
                  = Some (contents plain)).
  { unfold checked_payload, datagram_body.
    destruct (Z.eqb_spec auth 0) as [E0 | N0]; cbn [negb orb].
    - rewrite (Hflag E0). reflexivity.
    - set (P := contents plain) in *.
      set (mac := firstn ONETIMEAUTH_BYTES (HMAC_SHA1 (auth_key_of g IV) P)).
      assert (Lm : length mac = 10).
      { unfold mac. rewrite length_firstn, HL. reflexivity. }
      rewrite length_app, Lm, LP. change ONETIMEAUTH_BYTES with 10.
      destruct (Nat.ltb_spec 10 (len plain + 10)) as [_ | H]; [|lia].
      replace (len plain + 10 - 10) with (length P) by lia.
      rewrite skipn_app, skipn_all, Nat.sub_diag. cbn [skipn app].
      rewrite firstn_app, firstn_all, Nat.sub_diag. cbn [firstn]. rewrite app_nil_r.
      assert (Z0 : safe_memcmp mac (HMAC_SHA1 (auth_key_of g IV) P) 10 = 0%Z).
      { apply safe_memcmp_firstn; [lia | rewrite HL; lia |].
        unfold mac. change ONETIMEAUTH_BYTES with 10.
        rewrite firstn_firstn. reflexivity. }
      rewrite Z0. reflexivity. }
  rewrite Hopen in Ed, Ho. destruct Ho as [_ Ho].
  exists te', c, td', out.
  split; [exact Ee|]. split.
  { rewrite Hcc, firstn_app, Lr, Nat.sub_diag.
    rewrite <- Lr at 1. rewrite firstn_all. simpl. apply app_nil_r. }
  split.
  { rewrite Llen. unfold datagram_body.
    destruct (auth =? 0)%Z; [lia|].
    rewrite length_app, length_firstn, HL. change ONETIMEAUTH_BYTES with 10.
    simpl Nat.min. lia. }
  split; [exact Ed | exact Ho].
Qed.

(** X18.  A datagram that is sent without authentication and whose
    first byte has the bit 0x10 is taken by [ss_decrypt_all] for an
    authenticated one, whatever its own [auth] setting: it returns -1 and
    releases the buffer when the datagram has at most 10 bytes, or when
    its last 10 bytes are not the MAC of the bytes before them. *)
Theorem flagged_datagram_is_refused
        (g : globals) (m : Z) (te td plain : buffer_t)
        (auth_r : Z) (cap_s cap_r : nat) (rnd : nat -> Z) :
  Laws.evp_setup_law B -> Laws.evp_length_law B -> Laws.evp_inverse_law B ->
  Laws.stream_law B -> Laws.hmac_law B ->
  keyed m g -> g.(enc_key_len) <= MAX_KEY_LENGTH ->
  buffer_ok te -> buffer_ok td -> buffer_ok plain -> 0 < plain.(len) ->
  Z.land (nth 0 (contents plain) 0%Z) ONETIMEAUTH_FLAG <> 0%Z ->
  let P := contents plain in
  let n := plain.(len) - ONETIMEAUTH_BYTES in
  plain.(len) <= ONETIMEAUTH_BYTES
  \/ skipn n P
     <> firstn ONETIMEAUTH_BYTES
               (HMAC_SHA1 (auth_key_of g (fresh_iv g rnd)) (firstn n P)) ->
  exists te' c td',
    ss_encrypt_all g te plain m 0 cap_s rnd = Ok (0%Z, g, te', c)
    /\ ss_decrypt_all g td c m auth_r cap_r = Ok ((-1)%Z, g, td', bfree c).
Proof.
  intros Hsetup Hlen Hinv Hstream HL Hk Hkl Hte Htd Hp Hpos Hflag P n Hbad.
  destruct (datagram_trip g m te td plain 0 auth_r cap_s cap_r rnd
              Hsetup Hlen Hinv Hstream HL Hk Hkl Hte Htd Hp Hpos)
    as [te' [c [td' [out [Ee [_ [Hcc [Llen [Ed Ho]]]]]]]]].
  { intros N. contradiction. }
  set (IV := fresh_iv g rnd) in *.
  assert (LP : length P = len plain).
  { unfold P, contents. destruct Hp. rewrite length_firstn. lia. }
  assert (Hopen : checked_payload g IV auth_r 1 (datagram_body g IV 0 P) = None).
  { unfold checked_payload, datagram_body. change (0 =? 0)%Z with true. cbv iota.
    apply Z.eqb_neq in Hflag. fold P in Hflag. rewrite Hflag.
    rewrite orb_true_r. rewrite LP. fold n.
    destruct (Nat.ltb_spec ONETIMEAUTH_BYTES (len plain)) as [Hl | Hs];
      [|reflexivity].
    destruct Hbad as [Hs | Hne]; [lia|].
    destruct (Z.eqb_spec (safe_memcmp (skipn n P)
                            (HMAC_SHA1 (auth_key_of g IV) (firstn n P))
                            ONETIMEAUTH_BYTES) 0) as [E | _]; [|reflexivity].
    exfalso. apply Hne.
    assert (Ls : length (skipn n P) = ONETIMEAUTH_BYTES).
    { rewrite length_skipn. unfold n. lia. }
    apply safe_memcmp_firstn in E; [|lia | rewrite HL; cbv; lia].
    rewrite <- E. symmetry. apply firstn_all2. lia. }
  fold P in Ed, Ho. rewrite Hopen in Ed, Ho. subst out.
  exists te', c, td'. split; [exact Ee | exact Ed].
Qed.

Lemma write_beyond (a : list Z) (off : nat) (src : list Z) :
  length a < off + length src -> Mem.write a off src = Fault.
Proof.
  intros H. unfold Mem.write.
  destruct (Nat.leb_spec (off + length src) (length a)); [lia | reflexivity].
Qed.

(** X19.  With [auth] set, [ss_encrypt_all] sizes its static buffer for
    the IV and the payload before [ss_onetimeauth] appends the 10 bytes of
    the MAC.  When neither [capacity] nor the size the buffer already has
    leaves room for the IV, the payload and the MAC, the cipher writes
    past the end of the static buffer. *)
Theorem encrypt_all_overruns_its_buffer
        (g : globals) (m : Z) (tmp plain : buffer_t) (auth : Z) (cap : nat)
        (rnd : nat -> Z) :
  Laws.evp_setup_law B -> Laws.evp_length_law B -> Laws.stream_law B ->
  Laws.hmac_law B ->
  keyed m g -> g.(enc_key_len) <= MAX_KEY_LENGTH ->
  buffer_ok tmp -> buffer_ok plain ->
  auth <> 0%Z ->
  Nat.max cap tmp.(capacity)
  < g.(enc_iv_len) + plain.(len) + ONETIMEAUTH_BYTES ->
  ss_encrypt_all g tmp plain m auth cap rnd = Fault.
Proof.
  intros Hsetup Hlen Hstream HL Hk Hkl [Lt Bt] Hp Hauth Hsmall.
  pose proof Hk as [Hm [Em [Lk [Hiv Hfam]]]].
  set (IV := fresh_iv g rnd).
  pose proof (fresh_iv_length g rnd Hiv) as LIV. fold IV in LIV.
  unfold ss_encrypt_all.
  destruct (Z.ltb_spec TABLE m) as [_ | H]; [|lia].
  fold zero_iv. rewrite (cipher_context_init_keyed g m 1 Hsetup Hk), bind_Ok.
  cbv beta iota zeta.
  unfold zero_iv at 1. rewrite (fresh_iv_write g rnd Hiv), bind_Ok. fold IV.
  pose proof (set_iv_keyed g m 1 zero_iv IV Hsetup Hk LIV) as Hset.
  rewrite Hset by apply repeat_length. rewrite bind_Ok.
  change (1 =? 0)%Z with false. cbv iota.
  destruct (brealloc_spec tmp (enc_iv_len g + len plain) cap Lt)
    as [L1 [B1 _]].
  assert (K1 : capacity (brealloc tmp (enc_iv_len g + len plain) cap)
               < enc_iv_len g + len plain + ONETIMEAUTH_BYTES).
  { unfold brealloc.
    destruct (Nat.ltb_spec (capacity tmp) (Nat.max (enc_iv_len g + len plain) cap));
      cbn [capacity]; unfold ONETIMEAUTH_BYTES in *; lia. }
  set (c0 := brealloc tmp (enc_iv_len g + len plain) cap) in *.
  cbn [array set_len].
  destruct (MemFacts.memcpy_ex (array c0) 0 IV 0 (enc_iv_len g))
    as [a0 [E0 [L0 _]]]; [lia | lia |].
  rewrite E0, bind_Ok.
  apply Z.eqb_neq in Hauth. rewrite Hauth. cbn [negb].
  destruct (ss_onetimeauth_ok g plain IV cap HL) as [p1 [E1 [[Lp1 Bp1] [Ln1 C1]]]].
  { unfold auth_ready. repeat split; lia. }
  { exact Hp. }
  rewrite E1, !bind_Ok. cbv beta iota.
  rewrite MemFacts.read_ok by lia.
  change (firstn (len p1) (skipn 0 (array p1))) with (contents p1).
  set (msg := contents p1).
  assert (Lmsg : length msg = len p1).
  { unfold msg, contents. rewrite length_firstn. lia. }
  cbn [array set_len set_array evp_ctx].
  destruct (Z.leb_spec SALSA20 m) as [Hs | Hs].
  - rewrite !bind_Ok.
    destruct (stream_xor_some msg IV 0 (enc_key g) m Hstream)
      as [out [Eo [Lo _]]]; [lia|].
    rewrite Eo. cbn [write_opt].
    rewrite write_beyond by lia. reflexivity.
  - rewrite !bind_Ok.
    pose proof (Hlen (keyed_evp g IV 1) msg) as Lo.
    destruct (EVP_CipherUpdate (keyed_evp g IV 1) msg) as [[err x] out].
    cbn [snd] in Lo.
    rewrite write_beyond by lia. reflexivity.
Qed.

End Datagrams.

(** the static buffer of the two functions before their first call, and a
    random stream *)
Definition tmp_new : buffer_t := mkbuffer 0 0 0 [].

Definition rnd_count : nat -> Z := fun i => Z.of_nat (i + 3).

Lemma datagram_round_trip_witness :
  exists te' c td' out,
    ss_encrypt_all (B := Toy.backend) Samples.g_aes tmp_new
                   (holding 64 [1; 2; 3]%Z) AES_256_CFB 1 64 rnd_count
    = Ok (0%Z, Samples.g_aes, te', c)
    /\ firstn 16 (contents c) = rand_bytes rnd_count 16
    /\ c.(len) = 16 + 3 + 10
    /\ ss_decrypt_all (B := Toy.backend) Samples.g_aes tmp_new c AES_256_CFB 1 64
       = Ok (0%Z, Samples.g_aes, td', out)
    /\ contents out = [1; 2; 3]%Z.
Proof.
  apply (@datagram_round_trip Toy.backend Samples.g_aes AES_256_CFB tmp_new
           tmp_new (holding 64 [1; 2; 3]%Z) 1 64 64 rnd_count).
  - exact toy_evp_setup_law.
  - exact toy_evp_length_law.
  - exact toy_evp_inverse_law.
  - exact toy_stream_law.
  - exact toy_hmac_law.
  - repeat split; try reflexivity; try (cbv; lia).
    exists "aes-256-cfb"%string. eexists. repeat split; reflexivity.
  - cbv; lia.
  - split; [reflexivity | cbv; lia].
  - split; [reflexivity | cbv; lia].
  - split; [reflexivity | cbv; lia].
  - cbv; lia.
  - intros _. cbv; lia.
  - intros H. discriminate H.
Defined.

Lemma flagged_datagram_is_refused_witness :
  exists te' c td',
    ss_encrypt_all (B := Toy.backend) Samples.g_aes tmp_new
                   (holding 64 [17; 2; 3]%Z) AES_256_CFB 0 64 rnd_count
    = Ok (0%Z, Samples.g_aes, te', c)
    /\ ss_decrypt_all (B := Toy.backend) Samples.g_aes tmp_new c AES_256_CFB 0 64
       = Ok ((-1)%Z, Samples.g_aes, td', bfree c).
Proof.
  apply (@flagged_datagram_is_refused Toy.backend Samples.g_aes AES_256_CFB
           tmp_new tmp_new (holding 64 [17; 2; 3]%Z) 0 64 64 rnd_count).
  - exact toy_evp_setup_law.
  - exact toy_evp_length_law.
  - exact toy_evp_inverse_law.
  - exact toy_stream_law.
  - exact toy_hmac_law.
  - repeat split; try reflexivity; try (cbv; lia).
    exists "aes-256-cfb"%string. eexists. repeat split; reflexivity.
  - cbv; lia.
  - split; [reflexivity | cbv; lia].
  - split; [reflexivity | cbv; lia].
  - split; [reflexivity | cbv; lia].
  - cbv; lia.
  - vm_compute. discriminate.
  - left. cbv; lia.
Defined.

Lemma encrypt_all_overruns_its_buffer_witness :
  ss_encrypt_all (B := Toy.backend) Samples.g_aes tmp_new
                 (holding 20 [1; 2; 3]%Z) AES_256_CFB 1 20 rnd_count
  = Fault.
Proof.
  apply (@encrypt_all_overruns_its_buffer Toy.backend Samples.g_aes AES_256_CFB
           tmp_new (holding 20 [1; 2; 3]%Z) 1 20 rnd_count).
  - exact toy_evp_setup_law.
  - exact toy_evp_length_law.
  - exact toy_stream_law.
  - exact toy_hmac_law.
  - repeat split; try reflexivity; try (cbv; lia).
    exists "aes-256-cfb"%string. eexists. repeat split; reflexivity.
  - cbv; lia.
  - split; [reflexivity | cbv; lia].
  - split; [reflexivity | cbv; lia].
  - discriminate.
  - cbv; lia.
Defined.

(** *** Streams *)

Section Streams.
Context {B : Backend}.

(** What a call of [ss_encrypt] or [ss_decrypt] makes of [input] in a
    context that has its key and IV: the value [err] of the source, the
    bytes it leaves in the buffer and the context after the call.  The
    Salsa20 and ChaCha20 methods put [counter % 64] zero bytes before the
    input and drop as many bytes of what the library writes. *)
Definition stream_bytes (g : globals) (ctx : enc_ctx_t) (input : list Z)
  : Z * list Z * enc_ctx_t :=
  if (SALSA20 <=? g.(enc_method))%Z then
    let padding := Z.to_nat (ctx.(counter) mod SODIUM_BLOCK_SIZE) in
    (1%Z,
     skipn padding
       match crypto_stream_xor_ic (repeat 0%Z padding ++ input) ctx.(evp).(iv)
                                  (ctx.(counter) / SODIUM_BLOCK_SIZE)
                                  g.(enc_key) g.(enc_method) with
       | Some out => out
       | None => []
       end,
     {| init := ctx.(init);
        counter := ((ctx.(counter) + Z.of_nat (length input)) mod UINT64_MOD)%Z;
        evp := ctx.(evp) |})
  else
    let '(err, e, out) := EVP_CipherUpdate ctx.(evp).(evp_ctx) input in
    (err, out,
     {| init := ctx.(init); counter := ctx.(counter);
        evp := {| evp_ctx := e; iv := ctx.(evp).(iv) |} |}).

Lemma stream_bytes_length (g : globals) (ctx : enc_ctx_t) (input : list Z) :
  Laws.evp_length_law B -> Laws.stream_law B ->
  (g.(enc_method) < CIPHER_NUM)%Z ->
  length (snd (fst (stream_bytes g ctx input))) = length input.
Proof.
  intros Hlen Hstream Hm. unfold stream_bytes.
  destruct (Z.leb_spec SALSA20 (enc_method g)) as [Hs | Hs].
  - cbn [fst snd].
    set (pad := Z.to_nat _).
    destruct (stream_xor_some (repeat 0%Z pad ++ input) (iv (evp ctx))
                (counter ctx / SODIUM_BLOCK_SIZE) (enc_key g) (enc_method g)
                Hstream) as [out [Eo [Lo _]]]; [lia|].
    rewrite Eo, length_skipn, Lo, length_app, repeat_length. lia.
  - pose proof (Hlen (evp_ctx (evp ctx)) input) as Lo.
    destruct (EVP_CipherUpdate (evp_ctx (evp ctx)) input) as [[err x] out].
    exact Lo.
Qed.

(** the zero bytes put before the bytes of a buffer *)
Lemma pad_front (b : buffer_t) (pad cap : nat) :
  buffer_ok b -> 0 < pad ->
  exists a,
    (a1 <- Mem.memmove (array (brealloc b (len b + pad) cap)) pad
                       (array (brealloc b (len b + pad) cap)) 0 (len b) ;;
     Mem.memset a1 0 0 pad) = Ok a
    /\ length a = capacity (brealloc b (len b + pad) cap)
    /\ len b + pad <= length a
    /\ firstn (len b + pad) a = repeat 0%Z pad ++ contents b.
Proof.
  intros [Lb Bb] Hpad.
  destruct (brealloc_spec b (len b + pad) cap Lb)
    as [L1 [B1 [_ [B1' [E1 [_ F1]]]]]].
  set (b1 := brealloc b (len b + pad) cap) in *.
  unfold Mem.memmove, Mem.memset.
  destruct (MemFacts.memcpy_ex (array b1) pad (array b1) 0 (len b))
    as [a1 [Ea1 [La1 [_ [Ga1 _]]]]]; [lia | lia |].
  rewrite Ea1, bind_Ok.
  destruct (MemFacts.write_ex a1 0 (repeat 0%Z pad))
    as [a2 [Ea2 [La2 [Fa2 [_ [_ Sa2]]]]]].
  { rewrite repeat_length. lia. }
  rewrite repeat_length in *. rewrite Nat.add_0_l in *. cbn [firstn app] in Fa2.
  exists a2. split; [exact Ea2|]. split; [lia|]. split; [lia|].
  replace (len b + pad) with (pad + len b) by lia.
  rewrite firstn_plus, Fa2. f_equal.
  rewrite (Sa2 pad (Nat.le_refl _)), Ga1.
  change (skipn 0 (array b1)) with (array b1).
  rewrite F1 by lia. reflexivity.
Qed.

(** a later call of [ss_encrypt] on a context *)
Lemma ss_encrypt_later (g : globals) (plain : buffer_t) (ctx : enc_ctx_t)
      (cap : nat) :
  Laws.evp_length_law B -> Laws.stream_law B ->
  buffer_ok plain -> buffer_ok g.(tmp_encrypt) ->
  ctx.(init) <> 0%Z -> (g.(enc_method) < CIPHER_NUM)%Z ->
  let r := stream_bytes g ctx (contents plain) in
  exists te c,
    ss_encrypt g plain (Some ctx) cap
    = Ok (if (fst (fst r) =? 0)%Z then (-1)%Z else 0%Z,
          set_tmp_encrypt g te, c, Some (snd r))
    /\ buffer_ok te
    /\ (fst (fst r) <> 0%Z -> buffer_ok c /\ contents c = snd (fst r)).
Proof.
  intros Hlen Hstream Hp [Lt Bt] Hinit Hm r.
  pose proof Hp as [Lp Bp].
  pose proof (stream_bytes_length g ctx (contents plain) Hlen Hstream Hm) as Lr.
  fold r in Lr.
  assert (LP : length (contents plain) = len plain).
  { unfold contents. rewrite length_firstn. lia. }
  unfold ss_encrypt. apply Z.eqb_neq in Hinit. rewrite Hinit.
  cbv beta iota zeta. rewrite bind_Ok. cbv beta iota.
  rewrite !Nat.add_0_l.
  destruct (brealloc_spec (tmp_encrypt g) (len plain) cap Lt)
    as [Lc [Bc1 [_ [_ [_ [_ _]]]]]].
  set (c0 := brealloc (tmp_encrypt g) (len plain) cap) in *.
  cbn [len set_len array set_array].
  unfold r, stream_bytes in *.
  destruct (Z.leb_spec SALSA20 (enc_method g)) as [Hs | Hs].
  - cbn [fst snd] in *.
    set (pad := Z.to_nat (counter ctx mod SODIUM_BLOCK_SIZE)) in *.
    assert (Lc0 : length (array (set_len c0 (len plain)))
                  = capacity (set_len c0 (len plain))).
    { cbn [array capacity set_len]. lia. }
    destruct (brealloc_spec (set_len c0 (len plain)) ((pad + len plain) * 2) cap Lc0)
      as [Lc1 [Bc2 [_ [_ [Ec1 [_ _]]]]]].
    set (c1 := brealloc (set_len c0 (len plain)) ((pad + len plain) * 2) cap) in *.
    cbn [len set_len] in Ec1.
    destruct (stream_xor_some (repeat 0%Z pad ++ contents plain) (iv (evp ctx))
                (counter ctx / SODIUM_BLOCK_SIZE) (enc_key g) (enc_method g)
                Hstream) as [out [Eo [Lo _]]]; [lia|].
    rewrite Eo in *. rewrite length_app, repeat_length, LP in Lo.
    assert (Hpad : exists p1,
      (if pad =? 0 then Ok plain
       else a <- Mem.memmove (array (brealloc plain (len plain + pad) cap)) pad
                             (array (brealloc plain (len plain + pad) cap)) 0
                             (len (brealloc plain (len plain + pad) cap)) ;;
            a0 <- Mem.memset a 0 0 pad ;;
            Ok (set_array (brealloc plain (len plain + pad) cap) a0))
      = Ok p1
      /\ len p1 = len plain /\ length (array p1) = capacity p1
      /\ len plain + pad <= length (array p1)
      /\ firstn (len plain + pad) (array p1) = repeat 0%Z pad ++ contents plain).
    { destruct (Nat.eqb_spec pad 0) as [E0 | N0].
      - exists plain. rewrite E0, Nat.add_0_r. repeat split; try lia.
      - destruct (pad_front plain pad cap Hp ltac:(lia)) as [a [Ea [La [Ba Fa]]]].
        destruct (brealloc_spec plain (len plain + pad) cap Lp)
          as [_ [_ [_ [_ [E1 _]]]]].
        rewrite E1. unfold bind in *.
        destruct (Mem.memmove _ pad _ 0 (len plain)) as [a1| |];
          [|discriminate|discriminate].
        rewrite Ea. eexists. split; [reflexivity|].
        cbn [len array capacity set_array]. repeat split; try lia. exact Fa. }
    destruct Hpad as [p1 [Ep1 [Ln1 [Lp1 [Bp1 Fp1]]]]].
    rewrite Ep1, bind_Ok.
    rewrite MemFacts.read_ok by lia. rewrite bind_Ok.
    change (skipn 0 (array p1)) with (array p1). rewrite Ln1, Fp1, Eo.
    cbn [write_opt].
    destruct (MemFacts.write_ex (array c1) 0 out) as [a2 [E2 [L2 [F2 _]]]]; [lia|].
    rewrite E2, bind_Ok. rewrite Nat.add_0_l in F2. cbn [firstn app] in F2.
    assert (Hback : exists a3,
      (if pad =? 0 then Ok a2 else Mem.memmove a2 0 a2 pad (len c1)) = Ok a3
      /\ length a3 = length a2
      /\ firstn (len plain) a3 = skipn pad out).
    { rewrite Ec1. destruct (Nat.eqb_spec pad 0) as [E0 | N0].
      - exists a2. split; [reflexivity|]. split; [reflexivity|].
        rewrite E0. cbn [skipn].
        replace (len plain) with (length out) by lia. exact F2.
      - destruct (MemFacts.memcpy_ex a2 0 a2 pad (len plain))
          as [a3 [E3 [L3 [F3 _]]]]; [lia | lia |].
        exists a3. split; [exact E3|]. split; [exact L3|].
        rewrite Nat.add_0_l in F3. cbn [firstn app] in F3. rewrite F3.
        rewrite (prefix_window a2 out (length out) pad (len plain)).
        + apply firstn_all2. rewrite length_skipn. lia.
        + rewrite F2. symmetry. apply firstn_all.
        + lia. }
    destruct Hback as [a3 [E3 [L3 F3]]].
    rewrite E3, !bind_Ok. cbv beta iota.
    change (1 =? 0)%Z with false. cbv iota.
    cbn [len set_array array]. rewrite Ec1, !Nat.add_0_l.
    destruct (brealloc_spec p1 (len plain) cap Lp1)
      as [Lp2 [Bp2 [_ [_ [_ [_ _]]]]]].
    set (p2 := brealloc p1 (len plain) cap) in *.
    destruct (MemFacts.memcpy_ex (array p2) 0 a3 0 (len plain))
      as [a4 [E4 [L4 [F4 _]]]]; [lia | lia |].
    rewrite E4, bind_Ok. rewrite LP.
    eexists. eexists. split; [reflexivity|].
    split.
    { split; cbn [array capacity len set_array]; lia. }
    intros _. split.
    { split; cbn [array capacity len set_array set_len]; lia. }
    unfold contents at 1. cbn [array len set_array set_len].
    rewrite Nat.add_0_l in F4. cbn [firstn app skipn] in F4.
    rewrite F4. exact F3.
  - rewrite MemFacts.read_ok by lia. rewrite bind_Ok.
    change (firstn (len plain) (skipn 0 (array plain))) with (contents plain).
    destruct (EVP_CipherUpdate (evp_ctx (evp ctx)) (contents plain))
      as [[err x] out].
    cbn [fst snd] in *.
    destruct (MemFacts.write_ex (array c0) 0 out) as [a2 [E2 [L2 [F2 _]]]].
    { lia. }
    rewrite E2, !bind_Ok. cbv beta iota.
    rewrite Nat.add_0_l in F2. cbn [firstn app] in F2.
    destruct (Z.eqb_spec err 0) as [E | N].
    + eexists. eexists. split; [reflexivity|].
      split; [|intros C; contradiction].
      split; cbn [array capacity len set_array set_len]; lia.
    + cbn [len set_array set_len array]. rewrite !Nat.add_0_l.
      destruct (brealloc_spec plain (length out) cap Lp)
        as [Lp1 [Bp1 [_ [_ [_ [_ _]]]]]].
      set (p1 := brealloc plain (length out) cap) in *.
      destruct (MemFacts.memcpy_ex (array p1) 0 a2 0 (length out))
        as [a3 [E3 [L3 [F3 _]]]]; [lia | lia |].
      rewrite E3, bind_Ok.
      eexists. eexists. split; [reflexivity|].
      split.
      { split; cbn [array capacity len set_array set_len]; lia. }
      intros _. split.
      { split; cbn [array capacity len set_array set_len]; lia. }
      unfold contents at 1. cbn [array len set_array set_len].
      rewrite Nat.add_0_l in F3. cbn [firstn app skipn] in F3.
      rewrite F3. exact F2.
Qed.

(** a later call of [ss_decrypt] on a context *)
Lemma ss_decrypt_later (g : globals) (cipher : buffer_t) (ctx : enc_ctx_t)
      (cap : nat) :
  Laws.evp_length_law B -> Laws.stream_law B ->
  buffer_ok cipher -> buffer_ok g.(tmp_decrypt) ->
  ctx.(init) <> 0%Z -> (g.(enc_method) < CIPHER_NUM)%Z ->
  let r := stream_bytes g ctx (contents cipher) in
  exists td p,
    ss_decrypt g cipher (Some ctx) cap
    = Ok (if (fst (fst r) =? 0)%Z then (-1)%Z else 0%Z,
          set_tmp_decrypt g td, p, Some (snd r))
    /\ buffer_ok td
    /\ (fst (fst r) <> 0%Z -> buffer_ok p /\ contents p = snd (fst r)).
Proof.
  intros Hlen Hstream Hc [Lt Bt] Hinit Hm r.
  pose proof Hc as [Lc Bc].
  pose proof (stream_bytes_length g ctx (contents cipher) Hlen Hstream Hm) as Lr.
  fold r in Lr.
  assert (LC : length (contents cipher) = len cipher).
  { unfold contents. rewrite length_firstn. lia. }
  unfold ss_decrypt. apply Z.eqb_neq in Hinit. rewrite Hinit.
  cbv beta iota zeta. rewrite bind_Ok. cbv beta iota.
  rewrite !Nat.add_0_l, !Nat.sub_0_r.
  destruct (brealloc_spec (tmp_decrypt g) (len cipher) cap Lt)
    as [Lp [Bp1 [_ [_ [_ [_ _]]]]]].
  set (p0 := brealloc (tmp_decrypt g) (len cipher) cap) in *.
  cbn [len set_len array set_array].
  unfold r, stream_bytes in *.
  destruct (Z.leb_spec SALSA20 (enc_method g)) as [Hs | Hs].
  - cbn [fst snd] in *.
    set (pad := Z.to_nat (counter ctx mod SODIUM_BLOCK_SIZE)) in *.
    assert (Lp0 : length (array (set_len p0 (len cipher)))
                  = capacity (set_len p0 (len cipher))).
    { cbn [array capacity set_len]. lia. }
    destruct (brealloc_spec (set_len p0 (len cipher)) ((len cipher + pad) * 2) cap Lp0)
      as [Lp1 [Bp2 [_ [_ [Ep1 [_ _]]]]]].
    set (p1 := brealloc (set_len p0 (len cipher)) ((len cipher + pad) * 2) cap) in *.
    cbn [len set_len] in Ep1.
    destruct (stream_xor_some (repeat 0%Z pad ++ contents cipher) (iv (evp ctx))
                (counter ctx / SODIUM_BLOCK_SIZE) (enc_key g) (enc_method g)
                Hstream) as [out [Eo [Lo _]]]; [lia|].
    rewrite Eo in *. rewrite length_app, repeat_length, LC in Lo.
    assert (Hpad : exists c1,
      (if pad =? 0 then Ok cipher
       else a <- Mem.memmove (array (brealloc cipher (len cipher + pad) cap)) pad
                             (array (brealloc cipher (len cipher + pad) cap)) 0
                             (len (brealloc cipher (len cipher + pad) cap)) ;;
            a0 <- Mem.memset a 0 0 pad ;;
            Ok (set_array (brealloc cipher (len cipher + pad) cap) a0))
      = Ok c1
      /\ len c1 = len cipher /\ length (array c1) = capacity c1
      /\ len cipher + pad <= length (array c1)
      /\ firstn (len cipher + pad) (array c1) = repeat 0%Z pad ++ contents cipher).
    { destruct (Nat.eqb_spec pad 0) as [E0 | N0].
      - exists cipher. rewrite E0, Nat.add_0_r. repeat split; try lia.
      - destruct (pad_front cipher pad cap Hc ltac:(lia)) as [a [Ea [La [Ba Fa]]]].
        destruct (brealloc_spec cipher (len cipher + pad) cap Lc)
          as [_ [_ [_ [_ [E1 _]]]]].
        rewrite E1. unfold bind in *.
        destruct (Mem.memmove _ pad _ 0 (len cipher)) as [a1| |];
          [|discriminate|discriminate].
        rewrite Ea. eexists. split; [reflexivity|].
        cbn [len array capacity set_array]. repeat split; try lia. exact Fa. }
    destruct Hpad as [c1 [Ec1 [Ln1 [Lc1 [Bc1 Fc1]]]]].
    rewrite Ec1, bind_Ok. rewrite !Nat.sub_0_r.
    rewrite MemFacts.read_ok by lia. rewrite bind_Ok.
    change (skipn 0 (array c1)) with (array c1). rewrite Ln1, Fc1, Eo.
    cbn [write_opt].
    destruct (MemFacts.write_ex (array p1) 0 out) as [a2 [E2 [L2 [F2 _]]]]; [lia|].
    rewrite E2, bind_Ok. rewrite Nat.add_0_l in F2. cbn [firstn app] in F2.
    assert (Hback : exists a3,
      (if pad =? 0 then Ok a2 else Mem.memmove a2 0 a2 pad (len p1)) = Ok a3
      /\ length a3 = length a2
      /\ firstn (len cipher) a3 = skipn pad out).
    { rewrite Ep1. destruct (Nat.eqb_spec pad 0) as [E0 | N0].
      - exists a2. split; [reflexivity|]. split; [reflexivity|].
        rewrite E0. cbn [skipn].
        replace (len cipher) with (length out) by lia. exact F2.
      - destruct (MemFacts.memcpy_ex a2 0 a2 pad (len cipher))
          as [a3 [E3 [L3 [F3 _]]]]; [lia | lia |].
        exists a3. split; [exact E3|]. split; [exact L3|].
        rewrite Nat.add_0_l in F3. cbn [firstn app] in F3. rewrite F3.
        rewrite (prefix_window a2 out (length out) pad (len cipher)).
        + apply firstn_all2. rewrite length_skipn. lia.
        + rewrite F2. symmetry. apply firstn_all.
        + lia. }
    destruct Hback as [a3 [E3 [L3 F3]]].
    rewrite E3, !bind_Ok. cbv beta iota.
    change (1 =? 0)%Z with false. cbv iota.
    cbn [len set_array array]. rewrite Ep1.
    destruct (brealloc_spec c1 (len cipher) cap Lc1)
      as [Lc2 [Bc2 [_ [_ [_ [_ _]]]]]].
    set (c2 := brealloc c1 (len cipher) cap) in *.
    destruct (MemFacts.memcpy_ex (array c2) 0 a3 0 (len cipher))
      as [a4 [E4 [L4 [F4 _]]]]; [lia | lia |].
    rewrite E4, bind_Ok. rewrite LC.
    eexists. eexists. split; [reflexivity|].
    split.
    { split; cbn [array capacity len set_array]; lia. }
    intros _. split.
    { split; cbn [array capacity len set_array set_len]; lia. }
    unfold contents at 1. cbn [array len set_array set_len].
    rewrite Nat.add_0_l in F4. cbn [firstn app skipn] in F4.
    rewrite F4. exact F3.
  - rewrite MemFacts.read_ok by lia. rewrite bind_Ok.
    change (firstn (len cipher) (skipn 0 (array cipher))) with (contents cipher).
    destruct (EVP_CipherUpdate (evp_ctx (evp ctx)) (contents cipher))
      as [[err x] out].
    cbn [fst snd] in *.
    destruct (MemFacts.write_ex (array p0) 0 out) as [a2 [E2 [L2 [F2 _]]]].
    { lia. }
    rewrite E2, !bind_Ok. cbv beta iota.
    rewrite Nat.add_0_l in F2. cbn [firstn app] in F2.
    destruct (Z.eqb_spec err 0) as [E | N].
    + eexists. eexists. split; [reflexivity|].
      split; [|intros C; contradiction].
      split; cbn [array capacity len set_array set_len]; lia.
    + cbn [len set_array set_len array].
      destruct (brealloc_spec cipher (length out) cap Lc)
        as [Lc1 [Bc1 [_ [_ [_ [_ _]]]]]].
      set (c1 := brealloc cipher (length out) cap) in *.
      destruct (MemFacts.memcpy_ex (array c1) 0 a2 0 (length out))
        as [a3 [E3 [L3 [F3 _]]]]; [lia | lia |].
      rewrite E3, bind_Ok.
      eexists. eexists. split; [reflexivity|].
      split.
      { split; cbn [array capacity len set_array set_len]; lia. }
      intros _. split.
      { split; cbn [array capacity len set_array set_len]; lia. }
      unfold contents at 1. cbn [array len set_array set_len].
      rewrite Nat.add_0_l in F3. cbn [firstn app skipn] in F3.
      rewrite F3. exact F2.
Qed.

(** the first call of [ss_encrypt] on a context, with the context it
    leaves *)
Lemma ss_encrypt_first_ctx (g : globals) (plain : buffer_t) (ctx : enc_ctx_t)
      (cap : nat) (e : cipher_ctx_t) :
  Laws.evp_length_law B -> Laws.stream_law B ->
  buffer_ok plain -> buffer_ok g.(tmp_encrypt) ->
  ctx.(init) = 0%Z -> (g.(enc_method) < CIPHER_NUM)%Z ->
  cipher_context_set_iv g ctx.(evp) ctx.(evp).(iv) g.(enc_iv_len) 1 = Ok e ->
  g.(enc_iv_len) <= length e.(iv) ->
  let r := stream_bytes g {| init := 1; counter := 0; evp := e |}
                        (contents plain) in
  exists te c,
    ss_encrypt g plain (Some ctx) cap
    = Ok (if (fst (fst r) =? 0)%Z then (-1)%Z else 0%Z,
          set_tmp_encrypt g te, c, Some (snd r))
    /\ buffer_ok te
    /\ (fst (fst r) <> 0%Z ->
        buffer_ok c
        /\ contents c = firstn g.(enc_iv_len) e.(iv) ++ snd (fst r)).
Proof.
  intros Hlen Hstream [Lp Bp] [Lt Bt] Hinit Hm Hset Hiv r.
  unfold ss_encrypt. rewrite Hinit.
  change (0 =? 0)%Z with true. cbv beta iota zeta.
  rewrite Hset, bind_Ok.
  destruct (brealloc_spec (tmp_encrypt g) (enc_iv_len g + len plain) cap Lt)
    as [Lc [Bc1 [Bc2 [_ [_ [_ _]]]]]].
  set (c0 := brealloc (tmp_encrypt g) (enc_iv_len g + len plain) cap) in *.
  cbn [len set_len array set_array].
  destruct (MemFacts.memcpy_ex (array c0) 0 (iv e) 0 (enc_iv_len g))
    as [a1 [E1 [L1 [F1 _]]]]; [lia | lia |].
  rewrite E1, !bind_Ok. cbv beta iota.
  simpl in F1.
  cbn [counter init evp len set_len array set_array].
  assert (LP : length (contents plain) = len plain).
  { unfold contents. rewrite length_firstn. lia. }
  unfold r, stream_bytes. cbn [counter init evp]. rewrite LP.
  change (Z.to_nat (0 mod SODIUM_BLOCK_SIZE)) with 0.
  change (0 / SODIUM_BLOCK_SIZE)%Z with 0%Z.
  cbn [repeat app skipn].
  destruct (SALSA20 <=? enc_method g)%Z eqn:Efam.
  - change (0 =? 0) with true. cbv beta iota.
    change (0 + len plain) with (len plain).
    rewrite bind_Ok. rewrite Nat.add_0_r.
    rewrite MemFacts.read_ok by lia. rewrite bind_Ok.
    change (firstn (len plain) (skipn 0 (array plain))) with (contents plain).
    destruct (stream_xor_some (contents plain) (iv e) 0 (enc_key g)
                (enc_method g) Hstream) as [out [Eo [Lo _]]].
    { apply Z.leb_le in Efam. lia. }
    rewrite Eo. cbn [write_opt fst snd].
    assert (Lc0 : length (array (set_array (set_len c0 (len plain)) a1))
                  = capacity (set_array (set_len c0 (len plain)) a1)).
    { cbn [array capacity set_array set_len]. lia. }
    destruct (brealloc_spec (set_array (set_len c0 (len plain)) a1)
                (enc_iv_len g + len plain * 2) cap Lc0)
      as [Lc1 [Bc3 [_ [Bc4 [Ec1 [_ Fc1]]]]]].
    set (c1 := brealloc _ (enc_iv_len g + len plain * 2) cap) in *.
    cbn [len capacity array set_array set_len] in Ec1, Fc1, Bc4.
    destruct (MemFacts.write_ex (array c1) (enc_iv_len g) out)
      as [a2 [E2 [L2 [F2 _]]]]; [lia|].
    rewrite E2, !bind_Ok. cbv beta iota.
    change (1 =? 0)%Z with false. cbv iota.
    cbn [len set_array array]. rewrite Ec1.
    destruct (brealloc_spec plain (enc_iv_len g + len plain) cap Lp)
      as [Lp1 [Bp1 [_ [_ [_ [_ _]]]]]].
    set (p1 := brealloc plain (enc_iv_len g + len plain) cap) in *.
    destruct (MemFacts.memcpy_ex (array p1) 0 a2 0 (enc_iv_len g + len plain))
      as [a3 [E3 [L3 [F3 _]]]]; [lia | lia |].
    rewrite E3, bind_Ok.
    eexists. eexists. split; [reflexivity|].
    split.
    { split; cbn [array capacity len set_array]; lia. }
    intros _. split.
    { split; cbn [array capacity len set_array set_len]; lia. }
    unfold contents at 1. cbn [array len set_array set_len].
    simpl in F3. rewrite F3.
    replace (enc_iv_len g + len plain) with (enc_iv_len g + length out) by lia.
    rewrite F2. f_equal.
    rewrite Fc1 by lia. exact F1.
  - rewrite MemFacts.read_ok by lia. rewrite bind_Ok.
    change (firstn (len plain) (skipn 0 (array plain))) with (contents plain).
    pose proof (Hlen (evp_ctx e) (contents plain)) as Lo.
    destruct (EVP_CipherUpdate (evp_ctx e) (contents plain)) as [[err x] out].
    cbn [fst snd] in *.
    destruct (MemFacts.write_ex a1 (enc_iv_len g) out) as [a2 [E2 [L2 [F2 _]]]].
    { lia. }
    rewrite E2, !bind_Ok. cbv beta iota.
    destruct (Z.eqb_spec err 0) as [E | N].
    + eexists. eexists. split; [reflexivity|].
      split; [|intros C; contradiction].
      split; cbn [array capacity len set_array set_len]; lia.
    + cbn [len set_array set_len array].
      destruct (brealloc_spec plain (enc_iv_len g + length out) cap Lp)
        as [Lp1 [Bp1 [_ [_ [_ [_ _]]]]]].
      set (p1 := brealloc plain (enc_iv_len g + length out) cap) in *.
      destruct (MemFacts.memcpy_ex (array p1) 0 a2 0 (enc_iv_len g + length out))
        as [a3 [E3 [L3 [F3 _]]]]; [lia | lia |].
      rewrite E3, bind_Ok.
      eexists. eexists. split; [reflexivity|].
      split.
      { split; cbn [array capacity len set_array set_len]; lia. }
      intros _. split.
      { split; cbn [array capacity len set_array set_len]; lia. }
      unfold contents at 1. cbn [array len set_array set_len].
      simpl in F3. rewrite F3, F2. f_equal. exact F1.
Qed.

(** the first call of [ss_decrypt] on a context, with the context it
    leaves *)
Lemma ss_decrypt_first_ctx (g g1 : globals) (cipher : buffer_t) (ctx : enc_ctx_t)
      (cap : nat) (e : cipher_ctx_t) :
  Laws.evp_length_law B -> Laws.stream_law B ->
  buffer_ok cipher -> buffer_ok g.(tmp_decrypt) ->
  ctx.(init) = 0%Z -> (g.(enc_method) < CIPHER_NUM)%Z ->
  g.(enc_iv_len) <= MAX_IV_LENGTH -> g.(enc_iv_len) <= cipher.(len) ->
  cipher_context_set_iv g ctx.(evp) (iv_local_of g cipher) g.(enc_iv_len) 0 = Ok e ->
  admits g (firstn g.(enc_iv_len) cipher.(array)) g1 ->
  let body := firstn (cipher.(len) - g.(enc_iv_len))
                     (skipn g.(enc_iv_len) cipher.(array)) in
  let r := stream_bytes g {| init := 1; counter := 0; evp := e |} body in
  exists td p,
    ss_decrypt g cipher (Some ctx) cap
    = Ok (if (fst (fst r) =? 0)%Z then (-1)%Z else 0%Z,
          set_tmp_decrypt g1 td, p, Some (snd r))
    /\ buffer_ok td
    /\ (fst (fst r) <> 0%Z -> buffer_ok p /\ contents p = snd (fst r)).
Proof.
  intros Hlen Hstream [Lc Bc] [Lt Bt] Hinit Hm Hiv Hivc Hset Hadm body r.
  unfold ss_decrypt. rewrite Hinit.
  change (0 =? 0)%Z with true. cbv beta iota zeta.
  destruct (Nat.ltb_spec (len cipher) (enc_iv_len g)) as [Hlt|_]; [lia|].
  rewrite MemFacts.memcpy_ok.
  2:{ simpl. lia. }
  2:{ rewrite repeat_length. simpl. lia. }
  rewrite bind_Ok.
  change (firstn 0 (repeat 0%Z MAX_IV_LENGTH) ++
          firstn (enc_iv_len g) (skipn 0 (array cipher)) ++
          skipn (0 + enc_iv_len g) (repeat 0%Z MAX_IV_LENGTH))
    with (iv_local_of g cipher).
  rewrite Hset, bind_Ok.
  destruct (brealloc_spec (tmp_decrypt g) (len cipher) cap Lt)
    as [Lp [Bp1 [Bp2 [_ [_ [_ _]]]]]].
  set (p0 := brealloc (tmp_decrypt g) (len cipher) cap) in *.
  cbn [len set_len].
  match goal with
  | |- context [bind ?m _] =>
      assert (E0 : m = Ok (false, enc_iv_len g, g1,
                           {| init := 1; counter := 0; evp := e |},
                           set_len (set_len p0 (len cipher))
                                   (len cipher - enc_iv_len g)))
  end.
  { unfold admits in Hadm.
    destruct (RC4_MD5 <=? enc_method g)%Z.
    - destruct Hadm as [c [Ec [Ek ->]]]. rewrite Ec.
      rewrite MemFacts.read_ok.
      2:{ unfold iv_local_of. rewrite length_app, length_firstn, length_skipn,
            repeat_length. lia. }
      rewrite bind_Ok.
      rewrite (iv_local_key g cipher) by lia.
      rewrite Ek. reflexivity.
    - subst g1. reflexivity. }
  rewrite E0, bind_Ok. clear E0. cbv beta iota.
  assert (Eg : enc_method g1 = enc_method g /\ enc_key g1 = enc_key g).
  { unfold admits in Hadm. destruct (RC4_MD5 <=? enc_method g)%Z.
    - destruct Hadm as [c [_ [_ ->]]]. split; reflexivity.
    - subst g1. split; reflexivity. }
  destruct Eg as [Eg1 Eg2]. rewrite Eg1, Eg2.
  cbn [counter init evp len set_len array set_array].
  assert (Lbody0 : length body = len cipher - enc_iv_len g).
  { unfold body. rewrite length_firstn, length_skipn. lia. }
  unfold r, stream_bytes. cbn [counter init evp]. rewrite Lbody0.
  change (Z.to_nat (0 mod SODIUM_BLOCK_SIZE)) with 0.
  change (0 / SODIUM_BLOCK_SIZE)%Z with 0%Z.
  cbn [repeat app skipn].
  destruct (SALSA20 <=? enc_method g)%Z eqn:Efam.
  - change (0 =? 0) with true. cbv beta iota.
    rewrite !Nat.add_0_r. rewrite bind_Ok. rewrite !Nat.add_0_r.
    rewrite MemFacts.read_ok by lia. rewrite bind_Ok. fold body.
    destruct (stream_xor_some body (iv e) 0 (enc_key g) (enc_method g) Hstream)
      as [out [Eo [Lo _]]].
    { apply Z.leb_le in Efam. lia. }
    rewrite Eo. cbn [write_opt fst snd].
    assert (Lbody : length body = len cipher - enc_iv_len g).
    { unfold body. rewrite length_firstn, length_skipn. lia. }
    destruct (brealloc_spec
                (set_len (set_len p0 (len cipher)) (len cipher - enc_iv_len g))
                ((len cipher - enc_iv_len g) * 2) cap Lp)
      as [Lp1 [Bp3 [_ [_ [Ep1 [_ _]]]]]].
    set (p1 := brealloc _ ((len cipher - enc_iv_len g) * 2) cap) in *.
    cbn [len set_len] in Ep1.
    destruct (MemFacts.write_ex (array p1) 0 out) as [a1 [E1 [L1 [F1 _]]]].
    { lia. }
    rewrite E1, !bind_Ok. cbv beta iota.
    change (1 =? 0)%Z with false. cbv iota.
    cbn [len set_array array]. rewrite Ep1.
    destruct (brealloc_spec cipher (len cipher - enc_iv_len g) cap Lc)
      as [Lc1 [Bc1 [_ [_ [_ [_ _]]]]]].
    set (c1 := brealloc cipher (len cipher - enc_iv_len g) cap) in *.
    destruct (MemFacts.memcpy_ex (array c1) 0 a1 0 (len cipher - enc_iv_len g))
      as [a2 [E2 [L2 [F2 _]]]]; [lia | lia |].
    rewrite E2, bind_Ok.
    eexists. eexists. split; [reflexivity|].
    split.
    { split; cbn [array capacity len set_array]; lia. }
    intros _. split.
    { split; cbn [array capacity len set_array set_len]; lia. }
    unfold contents. cbn [array len set_array set_len].
    simpl in F2. rewrite F2. simpl in F1.
    replace (len cipher - enc_iv_len g) with (length out) by lia. exact F1.
  - rewrite MemFacts.read_ok by lia. rewrite bind_Ok. fold body.
    assert (Lbody : length body = len cipher - enc_iv_len g).
    { unfold body. rewrite length_firstn, length_skipn. lia. }
    pose proof (Hlen (evp_ctx e) body) as Lo.
    destruct (EVP_CipherUpdate (evp_ctx e) body) as [[err x] out].
    cbn [fst snd] in *.
    destruct (MemFacts.write_ex (array p0) 0 out) as [a1 [E1 [L1 [F1 _]]]].
    { lia. }
    rewrite E1, !bind_Ok. cbv beta iota.
    destruct (Z.eqb_spec err 0) as [E | N].
    + eexists. eexists. split; [reflexivity|].
      split; [|intros C; contradiction].
      split; cbn [array capacity len set_array set_len]; lia.
    + cbn [len set_array set_len array].
      destruct (brealloc_spec cipher (length out) cap Lc)
        as [Lc1 [Bc1 [_ [_ [_ [_ _]]]]]].
      set (c1 := brealloc cipher (length out) cap) in *.
      destruct (MemFacts.memcpy_ex (array c1) 0 a1 0 (length out))
        as [a2 [E2 [L2 [F2 _]]]]; [lia | lia |].
      rewrite E2, bind_Ok.
      eexists. eexists. split; [reflexivity|].
      split.
      { split; cbn [array capacity len set_array set_len]; lia. }
      intros _. split.
      { split; cbn [array capacity len set_array set_len]; lia. }
      unfold contents. cbn [array len set_array set_len].
      simpl in F2. rewrite F2. simpl in F1. exact F1.
Qed.

Lemma xor_pad (f : list Z -> list Z -> Z -> list Z -> list Z)
      (pad : nat) (P n : list Z) (ic : Z) (k : list Z) :
  Laws.xor_stream f -> Laws.suffix_stream f ->
  skipn pad (f (repeat 0%Z pad ++ skipn pad (f (repeat 0%Z pad ++ P) n ic k))
               n ic k)
  = P.
Proof.
  intros Hx Hs.
  set (F := f (repeat 0%Z pad ++ P) n ic k).
  destruct (Hx (repeat 0%Z pad ++ P) n ic k) as [LF IF]. fold F in LF, IF.
  rewrite length_app, repeat_length in LF.
  assert (Lk : length (firstn pad F) = pad) by (rewrite length_firstn; lia).
  pose proof (Hs (repeat 0%Z pad) (firstn pad F) (skipn pad F) n ic k) as E.
  rewrite repeat_length, Lk in E. specialize (E eq_refl).
  rewrite E, firstn_skipn, IF.
  rewrite skipn_app, repeat_length, Nat.sub_diag.
  rewrite skipn_all2 by (rewrite repeat_length; lia). reflexivity.
Qed.

Lemma stream_xor_pad (m : Z) (pad : nat) (P n : list Z) (ic : Z) (k : list Z) :
  Laws.stream_law B -> Laws.stream_suffix_law B ->
  (SALSA20 <= m < CIPHER_NUM)%Z ->
  exists out out',
    crypto_stream_xor_ic (repeat 0%Z pad ++ P) n ic k m = Some out
    /\ crypto_stream_xor_ic (repeat 0%Z pad ++ skipn pad out) n ic k m = Some out'
    /\ skipn pad out' = P.
Proof.
  intros [H1 [H2 H3]] [S1 [S2 S3]] Hm. unfold crypto_stream_xor_ic.
  unfold SALSA20, CHACHA20, CHACHA20IETF, CIPHER_NUM in *.
  destruct (Z.eqb_spec m 15) as [E | N1].
  { eexists. eexists. split; [reflexivity|]. split; [reflexivity|].
    now apply xor_pad. }
  destruct (Z.eqb_spec m 16) as [E | N2].
  { eexists. eexists. split; [reflexivity|]. split; [reflexivity|].
    now apply xor_pad. }
  destruct (Z.eqb_spec m 17) as [E | N3]; [|lia].
  eexists. eexists. split; [reflexivity|]. split; [reflexivity|].
  now apply xor_pad.
Qed.

(** The contexts of the two ends of a connection are in step: both have
    their key and IV, and the decrypting one has been given what the
    encrypting one wrote. *)
Definition in_step (m : Z) (e d : enc_ctx_t) : Prop :=
  e.(init) <> 0%Z /\ d.(init) <> 0%Z
  /\ if (SALSA20 <=? m)%Z
     then e.(counter) = d.(counter) /\ e.(evp).(iv) = d.(evp).(iv)
     else Laws.evp_in_step B e.(evp).(evp_ctx) d.(evp).(evp_ctx).

(** one buffer through contexts in step *)
Lemma stream_step (gs gr : globals) (m : Z) (e d : enc_ctx_t) (P : list Z) :
  Laws.evp_length_law B -> Laws.stream_law B ->
  Laws.evp_stream_law B -> Laws.stream_suffix_law B ->
  (TABLE < m < CIPHER_NUM)%Z ->
  gs.(enc_method) = m -> gr.(enc_method) = m -> gs.(enc_key) = gr.(enc_key) ->
  in_step m e d ->
  let r := stream_bytes gs e P in
  let r' := stream_bytes gr d (snd (fst r)) in
  fst (fst r) = 1%Z /\ fst (fst r') = 1%Z /\ snd (fst r') = P
  /\ length (snd (fst r)) = length P
  /\ in_step m (snd r) (snd r').
Proof.
  intros Hlen Hstream Hevp Hsuf Hm Es Er Ek [Ie [Id Hin]] r r'.
  assert (Lr : length (snd (fst r)) = length P).
  { apply stream_bytes_length; [assumption | assumption | lia]. }
  unfold r', r, stream_bytes in *. rewrite Es, Er, <- Ek in *.
  destruct (Z.leb_spec SALSA20 m) as [Hs | Hs].
  - destruct Hin as [Ec Eiv]. cbn [fst snd] in *. rewrite <- Ec, <- Eiv.
    set (pad := Z.to_nat (counter e mod SODIUM_BLOCK_SIZE)) in *.
    destruct (stream_xor_pad m pad P (iv (evp e)) (counter e / SODIUM_BLOCK_SIZE)
                (enc_key gs) Hstream Hsuf) as [out [out' [E1 [E2 E3]]]]; [lia|].
    rewrite E1 in *. rewrite E2.
    split; [reflexivity|]. split; [reflexivity|]. split; [exact E3|].
    split; [exact Lr|].
    unfold in_step. cbn [init counter evp].
    destruct (Z.leb_spec SALSA20 m) as [_ | H]; [|lia].
    repeat split; try assumption. rewrite Lr. reflexivity.
  - pose proof (Hevp (evp_ctx (evp e)) (evp_ctx (evp d)) P Hin) as L.
    cbv zeta in L.
    pose proof (Laws.in_step_update B _ _ P Hin) as Hnext.
    destruct (EVP_CipherUpdate (evp_ctx (evp e)) P) as [[err x] out].
    cbn [fst snd] in *.
    destruct (EVP_CipherUpdate (evp_ctx (evp d)) out) as [[err' x'] out'].
    cbn [fst snd] in *.
    destruct L as [L1 [L2 L3]].
    repeat split; try assumption.
    unfold in_step. cbn [init counter evp evp_ctx].
    destruct (Z.leb_spec SALSA20 m) as [H | _]; [lia|].
    repeat split; assumption.
Qed.

(** the contexts of the two ends when their first calls have set the key
    and the IV *)
Lemma keyed_in_step (gs gr : globals) (m : Z) (IV : list Z) :
  keyed m gs -> keyed m gr -> gs.(enc_key) = gr.(enc_key) ->
  in_step m {| init := 1; counter := 0;
               evp := {| evp_ctx := keyed_evp gs IV 1; iv := IV |} |}
            {| init := 1; counter := 0;
               evp := {| evp_ctx := keyed_evp gr IV 0; iv := IV |} |}.
Proof.
  intros [Hm [Es [_ [_ Hfs]]]] [_ [Er [_ [_ Hfr]]]] Ek.
  unfold in_step. cbn [init counter evp evp_ctx iv].
  split; [discriminate|]. split; [discriminate|].
  destruct (Z.leb_spec SALSA20 m) as [Hs | Hs]; [split; reflexivity|].
  destruct Hfs as [name [cipher [En [Eg _]]]].
  unfold keyed_evp, true_key. rewrite Es, Er, <- Ek.
  destruct (Z.leb_spec SALSA20 m) as [H | _]; [lia|].
  rewrite Eg. apply (Laws.in_step_keyed B name). exact En.
Qed.

(** Successive calls of [ss_encrypt] on the buffers [bufs] with one
    context, as the relay makes them: the state and the context after the
    last call, and what each call returned. *)
Fixpoint encrypt_calls (g : globals) (ctx : option enc_ctx_t) (cap : nat)
         (bufs : list buffer_t)
  : result (globals * option enc_ctx_t * list (Z * buffer_t)) :=
  match bufs with
  | [] => Ok (g, ctx, [])
  | b :: rest =>
      '(r, g, c, ctx) <- ss_encrypt g b ctx cap ;;
      '(g, ctx, outs) <- encrypt_calls g ctx cap rest ;;
      Ok (g, ctx, (r, c) :: outs)
  end.

Fixpoint decrypt_calls (g : globals) (ctx : option enc_ctx_t) (cap : nat)
         (bufs : list buffer_t)
  : result (globals * option enc_ctx_t * list (Z * buffer_t)) :=
  match bufs with
  | [] => Ok (g, ctx, [])
  | b :: rest =>
      '(r, g, p, ctx) <- ss_decrypt g b ctx cap ;;
      '(g, ctx, outs) <- decrypt_calls g ctx cap rest ;;
      Ok (g, ctx, (r, p) :: outs)
  end.

Definition returned_0 (o : Z * buffer_t) : Prop := fst o = 0%Z.

Lemma later_calls (m : Z) (cap_s cap_r : nat) (rest : list buffer_t) :
  Laws.evp_length_law B -> Laws.stream_law B ->
  Laws.evp_stream_law B -> Laws.stream_suffix_law B ->
  (TABLE < m < CIPHER_NUM)%Z ->
  forall (gs gr : globals) (e d : enc_ctx_t),
    gs.(enc_method) = m -> gr.(enc_method) = m ->
    gs.(enc_key) = gr.(enc_key) ->
    buffer_ok gs.(tmp_encrypt) -> buffer_ok gr.(tmp_decrypt) ->
    Forall buffer_ok rest -> in_step m e d ->
    exists gs' e' outs gr' d' outs',
      encrypt_calls gs (Some e) cap_s rest = Ok (gs', Some e', outs)
      /\ decrypt_calls gr (Some d) cap_r (map snd outs) = Ok (gr', Some d', outs')
      /\ Forall returned_0 outs /\ Forall returned_0 outs'
      /\ map (fun o => len (snd o)) outs = map len rest
      /\ map (fun o => contents (snd o)) outs' = map contents rest.
Proof.
  intros Hlen Hstream Hevp Hsuf Hm.
  induction rest as [|b rest IH]; intros gs gr e d Es Er Ek Hte Htd Hbufs Hin.
  - exists gs, e, [], gr, d, []. cbn. repeat split; constructor.
  - inversion Hbufs as [|b' rest' Hb Hrest]; subst b' rest'.
    pose proof Hin as [Ie [Id _]].
    destruct (ss_encrypt_later gs b e cap_s Hlen Hstream Hb Hte Ie)
      as [te [c [Ee [Hte' Hc]]]]; [lia|].
    destruct (stream_step gs gr m e d (contents b) Hlen Hstream Hevp Hsuf Hm
                Es Er Ek Hin) as [R1 [R2 [R3 [R4 Hin']]]].
    set (r := stream_bytes gs e (contents b)) in *.
    rewrite R1 in Ee, Hc. change (1 =? 0)%Z with false in Ee. cbv iota in Ee.
    destruct Hc as [Hcok Hcc]; [discriminate|].
    destruct (ss_decrypt_later gr c d cap_r Hlen Hstream Hcok Htd Id)
      as [td [p [Ed [Htd' Hp]]]]; [lia|].
    rewrite Hcc in Ed, Hp.
    set (r' := stream_bytes gr d (snd (fst r))) in *.
    rewrite R2 in Ed, Hp. change (1 =? 0)%Z with false in Ed. cbv iota in Ed.
    destruct Hp as [Hpok Hpc]; [discriminate|].
    destruct (IH (set_tmp_encrypt gs te) (set_tmp_decrypt gr td) (snd r) (snd r'))
      as [gs' [e' [outs [gr' [d' [outs' [Ee' [Ed' [F1 [F2 [M1 M2]]]]]]]]]]];
      try assumption.
    exists gs', e', ((0%Z, c) :: outs), gr', d', ((0%Z, p) :: outs').
    cbn [encrypt_calls decrypt_calls map snd fst].
    rewrite Ee, bind_Ok. cbv beta iota. rewrite Ee', bind_Ok. cbv beta iota.
    rewrite Ed, bind_Ok. cbv beta iota. rewrite Ed', bind_Ok. cbv beta iota.
    split; [reflexivity|]. split; [reflexivity|].
    split; [constructor; [reflexivity | assumption]|].
    split; [constructor; [reflexivity | assumption]|].
    split.
    + f_equal; [|exact M1].
      destruct Hcok as [Lc Bc]. destruct Hb as [Lb Bb].
      apply (f_equal (@length Z)) in Hcc. unfold contents in Hcc, R4.
      rewrite length_firstn in Hcc, R4. lia.
    + f_equal; [|exact M2]. rewrite Hpc. exact R3.
Qed.

Lemma keyed_iv_len (gs gr : globals) (m : Z) :
  keyed m gs -> keyed m gr -> gs.(enc_iv_len) = gr.(enc_iv_len).
Proof.
  intros [Hm [Es [_ [_ Hfs]]]] [_ [Er [_ [_ Hfr]]]].
  destruct (SALSA20 <=? m)%Z; [congruence|].
  destruct Hfs as [n1 [c1 [_ [G1 [_ I1]]]]].
  destruct Hfr as [n2 [c2 [_ [G2 [_ I2]]]]].
  rewrite G1 in G2. apply Some_inj in G2. subst c2. congruence.
Qed.

(** X20.  A stream through the two ends of a connection.  Both
    processes are keyed for the same method, not the table, with the same
    key.  The sender calls [ss_encrypt] on one buffer after the other with
    one fresh context; the receiver, whose replay cache does not hold the
    IV of the sender, calls [ss_decrypt] with one fresh context on the
    buffers as the sender left them.  Every call returns 0; the first
    buffer of the sender is longer than its plaintext by the IV and the
    others are as long as theirs; the receiver gets back the plaintext of
    every buffer.  For Salsa20 and ChaCha20 this includes the calls at a
    position of the stream that is not a multiple of 64, for which the
    source puts zero bytes before the input. *)
Theorem stream_round_trip
        (gs gr : globals) (m : Z) (rnd : nat -> Z) (b : buffer_t)
        (rest : list buffer_t) (cap_s cap_r : nat) :
  Laws.evp_setup_law B -> Laws.evp_length_law B -> Laws.stream_law B ->
  Laws.evp_stream_law B -> Laws.stream_suffix_law B ->
  keyed m gs -> keyed m gr -> gs.(enc_key) = gr.(enc_key) ->
  buffer_ok gs.(tmp_encrypt) -> buffer_ok gr.(tmp_decrypt) ->
  Forall buffer_ok (b :: rest) ->
  (forall c0, gr.(iv_cache) = Some c0 -> (RC4_MD5 <= m)%Z ->
              cache_key_exist c0 (rand_bytes rnd gs.(enc_iv_len)) = false) ->
  gr.(iv_cache) <> None ->
  let e0 := {| init := 0; counter := 0;
               evp := {| evp_ctx := fresh_evp gs 1; iv := fresh_iv gs rnd |} |} in
  let d0 := {| init := 0; counter := 0;
               evp := {| evp_ctx := fresh_evp gr 0; iv := zero_iv |} |} in
  exists gs' e' outs gr' d' outs',
    encrypt_calls gs (Some e0) cap_s (b :: rest) = Ok (gs', Some e', outs)
    /\ decrypt_calls gr (Some d0) cap_r (map snd outs) = Ok (gr', Some d', outs')
    /\ Forall returned_0 outs /\ Forall returned_0 outs'
    /\ map (fun o => len (snd o)) outs
       = (gs.(enc_iv_len) + len b) :: map len rest
    /\ map (fun o => contents (snd o)) outs' = map contents (b :: rest).
Proof.
  intros Hsetup Hlen Hstream Hevp Hsuf Hks Hkr Ek Hte Htd Hbufs Hnew Hsome e0 d0.
  inversion Hbufs as [|b' rest' Hb Hrest]; subst b' rest'.
  pose proof Hks as [Hm [Es [Lks [Hivs _]]]].
  pose proof Hkr as [_ [Er [Lkr [Hivr _]]]].
  pose proof (keyed_iv_len gs gr m Hks Hkr) as Eiv.
  pose proof (fresh_iv_length gs rnd Hivs) as LIV.
  set (IV := fresh_iv gs rnd) in *.
  assert (Lr : length (rand_bytes rnd (enc_iv_len gs)) = enc_iv_len gs).
  { unfold rand_bytes. now rewrite length_map, length_seq. }
  assert (FIV : firstn (enc_iv_len gs) IV = rand_bytes rnd (enc_iv_len gs)).
  { unfold IV, fresh_iv. rewrite firstn_app, Lr, Nat.sub_diag.
    rewrite <- Lr at 1. rewrite firstn_all. simpl. apply app_nil_r. }
  (* the first call of the sender *)
  pose proof (set_iv_keyed gs m 1 IV IV Hsetup Hks LIV LIV) as Hset1.
  change (1 =? 0)%Z with false in Hset1. cbv iota in Hset1.
  destruct (ss_encrypt_first_ctx gs b e0 cap_s
              {| evp_ctx := keyed_evp gs IV 1; iv := IV |}
              Hlen Hstream Hb Hte)
    as [te [c [Ee [Hte' Hc]]]].
  { reflexivity. }
  { lia. }
  { exact Hset1. }
  { cbn [iv]. lia. }
  pose proof (keyed_in_step gs gr m IV Hks Hkr Ek) as Hin.
  destruct (stream_step gs gr m _ _ (contents b) Hlen Hstream Hevp Hsuf Hm
              Es Er Ek Hin) as [R1 [R2 [R3 [R4 Hin']]]].
  set (ke := {| init := 1; counter := 0;
                evp := {| evp_ctx := keyed_evp gs IV 1; iv := IV |} |}) in *.
  set (kd := {| init := 1; counter := 0;
                evp := {| evp_ctx := keyed_evp gr IV 0; iv := IV |} |}) in *.
  set (r := stream_bytes gs ke (contents b)) in *.
  set (r' := stream_bytes gr kd (snd (fst r))) in *.
  rewrite R1 in Ee, Hc. change (1 =? 0)%Z with false in Ee. cbv iota in Ee.
  destruct Hc as [Hcok Hcc]; [discriminate|].
  cbn [iv] in Hcc. rewrite FIV in Hcc.
  (* the first call of the receiver *)
  pose proof Hcok as [Lc Bc].
  assert (Llen : len c = enc_iv_len gs + length (snd (fst r))).
  { apply (f_equal (@length Z)) in Hcc. unfold contents in Hcc.
    rewrite length_firstn, length_app, Lr in Hcc. lia. }
  assert (Fc : firstn (enc_iv_len gs) (array c) = rand_bytes rnd (enc_iv_len gs)).
  { apply (f_equal (firstn (enc_iv_len gs))) in Hcc. unfold contents in Hcc.
    rewrite firstn_firstn in Hcc.
    replace (Nat.min (enc_iv_len gs) (len c)) with (enc_iv_len gs) in Hcc by lia.
    rewrite Hcc, firstn_app, Lr, Nat.sub_diag.
    rewrite <- Lr at 1. rewrite firstn_all. simpl. apply app_nil_r. }
  assert (Hloc : iv_local_of gr c = IV).
  { unfold iv_local_of. rewrite <- Eiv, Fc. reflexivity. }
  assert (Hbody : firstn (len c - enc_iv_len gr) (skipn (enc_iv_len gr) (array c))
                  = snd (fst r)).
  { rewrite <- Eiv. rewrite firstn_skipn_comm.
    replace (enc_iv_len gs + (len c - enc_iv_len gs)) with (len c) by lia.
    fold (contents c). rewrite Hcc.
    rewrite skipn_app, Lr, Nat.sub_diag.
    rewrite <- Lr at 1. rewrite skipn_all. reflexivity. }
  pose proof (set_iv_keyed gr m 0 zero_iv IV Hsetup Hkr LIV) as Hset0.
  change (0 =? 0)%Z with true in Hset0. cbv iota in Hset0.
  replace (firstn (enc_iv_len gr) IV ++ skipn (enc_iv_len gr) zero_iv) with IV
    in Hset0.
  2:{ rewrite <- Eiv, FIV. reflexivity. }
  set (g1 := if (RC4_MD5 <=? m)%Z
             then match iv_cache gr with
                  | Some c0 => set_iv_cache gr
                                 (Some (cache_insert c0
                                          (rand_bytes rnd (enc_iv_len gs))))
                  | None => gr
                  end
             else gr).
  destruct (ss_decrypt_first_ctx gr g1 c d0 cap_r
              {| evp_ctx := keyed_evp gr IV 0; iv := IV |} Hlen Hstream Hcok Htd)
    as [td [p [Ed [Htd' Hp]]]].
  { reflexivity. }
  { lia. }
  { exact Hivr. }
  { lia. }
  { rewrite Hloc. apply Hset0. unfold zero_iv. apply repeat_length. }
  { unfold admits, g1. rewrite Er, <- Eiv, Fc.
    destruct (Z.leb_spec RC4_MD5 m) as [Hr | Hr]; [|reflexivity].
    destruct (iv_cache gr) as [c0|] eqn:Ec0; [|contradiction].
    exists c0. split; [reflexivity|]. split; [|reflexivity].
    apply Hnew; [reflexivity | exact Hr]. }
  rewrite Hbody in Ed, Hp. fold kd in Ed, Hp. fold r' in Ed, Hp.
  rewrite R2 in Ed, Hp. change (1 =? 0)%Z with false in Ed. cbv iota in Ed.
  destruct Hp as [Hpok Hpc]; [discriminate|].
  (* the later calls *)
  assert (Eg1 : enc_method g1 = m /\ enc_key g1 = enc_key gr).
  { unfold g1. destruct (RC4_MD5 <=? m)%Z; [|split; [exact Er | reflexivity]].
    destruct (iv_cache gr); split; try exact Er; reflexivity. }
  destruct Eg1 as [Eg1 Eg2].
  destruct (later_calls m cap_s cap_r rest Hlen Hstream Hevp Hsuf Hm
              (set_tmp_encrypt gs te) (set_tmp_decrypt g1 td) (snd r) (snd r'))
    as [gs' [e' [outs [gr' [d' [outs' [Ee' [Ed' [F1 [F2 [M1 M2]]]]]]]]]]];
    try assumption.
  { cbn [enc_key set_tmp_encrypt set_tmp_decrypt]. congruence. }
  exists gs', e', ((0%Z, c) :: outs), gr', d', ((0%Z, p) :: outs').
  cbn [encrypt_calls decrypt_calls map snd fst].
  rewrite Ee, bind_Ok. cbv beta iota. rewrite Ee', bind_Ok. cbv beta iota.
  rewrite Ed, bind_Ok. cbv beta iota. rewrite Ed', bind_Ok. cbv beta iota.
  split; [reflexivity|]. split; [reflexivity|].
  split; [constructor; [reflexivity | assumption]|].
  split; [constructor; [reflexivity | assumption]|].
  split.
  - f_equal; [|exact M1].
    destruct Hb as [Lb Bb]. unfold contents in R4.
    rewrite length_firstn in R4. lia.
  - f_equal; [|exact M2]. rewrite Hpc. exact R3.
Qed.

End Streams.

Lemma toy_in_step (e d : cipher_evp_t (Backend := Toy.backend)) :
  Laws.evp_in_step Toy.backend e d -> e = d.
Proof.
  intros H. induction H as [name c pad key iv_arg _ | e d P _ IH].
  - destruct pad; reflexivity.
  - exact IH.
Qed.

Lemma toy_evp_stream_law : Laws.evp_stream_law Toy.backend.
Proof.
  intros e d P H. apply toy_in_step in H. subst d. cbv zeta.
  split; [reflexivity|]. split; [reflexivity|].
  apply xor_with_involutive.
Qed.

Lemma toy_stream_suffix_law : Laws.stream_suffix_law Toy.backend.
Proof.
  assert (H : forall (pad : Z) (a a' b : list Z),
             length a = length a' ->
             skipn (length a) (Toy.xor_with pad (a ++ b))
             = skipn (length a') (Toy.xor_with pad (a' ++ b))).
  { intros pad a a' b E. unfold Toy.xor_with.
    rewrite !map_app, !skipn_app, !length_map, !Nat.sub_diag.
    rewrite (skipn_all2 (map (Z.lxor pad) a)) by (rewrite length_map; lia).
    rewrite (skipn_all2 (map (Z.lxor pad) a')) by (rewrite length_map; lia).
    reflexivity. }
  repeat split; intros a a' b n ic k E; apply H; exact E.
Qed.

(** a process keyed for chacha20 *)
Definition g_chacha : globals :=
  Eval vm_compute in
    match enc_init (B := Toy.backend) globals0 "secret" (Some "chacha20"%string) with
    | Ok (_, g, _) => g
    | _ => globals0
    end.

Lemma stream_round_trip_witness :
  let e0 := {| init := 0; counter := 0;
               evp := {| evp_ctx := fresh_evp (B := Toy.backend) g_chacha 1;
                         iv := fresh_iv g_chacha Toy.rnd |} |} in
  let d0 := {| init := 0; counter := 0;
               evp := {| evp_ctx := fresh_evp (B := Toy.backend) g_chacha 0;
                         iv := zero_iv |} |} in
  let bufs := [holding 64 [104; 105; 106]%Z; holding 64 [1; 2]%Z;
               holding 64 [7]%Z] in
  exists gs' e' outs gr' d' outs',
    encrypt_calls g_chacha (Some e0) 64 bufs = Ok (gs', Some e', outs)
    /\ decrypt_calls g_chacha (Some d0) 64 (map snd outs)
       = Ok (gr', Some d', outs')
    /\ Forall returned_0 outs /\ Forall returned_0 outs'
    /\ map (fun o => len (snd o)) outs = [8 + 3; 2; 1]
    /\ map (fun o => contents (snd o)) outs'
       = [[104; 105; 106]; [1; 2]; [7]]%Z.
Proof.
  apply (@stream_round_trip Toy.backend g_chacha g_chacha CHACHA20 Toy.rnd
           (holding 64 [104; 105; 106]%Z)
           [holding 64 [1; 2]%Z; holding 64 [7]%Z] 64 64).
  - exact toy_evp_setup_law.
  - exact toy_evp_length_law.
  - exact toy_stream_law.
  - exact toy_evp_stream_law.
  - exact toy_stream_suffix_law.
  - repeat split; try reflexivity; cbv; lia.
  - repeat split; try reflexivity; cbv; lia.
  - reflexivity.
  - split; [reflexivity | cbv; lia].
  - split; [reflexivity | cbv; lia].
  - repeat constructor; cbv; lia.
  - intros c0 E _. apply Some_inj in E. subst c0. reflexivity.
  - discriminate.
Defined.

End EncryptFacts.

(** ** server.c *)

Module ServerFacts.

Import Encrypt Server.

Section WithBackend.

Context {B : Backend}.

Lemma steps_reachable (w0 w1 w2 : world) (es : list event) :
  reachable w0 w1 -> steps w1 es w2 -> reachable w0 w2.
Proof.
  intros H S. induction S as [w | w e w1 es w2 He Hs _ IH].
  - exact H.
  - apply IH. eapply reach_step; eassumption.
Qed.

(** *** Stage 0: waiting for the IV *)

(** The bytes a buffer holds after [bytes] are received behind them. *)
Lemma contents_after_recv (b : buffer_t) (bytes a : list Z) :
  b.(len) <= length b.(array) ->
  Mem.write b.(array) b.(len) bytes = Ok a ->
  contents (set_len (set_array b a) (b.(len) + length bytes))
  = contents b ++ bytes.
Proof.
  intros Hlen E. unfold Mem.write in E.
  destruct (Nat.leb_spec (b.(len) + length bytes) (length b.(array)));
    [|discriminate].
  injection E as <-. unfold contents. simpl.
  rewrite firstn_app, length_firstn.
  rewrite firstn_firstn.
  replace (Nat.min (b.(len) + length bytes) b.(len)) with b.(len) by lia.
  f_equal.
  replace (b.(len) + length bytes - Nat.min b.(len) (length b.(array)))
    with (length bytes) by lia.
  rewrite firstn_app, firstn_all, Nat.sub_diag. simpl. apply app_nil_r.
Qed.

(** C8.  A receive event in stage 0 that brings [r > 0] bytes and leaves the
    buffer with at most [enc_iv_len] bytes: the handler returns the state it
    was called in but for the buffer of the connection, whose array holds the
    new bytes behind the old ones and whose length has grown by [r].  The
    stage is 0 as before, the connection is open, and neither the decrypt
    context nor the process state of the cipher layer (replay cache, [tmp]
    buffer) has changed: [ss_decrypt] was not called. *)
Theorem stage0_incomplete_iv_waits
        (w : world) (s : server_t) (bytes : list Z) (sv : send_result)
        (ip : Z) (c : connect_result) :
  let r := Nat.min (length bytes) (BUF_SIZE - s.(buf).(len)) in
  w.(server) = Some s ->
  s.(stage) = 0%Z ->
  0 < r ->
  s.(buf).(len) + r <= w.(g).(enc_iv_len) ->
  s.(buf).(len) <= length s.(buf).(array) ->
  BUF_SIZE <= length s.(buf).(array) ->
  exists b : buffer_t,
    server_recv_cb w (Recv bytes) sv ip c = Ok (set_server w (Some (set_buf s b)))
    /\ b.(len) = s.(buf).(len) + r
    /\ contents b = contents s.(buf) ++ firstn r bytes
    /\ (set_buf s b).(stage) = 0%Z
    /\ (set_buf s b).(d_ctx) = s.(d_ctx)
    /\ (set_server w (Some (set_buf s b))).(g) = w.(g).
Proof.
  intros r Hs Hstage Hr Hiv Hlen Hcap.
  assert (Hrlen : length (firstn r bytes) = r).
  { rewrite length_firstn. unfold r. lia. }
  destruct (Mem.write s.(buf).(array) s.(buf).(len) (firstn r bytes))
    as [a | |] eqn:E.
  2,3: rewrite MemFacts.write_ok in E by (rewrite Hrlen; unfold r; lia);
    discriminate.
  exists (set_len (set_array s.(buf) a) (s.(buf).(len) + r)).
  split; [|split; [|split; [|split; [|split]]]]; try reflexivity.
  - unfold server_recv_cb. rewrite Hs, Hstage.
    change (0 =? 0)%Z with true. cbv iota.
    fold r.
    destruct (Nat.eqb_spec r 0) as [H0 | _]; [lia|].
    rewrite E, bind_Ok. cbv zeta.
    change (len (set_len (set_array (buf s) a) (len (buf s) + r)))
      with (len (buf s) + r).
    destruct (Nat.leb_spec (len (buf s) + r) (enc_iv_len (g w))) as [_ | H];
      [reflexivity | lia].
  - rewrite <- Hrlen at 1. apply contents_after_recv; assumption.
  - simpl. exact Hstage.
Qed.

(** *** Partial writes *)









(** *** Backpressure *)

(** What holds of the watchers in every state of a connection: a read
    watcher is never active while the send watcher of the other side is
    is; before the relay stage neither the send watcher of the client nor
    the read watcher of the target is active; a pending query means stage 4
    with no target yet and the client not being read; stage 0 has no target;
    the relay stage is entered only with the target connected; in the relay
    stage, of the read watcher of one side and the send watcher of the other
    exactly one is active. *)
Definition watchers_ok (w : world) : Prop :=
  match w.(server) with
  | None => True
  | Some s =>
      (s.(stage) <> 5%Z -> s.(send_io) = false)
      /\ (s.(query) <> None ->
          s.(stage) = 4%Z /\ w.(remote) = None /\ s.(recv_io) = false)
      /\ (s.(stage) = 0%Z -> w.(remote) = None)
      /\ match w.(remote) with
         | None => True
         | Some r =>
             (r.(r_send_io) = true -> s.(recv_io) = false)
             /\ (s.(send_io) = true -> r.(r_recv_io) = false)
             /\ (s.(stage) <> 5%Z -> r.(r_recv_io) = false)
             /\ (r.(connected) = 0%Z -> s.(stage) <> 5%Z)
             /\ (s.(stage) = 5%Z ->
                 r.(r_send_io) = negb s.(recv_io)
                 /\ s.(send_io) = negb r.(r_recv_io))
         end
  end.

Lemma header_auth_some (w : world) (s s' : server_t) (atyp : Z) :
  header_auth w s atyp = Ok (Some s') -> s' = s \/ s' = set_auth s 1.
Proof.
  unfold header_auth. intros H. returned H; try discriminate; subst.
  - now right.
  - now left.
Qed.

Lemma connect_to_remote_spec (w : world) (s : server_t) (t : target)
      (c : connect_result) (w' : world) (s' : server_t) (r' : option remote_t) :
  connect_to_remote w s t c = (w', s', r') ->
  w'.(server) = w.(server) /\ w'.(remote) = w.(remote)
  /\ (s' = s \/ exists b, s' = set_buf s b)
  /\ (r' = None \/ r' = Some (new_remote t)).
Proof.
  unfold connect_to_remote. intros H.
  destruct c as [|tfo].
  - injection H as <- <- <-. repeat split; [now left | now left].
  - destruct (fast_open w); [destruct tfo|]; injection H as <- <- <-;
      repeat split; try (now left); try (now right).
    right. eexists. reflexivity.
Qed.

Lemma hand_over_spec (s : server_t) (r : remote_t) (from : nat)
      (s' : server_t) (r' : remote_t) :
  hand_over s r from = Ok (s', r') ->
  (s' = s \/ exists b, s' = set_buf s b)
  /\ (r' = r \/ exists b, r' = set_rbuf r b).
Proof.
  unfold hand_over. intros H. returned H; subst.
  - split; right; eexists; reflexivity.
  - split; now left.
Qed.

Ltac use_specs :=
  repeat match goal with
         | E : connect_to_remote _ _ _ _ = _ |- _ =>
             apply connect_to_remote_spec in E;
             destruct E as [? [? [[-> | [? ->]] [? | ?]]]]
         | E : hand_over _ _ _ = _ |- _ =>
             apply hand_over_spec in E;
             destruct E as [[-> | [? ->]] [-> | [? ->]]]
         | E : Some _ = None |- _ => discriminate E
         | E : None = Some _ |- _ => discriminate E
         | E : Some _ = Some _ |- _ => apply Some_inj in E
         end.

Lemma server_handshake_spec (w : world) (s : server_t) (ip : Z)
      (c : connect_result) (w' : world) :
  server_handshake w s ip c = Ok w' ->
  (w'.(server) = None /\ w'.(remote) = w.(remote))
  \/ exists atyp s1 s',
      Mem.get s.(buf).(array) 0 = Ok atyp
      /\ header_auth w s atyp = Ok (Some s1)
      /\ w'.(server) = Some s'
      /\ s'.(auth) = s1.(auth)
      /\ s'.(stage) = 4%Z /\ s'.(recv_io) = false /\ s'.(send_io) = s.(send_io)
      /\ ((s'.(query) = s.(query)
           /\ exists r', w'.(remote) = Some r' /\ r'.(r_send_io) = true
                         /\ r'.(r_recv_io) = false /\ r'.(connected) = 0%Z)
          \/ (s'.(query) <> None /\ w'.(remote) = w.(remote))).
Proof.
  unfold server_handshake. intros H.
  returned H. 
  all: returned_all.
  all: subst.
  all: use_specs; subst.
  all: try (left; split; simpl; congruence).
  all: right.
  all: match goal with
       | E0 : header_auth _ _ ?a = Ok (Some ?s0), E : Mem.get _ 0 = Ok ?a |- _ =>
           exists a, s0; eexists; split; [exact E|]; split; [exact E0|];
           split; [reflexivity|];
           apply header_auth_some in E0; destruct E0 as [-> | ->]
       end.
  all: simpl.
  all: repeat (split; [reflexivity|]).
  all: first [ left; split; [reflexivity|]; eexists; split; [reflexivity|];
               repeat split; reflexivity
             | right; split; [discriminate | simpl; congruence] ].
Qed.

Lemma server_relay_spec (w : world) (s : server_t) (r : remote_t)
      (sv : send_result) (w' : world) :
  server_relay w s r sv = Ok w' ->
  (w'.(server) = None /\ w'.(remote) = None)
  \/ exists s' r',
      w'.(server) = Some s' /\ w'.(remote) = Some r'
      /\ s'.(stage) = s.(stage) /\ s'.(auth) = s.(auth)
      /\ s'.(send_io) = s.(send_io) /\ s'.(query) = s.(query)
      /\ r'.(r_recv_io) = r.(r_recv_io) /\ r'.(connected) = r.(connected)
      /\ ((s'.(recv_io) = false /\ r'.(r_send_io) = true
           /\ (sv = SendFail true
               \/ exists n, sv = Sent n /\ r'.(rbuf).(idx) = n
                            /\ 0 < r'.(rbuf).(len)))
          \/ (s'.(recv_io) = s.(recv_io) /\ r'.(r_send_io) = r.(r_send_io)
              /\ exists n, sv = Sent n)).
Proof.
  unfold server_relay. intros H.
  returned H.
  all: returned_all.
  all: subst.
  all: try (left; split; reflexivity).
  all: right; eexists; eexists; split; [reflexivity|]; split; [reflexivity|].
  all: simpl.
  all: repeat (split; [reflexivity|]).
  all: first
         [ left; split; [reflexivity|]; split; [reflexivity|];
           first [ left; reflexivity
                 | right; eexists; split; [reflexivity|]; split; [reflexivity|];
                   match goal with
                   | H : (_ <? _) = true |- _ =>
                       apply Nat.ltb_lt in H; simpl in H; lia
                   end ]
         | right; split; [reflexivity|]; split; [reflexivity|];
           eexists; reflexivity ].
Qed.

Ltac io_simpl :=
  cbn [server remote to_client to_remote g cfg_auth fast_open
       set_g set_server set_remote set_fast_open emit_client emit_remote
       close_and_free_server close_and_free_remote close_both
       buf stage auth chunk e_ctx d_ctx recv_io send_io timer query
       set_buf set_stage set_auth set_chunk set_e_ctx set_d_ctx
       set_recv_io set_send_io set_query
       rbuf r_recv_io r_send_io connected peer
       set_rbuf set_r_recv_io set_r_send_io set_connected new_remote] in *.

Ltac propagate :=
  repeat match goal with
         | H : ?f ?x = _ |- _ => is_var x; progress (rewrite H in * )
         end.

Ltac ok_tac :=
  unfold watchers_ok in *; io_simpl; propagate; io_simpl;
  repeat match goal with
         | H : context [match ?x with _ => _ end] |- _ => destruct x eqn:?
         | |- context [match ?x with _ => _ end] => destruct x eqn:?
         end;
  io_simpl; propagate;
  intuition (try congruence; try discriminate).

Lemma closed_ok (w : world) : w.(server) = None -> watchers_ok w.
Proof. intros H. unfold watchers_ok. now rewrite H. Qed.

Lemma server_send_cb_ok (w w' : world) (sv : send_result) :
  watchers_ok w -> enabled w (ServerSend sv) = true ->
  server_send_cb w sv = Ok w' -> watchers_ok w'.
Proof.
  unfold server_send_cb. intros Hok Hen H.
  simpl in Hen.
  destruct (server w) as [s|] eqn:Hs; [|discriminate].
  destruct (remote w) as [r|] eqn:Hr;
    returned H; subst; try (apply closed_ok; reflexivity); ok_tac.
Qed.

Lemma remote_recv_cb_ok (w w' : world) (rv : recv_result) (sv : send_result) :
  watchers_ok w -> enabled w (RemoteRecv rv sv) = true ->
  remote_recv_cb w rv sv = Ok w' -> watchers_ok w'.
Proof.
  unfold remote_recv_cb. intros Hok Hen H.
  simpl in Hen.
  destruct (remote w) as [r|] eqn:Hr; [|discriminate].
  destruct (server w) as [s|] eqn:Hs;
    returned H; subst; try (apply closed_ok; reflexivity); ok_tac.
Qed.

Lemma remote_send_cb_ok (w w' : world) (peer_ok : bool) (sv : send_result) :
  watchers_ok w -> enabled w (RemoteSend peer_ok sv) = true ->
  remote_send_cb w peer_ok sv = Ok w' -> watchers_ok w'.
Proof.
  unfold remote_send_cb. intros Hok Hen H.
  simpl in Hen.
  destruct (remote w) as [r|] eqn:Hr; [|discriminate].
  destruct (server w) as [s|] eqn:Hs;
    returned H; subst; try (apply closed_ok; reflexivity).
  all: repeat match goal with
              | H : (_ =? _)%Z = true |- _ => apply Z.eqb_eq in H
              | H : (_ =? _)%Z = false |- _ => apply Z.eqb_neq in H
              end.
  all: ok_tac.
Qed.

Lemma server_resolve_cb_ok (w w' : world) (resolved : option (Z * list Z))
      (c : connect_result) :
  watchers_ok w -> enabled w (ServerResolve resolved c) = true ->
  server_resolve_cb w resolved c = Ok w' -> watchers_ok w'.
Proof.
  unfold server_resolve_cb. intros Hok Hen H.
  simpl in Hen.
  destruct (server w) as [s|] eqn:Hs; [|discriminate].
  destruct (query s) as [q|] eqn:Hq; [|discriminate].
  returned H; subst; try (apply closed_ok; reflexivity).
  all: use_specs; subst; try (apply closed_ok; reflexivity).
  all: ok_tac.
Qed.

Lemma server_recv_cb_ok (w w' : world) (rv : recv_result) (sv : send_result)
      (ip : Z) (c : connect_result) :
  watchers_ok w -> enabled w (ServerRecv rv sv ip c) = true ->
  server_recv_cb w rv sv ip c = Ok w' -> watchers_ok w'.
Proof.
  unfold server_recv_cb. intros Hok Hen H.
  simpl in Hen.
  destruct (server w) as [s|] eqn:Hs; [|discriminate].
  returned H; subst; try (apply closed_ok; reflexivity); try assumption.
  all: repeat match goal with
              | H : (_ =? _)%Z = true |- _ => apply Z.eqb_eq in H
              | H : (_ =? _)%Z = false |- _ => apply Z.eqb_neq in H
              end.
  all: try match goal with
           | H : server_handshake _ _ _ _ = Ok _ |- _ =>
               apply server_handshake_spec in H;
               destruct H as [[H1 H2] | [a [s1 [s' [_ [_ [H1 [_ [H2 [H3 [H4 H5]]]]]]]]]]];
               [apply closed_ok; exact H1|];
               destruct H5 as [[H5 [r' [H6 [H7 [H8 H9]]]]] | [H5 H6]]
           | H : server_relay _ _ _ _ = Ok _ |- _ =>
               apply server_relay_spec in H;
               destruct H as [[H1 H2] | [s' [r' [H1 [H2 [H3 [_ [H4 [H5 [H6 [H7 H8]]]]]]]]]]];
               [apply closed_ok; exact H1|];
               destruct H8 as [[H8 [H9 _]] | [H8 [H9 _]]]
           end.
  all: ok_tac.
Qed.
Lemma server_timeout_cb_ok (w w' : world) :
  server_timeout_cb w = Ok w' -> watchers_ok w'.
Proof.
  unfold server_timeout_cb. intros H. apply Ok_inj in H. subst.
  apply closed_ok. reflexivity.
Qed.

(** Every callback keeps [watchers_ok]. *)
Lemma step_ok (w w' : world) (e : event) :
  watchers_ok w -> enabled w e = true -> step w e = Ok w' -> watchers_ok w'.
Proof.
  intros Hok Hen H. destruct e; simpl in H.
  - eapply server_recv_cb_ok; eassumption.
  - eapply server_send_cb_ok; eassumption.
  - eapply remote_recv_cb_ok; eassumption.
  - eapply remote_send_cb_ok; eassumption.
  - eapply server_timeout_cb_ok; eassumption.
  - eapply server_resolve_cb_ok; eassumption.
Qed.

Lemma accept_cb_ok (g0 : globals) (auth0 : Z) (fast_open0 : bool) (method : Z)
      (rnd : nat -> Z) (w0 : world) :
  accept_cb g0 auth0 fast_open0 method rnd = Ok w0 -> watchers_ok w0.
Proof.
  unfold accept_cb, new_server. intros H. returned H.
  all: returned_all; subst.
  all: unfold watchers_ok; cbn; intuition (try congruence; try discriminate).
Qed.

Lemma reachable_ok (w0 w : world) :
  watchers_ok w0 -> reachable w0 w -> watchers_ok w.
Proof.
  intros H0 R. induction R as [|w e w' _ IH Hen Hst].
  - exact H0.
  - eapply step_ok; eassumption.
Qed.

(** A step of the relay stage that restarts a read watcher resets the send
    buffer of the other side; a step that stops a read watcher is the receive
    callback of that side, whose [send] fails with [EAGAIN] or takes [n]
    bytes and leaves some from index [n] on. *)
Ltac same_records :=
  repeat match goal with
         | H1 : ?x = Some ?a, H2 : ?x = Some ?b |- _ => rewrite H1 in H2
         | H : Some _ = Some _ |- _ => apply Some_inj in H
         end;
  subst.

Lemma relay_step_effects (w w' : world) (e : event) (s s' : server_t)
      (r r' : remote_t) :
  watchers_ok w -> enabled w e = true -> step w e = Ok w' ->
  w.(server) = Some s -> w.(remote) = Some r -> s.(stage) = 5%Z ->
  w'.(server) = Some s' -> w'.(remote) = Some r' ->
  (s.(recv_io) = false -> s'.(recv_io) = true ->
   r'.(r_send_io) = false /\ r'.(rbuf).(len) = 0 /\ r'.(rbuf).(idx) = 0)
  /\ (r.(r_recv_io) = false -> r'.(r_recv_io) = true ->
      s'.(send_io) = false /\ s'.(buf).(len) = 0 /\ s'.(buf).(idx) = 0)
  /\ (s.(recv_io) = true -> s'.(recv_io) = false ->
      r'.(r_send_io) = true
      /\ exists rv sv ip c,
          e = ServerRecv rv sv ip c
          /\ (sv = SendFail true
              \/ exists n, sv = Sent n /\ r'.(rbuf).(idx) = n
                           /\ 0 < r'.(rbuf).(len)))
  /\ (r.(r_recv_io) = true -> r'.(r_recv_io) = false ->
      s'.(send_io) = true
      /\ exists rv sv,
          e = RemoteRecv rv sv
          /\ (sv = SendFail true
              \/ exists n, sv = Sent n /\ s'.(buf).(idx) = n
                           /\ 0 < s'.(buf).(len))).
Proof.
  intros Hok Hen H Hs Hr Hst Hs' Hr'.
  unfold watchers_ok in Hok. rewrite Hs, Hr in Hok.
  destruct Hok as [_ [HL [_ [_ [_ [_ [HK _]]]]]]].
  destruct e; simpl in H, Hen; rewrite ?Hs, ?Hr in Hen.
  - (* server_recv_cb *)
    unfold server_recv_cb in H. rewrite Hs, Hr in H.
    destruct (Z.eqb_spec (stage s) 0) as [E0 | _]; [congruence|].
    returned H; subst; io_simpl; try congruence.
    + apply server_relay_spec in H.
      destruct H as [[H1 _] | [s1 [r1 [H1 [H2 [_ [_ [_ [_ [H6 [_ H8]]]]]]]]]]];
        [congruence|].
      rewrite Hs' in H1. rewrite Hr' in H2.
      apply Some_inj in H1. apply Some_inj in H2. subst s1 r1.
      io_simpl.
      split; [intros; congruence|].
      split; [intros; congruence|].
      split; [|intros; congruence].
      intros _ Hstop.
      destruct H8 as [[_ [H9 H10]] | [H8 _]]; [|congruence].
      split; [exact H9|].
      exists (Recv bytes), sv, ip, c. split; [reflexivity | exact H10].
    + same_records. repeat split; intros; congruence.
  - (* server_send_cb *)
    unfold server_send_cb in H. rewrite Hs, Hr in H.
    returned H; subst; io_simpl; try congruence.
    all: same_records; io_simpl.
    all: repeat split; intros; try congruence; try reflexivity.
  - (* remote_recv_cb *)
    unfold remote_recv_cb in H. rewrite Hs, Hr in H.
    returned H; subst; io_simpl; try congruence.
    all: same_records; io_simpl.
    all: split; [intros; congruence|].
    all: split; [intros; congruence|].
    all: split; [intros; congruence|].
    all: intros _ Hstop; try congruence.
    all: split; [reflexivity|].
    all: eexists; eexists; split; [reflexivity|].
    + right. eexists. split; [reflexivity|]. split; [reflexivity|].
      match goal with
      | H : (_ <? _) = true |- _ => apply Nat.ltb_lt in H; cbn in H |- *; lia
      end.
    + now left.
  - (* remote_send_cb *)
    unfold remote_send_cb in H. rewrite Hs, Hr in H.
    destruct (Z.eqb_spec (connected r) 0) as [E0 | _];
      [exfalso; now apply HK|].
    returned H; subst; io_simpl; try congruence.
    all: same_records; io_simpl.
    all: try match goal with
             | H : (stage _ =? 4)%Z = true |- _ =>
                 rewrite Hst in H; discriminate H
             end.
    all: repeat split; intros; try congruence; try reflexivity.
  - (* server_timeout_cb *)
    unfold server_timeout_cb in H. apply Ok_inj in H. subst. discriminate.
  - (* server_resolve_cb *)
    destruct (query s) eqn:Hq; [|discriminate].
    destruct HL as [H4 _]; [discriminate|]. congruence.
Qed.

(** Stage 5 of [server_recv_cb] when [ss_decrypt] has returned 0 and, on
    an authenticated connection, [ss_check_hash] has not returned 0: the
    state after the call, for each answer of [send].  [pl] is the buffer
    that [send] is given. *)
Lemma server_recv_sends (w : world) (s : server_t) (r : remote_t)
      (bytes a : list Z) (g' : globals) (b : buffer_t) (d : option enc_ctx_t)
      (pl : buffer_t) (ch : chunk_t) (ip : Z) (c : connect_result) :
  w.(server) = Some s -> w.(remote) = Some r -> s.(stage) = 5%Z ->
  Nat.min (length bytes) BUF_SIZE <> 0 ->
  Mem.write r.(rbuf).(array) 0 (firstn (Nat.min (length bytes) BUF_SIZE) bytes)
  = Ok a ->
  ss_decrypt w.(g)
             (set_len (set_array r.(rbuf) a) (Nat.min (length bytes) BUF_SIZE))
             s.(d_ctx) BUF_SIZE
  = Ok (0%Z, g', b, d) ->
  (s.(auth) = 0%Z /\ pl = b /\ ch = s.(chunk))
  \/ (s.(auth) <> 0%Z
      /\ exists ret, ret <> 0%Z
           /\ ss_check_hash g' b s.(chunk) d BUF_SIZE = Ok (ret, pl, ch)) ->
  let s1 := set_chunk (set_d_ctx s d) ch in
  let w1 := set_g w g' in
  step w (ServerRecv (Recv bytes) (SendFail true) ip c)
  = Ok (set_remote (set_server w1 (Some (set_recv_io s1 false)))
                   (Some (set_r_send_io (set_rbuf r (set_idx pl 0)) true)))
  /\ (forall n, n < pl.(len) ->
        step w (ServerRecv (Recv bytes) (Sent n) ip c)
        = Ok (set_remote
                (set_server (emit_remote w1 (firstn n (offered pl 0)))
                            (Some (set_recv_io s1 false)))
                (Some (set_r_send_io
                         (set_rbuf r (set_idx (set_len pl (pl.(len) - n)) n))
                         true))))
  /\ (forall n, pl.(len) <= n ->
        step w (ServerRecv (Recv bytes) (Sent n) ip c)
        = Ok (set_remote
                (set_server (emit_remote w1 (offered pl 0)) (Some s1))
                (Some (set_rbuf r pl)))).
Proof.
  intros Hs Hr Hst Hk Hw Hd Hh s1 w1.
  assert (Hrelay : forall sv,
    step w (ServerRecv (Recv bytes) sv ip c)
    = server_relay w1 (set_d_ctx s d) (set_rbuf r b) sv).
  { intros sv. cbn [step]. unfold server_recv_cb. rewrite Hs, Hr, Hst.
    change (5 =? 0)%Z with false. cbv iota zeta.
    destruct (Nat.eqb_spec (Nat.min (length bytes) BUF_SIZE) 0) as [E | _];
      [contradiction|].
    rewrite Hw, bind_Ok, Hd, bind_Ok. cbv beta iota.
    change (negb (0 =? 0)%Z) with false. cbv iota.
    cbn [stage set_d_ctx]. rewrite Hst. reflexivity. }
  assert (Hhash :
    (if negb (auth (set_d_ctx s d) =? 0)%Z
     then '(ret, b0, ch0) <- ss_check_hash (g w1) (rbuf (set_rbuf r b))
                                          (chunk (set_d_ctx s d))
                                          (d_ctx (set_d_ctx s d)) BUF_SIZE ;;
          Ok (negb (ret =? 0)%Z, set_chunk (set_d_ctx s d) ch0,
              set_rbuf (set_rbuf r b) b0)
     else Ok (true, set_d_ctx s d, set_rbuf r b))
    = Ok (true, s1, set_rbuf r pl)).
  { cbn [auth chunk d_ctx set_d_ctx rbuf set_rbuf g set_g w1].
    destruct Hh as [[Ha [-> ->]] | [Ha [ret [Hret Hc]]]].
    - rewrite Ha. reflexivity.
    - apply Z.eqb_neq in Ha. rewrite Ha. cbn [negb].
      rewrite Hc, bind_Ok. cbv beta iota.
      apply Z.eqb_neq in Hret. rewrite Hret. reflexivity. }
  split; [|split].
  - rewrite Hrelay. unfold server_relay. rewrite Hhash, bind_Ok. reflexivity.
  - intros n Hn. rewrite Hrelay. unfold server_relay.
    rewrite Hhash, bind_Ok. cbv beta iota. cbn [negb rbuf set_rbuf].
    destruct (Nat.ltb_spec n (len pl)) as [_ | H]; [reflexivity | lia].
  - intros n Hn. rewrite Hrelay. unfold server_relay.
    rewrite Hhash, bind_Ok. cbv beta iota. cbn [negb rbuf set_rbuf].
    destruct (Nat.ltb_spec n (len pl)) as [H | _]; [lia|].
    unfold offered at 1. rewrite firstn_firstn.
    replace (Nat.min n (len pl)) with (len pl) by lia. reflexivity.
Qed.

(** [remote_recv_cb] when [ss_encrypt] has returned 0: the state after the
    call, for each answer of [send]; [b] is the buffer [send] is given. *)
Lemma remote_recv_sends (w : world) (s : server_t) (r : remote_t)
      (bytes a : list Z) (g' : globals) (b : buffer_t) (e : option enc_ctx_t) :
  w.(server) = Some s -> w.(remote) = Some r ->
  Nat.min (length bytes) BUF_SIZE <> 0 ->
  Mem.write s.(buf).(array) 0 (firstn (Nat.min (length bytes) BUF_SIZE) bytes)
  = Ok a ->
  ss_encrypt w.(g)
             (set_len (set_array s.(buf) a) (Nat.min (length bytes) BUF_SIZE))
             s.(e_ctx) BUF_SIZE
  = Ok (0%Z, g', b, e) ->
  let s1 := set_e_ctx (set_buf s b) e in
  let w1 := set_g w g' in
  step w (RemoteRecv (Recv bytes) (SendFail true))
  = Ok (set_remote
          (set_server w1 (Some (set_send_io (set_buf s1 (set_idx b 0)) true)))
          (Some (set_r_recv_io r false)))
  /\ (forall n, n < b.(len) ->
        step w (RemoteRecv (Recv bytes) (Sent n))
        = Ok (set_remote
                (set_server (emit_client w1 (firstn n (offered b 0)))
                   (Some (set_send_io
                            (set_buf s1 (set_idx (set_len b (b.(len) - n)) n))
                            true)))
                (Some (set_r_recv_io r false))))
  /\ (forall n, b.(len) <= n ->
        step w (RemoteRecv (Recv bytes) (Sent n))
        = Ok (set_server (emit_client w1 (offered b 0)) (Some s1))).
Proof.
  intros Hs Hr Hk Hw He s1 w1.
  assert (Hstep : forall sv,
    step w (RemoteRecv (Recv bytes) sv)
    = match sv with
      | SendFail eagain =>
          if eagain then
            Ok (set_remote
                  (set_server w1
                     (Some (set_send_io (set_buf s1 (set_idx s1.(buf) 0)) true)))
                  (Some (set_r_recv_io r false)))
          else Ok (close_both w1)
      | Sent k =>
          let w2 := emit_client w1 (firstn k (offered s1.(buf) 0)) in
          if k <? s1.(buf).(len) then
            let b2 := set_idx (set_len s1.(buf) (s1.(buf).(len) - k)) k in
            Ok (set_remote
                  (set_server w2 (Some (set_send_io (set_buf s1 b2) true)))
                  (Some (set_r_recv_io r false)))
          else Ok (set_server w2 (Some s1))
      end).
  { intros sv. cbn [step]. unfold remote_recv_cb. rewrite Hs, Hr. cbv zeta.
    destruct (Nat.eqb_spec (Nat.min (length bytes) BUF_SIZE) 0) as [E | _];
      [contradiction|].
    rewrite Hw, bind_Ok, He, bind_Ok. cbv beta iota.
    change (negb (0 =? 0)%Z) with false. cbv iota. reflexivity. }
  split; [|split].
  - rewrite Hstep. reflexivity.
  - intros n Hn. rewrite Hstep. cbv zeta. cbn [buf set_buf set_e_ctx s1].
    destruct (Nat.ltb_spec n (len b)) as [_ | H]; [reflexivity | lia].
  - intros n Hn. rewrite Hstep. cbv zeta. cbn [buf set_buf set_e_ctx s1].
    destruct (Nat.ltb_spec n (len b)) as [H | _]; [lia|].
    unfold offered at 1. rewrite firstn_firstn.
    replace (Nat.min n (len b)) with (len b) by lia. reflexivity.
Qed.

(** [remote_send_cb] on a connected target with bytes pending, and
    [server_send_cb] with bytes pending: the state after the call. *)
Lemma remote_send_drains (w : world) (s : server_t) (r : remote_t)
      (peer_ok : bool) :
  w.(server) = Some s -> w.(remote) = Some r -> s.(stage) = 5%Z ->
  r.(connected) <> 0%Z -> 0 < r.(rbuf).(len) ->
  step w (RemoteSend peer_ok (SendFail true)) = Ok w
  /\ (forall n, n < r.(rbuf).(len) ->
        step w (RemoteSend peer_ok (Sent n))
        = Ok (set_remote
                (emit_remote w (firstn n (offered r.(rbuf) r.(rbuf).(idx))))
                (Some (set_rbuf r (set_idx (set_len r.(rbuf) (r.(rbuf).(len) - n))
                                           (r.(rbuf).(idx) + n))))))
  /\ (forall n, r.(rbuf).(len) <= n ->
        step w (RemoteSend peer_ok (Sent n))
        = Ok (set_remote
                (set_server
                   (emit_remote w (offered r.(rbuf) r.(rbuf).(idx)))
                   (Some (set_recv_io s true)))
                (Some (set_r_send_io
                         (set_rbuf r (set_idx (set_len r.(rbuf) 0) 0)) false)))).
Proof.
  intros Hs Hr Hst Hc Hlen.
  assert (Hstep : forall sv,
    step w (RemoteSend peer_ok sv)
    = match sv with
      | SendFail eagain =>
          if eagain then Ok (set_remote w (Some r)) else Ok (close_both w)
      | Sent n =>
          let w2 := emit_remote w (firstn n (offered r.(rbuf) r.(rbuf).(idx))) in
          if n <? r.(rbuf).(len) then
            let b := set_idx (set_len r.(rbuf) (r.(rbuf).(len) - n))
                             (r.(rbuf).(idx) + n) in
            Ok (set_remote w2 (Some (set_rbuf r b)))
          else
            let b := set_idx (set_len r.(rbuf) 0) 0 in
            Ok (set_remote (set_server w2 (Some (set_recv_io s true)))
                           (Some (set_r_send_io (set_rbuf r b) false)))
      end).
  { intros sv. cbn [step]. unfold remote_send_cb. rewrite Hs, Hr.
    apply Z.eqb_neq in Hc. rewrite Hc.
    destruct (Nat.eqb_spec (len (rbuf r)) 0) as [E | _]; [lia|].
    destruct sv as [n | eagain]; [|reflexivity].
    cbv zeta. destruct (n <? len (rbuf r)); [reflexivity|].
    cbn [stage set_recv_io]. rewrite Hst. reflexivity. }
  split; [|split].
  - rewrite Hstep. destruct w. cbn in Hr. subst. reflexivity.
  - intros n Hn. rewrite Hstep. cbv zeta.
    destruct (Nat.ltb_spec n (len (rbuf r))) as [_ | H]; [reflexivity | lia].
  - intros n Hn. rewrite Hstep. cbv zeta.
    destruct (Nat.ltb_spec n (len (rbuf r))) as [H | _]; [lia|].
    unfold offered at 1. rewrite firstn_firstn.
    replace (Nat.min n (len (rbuf r))) with (len (rbuf r)) by lia. reflexivity.
Qed.

Lemma server_send_drains (w : world) (s : server_t) (r : remote_t) :
  w.(server) = Some s -> w.(remote) = Some r -> 0 < s.(buf).(len) ->
  step w (ServerSend (SendFail true)) = Ok w
  /\ (forall n, n < s.(buf).(len) ->
        step w (ServerSend (Sent n))
        = Ok (set_server
                (emit_client w (firstn n (offered s.(buf) s.(buf).(idx))))
                (Some (set_buf s (set_idx (set_len s.(buf) (s.(buf).(len) - n))
                                          (s.(buf).(idx) + n))))))
  /\ (forall n, s.(buf).(len) <= n ->
        step w (ServerSend (Sent n))
        = Ok (set_remote
                (set_server
                   (emit_client w (offered s.(buf) s.(buf).(idx)))
                   (Some (set_send_io
                            (set_buf s (set_idx (set_len s.(buf) 0) 0)) false)))
                (Some (set_r_recv_io r true)))).
Proof.
  intros Hs Hr Hlen.
  assert (Hstep : forall sv,
    step w (ServerSend sv)
    = match sv with
      | SendFail eagain => if eagain then Ok w else Ok (close_both w)
      | Sent n =>
          let w2 := emit_client w (firstn n (offered s.(buf) s.(buf).(idx))) in
          if n <? s.(buf).(len) then
            let b := set_idx (set_len s.(buf) (s.(buf).(len) - n))
                             (s.(buf).(idx) + n) in
            Ok (set_server w2 (Some (set_buf s b)))
          else
            let b := set_idx (set_len s.(buf) 0) 0 in
            Ok (set_remote
                  (set_server w2 (Some (set_send_io (set_buf s b) false)))
                  (Some (set_r_recv_io r true)))
      end).
  { intros sv. cbn [step]. unfold server_send_cb. rewrite Hs, Hr.
    destruct (Nat.eqb_spec (len (buf s)) 0) as [E | _]; [lia|]. reflexivity. }
  split; [|split].
  - rewrite Hstep. reflexivity.
  - intros n Hn. rewrite Hstep. cbv zeta.
    destruct (Nat.ltb_spec n (len (buf s))) as [_ | H]; [reflexivity | lia].
  - intros n Hn. rewrite Hstep. cbv zeta.
    destruct (Nat.ltb_spec n (len (buf s))) as [H | _]; [lia|].
    unfold offered at 1. rewrite firstn_firstn.
    replace (Nat.min n (len (buf s))) with (len (buf s)) by lia. reflexivity.
Qed.


(** C6.  In every state that a connection made by [accept_cb] reaches and
    that has both sides: a read watcher is not active while the send watcher
    of the other side is, that is while a send to the other side is pending.
    In the relay stage (stage 5) the two are complementary: the read watcher
    of a side is stopped exactly when the send watcher of the other side is
    active.  A step of the relay stage that stops a read watcher is the
    receive callback of that side whose [send] returned [EAGAIN] or took
    fewer bytes than it was given ([n] of them, the rest waiting from index
    [n] on); a step that restarts a read watcher leaves the send buffer of
    the other side drained, [len] and [idx] reset to 0, and its send watcher
    stopped.  And the callbacks do so: when [server_recv_cb] has decrypted
    what it received (and checked the chunks of an authenticated
    connection) and [send] to the target returns [EAGAIN] or takes fewer
    bytes than the buffer holds, the state it returns has the read watcher
    of the client stopped and the send watcher of the target started, with
    [idx] at 0 or at the number of bytes taken and [len] less by that
    number; when [send] takes all the bytes the watchers are as they were.
    [remote_recv_cb] does the same towards the client with what it has
    encrypted.  A send-ready callback whose [send] takes all that was
    waiting resets [len] and [idx] to 0, stops its send watcher and
    restarts the read watcher of the other side. *)
Theorem backpressure_invariant
        (g0 : globals) (auth0 : Z) (fast_open0 : bool) (method : Z)
        (rnd : nat -> Z) (w0 w : world) (s : server_t) (r : remote_t) :
  accept_cb g0 auth0 fast_open0 method rnd = Ok w0 ->
  reachable w0 w ->
  w.(server) = Some s -> w.(remote) = Some r ->
  (r.(r_send_io) = true -> s.(recv_io) = false)
  /\ (s.(send_io) = true -> r.(r_recv_io) = false)
  /\ (s.(stage) = 5%Z ->
      (s.(recv_io) = false -> r.(r_send_io) = true)
      /\ (r.(r_recv_io) = false -> s.(send_io) = true)
      /\ (forall (e : event) (w' : world) (s' : server_t) (r' : remote_t),
          enabled w e = true -> step w e = Ok w' ->
          w'.(server) = Some s' -> w'.(remote) = Some r' ->
          (s.(recv_io) = false -> s'.(recv_io) = true ->
           r'.(r_send_io) = false
           /\ r'.(rbuf).(len) = 0 /\ r'.(rbuf).(idx) = 0)
          /\ (r.(r_recv_io) = false -> r'.(r_recv_io) = true ->
              s'.(send_io) = false
              /\ s'.(buf).(len) = 0 /\ s'.(buf).(idx) = 0)
          /\ (s.(recv_io) = true -> s'.(recv_io) = false ->
              r'.(r_send_io) = true
              /\ exists rv sv ip c,
                  e = ServerRecv rv sv ip c
                  /\ (sv = SendFail true
                      \/ exists n, sv = Sent n /\ r'.(rbuf).(idx) = n
                                   /\ 0 < r'.(rbuf).(len)))
          /\ (r.(r_recv_io) = true -> r'.(r_recv_io) = false ->
              s'.(send_io) = true
              /\ exists rv sv,
                  e = RemoteRecv rv sv
                  /\ (sv = SendFail true
                      \/ exists n, sv = Sent n /\ s'.(buf).(idx) = n
                                   /\ 0 < s'.(buf).(len))))
      /\ (forall (bytes a : list Z) (g' : globals) (b : buffer_t)
                 (d : option enc_ctx_t) (pl : buffer_t) (ch : chunk_t)
                 (ip : Z) (c : connect_result),
          Nat.min (length bytes) BUF_SIZE <> 0 ->
          Mem.write r.(rbuf).(array) 0
                    (firstn (Nat.min (length bytes) BUF_SIZE) bytes) = Ok a ->
          ss_decrypt w.(g)
                     (set_len (set_array r.(rbuf) a)
                              (Nat.min (length bytes) BUF_SIZE))
                     s.(d_ctx) BUF_SIZE
          = Ok (0%Z, g', b, d) ->
          (s.(auth) = 0%Z /\ pl = b /\ ch = s.(chunk))
          \/ (s.(auth) <> 0%Z
              /\ exists ret, ret <> 0%Z
                   /\ ss_check_hash g' b s.(chunk) d BUF_SIZE
                      = Ok (ret, pl, ch)) ->
          step w (ServerRecv (Recv bytes) (SendFail true) ip c)
          = Ok (set_remote
                  (set_server (set_g w g')
                     (Some (set_recv_io (set_chunk (set_d_ctx s d) ch) false)))
                  (Some (set_r_send_io (set_rbuf r (set_idx pl 0)) true)))
          /\ (forall n, n < pl.(len) ->
                step w (ServerRecv (Recv bytes) (Sent n) ip c)
                = Ok (set_remote
                        (set_server
                           (emit_remote (set_g w g') (firstn n (offered pl 0)))
                           (Some (set_recv_io (set_chunk (set_d_ctx s d) ch)
                                              false)))
                        (Some (set_r_send_io
                                 (set_rbuf r (set_idx (set_len pl (pl.(len) - n))
                                                      n))
                                 true))))
          /\ (forall n, pl.(len) <= n ->
                step w (ServerRecv (Recv bytes) (Sent n) ip c)
                = Ok (set_remote
                        (set_server (emit_remote (set_g w g') (offered pl 0))
                                    (Some (set_chunk (set_d_ctx s d) ch)))
                        (Some (set_rbuf r pl)))))
      /\ (forall (bytes a : list Z) (g' : globals) (b : buffer_t)
                 (e : option enc_ctx_t),
          Nat.min (length bytes) BUF_SIZE <> 0 ->
          Mem.write s.(buf).(array) 0
                    (firstn (Nat.min (length bytes) BUF_SIZE) bytes) = Ok a ->
          ss_encrypt w.(g)
                     (set_len (set_array s.(buf) a)
                              (Nat.min (length bytes) BUF_SIZE))
                     s.(e_ctx) BUF_SIZE
          = Ok (0%Z, g', b, e) ->
          step w (RemoteRecv (Recv bytes) (SendFail true))
          = Ok (set_remote
                  (set_server (set_g w g')
                     (Some (set_send_io
                              (set_buf (set_e_ctx (set_buf s b) e) (set_idx b 0))
                              true)))
                  (Some (set_r_recv_io r false)))
          /\ (forall n, n < b.(len) ->
                step w (RemoteRecv (Recv bytes) (Sent n))
                = Ok (set_remote
                        (set_server
                           (emit_client (set_g w g') (firstn n (offered b 0)))
                           (Some (set_send_io
                                    (set_buf (set_e_ctx (set_buf s b) e)
                                             (set_idx (set_len b (b.(len) - n))
                                                      n))
                                    true)))
                        (Some (set_r_recv_io r false))))
          /\ (forall n, b.(len) <= n ->
                step w (RemoteRecv (Recv bytes) (Sent n))
                = Ok (set_server
                        (emit_client (set_g w g') (offered b 0))
                        (Some (set_e_ctx (set_buf s b) e)))))
      /\ (forall (peer_ok : bool) (n : nat),
          0 < r.(rbuf).(len) -> r.(rbuf).(len) <= n ->
          step w (RemoteSend peer_ok (Sent n))
          = Ok (set_remote
                  (set_server
                     (emit_remote w (offered r.(rbuf) r.(rbuf).(idx)))
                     (Some (set_recv_io s true)))
                  (Some (set_r_send_io
                           (set_rbuf r (set_idx (set_len r.(rbuf) 0) 0))
                           false))))
      /\ (forall n : nat,
          0 < s.(buf).(len) -> s.(buf).(len) <= n ->
          step w (ServerSend (Sent n))
          = Ok (set_remote
                  (set_server
                     (emit_client w (offered s.(buf) s.(buf).(idx)))
                     (Some (set_send_io
                              (set_buf s (set_idx (set_len s.(buf) 0) 0))
                              false)))
                  (Some (set_r_recv_io r true))))).
Proof.
  intros Hacc Hreach Hs Hr.
  assert (Hok : watchers_ok w).
  { apply (reachable_ok w0 w); [|exact Hreach].
    apply (accept_cb_ok g0 auth0 fast_open0 method rnd w0 Hacc). }
  pose proof Hok as Hok'.
  unfold watchers_ok in Hok'. rewrite Hs, Hr in Hok'.
  destruct Hok' as [_ [_ [_ [Hbp1 [Hbp2 [_ [Hconn Hrelay]]]]]]].
  split; [exact Hbp1|]. split; [exact Hbp2|].
  intros Hst. destruct (Hrelay Hst) as [Hr1 Hr2].
  split; [|split; [|split; [|split; [|split; [|split]]]]].
  - intros Hrecv. rewrite Hr1, Hrecv. reflexivity.
  - intros Hrecv. rewrite Hr2, Hrecv. reflexivity.
  - intros e w' s' r' Hen Hstep Hs' Hr'.
    exact (relay_step_effects w w' e s s' r r' Hok Hen Hstep Hs Hr Hst Hs' Hr').
  - intros bytes a g' b d pl ch ip c Hk Hw Hd Hh.
    exact (server_recv_sends w s r bytes a g' b d pl ch ip c
                             Hs Hr Hst Hk Hw Hd Hh).
  - intros bytes a g' b e Hk Hw He.
    exact (remote_recv_sends w s r bytes a g' b e Hs Hr Hk Hw He).
  - intros peer_ok n Hlen Hn.
    assert (Hc : connected r <> 0%Z).
    { intros E. exact (Hconn E Hst). }
    destruct (remote_send_drains w s r peer_ok Hs Hr Hst Hc Hlen)
      as [_ [_ H]].
    exact (H n Hn).
  - intros n Hlen Hn.
    destruct (server_send_drains w s r Hs Hr Hlen) as [_ [_ H]].
    exact (H n Hn).
Qed.


(** *** Authentication asked for by the header *)









End WithBackend.

(** The connection of [Samples.w_accepted] receives three bytes of the
    sixteen of its IV. *)
Lemma stage0_incomplete_iv_waits_witness :
  exists b : buffer_t,
    server_recv_cb Samples.w_accepted (Recv [1; 2; 3]%Z) (Sent 0) (-1) SocketFailed
    = Ok (set_server Samples.w_accepted (Some (set_buf Samples.s_accepted b)))
    /\ b.(len) = 3
    /\ contents b = [1; 2; 3]%Z
    /\ (set_buf Samples.s_accepted b).(stage) = 0%Z
    /\ (set_buf Samples.s_accepted b).(d_ctx) = Samples.s_accepted.(d_ctx)
    /\ (set_server Samples.w_accepted (Some (set_buf Samples.s_accepted b))).(g)
       = Samples.w_accepted.(g).
Proof.
  apply (@stage0_incomplete_iv_waits Toy.backend Samples.w_accepted
           Samples.s_accepted [1; 2; 3]%Z (Sent 0) (-1)%Z SocketFailed);
    first [reflexivity | cbv; lia].
Defined.

(** The session of [Samples] is a run of the connection. *)
Lemma sample_session_reachable :
  reachable Samples.w_accepted Samples.w_pending_both.
Proof.
  apply (reach_step _ Samples.w_pending_remote Samples.target_data_partly_sent);
    [|reflexivity|reflexivity].
  apply (reach_step _ Samples.w_relay Samples.client_data_partly_sent);
    [|reflexivity|reflexivity].
  apply (reach_step _ Samples.w_connecting Samples.target_connects);
    [|reflexivity|reflexivity].
  apply (reach_step _ Samples.w_accepted Samples.request_arrives);
    [|reflexivity|reflexivity].
  apply reach_start.
Qed.

(** In the session of [Samples] the target socket takes two of the five
    bytes that [server_recv_cb] has for it: the callback stops the read
    watcher of the client and starts the send watcher of the target, three
    bytes waiting from index 2 on.  Then the client socket takes one of the
    nineteen bytes (the IV and three bytes from the target) that
    [remote_recv_cb] has for it, and the callback stops the
    read watcher of the target and starts the send watcher of the client. *)
Lemma sample_partial_sends_stop_reading :
  step Samples.w_relay Samples.client_data_partly_sent
  = Ok Samples.w_pending_remote
  /\ (Samples.the_server Samples.w_relay).(recv_io) = true
  /\ (Samples.the_remote Samples.w_relay).(r_send_io) = false
  /\ (Samples.the_server Samples.w_pending_remote).(recv_io) = false
  /\ (Samples.the_remote Samples.w_pending_remote).(r_send_io) = true
  /\ (Samples.the_remote Samples.w_pending_remote).(rbuf).(idx) = 2
  /\ (Samples.the_remote Samples.w_pending_remote).(rbuf).(len) = 3
  /\ step Samples.w_pending_remote Samples.target_data_partly_sent
     = Ok Samples.w_pending_both
  /\ (Samples.the_remote Samples.w_pending_remote).(r_recv_io) = true
  /\ (Samples.the_server Samples.w_pending_remote).(send_io) = false
  /\ Samples.r_pending_both.(r_recv_io) = false
  /\ Samples.s_pending_both.(send_io) = true
  /\ Samples.s_pending_both.(buf).(idx) = 1
  /\ Samples.s_pending_both.(buf).(len) = 18.
Proof.
  repeat split; reflexivity.
Qed.

(** In [Samples.w_pending_both] both send watchers are active and both read
    watchers are stopped; the target socket then takes the three bytes that
    wait for it, and the read watcher of the client is restarted. *)
Lemma backpressure_invariant_witness :
  (Samples.r_pending_both.(r_send_io) = true -> Samples.s_pending_both.(recv_io) = false)
  /\ (Samples.s_pending_both.(send_io) = true -> Samples.r_pending_both.(r_recv_io) = false)
  /\ (Samples.s_pending_both.(stage) = 5%Z ->
      (Samples.s_pending_both.(recv_io) = false -> Samples.r_pending_both.(r_send_io) = true)
      /\ (Samples.r_pending_both.(r_recv_io) = false -> Samples.s_pending_both.(send_io) = true)
      /\ (forall (e : event) (w' : world) (s' : server_t) (r' : remote_t),
          enabled Samples.w_pending_both e = true -> step Samples.w_pending_both e = Ok w' ->
          w'.(server) = Some s' -> w'.(remote) = Some r' ->
          (Samples.s_pending_both.(recv_io) = false -> s'.(recv_io) = true ->
           r'.(r_send_io) = false
           /\ r'.(rbuf).(len) = 0 /\ r'.(rbuf).(idx) = 0)
          /\ (Samples.r_pending_both.(r_recv_io) = false -> r'.(r_recv_io) = true ->
              s'.(send_io) = false
              /\ s'.(buf).(len) = 0 /\ s'.(buf).(idx) = 0)
          /\ (Samples.s_pending_both.(recv_io) = true -> s'.(recv_io) = false ->
              r'.(r_send_io) = true
              /\ exists rv sv ip c,
                  e = ServerRecv rv sv ip c
                  /\ (sv = SendFail true
                      \/ exists n, sv = Sent n /\ r'.(rbuf).(idx) = n
                                   /\ 0 < r'.(rbuf).(len)))
          /\ (Samples.r_pending_both.(r_recv_io) = true -> r'.(r_recv_io) = false ->
              s'.(send_io) = true
              /\ exists rv sv,
                  e = RemoteRecv rv sv
                  /\ (sv = SendFail true
                      \/ exists n, sv = Sent n /\ s'.(buf).(idx) = n
                                   /\ 0 < s'.(buf).(len))))
      /\ (forall (bytes a : list Z) (g' : globals) (b : buffer_t)
                 (d : option enc_ctx_t) (pl : buffer_t) (ch : chunk_t)
                 (ip : Z) (c : connect_result),
          Nat.min (length bytes) BUF_SIZE <> 0 ->
          Mem.write Samples.r_pending_both.(rbuf).(array) 0
                    (firstn (Nat.min (length bytes) BUF_SIZE) bytes) = Ok a ->
          ss_decrypt Samples.w_pending_both.(g)
                     (set_len (set_array Samples.r_pending_both.(rbuf) a)
                              (Nat.min (length bytes) BUF_SIZE))
                     Samples.s_pending_both.(d_ctx) BUF_SIZE
          = Ok (0%Z, g', b, d) ->
          (Samples.s_pending_both.(auth) = 0%Z /\ pl = b /\ ch = Samples.s_pending_both.(chunk))
          \/ (Samples.s_pending_both.(auth) <> 0%Z
              /\ exists ret, ret <> 0%Z
                   /\ ss_check_hash g' b Samples.s_pending_both.(chunk) d BUF_SIZE
                      = Ok (ret, pl, ch)) ->
          step Samples.w_pending_both (ServerRecv (Recv bytes) (SendFail true) ip c)
          = Ok (set_remote
                  (set_server (set_g Samples.w_pending_both g')
                     (Some (set_recv_io (set_chunk (set_d_ctx Samples.s_pending_both d) ch) false)))
                  (Some (set_r_send_io (set_rbuf Samples.r_pending_both (set_idx pl 0)) true)))
          /\ (forall n, n < pl.(len) ->
                step Samples.w_pending_both (ServerRecv (Recv bytes) (Sent n) ip c)
                = Ok (set_remote
                        (set_server
                           (emit_remote (set_g Samples.w_pending_both g') (firstn n (offered pl 0)))
                           (Some (set_recv_io (set_chunk (set_d_ctx Samples.s_pending_both d) ch)
                                              false)))
                        (Some (set_r_send_io
                                 (set_rbuf Samples.r_pending_both (set_idx (set_len pl (pl.(len) - n))
                                                      n))
                                 true))))
          /\ (forall n, pl.(len) <= n ->
                step Samples.w_pending_both (ServerRecv (Recv bytes) (Sent n) ip c)
                = Ok (set_remote
                        (set_server (emit_remote (set_g Samples.w_pending_both g') (offered pl 0))
                                    (Some (set_chunk (set_d_ctx Samples.s_pending_both d) ch)))
                        (Some (set_rbuf Samples.r_pending_both pl)))))
      /\ (forall (bytes a : list Z) (g' : globals) (b : buffer_t)
                 (e : option enc_ctx_t),
          Nat.min (length bytes) BUF_SIZE <> 0 ->
          Mem.write Samples.s_pending_both.(buf).(array) 0
                    (firstn (Nat.min (length bytes) BUF_SIZE) bytes) = Ok a ->
          ss_encrypt Samples.w_pending_both.(g)
                     (set_len (set_array Samples.s_pending_both.(buf) a)
                              (Nat.min (length bytes) BUF_SIZE))
                     Samples.s_pending_both.(e_ctx) BUF_SIZE
          = Ok (0%Z, g', b, e) ->
          step Samples.w_pending_both (RemoteRecv (Recv bytes) (SendFail true))
          = Ok (set_remote
                  (set_server (set_g Samples.w_pending_both g')
                     (Some (set_send_io
                              (set_buf (set_e_ctx (set_buf Samples.s_pending_both b) e) (set_idx b 0))
                              true)))
                  (Some (set_r_recv_io Samples.r_pending_both false)))
          /\ (forall n, n < b.(len) ->
                step Samples.w_pending_both (RemoteRecv (Recv bytes) (Sent n))
                = Ok (set_remote
                        (set_server
                           (emit_client (set_g Samples.w_pending_both g') (firstn n (offered b 0)))
                           (Some (set_send_io
                                    (set_buf (set_e_ctx (set_buf Samples.s_pending_both b) e)
                                             (set_idx (set_len b (b.(len) - n))
                                                      n))
                                    true)))
                        (Some (set_r_recv_io Samples.r_pending_both false))))
          /\ (forall n, b.(len) <= n ->
                step Samples.w_pending_both (RemoteRecv (Recv bytes) (Sent n))
                = Ok (set_server
                        (emit_client (set_g Samples.w_pending_both g') (offered b 0))
                        (Some (set_e_ctx (set_buf Samples.s_pending_both b) e)))))
      /\ (forall (peer_ok : bool) (n : nat),
          0 < Samples.r_pending_both.(rbuf).(len) -> Samples.r_pending_both.(rbuf).(len) <= n ->
          step Samples.w_pending_both (RemoteSend peer_ok (Sent n))
          = Ok (set_remote
                  (set_server
                     (emit_remote Samples.w_pending_both (offered Samples.r_pending_both.(rbuf) Samples.r_pending_both.(rbuf).(idx)))
                     (Some (set_recv_io Samples.s_pending_both true)))
                  (Some (set_r_send_io
                           (set_rbuf Samples.r_pending_both (set_idx (set_len Samples.r_pending_both.(rbuf) 0) 0))
                           false))))
      /\ (forall n : nat,
          0 < Samples.s_pending_both.(buf).(len) -> Samples.s_pending_both.(buf).(len) <= n ->
          step Samples.w_pending_both (ServerSend (Sent n))
          = Ok (set_remote
                  (set_server
                     (emit_client Samples.w_pending_both (offered Samples.s_pending_both.(buf) Samples.s_pending_both.(buf).(idx)))
                     (Some (set_send_io
                              (set_buf Samples.s_pending_both (set_idx (set_len Samples.s_pending_both.(buf) 0) 0))
                              false)))
                  (Some (set_r_recv_io Samples.r_pending_both true))))).
Proof.
  apply (@backpressure_invariant Toy.backend Samples.g_aes 0 false AES_256_CFB
           Toy.rnd Samples.w_accepted Samples.w_pending_both
           Samples.s_pending_both Samples.r_pending_both).
  - reflexivity.
  - exact sample_session_reachable.
  - reflexivity.
  - reflexivity.
Defined.



(** *** The header of a request *)

Import EncryptFacts.

Section Handshake.
Context {B : Backend}.

(** reading a buffer that holds [bytes] *)
Lemma held_read (b : buffer_t) (bytes : list Z) (off n : nat) :
  buffer_ok b -> contents b = bytes -> off + n <= length bytes ->
  Mem.read b.(array) off n = Ok (firstn n (skipn off bytes)).
Proof.
  intros [Lb Hb] Hc Hn.
  assert (Ll : length bytes = len b).
  { rewrite <- Hc. unfold contents. rewrite length_firstn. lia. }
  rewrite MemFacts.read_ok by lia. f_equal.
  apply (prefix_window _ _ (len b)); [|lia].
  fold (contents b). rewrite Hc. symmetry. apply firstn_all2. lia.
Qed.

Lemma held_get (b : buffer_t) (bytes : list Z) (i : nat) :
  buffer_ok b -> contents b = bytes -> i < length bytes ->
  Mem.get b.(array) i = Ok (nth i bytes 0%Z).
Proof.
  intros [Lb Hb] Hc Hi.
  assert (Ll : length bytes = len b).
  { rewrite <- Hc. unfold contents. rewrite length_firstn. lia. }
  rewrite MemFacts.get_ok by lia. f_equal.
  rewrite <- Hc. unfold contents. rewrite nth_firstn.
  destruct (Nat.ltb_spec i (len b)); [reflexivity | lia].
Qed.

(** the header of a request that does not ask for authentication, when
    the server does not demand it *)
Lemma header_auth_none (w : world) (s : server_t) (atyp : Z) :
  w.(cfg_auth) = 0%Z -> Z.land atyp ONETIMEAUTH_FLAG = 0%Z ->
  header_auth w s atyp = Ok (Some s).
Proof.
  intros Hc Hf. unfold header_auth. rewrite Hc, Hf. reflexivity.
Qed.


(** the bytes of a header and the payload behind it, taken apart *)
Lemma header_parts (x : Z) (addr pt payload : list Z) :
  length pt = 2 ->
  firstn (length addr) (skipn 1 (x :: addr ++ pt ++ payload)) = addr
  /\ firstn 2 (skipn (1 + length addr) (x :: addr ++ pt ++ payload)) = pt
  /\ skipn (1 + length addr + 2) (x :: addr ++ pt ++ payload) = payload.
Proof.
  intros Hp. cbn [skipn Nat.add]. repeat split.
  - rewrite firstn_app, firstn_all, Nat.sub_diag. cbn [firstn]. apply app_nil_r.
  - rewrite skipn_app, skipn_all, Nat.sub_diag. cbn [skipn app].
    rewrite <- Hp. rewrite firstn_app, firstn_all, Nat.sub_diag.
    cbn [firstn]. apply app_nil_r.
  - replace (length addr + 2) with (length addr + length pt) by lia.
    rewrite <- length_app, app_assoc. rewrite skipn_app, skipn_all, Nat.sub_diag.
    reflexivity.
Qed.

(** What stage 0 does once the address is known, for a request that is
    not authenticated and a target that needs no query: the header is
    cut off, the target is connected to and the payload handed over. *)
Lemma handshake_tail (w : world) (s : server_t) (bytes payload : list Z)
      (offset : nat) (t : target) (tfo : tfo_result) :
  w.(fast_open) = false -> s.(auth) = 0%Z ->
  buffer_ok s.(buf) -> s.(buf).(len) <= BUF_SIZE ->
  contents s.(buf) = bytes -> offset <= length bytes ->
  skipn offset bytes = payload ->
  exists s' r',
    (if s.(buf).(len) <? offset then Ok (close_and_free_server w)
     else
       let n := s.(buf).(len) - offset in
       a <- Mem.memmove s.(buf).(array) 0 s.(buf).(array) offset n ;;
       let s := set_buf s (set_len (set_array s.(buf) a) n) in
       hashed <-
         (if negb (s.(auth) =? 0)%Z then
            '(ret, b, ch) <- ss_check_hash w.(g) s.(buf) s.(chunk)
                                          s.(d_ctx) BUF_SIZE ;;
            Ok (negb (ret =? 0)%Z, set_chunk (set_buf s b) ch)
          else Ok (true, s)) ;;
       let '(ok, s) := hashed in
       if negb ok then Ok (close_and_free_server w)
       else
         let '(w, s, r) := connect_to_remote w s t (Connecting tfo) in
         match r with
         | None => Ok (close_and_free_server w)
         | Some r =>
             '(s, r) <- hand_over s r 0 ;;
             let s := set_recv_io (set_stage s 4) false in
             let r := set_r_send_io r true in
             Ok (set_remote (set_server w (Some s)) (Some r))
         end)
    = Ok (set_remote (set_server w (Some s')) (Some r'))
    /\ s'.(stage) = 4%Z /\ s'.(recv_io) = false /\ s'.(buf).(len) = 0
    /\ s'.(auth) = 0%Z /\ s'.(chunk) = s.(chunk) /\ s'.(query) = s.(query)
    /\ s'.(send_io) = s.(send_io)
    /\ r'.(peer) = t
    /\ contents r'.(rbuf) = payload /\ r'.(rbuf).(idx) = 0
    /\ r'.(r_send_io) = true /\ r'.(r_recv_io) = false
    /\ r'.(connected) = 0%Z.
Proof.
  intros Hfo Hauth Hbuf Hsize Hc Hoff Hpay.
  pose proof Hbuf as [Lb Hb].
  assert (Ll : length bytes = len (buf s)).
  { rewrite <- Hc. unfold contents. rewrite length_firstn. lia. }
  destruct (Nat.ltb_spec (len (buf s)) offset) as [H | _]; [lia|].
  cbv zeta. unfold Mem.memmove.
  destruct (MemFacts.memcpy_ex (array (buf s)) 0 (array (buf s)) offset
                               (len (buf s) - offset))
    as [a [Ea [La [Fa _]]]]; [lia | lia |].
  rewrite Ea, bind_Ok. cbn [auth set_buf]. rewrite Hauth.
  change (negb (0 =? 0)%Z) with false. cbv iota. rewrite bind_Ok.
  cbv beta iota. cbn [negb].
  unfold connect_to_remote. rewrite Hfo.
  cbn [Nat.add firstn app] in Fa.
  assert (Fa' : firstn (len (buf s) - offset) a = payload).
  { rewrite Fa, <- Hpay.
    rewrite (prefix_window (array (buf s)) bytes (len (buf s)) offset
                           (len (buf s) - offset)); [|fold (contents (buf s))|lia].
    - apply firstn_all2. rewrite length_skipn. lia.
    - rewrite Hc. symmetry. apply firstn_all2. lia. }
  unfold hand_over. cbn [buf set_buf len set_len array set_array rbuf new_remote].
  destruct (Nat.ltb_spec 0 (len (buf s) - offset)) as [Hpos | Hzero].
  - destruct (MemFacts.memcpy_ex (array (balloc BUF_SIZE)) 0 a 0
                                 (len (buf s) - offset))
      as [ra [Era [Lra [Fra _]]]].
    { lia. }
    { cbn [balloc array]. rewrite repeat_length. lia. }
    rewrite Era, bind_Ok. cbv beta iota.
    eexists. eexists. split; [reflexivity|].
    cbn. repeat split; try assumption; try reflexivity.
    unfold contents. cbn [len array set_idx set_len set_array].
    cbn [Nat.add firstn app skipn] in Fra. rewrite Fra. exact Fa'.
  - rewrite bind_Ok. cbv beta iota.
    eexists. eexists. split; [reflexivity|].
    cbn. repeat split; try assumption; try reflexivity; try lia.
    assert (E0 : len (buf s) - offset = 0) by lia.
    rewrite E0 in Fa'. cbn [firstn] in Fa'. rewrite <- Fa'. reflexivity.
Qed.


(** stage 0 on a request for a literal address that is not authenticated *)
Lemma handshake_direct (w : world) (s : server_t) (atyp fam : Z)
        (addr pt payload : list Z) (ip : Z) (tfo : tfo_result) :
  w.(cfg_auth) = 0%Z -> w.(fast_open) = false -> s.(auth) = 0%Z ->
  Z.land atyp ONETIMEAUTH_FLAG = 0%Z ->
  (Z.land atyp ADDRTYPE_MASK = 1%Z /\ length addr = 4 /\ fam = 4%Z)
  \/ (Z.land atyp ADDRTYPE_MASK = 4%Z /\ length addr = 16 /\ fam = 6%Z) ->
  length pt = 2 ->
  buffer_ok s.(buf) -> s.(buf).(len) <= BUF_SIZE ->
  contents s.(buf) = atyp :: addr ++ pt ++ payload ->
  exists s' r',
    server_handshake w s ip (Connecting tfo)
    = Ok (set_remote (set_server w (Some s')) (Some r'))
    /\ s'.(stage) = 4%Z /\ s'.(recv_io) = false /\ s'.(buf).(len) = 0
    /\ s'.(auth) = 0%Z /\ s'.(chunk) = s.(chunk) /\ s'.(query) = s.(query)
    /\ s'.(send_io) = s.(send_io)
    /\ r'.(peer) = {| family := fam; host := addr; port := pt |}
    /\ contents r'.(rbuf) = payload /\ r'.(rbuf).(idx) = 0
    /\ r'.(r_send_io) = true /\ r'.(r_recv_io) = false
    /\ r'.(connected) = 0%Z.
Proof.
  intros Hcfg Hfo Hauth Hflag Htype Hpt Hbuf Hsize Hc.
  set (bytes := atyp :: addr ++ pt ++ payload) in *.
  assert (Lbytes : length bytes = 1 + length addr + 2 + length payload).
  { unfold bytes. cbn [length]. rewrite !length_app. lia. }
  assert (Ll : length bytes = len (buf s)).
  { rewrite <- Hc. unfold contents. destruct Hbuf as [Lb Hb].
    rewrite length_firstn. lia. }
  destruct (header_parts atyp addr pt payload Hpt) as [Paddr [Ppt Ppay]].
  fold bytes in Paddr, Ppt, Ppay.
  destruct (handshake_tail w s bytes payload (1 + length addr + 2)
              {| family := fam; host := addr; port := pt |} tfo
              Hfo Hauth Hbuf Hsize Hc ltac:(lia) Ppay)
    as [s' [r' [E H]]].
  exists s', r'. split; [|exact H]. rewrite <- E.
  unfold server_handshake.
  rewrite (held_get (buf s) bytes 0 Hbuf Hc) by lia.
  change (nth 0 bytes 0%Z) with atyp. rewrite bind_Ok.
  rewrite (header_auth_none w s atyp Hcfg Hflag), bind_Ok. cbv iota.
  unfold parse_address. cbv zeta.
  destruct Htype as [[Ht [La ->]] | [Ht [La ->]]]; rewrite Ht, La in *.
  - change (1 =? 1)%Z with true. cbv iota.
    destruct (Nat.leb_spec (4 + 3) (len (buf s))) as [_ | Hs]; [|lia].
    rewrite (held_read (buf s) bytes 1 4 Hbuf Hc) by lia.
    rewrite Paddr, bind_Ok, bind_Ok. cbv iota.
    change (1 + 4 =? 1) with false. cbv iota.
    rewrite (held_read (buf s) bytes (1 + 4) 2 Hbuf Hc) by lia.
    rewrite Ppt, bind_Ok. cbv zeta. rewrite Hauth.
    change (negb (0 =? 0)%Z) with false. cbv iota.
    reflexivity.
  - change (4 =? 1)%Z with false. change (4 =? 3)%Z with false.
    change (4 =? 4)%Z with true. cbv iota.
    destruct (Nat.leb_spec (16 + 3) (len (buf s))) as [_ | Hs]; [|lia].
    rewrite (held_read (buf s) bytes 1 16 Hbuf Hc) by lia.
    rewrite Paddr, bind_Ok, bind_Ok. cbv iota.
    change (1 + 16 =? 1) with false. cbv iota.
    rewrite (held_read (buf s) bytes (1 + 16) 2 Hbuf Hc) by lia.
    rewrite Ppt, bind_Ok. cbv zeta. rewrite Hauth.
    change (negb (0 =? 0)%Z) with false. cbv iota.
    reflexivity.
Qed.

(** X9.  A request for an IPv4 or an IPv6 address that is not
    authenticated, with fast open off: stage 0 opens a connection to the
    address and the port of the header, hands the payload behind the header
    over to the buffer of the target, stops reading the client and waits in
    stage 4 for the target to become writable. *)
Theorem direct_request_connects (w : world) (s : server_t) (atyp fam : Z)
        (addr pt payload : list Z) (ip : Z) (tfo : tfo_result) :
  w.(cfg_auth) = 0%Z -> w.(fast_open) = false -> s.(auth) = 0%Z ->
  Z.land atyp ONETIMEAUTH_FLAG = 0%Z ->
  (Z.land atyp ADDRTYPE_MASK = 1%Z /\ length addr = 4 /\ fam = 4%Z)
  \/ (Z.land atyp ADDRTYPE_MASK = 4%Z /\ length addr = 16 /\ fam = 6%Z) ->
  length pt = 2 ->
  buffer_ok s.(buf) -> s.(buf).(len) <= BUF_SIZE ->
  contents s.(buf) = atyp :: addr ++ pt ++ payload ->
  exists s' r',
    server_handshake w s ip (Connecting tfo)
    = Ok (set_remote (set_server w (Some s')) (Some r'))
    /\ s'.(stage) = 4%Z /\ s'.(recv_io) = false /\ s'.(buf).(len) = 0
    /\ s'.(auth) = 0%Z /\ s'.(chunk) = s.(chunk) /\ s'.(query) = s.(query)
    /\ s'.(send_io) = s.(send_io)
    /\ r'.(peer) = {| family := fam; host := addr; port := pt |}
    /\ contents r'.(rbuf) = payload /\ r'.(rbuf).(idx) = 0
    /\ r'.(r_send_io) = true /\ r'.(r_recv_io) = false
    /\ r'.(connected) = 0%Z.
Proof. exact (handshake_direct w s atyp fam addr pt payload ip tfo). Qed.



(** X10.  A request for a host name that is not a literal address, not
    authenticated, with fast open off: stage 0 stops reading the client
    and leaves a query for the name with the port of the header, keeping
    the payload in the buffer of the client side.  When the resolver
    answers with an address, [server_resolve_cb] connects to that address
    and that port and hands the payload over; when it has none, the
    connection is closed. *)
Theorem name_request_resolves_then_connects
        (w : world) (s : server_t) (atyp n : Z) (name pt payload : list Z)
        (c : connect_result) :
  w.(cfg_auth) = 0%Z -> w.(fast_open) = false -> s.(auth) = 0%Z ->
  Z.land atyp ONETIMEAUTH_FLAG = 0%Z -> Z.land atyp ADDRTYPE_MASK = 3%Z ->
  (0 <= n < 256)%Z -> length name = Z.to_nat n -> length pt = 2 ->
  buffer_ok s.(buf) -> s.(buf).(len) <= BUF_SIZE -> s.(buf).(idx) = 0 ->
  contents s.(buf) = atyp :: n :: name ++ pt ++ payload ->
  exists s1,
    server_handshake w s (-1) c = Ok (set_server w (Some s1))
    /\ s1.(query) = Some {| family := 0; host := name; port := pt |}
    /\ s1.(stage) = 4%Z /\ s1.(recv_io) = false
    /\ contents s1.(buf) = payload
    /\ server_resolve_cb (set_server w (Some s1)) None c
       = Ok (close_and_free_server (set_server w (Some s1)))
    /\ forall (fam : Z) (a : list Z) (tfo : tfo_result),
       exists w2 s2 r2,
         server_resolve_cb (set_server w (Some s1)) (Some (fam, a))
                           (Connecting tfo) = Ok w2
         /\ w2.(server) = Some s2 /\ w2.(remote) = Some r2
         /\ w2.(to_remote) = w.(to_remote)
         /\ s2.(query) = None /\ s2.(stage) = 4%Z /\ s2.(recv_io) = false
         /\ s2.(buf).(len) = 0
         /\ r2.(peer) = {| family := fam; host := a; port := pt |}
         /\ contents r2.(rbuf) = payload /\ r2.(rbuf).(idx) = 0
         /\ r2.(r_send_io) = true /\ r2.(r_recv_io) = false
         /\ r2.(connected) = 0%Z.
Proof.
  intros Hcfg Hfo Hauth Hflag Htype Hn Hname Hpt Hbuf Hsize Hidx Hc.
  set (bytes := atyp :: n :: name ++ pt ++ payload) in *.
  assert (Lbytes : length bytes = 2 + length name + 2 + length payload).
  { unfold bytes. cbn [length]. rewrite !length_app. lia. }
  pose proof Hbuf as [Lb Hb].
  assert (Ll : length bytes = len (buf s)).
  { rewrite <- Hc. unfold contents. rewrite length_firstn. lia. }
  destruct (header_parts n name pt payload Hpt) as [Pname [Ppt Ppay]].
  assert (Pname' : firstn (length name) (skipn 2 bytes) = name) by exact Pname.
  assert (Ppt' : firstn 2 (skipn (2 + length name) bytes) = pt) by exact Ppt.
  assert (Ppay' : skipn (2 + length name + 2) bytes = payload) by exact Ppay.
  clear Pname Ppt Ppay.
  assert (Hnl : Z.to_nat (n mod 256) = length name).
  { rewrite Z.mod_small by lia. lia. }
  (* the buffer after the header is cut off *)
  set (off := 2 + length name + 2) in *.
  set (n0 := len (buf s) - off).
  destruct (MemFacts.memcpy_ex (array (buf s)) 0 (array (buf s)) off n0)
    as [a [Ea [La [Fa _]]]]; [unfold n0; lia | unfold n0; lia |].
  rewrite Nat.add_0_l in Fa. cbn [firstn app] in Fa.
  assert (Fa' : firstn n0 a = payload).
  { rewrite Fa, <- Ppay'.
    rewrite (prefix_window (array (buf s)) bytes (len (buf s)) off n0);
      [|fold (contents (buf s))|unfold n0; lia].
    - apply firstn_all2. rewrite length_skipn. unfold n0. lia.
    - rewrite Hc. symmetry. apply firstn_all2. lia. }
  eexists. split.
  { unfold server_handshake.
    rewrite (held_get (buf s) bytes 0 Hbuf Hc) by lia.
    change (nth 0 bytes 0%Z) with atyp. rewrite bind_Ok.
    rewrite (header_auth_none w s atyp Hcfg Hflag), bind_Ok. cbv iota.
    unfold parse_address. cbv zeta. rewrite Htype.
    change (3 =? 1)%Z with false. change (3 =? 3)%Z with true. cbv iota.
    rewrite (held_get (buf s) bytes 1 Hbuf Hc) by lia.
    change (nth 1 bytes 0%Z) with n. rewrite bind_Ok, Hnl.
    destruct (Nat.leb_spec (length name + 4) (len (buf s))) as [_ | Hs]; [|lia].
    rewrite (held_read (buf s) bytes 2 (length name) Hbuf Hc) by lia.
    rewrite Pname', bind_Ok. change (-1 =? -1)%Z with true. cbv iota.
    rewrite bind_Ok. cbv iota.
    destruct (Nat.eqb_spec (1 + (length name + 1)) 1) as [H1 | _]; [lia|].
    replace (1 + (length name + 1)) with (2 + length name) by lia.
    rewrite (held_read (buf s) bytes (2 + length name) 2 Hbuf Hc) by lia.
    rewrite Ppt', bind_Ok. cbv zeta. rewrite Hauth.
    change (negb (0 =? 0)%Z) with false. cbv iota.
    fold off.
    destruct (Nat.ltb_spec (len (buf s)) off) as [H | _]; [unfold off in H; lia|].
    fold n0. unfold Mem.memmove. rewrite Ea, bind_Ok. cbn [auth set_buf]. rewrite Hauth.
    change (negb (0 =? 0)%Z) with false. cbv iota. rewrite bind_Ok.
    cbv beta iota. cbn [negb]. reflexivity. }
  cbn [query stage recv_io buf set_recv_io set_query set_stage set_buf].
  split; [reflexivity|]. split; [reflexivity|]. split; [reflexivity|].
  split.
  { unfold contents. cbn [len array set_len set_array]. exact Fa'. }
  split; [reflexivity|].
  intros fam a' tfo.
  assert (Hn0 : n0 <= BUF_SIZE) by (unfold n0; lia).
  assert (Hna : n0 <= length a) by (unfold n0; lia).
  clearbody n0. clear Ea.
  unfold server_resolve_cb.
  cbn [server set_server query set_query set_recv_io set_stage set_buf].
  unfold connect_to_remote.
  cbn [fast_open set_server]. rewrite Hfo.
  unfold hand_over.
  cbn [buf set_query set_recv_io set_stage set_buf len set_len array set_array
       idx rbuf new_remote port].
  rewrite Hidx.
  destruct (Nat.ltb_spec 0 n0) as [Hpos | Hzero].
  - destruct (MemFacts.memcpy_ex (array (balloc BUF_SIZE)) 0 a 0 n0)
      as [ra [Era [Lra [Fra _]]]].
    { lia. }
    { cbn [balloc array]. rewrite repeat_length. exact Hn0. }
    rewrite Era, bind_Ok. cbv beta iota.
    eexists. eexists. eexists. split; [reflexivity|].
    cbn. repeat split; try reflexivity.
    unfold contents. cbn.
    rewrite Nat.add_0_l in Fra. cbn [firstn app skipn] in Fra.
    rewrite Fra. exact Fa'.
  - rewrite bind_Ok. cbv beta iota.
    eexists. eexists. eexists. split; [reflexivity|].
    assert (E0 : n0 = 0) by lia.
    rewrite E0 in Fa'. cbn [firstn] in Fa'.
    cbn. repeat split; try reflexivity; try lia.
    + cbn [len buf set_query set_recv_io set_stage set_buf set_len]. exact E0.
    + rewrite <- Fa'. reflexivity.
Qed.


(** What stage 0 does once the address is known when fast open is on and
    the connecting [sendto] takes [n] bytes, fewer than the payload has. *)
Lemma handshake_tail_fast_open (w : world) (s : server_t)
      (bytes payload : list Z) (offset : nat) (t : target) (sent : nat) :
  w.(fast_open) = true -> s.(auth) = 0%Z ->
  buffer_ok s.(buf) -> s.(buf).(len) <= BUF_SIZE -> s.(buf).(idx) = 0 ->
  contents s.(buf) = bytes -> offset <= length bytes ->
  skipn offset bytes = payload -> sent < length payload ->
  exists s' r',
    (if s.(buf).(len) <? offset then Ok (close_and_free_server w)
     else
       let n := s.(buf).(len) - offset in
       a <- Mem.memmove s.(buf).(array) 0 s.(buf).(array) offset n ;;
       let s := set_buf s (set_len (set_array s.(buf) a) n) in
       hashed <-
         (if negb (s.(auth) =? 0)%Z then
            '(ret, b, ch) <- ss_check_hash w.(g) s.(buf) s.(chunk)
                                          s.(d_ctx) BUF_SIZE ;;
            Ok (negb (ret =? 0)%Z, set_chunk (set_buf s b) ch)
          else Ok (true, s)) ;;
       let '(ok, s) := hashed in
       if negb ok then Ok (close_and_free_server w)
       else
         let '(w, s, r) := connect_to_remote w s t (Connecting (TfoSent sent)) in
         match r with
         | None => Ok (close_and_free_server w)
         | Some r =>
             '(s, r) <- hand_over s r 0 ;;
             let s := set_recv_io (set_stage s 4) false in
             let r := set_r_send_io r true in
             Ok (set_remote (set_server w (Some s)) (Some r))
         end)
    = Ok (set_remote
            (set_server (emit_remote w (firstn sent payload)) (Some s'))
            (Some r'))
    /\ s'.(stage) = 4%Z /\ s'.(buf).(len) = 0
    /\ r'.(peer) = t
    /\ contents r'.(rbuf) = firstn (length payload - sent) payload
    /\ r'.(rbuf).(idx) = 0 /\ r'.(r_send_io) = true.
Proof.
  intros Hfo Hauth Hbuf Hsize Hidx Hc Hoff Hpay Hn.
  pose proof Hbuf as [Lb Hb].
  assert (Ll : length bytes = len (buf s)).
  { rewrite <- Hc. unfold contents. rewrite length_firstn. lia. }
  assert (Lp : length payload = len (buf s) - offset).
  { rewrite <- Hpay, length_skipn. lia. }
  destruct (Nat.ltb_spec (len (buf s)) offset) as [H | _]; [lia|].
  cbv zeta. unfold Mem.memmove. rewrite <- Lp.
  destruct (MemFacts.memcpy_ex (array (buf s)) 0 (array (buf s)) offset
                               (length payload))
    as [a [Ea [La [Fa _]]]]; [lia | lia |].
  rewrite Ea, bind_Ok. cbn [auth set_buf]. rewrite Hauth.
  change (negb (0 =? 0)%Z) with false. cbv iota. rewrite bind_Ok.
  cbv beta iota. cbn [negb].
  rewrite Nat.add_0_l in Fa. cbn [firstn app] in Fa.
  assert (Fa' : firstn (length payload) a = payload).
  { rewrite Fa.
    rewrite (prefix_window (array (buf s)) bytes (len (buf s)) offset
                           (length payload)); [|fold (contents (buf s))|lia].
    - rewrite Hpay. apply firstn_all.
    - rewrite Hc. symmetry. apply firstn_all2. lia. }
  unfold connect_to_remote. rewrite Hfo.
  cbn [buf set_buf len set_len array set_array idx]. rewrite Hidx.
  change (skipn 0 a) with a. rewrite Fa'.
  destruct (Nat.leb_spec sent (length payload)) as [_ | H]; [|lia].
  unfold hand_over.
  cbn [buf set_buf len set_len set_idx array set_array rbuf new_remote].
  destruct (Nat.ltb_spec 0 (length payload - sent)) as [_ | H]; [|lia].
  destruct (MemFacts.memcpy_ex (array (balloc BUF_SIZE)) 0 a 0
                               (length payload - sent))
    as [ra [Era [Lra [Fra _]]]].
  { lia. }
  { cbn [balloc array]. rewrite repeat_length. lia. }
  rewrite Era, bind_Ok. cbv beta iota.
  eexists. eexists. split; [reflexivity|].
  cbn. repeat split; try reflexivity.
  unfold contents. cbn.
  rewrite Nat.add_0_l in Fra. cbn [firstn app skipn] in Fra.
  rewrite Fra.
  transitivity (firstn (length payload - sent) (firstn (length payload) a)).
  { rewrite firstn_firstn. f_equal. lia. }
  rewrite Fa'. reflexivity.
Qed.

(** X11.  With fast open on, when the [sendto] that opens the connection
    takes [n] bytes, fewer than the payload has, the two places that hand
    the rest over differ.  [server_resolve_cb] copies from
    [server->buf->idx] on: the target is left with the payload less its
    first [n] bytes.  Stage 0 of [server_recv_cb] copies from the start of
    the array: the bytes that wait for the target are the first
    [len - n] bytes of the payload again. *)
Theorem fast_open_hand_over_offsets
        (w w4 : world) (s s4 : server_t) (atyp : Z) (addr pt payload : list Z)
        (q : target) (fam ip : Z) (a : list Z) (n : nat) :
  n < length payload ->
  (* a connection in stage 0 whose buffer holds a request *)
  w.(fast_open) = true -> w.(cfg_auth) = 0%Z -> s.(auth) = 0%Z ->
  buffer_ok s.(buf) -> s.(buf).(len) <= BUF_SIZE -> s.(buf).(idx) = 0 ->
  Z.land atyp ONETIMEAUTH_FLAG = 0%Z -> Z.land atyp ADDRTYPE_MASK = 1%Z ->
  length addr = 4 -> length pt = 2 ->
  contents s.(buf) = atyp :: addr ++ pt ++ payload ->
  (* a connection that waits for the resolver, its buffer holding the
     payload *)
  w4.(fast_open) = true -> w4.(server) = Some s4 -> s4.(query) = Some q ->
  buffer_ok s4.(buf) -> s4.(buf).(len) <= BUF_SIZE -> s4.(buf).(idx) = 0 ->
  contents s4.(buf) = payload ->
  (exists s' r',
     server_handshake w s ip (Connecting (TfoSent n))
     = Ok (set_remote (set_server (emit_remote w (firstn n payload)) (Some s'))
                      (Some r'))
     /\ r'.(peer) = {| family := 4; host := addr; port := pt |}
     /\ contents r'.(rbuf) = firstn (length payload - n) payload
     /\ r'.(rbuf).(idx) = 0 /\ r'.(r_send_io) = true)
  /\ (exists s' r',
        server_resolve_cb w4 (Some (fam, a)) (Connecting (TfoSent n))
        = Ok (set_remote (set_server (emit_remote w4 (firstn n payload)) (Some s'))
                         (Some r'))
        /\ r'.(peer) = {| family := fam; host := a; port := q.(port) |}
        /\ contents r'.(rbuf) = skipn n payload
        /\ r'.(rbuf).(idx) = 0 /\ r'.(r_send_io) = true).
Proof.
  intros Hn Hfo Hcfg Hauth Hbuf Hsize Hidx Hflag Ht La Hpt Hc
         Hfo4 Hs4 Hq Hbuf4 Hsize4 Hidx4 Hc4.
  split.
  - set (bytes := atyp :: addr ++ pt ++ payload) in *.
    assert (Lbytes : length bytes = 1 + length addr + 2 + length payload).
    { unfold bytes. cbn [length]. rewrite !length_app. lia. }
    assert (Ll : length bytes = len (buf s)).
    { rewrite <- Hc. unfold contents. destruct Hbuf as [Lb Hb].
      rewrite length_firstn. lia. }
    destruct (header_parts atyp addr pt payload Hpt) as [Paddr [Ppt Ppay]].
    fold bytes in Paddr, Ppt, Ppay.
    destruct (handshake_tail_fast_open w s bytes payload (1 + length addr + 2)
                {| family := 4; host := addr; port := pt |} n
                Hfo Hauth Hbuf Hsize Hidx Hc ltac:(lia) Ppay Hn)
      as [s' [r' [E [_ [_ [Hp [Hcn [Hi Hio]]]]]]]].
    exists s', r'. split; [|repeat split; assumption]. rewrite <- E.
    unfold server_handshake.
    rewrite (held_get (buf s) bytes 0 Hbuf Hc) by lia.
    change (nth 0 bytes 0%Z) with atyp. rewrite bind_Ok.
    rewrite (header_auth_none w s atyp Hcfg Hflag), bind_Ok. cbv iota.
    unfold parse_address. cbv zeta. rewrite Ht, La in *.
    change (1 =? 1)%Z with true. cbv iota.
    destruct (Nat.leb_spec (4 + 3) (len (buf s))) as [_ | Hs]; [|lia].
    rewrite (held_read (buf s) bytes 1 4 Hbuf Hc) by lia.
    rewrite Paddr, bind_Ok, bind_Ok. cbv iota.
    change (1 + 4 =? 1) with false. cbv iota.
    rewrite (held_read (buf s) bytes (1 + 4) 2 Hbuf Hc) by lia.
    rewrite Ppt, bind_Ok. cbv zeta. rewrite Hauth.
    change (negb (0 =? 0)%Z) with false. cbv iota.
    reflexivity.
  - pose proof Hbuf4 as [Lb Hb].
    assert (Lp : length payload = len (buf s4)).
    { rewrite <- Hc4. unfold contents. rewrite length_firstn. lia. }
    unfold server_resolve_cb. rewrite Hs4, Hq.
    unfold connect_to_remote. rewrite Hfo4.
    cbn [buf set_query]. rewrite Hidx4.
    change (skipn 0 (array (buf s4))) with (array (buf s4)).
    fold (contents (buf s4)). rewrite Hc4, <- Lp.
    destruct (Nat.leb_spec n (length payload)) as [_ | H]; [|lia].
    unfold hand_over.
    cbn [buf set_buf set_query len set_len set_idx idx array set_array rbuf
         new_remote].
    destruct (Nat.ltb_spec 0 (length payload - n)) as [_ | H]; [|lia].
    rewrite Nat.add_0_l.
    destruct (MemFacts.memcpy_ex (array (balloc BUF_SIZE)) 0 (array (buf s4)) n
                                 (length payload - n))
      as [ra [Era [Lra [Fra _]]]].
    { lia. }
    { cbn [balloc array]. rewrite repeat_length. lia. }
    rewrite Era, bind_Ok. cbv beta iota.
    eexists. eexists. split; [reflexivity|].
    cbn. repeat split; try reflexivity.
    unfold contents. cbn.
    rewrite Nat.add_0_l in Fra. cbn [firstn app skipn] in Fra.
    rewrite Fra.
    rewrite (prefix_window (array (buf s4)) payload (len (buf s4)) n
                           (length payload - n)); [| |lia].
    + apply firstn_all2. rewrite length_skipn. lia.
    + fold (contents (buf s4)). rewrite Hc4. symmetry. apply firstn_all2. lia.
Qed.


(** X12.  A request that is not authenticated and whose header is not
    well formed closes the connection to the client, and nothing is opened
    or sent: an address type other than 1, 3 and 4; an IPv4 header with
    fewer than 7 bytes; an IPv6 header with fewer than 19 bytes; a name
    header with fewer bytes than the length of the name and 4 more. *)
Theorem malformed_header_closes (w : world) (s : server_t) (ip : Z)
        (c : connect_result) :
  let atyp := nth 0 s.(buf).(array) 0%Z in
  let t := Z.land atyp ADDRTYPE_MASK in
  w.(cfg_auth) = 0%Z -> Z.land atyp ONETIMEAUTH_FLAG = 0%Z ->
  buffer_ok s.(buf) -> 2 <= s.(buf).(capacity) ->
  (t <> 1%Z /\ t <> 3%Z /\ t <> 4%Z)
  \/ (t = 1%Z /\ s.(buf).(len) < 7)
  \/ (t = 4%Z /\ s.(buf).(len) < 19)
  \/ (t = 3%Z
      /\ s.(buf).(len) < Z.to_nat (nth 1 s.(buf).(array) 0%Z mod 256) + 4) ->
  server_handshake w s ip c = Ok (close_and_free_server w).
Proof.
  intros atyp t Hcfg Hflag [Lb Hb] Hcap Hbad.
  unfold server_handshake.
  rewrite MemFacts.get_ok by lia. fold atyp. rewrite bind_Ok.
  rewrite (header_auth_none w s atyp Hcfg Hflag), bind_Ok. cbv iota.
  unfold parse_address. cbv zeta. fold t.
  destruct Hbad as [[H1 [H3 H4]] | [[Ht Hl] | [[Ht Hl] | [Ht Hl]]]].
  - apply Z.eqb_neq in H1, H3, H4. rewrite H1, H3, H4.
    rewrite bind_Ok. cbv iota. reflexivity.
  - rewrite Ht. change (1 =? 1)%Z with true. cbv iota.
    destruct (Nat.leb_spec (4 + 3) (len (buf s))) as [H | _]; [lia|].
    rewrite bind_Ok. reflexivity.
  - rewrite Ht. change (4 =? 1)%Z with false. change (4 =? 3)%Z with false.
    change (4 =? 4)%Z with true. cbv iota.
    destruct (Nat.leb_spec (16 + 3) (len (buf s))) as [H | _]; [lia|].
    rewrite bind_Ok. reflexivity.
  - rewrite Ht. change (3 =? 1)%Z with false. change (3 =? 3)%Z with true.
    cbv iota. rewrite MemFacts.get_ok by lia. rewrite bind_Ok.
    destruct (Nat.leb_spec (Z.to_nat (nth 1 (array (buf s)) 0%Z mod 256) + 4)
                           (len (buf s))) as [H | _]; [lia|].
    rewrite bind_Ok. reflexivity.
Qed.

End Handshake.

(** the connection of [Samples.w_accepted] when stage 0 comes to the
    header, for a request that is not authenticated: for 93.184.216.34:80,
    for the name a.b and port 80, and one of address type 5 *)
Definition s_ipv4_request : server_t (B := Toy.backend) :=
  Eval vm_compute in set_buf Samples.s_accepted Samples.plain_buffer.

Definition s_name_request : server_t (B := Toy.backend) :=
  Eval vm_compute in
    set_buf Samples.s_accepted
            (holding BUF_SIZE [3; 3; 97; 46; 98; 0; 80; 104; 105]%Z).

Definition s_odd_request : server_t (B := Toy.backend) :=
  Eval vm_compute in
    set_buf Samples.s_accepted (holding BUF_SIZE [5; 0; 80; 104; 105]%Z).

(** the process with fast open on, and a connection of it that waits for
    the resolver with two bytes of payload *)
Definition w_fast_open : world (B := Toy.backend) :=
  Eval vm_compute in set_fast_open Samples.w_accepted true.

Definition s_waiting : server_t (B := Toy.backend) :=
  Eval vm_compute in
    set_query (set_buf Samples.s_accepted (holding BUF_SIZE [104; 105]%Z))
              (Some {| family := 0; host := [97; 46; 98]%Z; port := [0; 80]%Z |}).

Definition w_waiting : world (B := Toy.backend) :=
  Eval vm_compute in set_server w_fast_open (Some s_waiting).

Lemma direct_request_connects_witness :
  exists s' r',
    server_handshake Samples.w_accepted s_ipv4_request 0
                     (Connecting TfoInProgress)
    = Ok (set_remote (set_server Samples.w_accepted (Some s')) (Some r'))
    /\ s'.(stage) = 4%Z /\ s'.(recv_io) = false /\ s'.(buf).(len) = 0
    /\ s'.(auth) = 0%Z /\ s'.(chunk) = s_ipv4_request.(chunk)
    /\ s'.(query) = s_ipv4_request.(query)
    /\ s'.(send_io) = s_ipv4_request.(send_io)
    /\ r'.(peer) = {| family := 4; host := [93; 184; 216; 34]%Z;
                      port := [0; 80]%Z |}
    /\ contents r'.(rbuf) = [104; 105]%Z /\ r'.(rbuf).(idx) = 0
    /\ r'.(r_send_io) = true /\ r'.(r_recv_io) = false
    /\ r'.(connected) = 0%Z.
Proof.
  apply (@direct_request_connects Toy.backend Samples.w_accepted
           s_ipv4_request 1 4 [93; 184; 216; 34]%Z [0; 80]%Z [104; 105]%Z
           0 TfoInProgress).
  - reflexivity.
  - reflexivity.
  - reflexivity.
  - reflexivity.
  - left. repeat split; reflexivity.
  - reflexivity.
  - split; vm_compute; [reflexivity | lia].
  - vm_compute; lia.
  - reflexivity.
Defined.

Lemma name_request_resolves_then_connects_witness :
  exists s1,
    server_handshake Samples.w_accepted s_name_request (-1)
                     (Connecting TfoInProgress)
    = Ok (set_server Samples.w_accepted (Some s1))
    /\ s1.(query) = Some {| family := 0; host := [97; 46; 98]%Z;
                            port := [0; 80]%Z |}
    /\ s1.(stage) = 4%Z /\ s1.(recv_io) = false
    /\ contents s1.(buf) = [104; 105]%Z
    /\ server_resolve_cb (set_server Samples.w_accepted (Some s1)) None
                         (Connecting TfoInProgress)
       = Ok (close_and_free_server (set_server Samples.w_accepted (Some s1)))
    /\ forall (fam : Z) (a : list Z) (tfo : tfo_result),
       exists w2 s2 r2,
         server_resolve_cb (set_server Samples.w_accepted (Some s1))
                           (Some (fam, a)) (Connecting tfo) = Ok w2
         /\ w2.(server) = Some s2 /\ w2.(remote) = Some r2
         /\ w2.(to_remote) = Samples.w_accepted.(to_remote)
         /\ s2.(query) = None /\ s2.(stage) = 4%Z /\ s2.(recv_io) = false
         /\ s2.(buf).(len) = 0
         /\ r2.(peer) = {| family := fam; host := a; port := [0; 80]%Z |}
         /\ contents r2.(rbuf) = [104; 105]%Z /\ r2.(rbuf).(idx) = 0
         /\ r2.(r_send_io) = true /\ r2.(r_recv_io) = false
         /\ r2.(connected) = 0%Z.
Proof.
  apply (@name_request_resolves_then_connects Toy.backend Samples.w_accepted
           s_name_request 3 3 [97; 46; 98]%Z [0; 80]%Z [104; 105]%Z
           (Connecting TfoInProgress)).
  - reflexivity.
  - reflexivity.
  - reflexivity.
  - reflexivity.
  - reflexivity.
  - lia.
  - reflexivity.
  - reflexivity.
  - split; vm_compute; [reflexivity | lia].
  - vm_compute; lia.
  - reflexivity.
  - reflexivity.
Defined.

Lemma fast_open_hand_over_offsets_witness :
  (exists s' r',
     server_handshake w_fast_open s_ipv4_request 0 (Connecting (TfoSent 1))
     = Ok (set_remote (set_server (emit_remote w_fast_open
                                               (firstn 1 [104; 105]%Z))
                                  (Some s'))
                      (Some r'))
     /\ r'.(peer) = {| family := 4; host := [93; 184; 216; 34]%Z;
                       port := [0; 80]%Z |}
     /\ contents r'.(rbuf) = firstn (length [104; 105]%Z - 1) [104; 105]%Z
     /\ r'.(rbuf).(idx) = 0 /\ r'.(r_send_io) = true)
  /\ (exists s' r',
        server_resolve_cb w_waiting (Some (4%Z, [93; 184; 216; 34]%Z))
                          (Connecting (TfoSent 1))
        = Ok (set_remote (set_server (emit_remote w_waiting
                                                  (firstn 1 [104; 105]%Z))
                                     (Some s'))
                         (Some r'))
        /\ r'.(peer) = {| family := 4; host := [93; 184; 216; 34]%Z;
                          port := port {| family := 0; host := [97; 46; 98]%Z;
                                          port := [0; 80]%Z |} |}
        /\ contents r'.(rbuf) = skipn 1 [104; 105]%Z
        /\ r'.(rbuf).(idx) = 0 /\ r'.(r_send_io) = true).
Proof.
  apply (@fast_open_hand_over_offsets Toy.backend w_fast_open w_waiting
           s_ipv4_request s_waiting 1 [93; 184; 216; 34]%Z [0; 80]%Z
           [104; 105]%Z
           {| family := 0; host := [97; 46; 98]%Z; port := [0; 80]%Z |}
           4 0 [93; 184; 216; 34]%Z 1).
  - simpl; lia.
  - reflexivity.
  - reflexivity.
  - reflexivity.
  - split; vm_compute; [reflexivity | lia].
  - vm_compute; lia.
  - reflexivity.
  - reflexivity.
  - reflexivity.
  - reflexivity.
  - reflexivity.
  - reflexivity.
  - reflexivity.
  - reflexivity.
  - reflexivity.
  - split; vm_compute; [reflexivity | lia].
  - vm_compute; lia.
  - reflexivity.
  - reflexivity.
Defined.

Lemma malformed_header_closes_witness :
  server_handshake Samples.w_accepted s_odd_request 0 (Connecting TfoInProgress)
  = Ok (close_and_free_server Samples.w_accepted).
Proof.
  apply (@malformed_header_closes Toy.backend Samples.w_accepted
           s_odd_request 0 (Connecting TfoInProgress)).
  - reflexivity.
  - reflexivity.
  - split; vm_compute; [reflexivity | lia].
  - vm_compute; lia.
  - left. repeat split; vm_compute; discriminate.
Defined.

(** *** The stages of a connection *)

Section Stages.
Context {B : Backend}.

(** The stages of a connection: 0, 4 or 5; in stage 4 the client is not
    read; the relay stage has a target. *)
Definition stages_ok (w : world) : Prop :=
  match w.(server) with
  | None => True
  | Some s =>
      (s.(stage) = 0%Z \/ s.(stage) = 4%Z \/ s.(stage) = 5%Z)
      /\ (s.(stage) = 4%Z -> s.(recv_io) = false)
      /\ (s.(stage) = 5%Z -> w.(remote) <> None)
  end.

Lemma closed_stages (w : world) : w.(server) = None -> stages_ok w.
Proof. intros H. unfold stages_ok. now rewrite H. Qed.

(** the stage is kept or raised *)
Definition stage_kept (w w' : world) : Prop :=
  match w.(server), w'.(server) with
  | Some s, Some s' => (s.(stage) <= s'.(stage))%Z
  | _, _ => True
  end.

Lemma closed_kept (w w' : world) : w'.(server) = None -> stage_kept w w'.
Proof. intros H. unfold stage_kept. rewrite H. now destruct (server w). Qed.

Ltac fields :=
  cbn [server remote to_client to_remote g cfg_auth fast_open
       set_g set_server set_remote set_fast_open emit_client emit_remote
       close_and_free_server close_and_free_remote close_both
       buf stage auth chunk e_ctx d_ctx recv_io send_io timer query
       set_buf set_stage set_auth set_chunk set_e_ctx set_d_ctx
       set_recv_io set_send_io set_query
       rbuf r_recv_io r_send_io connected peer
       set_rbuf set_r_recv_io set_r_send_io set_connected new_remote] in *.

Ltac spread :=
  repeat match goal with
         | H : ?f ?x = _ |- _ => is_var x; progress (rewrite H in * )
         end.

Ltac specs :=
  repeat match goal with
         | E : connect_to_remote _ _ _ _ = _ |- _ =>
             apply connect_to_remote_spec in E;
             destruct E as [? [? [[-> | [? ->]] [? | ?]]]]
         | E : hand_over _ _ _ = _ |- _ =>
             apply hand_over_spec in E;
             destruct E as [[-> | [? ->]] [-> | [? ->]]]
         | E : Some _ = None |- _ => discriminate E
         | E : None = Some _ |- _ => discriminate E
         | E : Some _ = Some _ |- _ => apply Some_inj in E
         end.

Ltac stage_tac :=
  unfold stages_ok, stage_kept, watchers_ok in *; fields; spread; fields;
  repeat match goal with
         | H : context [match ?x with _ => _ end] |- _ => destruct x eqn:?
         | |- context [match ?x with _ => _ end] => destruct x eqn:?
         end;
  fields; spread;
  intuition (try congruence; try discriminate; try lia).

Ltac eqb_props :=
  repeat match goal with
         | H : (_ =? _)%Z = true |- _ => apply Z.eqb_eq in H
         | H : (_ =? _)%Z = false |- _ => apply Z.eqb_neq in H
         end.

Lemma step_stages (w w' : world) (e : event) :
  watchers_ok w -> stages_ok w -> enabled w e = true -> step w e = Ok w' ->
  stages_ok w' /\ stage_kept w w'.
Proof.
  intros Hok Hst Hen H. destruct e; simpl in H, Hen.
  - (* server_recv_cb *)
    unfold server_recv_cb in H.
    destruct (server w) as [s|] eqn:Hs; [|discriminate].
    returned H; subst; try (split; [apply closed_stages | apply closed_kept]; reflexivity).
    all: eqb_props.
    all: try match goal with
           | H : server_handshake _ _ _ _ = Ok _ |- _ =>
               apply server_handshake_spec in H;
               destruct H as [[H1 H2] | [a [s1 [s' [_ [_ [H1 [_ [H2 [H3 [H4 H5]]]]]]]]]]];
               [split; [apply closed_stages | apply closed_kept]; exact H1|];
               destruct H5 as [[H5 [r' [H6 [H7 [H8 H9]]]]] | [H5 H6]]
           | H : server_relay _ _ _ _ = Ok _ |- _ =>
               apply server_relay_spec in H;
               destruct H as [[H1 H2] | [s' [r' [H1 [H2 [H3 [_ [H4 [H5 [H6 [H7 H8]]]]]]]]]]];
               [split; [apply closed_stages | apply closed_kept]; exact H1|];
               destruct H8 as [[H8 [H9 _]] | [H8 [H9 _]]]
           end.
    all: stage_tac.
  - (* server_send_cb *)
    unfold server_send_cb in H.
    destruct (server w) as [s|] eqn:Hs; [|discriminate].
    destruct (remote w) as [r|] eqn:Hr;
      returned H; subst; try (split; [apply closed_stages | apply closed_kept]; reflexivity); stage_tac.
  - (* remote_recv_cb *)
    unfold remote_recv_cb in H.
    destruct (remote w) as [r|] eqn:Hr; [|discriminate].
    destruct (server w) as [s|] eqn:Hs;
      returned H; subst; try (split; [apply closed_stages | apply closed_kept]; reflexivity); stage_tac.
  - (* remote_send_cb *)
    unfold remote_send_cb in H.
    destruct (remote w) as [r|] eqn:Hr; [|discriminate].
    destruct (server w) as [s|] eqn:Hs;
      returned H; subst; try (split; [apply closed_stages | apply closed_kept]; reflexivity).
    all: eqb_props.
    all: stage_tac.
  - (* server_timeout_cb *)
    unfold server_timeout_cb in H. apply Ok_inj in H. subst.
    split; [apply closed_stages | apply closed_kept]; reflexivity.
  - (* server_resolve_cb *)
    unfold server_resolve_cb in H.
    destruct (server w) as [s|] eqn:Hs; [|discriminate].
    destruct (query s) as [q|] eqn:Hq; [|discriminate].
    returned H; subst; try (split; [apply closed_stages | apply closed_kept]; reflexivity).
    all: specs; subst; try (split; [apply closed_stages | apply closed_kept]; reflexivity).
    all: stage_tac.
Qed.


End Stages.

Section Never.
Context {B : Backend}.

Definition ctx_error : string := "server context error".

(** [r] is not the process stopping with the message [msg] *)
Definition never {A : Type} (msg : string) (r : result A) : Prop :=
  r <> Exit msg.

Lemma never_bind {A C : Type} (msg : string) (m : result A)
      (k : A -> result C) :
  never msg m -> (forall a, never msg (k a)) -> never msg (bind m k).
Proof.
  unfold never. intros Hm Hk. destruct m as [a | m' |]; cbn [bind].
  - apply Hk.
  - intros E. apply Hm. injection E as E. now rewrite E.
  - discriminate.
Qed.

Lemma never_Ok {A : Type} (msg : string) (a : A) : never msg (Ok a).
Proof. discriminate. Qed.

Lemma never_Fault {A : Type} (msg : string) : never msg (@Fault A).
Proof. discriminate. Qed.

Lemma never_other {A : Type} (msg msg' : string) :
  msg' <> msg -> never msg (@Exit A msg').
Proof. intros H E. injection E as E. exact (H E). Qed.

Ltac never_step :=
  cbv beta zeta;
  lazymatch goal with
  | |- never _ (bind _ _) => apply never_bind; [|intros ?]
  | |- never _ (Ok _) => apply never_Ok
  | |- never _ Fault => apply never_Fault
  | |- never _ (Exit _) => apply never_other; unfold ctx_error; discriminate
  | |- never _ (if ?c then _ else _) => destruct c eqn:?
  | |- never _ (match ?x with _ => _ end) => destruct x eqn:?
  end.

Ltac never_mem :=
  repeat first
    [ never_step
    | progress unfold Mem.memcpy, Mem.memmove, Mem.memset, Mem.set, Mem.get,
                      Mem.read, Mem.write, write_opt, enc_md5, hmac_into_hash ].

Lemma never_read (a : list Z) (off n : nat) : never ctx_error (Mem.read a off n).
Proof. never_mem. Qed.

Lemma never_write (a : list Z) (off : nat) (src : list Z) :
  never ctx_error (Mem.write a off src).
Proof. never_mem. Qed.

Lemma never_get (a : list Z) (i : nat) : never ctx_error (Mem.get a i).
Proof. never_mem. Qed.

Lemma never_memcpy (d : list Z) (doff : nat) (src : list Z) (soff n : nat) :
  never ctx_error (Mem.memcpy d doff src soff n).
Proof. never_mem. Qed.

Lemma never_substitute (table bytes : list Z) :
  never ctx_error (substitute table bytes).
Proof.
  induction bytes as [|b rest IH]; cbn [substitute].
  - apply never_Ok.
  - apply never_bind; [apply never_get|]. intros c.
    apply never_bind; [exact IH|]. intros r. apply never_Ok.
Qed.

Lemma never_table_crypt (table : list Z) (b : buffer_t) :
  never ctx_error (table_crypt table b).
Proof.
  unfold table_crypt.
  apply never_bind; [apply never_read|]. intros bytes.
  apply never_bind; [apply never_substitute|]. intros out.
  apply never_bind; [apply never_write|]. intros a. apply never_Ok.
Qed.

Lemma never_set_iv (g : globals) (ctx : cipher_ctx_t) (iv_arg : list Z)
      (iv_len : nat) (enc : Z) :
  never ctx_error (cipher_context_set_iv g ctx iv_arg iv_len enc).
Proof.
  unfold cipher_context_set_iv. never_mem.
Qed.

Lemma never_ss_decrypt (g : globals) (c : buffer_t) (ctx : option enc_ctx_t)
      (cap : nat) :
  never ctx_error (ss_decrypt g c ctx cap).
Proof.
  unfold ss_decrypt. destruct ctx as [ctx|].
  - repeat first [ apply never_set_iv | never_step | progress never_mem ].
  - apply never_bind; [apply never_table_crypt|]. intros x. apply never_Ok.
Qed.


Lemma never_ss_encrypt (g : globals) (p : buffer_t) (ctx : option enc_ctx_t)
      (cap : nat) :
  never ctx_error (ss_encrypt g p ctx cap).
Proof.
  unfold ss_encrypt. destruct ctx as [ctx|].
  - repeat first [ apply never_set_iv | never_step | progress never_mem ].
  - apply never_bind; [apply never_table_crypt|]. intros x. apply never_Ok.
Qed.

Lemma never_chunk_key (g : globals) (ctx : option enc_ctx_t) (c : Z) :
  never ctx_error (chunk_key g ctx c).
Proof. unfold chunk_key. never_mem. Qed.

Lemma never_check_round (g : globals) (ctx : option enc_ctx_t)
      (cap blen i : nat) (st : check_state) :
  never ctx_error (check_hash_round g ctx cap blen i st).
Proof.
  unfold check_hash_round.
  repeat first [ apply never_chunk_key | never_step | progress never_mem ].
Qed.

Lemma never_check_loop (g : globals) (ctx : option enc_ctx_t)
      (cap blen n : nat) :
  forall i st, never ctx_error (check_hash_loop g ctx cap blen n i st).
Proof.
  induction n as [|n IH]; intros i st; cbn [check_hash_loop].
  - apply never_Ok.
  - apply never_bind; [apply never_check_round|]. intros [bad st'].
    destruct bad; [apply never_Ok | apply IH].
Qed.

Lemma never_ss_check_hash (g : globals) (b : buffer_t) (ch : chunk_t)
      (ctx : option enc_ctx_t) (cap : nat) :
  never ctx_error (ss_check_hash g b ch ctx cap).
Proof.
  unfold ss_check_hash. cbv zeta.
  apply never_bind; [apply never_check_loop|]. intros [ret st].
  destruct (ret =? 0)%Z; apply never_Ok.
Qed.

Lemma never_verify (g : globals) (b : buffer_t) (iv_arg : list Z) :
  never ctx_error (ss_onetimeauth_verify g b iv_arg).
Proof.
  unfold ss_onetimeauth_verify, auth_key. never_mem.
Qed.

Lemma never_header_auth (w : world) (s : server_t) (atyp : Z) :
  never ctx_error (header_auth w s atyp).
Proof.
  unfold header_auth, parse_header_len.
  repeat first [ apply never_verify | never_step | progress never_mem ].
Qed.

Lemma never_parse_address (b : buffer_t) (atyp ip : Z) :
  never ctx_error (parse_address b atyp ip).
Proof. unfold parse_address. never_mem. Qed.

Lemma never_hand_over (s : server_t) (r : remote_t) (from : nat) :
  never ctx_error (hand_over s r from).
Proof. unfold hand_over. never_mem. Qed.

Lemma never_handshake (w : world) (s : server_t) (ip : Z)
      (c : connect_result) :
  never ctx_error (server_handshake w s ip c).
Proof.
  unfold server_handshake.
  repeat first [ apply never_header_auth | apply never_parse_address
               | apply never_hand_over | apply never_ss_check_hash
               | never_step | progress never_mem ].
Qed.

Lemma never_relay (w : world) (s : server_t) (r : remote_t)
      (sv : send_result) :
  never ctx_error (server_relay w s r sv).
Proof.
  unfold server_relay.
  repeat first [ apply never_ss_check_hash | never_step | progress never_mem ].
Qed.

(** X13.  Whatever the two sockets and the resolver do after [accept_cb],
    the stage of the connection is 0, 4 or 5 and never goes back, the
    client is not read in stage 4, and the relay stage has a target.  So
    [server_recv_cb] is only ever called in stage 0 or in stage 5 with its
    target there, and the [FATAL] behind its two branches ("server context
    error") is not reached by any callback. *)
Theorem context_error_is_unreachable
        (g0 : globals) (auth0 : Z) (fast_open0 : bool) (method : Z)
        (rnd : nat -> Z) (w0 w : world) (e : event) :
  accept_cb g0 auth0 fast_open0 method rnd = Ok w0 ->
  reachable w0 w -> enabled w e = true ->
  step w e <> Exit "server context error"
  /\ forall s, w.(server) = Some s ->
       (s.(stage) = 0%Z \/ s.(stage) = 4%Z \/ s.(stage) = 5%Z)
       /\ (s.(stage) = 4%Z -> s.(recv_io) = false)
       /\ (s.(stage) = 5%Z -> w.(remote) <> None)
       /\ forall w' s', step w e = Ok w' -> w'.(server) = Some s' ->
            (s.(stage) <= s'.(stage))%Z.
Proof.
  intros Hacc Hreach Hen.
  assert (Hinv : watchers_ok w /\ stages_ok w).
  { clear Hen e. induction Hreach as [|w e w' _ IH Hen Hst].
    - split; [apply (accept_cb_ok g0 auth0 fast_open0 method rnd w0 Hacc)|].
      unfold accept_cb, new_server in Hacc. returned Hacc.
      all: returned_all; subst.
      all: unfold stages_ok; cbn; intuition (try congruence; try discriminate).
    - destruct IH as [Hok Hst'].
      split; [eapply step_ok | eapply step_stages]; eassumption. }
  destruct Hinv as [Hok Hst].
  split.
  - fold ctx_error. change (never ctx_error (step w e)).
    destruct e; cbn [step].
    + (* server_recv_cb *)
      unfold server_recv_cb. cbn [enabled] in Hen.
      unfold stages_ok in Hst.
      destruct (server w) as [s|] eqn:Hs; [|discriminate].
      destruct Hst as [H045 [H4 H5]].
      destruct (Z.eqb_spec (stage s) 0) as [E0 | N0].
      * repeat first [ apply never_ss_decrypt | apply never_handshake
                     | never_step | progress never_mem ].
      * destruct (remote w) as [r|] eqn:Hr; [|apply never_Fault].
        destruct rv as [bytes | eagain]; [|destruct eagain; apply never_Ok].
        cbv zeta. destruct (_ =? 0); [apply never_Ok|].
        apply never_bind; [apply never_write|]. intros a.
        apply never_bind; [apply never_ss_decrypt|]. intros [[[err g'] b] d].
        cbv beta iota zeta. destruct (negb _); [apply never_Fault|].
        cbn [stage set_d_ctx].
        destruct (Z.eqb_spec (stage s) 5) as [E5 | N5]; [apply never_relay|].
        exfalso. destruct H045 as [H | [H | H]]; try contradiction.
        specialize (H4 H). congruence.
    + unfold server_send_cb. repeat never_step.
    + unfold remote_recv_cb.
      repeat first [ apply never_ss_encrypt | never_step | progress never_mem ].
    + unfold remote_send_cb. repeat never_step.
    + unfold server_timeout_cb. apply never_Ok.
    + unfold server_resolve_cb.
      repeat first [ apply never_hand_over | never_step ].
  - intros s Hs. unfold stages_ok in Hst. rewrite Hs in Hst.
    destruct Hst as [H045 [H4 H5]].
    split; [exact H045|]. split; [exact H4|]. split; [exact H5|].
    intros w' s' Hstep Hs'.
    destruct (step_stages w w' e Hok) as [_ Hkept]; try assumption.
    { unfold stages_ok. rewrite Hs. repeat split; assumption. }
    unfold stage_kept in Hkept. rewrite Hs, Hs' in Hkept. exact Hkept.
Qed.

End Never.

Lemma context_error_is_unreachable_witness :
  step Samples.w_pending_both (RemoteSend true (Sent 3))
  <> Exit "server context error"
  /\ forall s, Samples.w_pending_both.(server) = Some s ->
       (s.(stage) = 0%Z \/ s.(stage) = 4%Z \/ s.(stage) = 5%Z)
       /\ (s.(stage) = 4%Z -> s.(recv_io) = false)
       /\ (s.(stage) = 5%Z -> Samples.w_pending_both.(remote) <> None)
       /\ forall w' s',
            step Samples.w_pending_both (RemoteSend true (Sent 3)) = Ok w' ->
            w'.(server) = Some s' -> (s.(stage) <= s'.(stage))%Z.
Proof.
  apply (@context_error_is_unreachable Toy.backend Samples.g_aes 0 false
           AES_256_CFB Toy.rnd Samples.w_accepted Samples.w_pending_both
           (RemoteSend true (Sent 3))).
  - reflexivity.
  - exact sample_session_reachable.
  - reflexivity.
Defined.

(** *** A request that asks for authentication *)

Section AuthHandshake.
Context {B : Backend}.

(** the MAC that [ss_onetimeauth] gives a header *)
Definition header_mac (g : globals) (iv_arg : list Z) (header : list Z)
  : list Z :=
  firstn ONETIMEAUTH_BYTES (HMAC_SHA1 (auth_key_of g iv_arg) header).

(** the header of a request that asks for authentication and carries the
    right MAC *)
Lemma header_auth_passes (w : world) (s : server_t) (atyp : Z)
      (addr pt rest : list Z) :
  Laws.hmac_law B -> auth_ready w.(g) (ctx_iv s.(d_ctx)) ->
  (w.(cfg_auth) <> 0%Z \/ Z.land atyp ONETIMEAUTH_FLAG <> 0%Z) ->
  (Z.land atyp ADDRTYPE_MASK = 1%Z /\ length addr = 4)
  \/ (Z.land atyp ADDRTYPE_MASK = 4%Z /\ length addr = 16) ->
  length pt = 2 -> buffer_ok s.(buf) ->
  contents s.(buf)
  = (atyp :: addr ++ pt)
    ++ header_mac w.(g) (ctx_iv s.(d_ctx)) (atyp :: addr ++ pt) ++ rest ->
  header_auth w s atyp = Ok (Some (set_auth s 1)).
Proof.
  intros HL Hready Hask Htype Hpt Hbuf Hc.
  set (header := atyp :: addr ++ pt) in *.
  set (mac := header_mac _ _ header) in *.
  assert (Lh : length header = 1 + length addr + 2).
  { unfold header. cbn [length]. rewrite length_app. lia. }
  assert (Lm : length mac = 10).
  { unfold mac, header_mac. rewrite length_firstn, HL. reflexivity. }
  pose proof Hbuf as [Lb Hb].
  assert (Ll : len (buf s) = length header + 10 + length rest).
  { apply (f_equal (@length Z)) in Hc. unfold contents in Hc.
    rewrite length_firstn, !length_app in Hc. lia. }
  unfold header_auth.
  assert (Hcond : (negb (cfg_auth w =? 0) || negb (Z.land atyp ONETIMEAUTH_FLAG =? 0))%Z
                  = true).
  { destruct Hask as [H | H]; apply Z.eqb_neq in H; rewrite H;
      [reflexivity | apply orb_true_r]. }
  rewrite Hcond.
  assert (Hlen : parse_header_len atyp (array (buf s)) 1 = Ok (length addr + 2)).
  { unfold parse_header_len. cbv zeta.
    destruct Htype as [[Ht La] | [Ht La]]; rewrite Ht, La; reflexivity. }
  rewrite Hlen, bind_Ok. change ONETIMEAUTH_BYTES with 10.
  destruct (Nat.ltb_spec (len (buf s)) (1 + (length addr + 2) + 10))
    as [H | _]; [lia|].
  destruct (ss_onetimeauth_verify_spec (g w)
              (set_len (buf s) (1 + (length addr + 2) + 10))
              (ctx_iv (d_ctx s)) HL Hready) as [Ev Hz].
  { cbn [len set_len]. change ONETIMEAUTH_BYTES with 10. lia. }
  { cbn [len array set_len]. lia. }
  cbn [len array set_len] in Ev, Hz. change ONETIMEAUTH_BYTES with 10 in Ev, Hz.
  replace (1 + (length addr + 2) + 10 - 10) with (length header) in Ev, Hz by lia.
  rewrite Ev, bind_Ok.
  assert (Hpre : firstn (length header + length (mac ++ rest)) (array (buf s))
                 = header ++ mac ++ rest).
  { rewrite length_app, Lm. replace (length header + (10 + length rest))
      with (len (buf s)) by lia. exact Hc. }
  destruct (window_split _ _ _ Hpre) as [W1 [W2 _]].
  rewrite length_app in W2.
  destruct (window_split _ _ _ W2) as [W3 _]. rewrite Lm in W3.
  assert (Hzero : safe_memcmp (firstn 10 (skipn (length header) (array (buf s))))
                    (HMAC_SHA1 (firstn (enc_iv_len (g w)) (ctx_iv (d_ctx s))
                                ++ firstn (enc_key_len (g w)) (enc_key (g w)))
                               (firstn (length header) (array (buf s)))) 10
                  = 0%Z).
  { apply Hz. rewrite W1, W3. reflexivity. }
  rewrite Hzero. reflexivity.
Qed.


(** stage 0 on a request for a literal address with the right MAC *)
Lemma handshake_authenticated
        (w : world) (s : server_t) (atyp fam : Z) (addr pt : list Z)
        (chunks : list (list Z)) (ip : Z) (tfo : tfo_result) :
  Laws.hmac_law B ->
  auth_ready w.(g) (ctx_iv s.(d_ctx)) -> chunk_ready w.(g) s.(d_ctx) ->
  w.(fast_open) = false ->
  (w.(cfg_auth) <> 0%Z \/ Z.land atyp ONETIMEAUTH_FLAG <> 0%Z) ->
  (Z.land atyp ADDRTYPE_MASK = 1%Z /\ length addr = 4 /\ fam = 4%Z)
  \/ (Z.land atyp ADDRTYPE_MASK = 4%Z /\ length addr = 16 /\ fam = 6%Z) ->
  length pt = 2 ->
  Forall (fun P => (Z.of_nat (length P) < 65536)%Z) chunks ->
  idle s.(chunk) ->
  buffer_ok s.(buf) -> s.(buf).(len) <= BUF_SIZE ->
  contents s.(buf)
  = (atyp :: addr ++ pt)
    ++ header_mac w.(g) (ctx_iv s.(d_ctx)) (atyp :: addr ++ pt)
    ++ frames_from w.(g) s.(d_ctx) s.(chunk).(chunk_counter) chunks ->
  exists s' r',
    server_handshake w s ip (Connecting tfo)
    = Ok (set_remote (set_server w (Some s')) (Some r'))
    /\ s'.(auth) = 1%Z /\ s'.(stage) = 4%Z /\ s'.(recv_io) = false
    /\ s'.(buf).(len) = 0
    /\ s'.(chunk).(chunk_idx) = 0
    /\ s'.(chunk).(chunk_counter)
       = Nat.iter (length chunks) next_counter s.(chunk).(chunk_counter)
    /\ r'.(peer) = {| family := fam; host := addr; port := pt |}
    /\ contents r'.(rbuf) = concat chunks /\ r'.(rbuf).(idx) = 0
    /\ r'.(r_send_io) = true /\ r'.(r_recv_io) = false
    /\ r'.(connected) = 0%Z.
Proof.
  intros HL Hauth Hchunk Hfo Hask Htype Hpt Hsz Hidle Hbuf Hsize Hc.
  assert (Htype' : (Z.land atyp ADDRTYPE_MASK = 1%Z /\ length addr = 4)
                   \/ (Z.land atyp ADDRTYPE_MASK = 4%Z /\ length addr = 16))
    by tauto.
  pose proof (header_auth_passes w s atyp addr pt _ HL Hauth Hask Htype' Hpt
                                 Hbuf Hc) as Eauth.
  set (mac := header_mac _ _ _) in *.
  set (stream := frames_from _ _ _ chunks) in *.
  assert (Lm : length mac = 10).
  { unfold mac, header_mac. rewrite length_firstn, HL. reflexivity. }
  set (bytes := atyp :: addr ++ pt ++ mac ++ stream).
  assert (Hc' : contents (buf s) = bytes).
  { rewrite Hc. unfold bytes. cbn [app]. rewrite <- app_assoc. reflexivity. }
  assert (Lbytes : length bytes = 1 + length addr + 2 + 10 + length stream).
  { unfold bytes. cbn [length]. rewrite !length_app. lia. }
  pose proof Hbuf as [Lb Hb].
  assert (Ll : length bytes = len (buf s)).
  { rewrite <- Hc'. unfold contents. rewrite length_firstn. lia. }
  destruct (header_parts atyp addr pt (mac ++ stream) Hpt) as [Paddr [Ppt Ppay]].
  fold bytes in Paddr, Ppt, Ppay.
  assert (Ppay' : skipn (1 + length addr + 2 + 10) bytes = stream).
  { replace (1 + length addr + 2 + 10) with (10 + (1 + length addr + 2)) by lia.
    rewrite <- skipn_skipn, Ppay, <- Lm. rewrite skipn_app, skipn_all, Nat.sub_diag.
    reflexivity. }
  set (off := 1 + length addr + 2 + 10) in *.
  set (n0 := len (buf s) - off).
  assert (Ln0 : n0 = length stream) by (unfold n0, off; lia).
  (* the buffer after the header is cut off *)
  destruct (MemFacts.memcpy_ex (array (buf s)) 0 (array (buf s)) off n0)
    as [a [Ea [La [Fa _]]]]; [unfold n0; lia | unfold n0; lia |].
  rewrite Nat.add_0_l in Fa. cbn [firstn app] in Fa.
  assert (Fa' : firstn n0 a = stream).
  { rewrite Fa, <- Ppay'.
    rewrite (prefix_window (array (buf s)) bytes (len (buf s)) off n0);
      [|fold (contents (buf s))|unfold n0; lia].
    - apply firstn_all2. rewrite length_skipn. unfold n0. lia.
    - rewrite Hc'. symmetry. apply firstn_all2. lia. }
  set (b2 := set_len (set_array (buf s) a) n0).
  assert (Hb2 : buffer_ok b2).
  { unfold buffer_ok, b2. cbn [len array capacity set_len set_array].
    unfold n0. lia. }
  destruct (check_hash_prefix (g w) (d_ctx s) BUF_SIZE HL Hchunk
                              ltac:(unfold BUF_SIZE; lia)
                              chunks [] 0 b2 (chunk s))
    as [out [ch [Ecs [Cout [Hout [Hcar Hcnt]]]]]]; try assumption.
  { reflexivity. }
  { cbn. lia. }
  { unfold contents, b2. cbn [len array set_len set_array firstn].
    rewrite app_nil_r. exact Fa'. }
  assert (Lout : len out = length (concat chunks)).
  { rewrite <- Cout. unfold contents. destruct Hout as [Lo Ho].
    rewrite length_firstn. lia. }
  assert (Lcc : length (concat chunks) <= length stream).
  { unfold stream. rewrite (frames_from_length (g w) (d_ctx s) HL). lia. }
  (* the remote buffer after the hand-over *)
  assert (Hover : exists s' r',
             hand_over (set_chunk (set_buf (set_buf (set_auth s 1) b2) out) ch)
                       (new_remote {| family := fam; host := addr; port := pt |})
                       0 = Ok (s', r')
             /\ s'.(auth) = 1%Z /\ s'.(stage) = s.(stage)
             /\ s'.(buf).(len) = 0 /\ s'.(chunk) = ch
             /\ r'.(peer) = {| family := fam; host := addr; port := pt |}
             /\ contents r'.(rbuf) = concat chunks /\ r'.(rbuf).(idx) = 0
             /\ r'.(r_recv_io) = false /\ r'.(connected) = 0%Z).
  { unfold hand_over.
    cbn [buf set_buf set_chunk set_auth rbuf new_remote].
    destruct (Nat.ltb_spec 0 (len out)) as [Hpos | Hzero].
    - destruct Hout as [Lo Ho].
      destruct (MemFacts.memcpy_ex (array (balloc BUF_SIZE)) 0 (array out) 0
                                   (len out))
        as [ra [Era [Lra [Fra _]]]].
      { lia. }
      { cbn [balloc array]. rewrite repeat_length. lia. }
      rewrite Era, bind_Ok.
      eexists. eexists. split; [reflexivity|].
      cbn. repeat split; try reflexivity.
      unfold contents. cbn.
      rewrite Nat.add_0_l in Fra. cbn [firstn app skipn] in Fra.
      rewrite Fra. exact Cout.
    - eexists. eexists. split; [reflexivity|].
      cbn. repeat split; try reflexivity; try lia.
      rewrite <- Cout. unfold contents.
      replace (len out) with 0 by lia. reflexivity. }
  destruct Hover as [s' [r' [Eho [Hau [Hstg [Hlen0 [Hch [Hpeer [Hrc [Hri [Hrr Hcon]]]]]]]]]]].
  exists (set_recv_io (set_stage s' 4) false), (set_r_send_io r' true).
  split.
  { unfold server_handshake.
    rewrite (held_get (buf s) bytes 0 Hbuf Hc') by lia.
    change (nth 0 bytes 0%Z) with atyp. rewrite bind_Ok.
    rewrite Eauth, bind_Ok. cbv iota.
    unfold parse_address. cbv zeta. cbn [buf set_auth auth].
    change (negb (1 =? 0)%Z) with true. cbv iota.
    change ONETIMEAUTH_BYTES with 10.
    destruct Htype as [[Ht [Lad ->]] | [Ht [Lad ->]]]; rewrite Ht.
    - change (1 =? 1)%Z with true. cbv iota.
      destruct (Nat.leb_spec (4 + 3) (len (buf s))) as [_ | Hs];
        [|unfold off in *; lia].
      rewrite (held_read (buf s) bytes 1 4 Hbuf Hc') by lia.
      rewrite <- Lad at 1. rewrite Paddr, bind_Ok, bind_Ok. cbv iota.
      change (1 + 4 =? 1) with false. cbv iota.
      rewrite (held_read (buf s) bytes (1 + 4) 2 Hbuf Hc') by lia.
      rewrite <- Lad at 1. rewrite Ppt, bind_Ok.
      replace (1 + 4 + 2 + 10) with off by (unfold off; lia).
      destruct (Nat.ltb_spec (len (buf s)) off) as [H | _]; [unfold off in H; lia|].
      fold n0. unfold Mem.memmove. rewrite Ea, bind_Ok.
      cbn [buf set_buf chunk d_ctx set_auth]. fold b2.
      rewrite Ecs, bind_Ok. cbv beta iota.
      cbn [auth set_buf set_auth]. change (negb (1 =? 0)%Z) with true.
      cbv iota. rewrite bind_Ok. cbv beta iota. cbn [negb].
      unfold connect_to_remote. rewrite Hfo.
      rewrite Eho, bind_Ok. reflexivity.
    - change (4 =? 1)%Z with false. change (4 =? 3)%Z with false.
      change (4 =? 4)%Z with true. cbv iota.
      destruct (Nat.leb_spec (16 + 3) (len (buf s))) as [_ | Hs];
        [|unfold off in *; lia].
      rewrite (held_read (buf s) bytes 1 16 Hbuf Hc') by lia.
      rewrite <- Lad at 1. rewrite Paddr, bind_Ok, bind_Ok. cbv iota.
      change (1 + 16 =? 1) with false. cbv iota.
      rewrite (held_read (buf s) bytes (1 + 16) 2 Hbuf Hc') by lia.
      rewrite <- Lad at 1. rewrite Ppt, bind_Ok.
      replace (1 + 16 + 2 + 10) with off by (unfold off; lia).
      destruct (Nat.ltb_spec (len (buf s)) off) as [H | _]; [unfold off in H; lia|].
      fold n0. unfold Mem.memmove. rewrite Ea, bind_Ok.
      cbn [buf set_buf chunk d_ctx set_auth]. fold b2.
      rewrite Ecs, bind_Ok. cbv beta iota.
      cbn [auth set_buf set_auth]. change (negb (1 =? 0)%Z) with true.
      cbv iota. rewrite bind_Ok. cbv beta iota. cbn [negb].
      unfold connect_to_remote. rewrite Hfo.
      rewrite Eho, bind_Ok. reflexivity. }
  cbn [auth stage recv_io buf chunk set_recv_io set_stage
       peer rbuf r_send_io r_recv_io connected set_r_send_io].
  rewrite Hch.
  destruct Hcar as [Hci _].
  repeat split; try assumption.
Qed.

(** X14.  A request for an IPv4 or an IPv6 address that asks for
    authentication (or is made to a server that demands it), with the right
    MAC behind the header and whole chunk frames behind that, fast open
    being off: stage 0 marks the connection as authenticated, takes the
    frames apart, opens a connection to the address and port of the header
    and hands the payloads of the chunks over to the buffer of the target;
    the chunk counter has advanced by the number of frames. *)
Theorem authenticated_request_connects
        (w : world) (s : server_t) (atyp fam : Z) (addr pt : list Z)
        (chunks : list (list Z)) (ip : Z) (tfo : tfo_result) :
  Laws.hmac_law B ->
  auth_ready w.(g) (ctx_iv s.(d_ctx)) -> chunk_ready w.(g) s.(d_ctx) ->
  w.(fast_open) = false ->
  (w.(cfg_auth) <> 0%Z \/ Z.land atyp ONETIMEAUTH_FLAG <> 0%Z) ->
  (Z.land atyp ADDRTYPE_MASK = 1%Z /\ length addr = 4 /\ fam = 4%Z)
  \/ (Z.land atyp ADDRTYPE_MASK = 4%Z /\ length addr = 16 /\ fam = 6%Z) ->
  length pt = 2 ->
  Forall (fun P => (Z.of_nat (length P) < 65536)%Z) chunks ->
  idle s.(chunk) ->
  buffer_ok s.(buf) -> s.(buf).(len) <= BUF_SIZE ->
  contents s.(buf)
  = (atyp :: addr ++ pt)
    ++ header_mac w.(g) (ctx_iv s.(d_ctx)) (atyp :: addr ++ pt)
    ++ frames_from w.(g) s.(d_ctx) s.(chunk).(chunk_counter) chunks ->
  exists s' r',
    server_handshake w s ip (Connecting tfo)
    = Ok (set_remote (set_server w (Some s')) (Some r'))
    /\ s'.(auth) = 1%Z /\ s'.(stage) = 4%Z /\ s'.(recv_io) = false
    /\ s'.(buf).(len) = 0
    /\ s'.(chunk).(chunk_idx) = 0
    /\ s'.(chunk).(chunk_counter)
       = Nat.iter (length chunks) next_counter s.(chunk).(chunk_counter)
    /\ r'.(peer) = {| family := fam; host := addr; port := pt |}
    /\ contents r'.(rbuf) = concat chunks /\ r'.(rbuf).(idx) = 0
    /\ r'.(r_send_io) = true /\ r'.(r_recv_io) = false
    /\ r'.(connected) = 0%Z.
Proof.
  exact (handshake_authenticated w s atyp fam addr pt chunks ip tfo).
Qed.


End AuthHandshake.

Lemma authenticated_request_connects_witness :
  exists s' r',
    server_handshake Samples.w_handshake Samples.s_handshake 0
                     (Connecting TfoInProgress)
    = Ok (set_remote (set_server Samples.w_handshake (Some s')) (Some r'))
    /\ s'.(auth) = 1%Z /\ s'.(stage) = 4%Z /\ s'.(recv_io) = false
    /\ s'.(buf).(len) = 0
    /\ s'.(chunk).(chunk_idx) = 0
    /\ s'.(chunk).(chunk_counter)
       = Nat.iter (length [[104; 105]]%Z) next_counter
                  Samples.s_handshake.(chunk).(chunk_counter)
    /\ r'.(peer) = {| family := 4; host := [93; 184; 216; 34]%Z;
                      port := [0; 80]%Z |}
    /\ contents r'.(rbuf) = concat [[104; 105]]%Z /\ r'.(rbuf).(idx) = 0
    /\ r'.(r_send_io) = true /\ r'.(r_recv_io) = false
    /\ r'.(connected) = 0%Z.
Proof.
  apply (@authenticated_request_connects Toy.backend Samples.w_handshake
           Samples.s_handshake 17 4 [93; 184; 216; 34]%Z [0; 80]%Z
           [[104; 105]]%Z 0 TfoInProgress).
  - exact toy_hmac_law.
  - repeat split; vm_compute; lia.
  - split; vm_compute; lia.
  - reflexivity.
  - right. vm_compute. discriminate.
  - left. repeat split; reflexivity.
  - reflexivity.
  - repeat constructor.
  - split; reflexivity.
  - split; vm_compute; [reflexivity | lia].
  - vm_compute; lia.
  - vm_compute; reflexivity.
Defined.

Section Replay.
Context {B : Backend}.


End Replay.


End ServerFacts.

(** ** tunnel.c *)

Module TunnelFacts.

Import Encrypt Server EncryptFacts ServerFacts Tunnel.

(** *** The header of the tunnel *)

Section Header.
Context {B : Backend}.

Lemma contents_length (b : buffer_t) :
  buffer_ok b -> length (contents b) = b.(len).
Proof. intros [Lb Hb]. unfold contents. rewrite length_firstn. lia. Qed.

Lemma push_ok (abuf : buffer_t) (b : Z) :
  buffer_ok abuf -> abuf.(len) < abuf.(capacity) ->
  exists abuf',
    push abuf b = Ok abuf' /\ buffer_ok abuf'
    /\ abuf'.(capacity) = abuf.(capacity)
    /\ contents abuf' = contents abuf ++ [b].
Proof.
  intros [Lb Hb] Hroom. unfold push, Mem.set.
  destruct (MemFacts.write_ex (array abuf) (len abuf) [b]) as [a [Ea [La [Fa _]]]].
  { simpl length. lia. }
  rewrite Ea, bind_Ok. eexists. split; [reflexivity|].
  unfold buffer_ok, contents. cbn [len array capacity set_len set_array].
  repeat split; try lia. exact Fa.
Qed.

Lemma append_ok (abuf : buffer_t) (src : list Z) (n : nat) :
  buffer_ok abuf -> n <= length src -> abuf.(len) + n <= abuf.(capacity) ->
  exists abuf',
    append abuf src n = Ok abuf' /\ buffer_ok abuf'
    /\ abuf'.(capacity) = abuf.(capacity)
    /\ contents abuf' = contents abuf ++ firstn n src.
Proof.
  intros [Lb Hb] Hn Hroom. unfold append.
  destruct (MemFacts.memcpy_ex (array abuf) (len abuf) src 0 n)
    as [a [Ea [La [Fa _]]]]; [lia | lia |].
  rewrite Ea, bind_Ok. eexists. split; [reflexivity|].
  unfold buffer_ok, contents. cbn [len array capacity set_len set_array].
  repeat split; try lia. exact Fa.
Qed.

Lemma balloc_ok (n : nat) :
  buffer_ok (balloc n) /\ contents (balloc n) = [] /\ (balloc n).(len) = 0
  /\ (balloc n).(capacity) = n.
Proof.
  unfold buffer_ok, contents, balloc. cbn [len array capacity].
  rewrite repeat_length. repeat split; lia.
Qed.

(** the address part of a header, as [address_header] lays it out *)
Definition address_bytes (sa : ss_addr_t) (ip : Z) (a : list Z) : list Z :=
  if (ip =? -1)%Z
  then 3%Z :: (Z.of_nat (length sa.(host)) mod 256)%Z :: sa.(host)
  else (if (ip =? 4)%Z then 1%Z else 4%Z) :: a.

(** the literal address or the name fits its place in the header *)
Definition address_fits (sa : ss_addr_t) (ip : Z) (a : list Z) : Prop :=
  (ip = 4%Z /\ length a = 4) \/ (ip = 6%Z /\ length a = 16)
  \/ (ip = (-1)%Z /\ length sa.(host) + 4 <= BUF_SIZE).

Lemma address_header_ok (sa : ss_addr_t) (ip : Z) (a : list Z) :
  address_fits sa ip a ->
  exists abuf,
    address_header sa ip (Some a) = Ok abuf /\ buffer_ok abuf
    /\ abuf.(capacity) = BUF_SIZE
    /\ contents abuf = address_bytes sa ip a.
Proof.
  intros Hfit. unfold address_header, address_bytes.
  destruct (balloc_ok BUF_SIZE) as [H0 [C0 [L0 K0]]].
  destruct Hfit as [[-> La] | [[-> La] | [-> Lh]]]; cbn [Z.eqb negb Pos.eqb].
  - destruct (push_ok (balloc BUF_SIZE) 1 H0) as [b1 [E1 [H1 [K1 C1]]]].
    { rewrite L0, K0. unfold BUF_SIZE. lia. }
    rewrite E1, bind_Ok.
    assert (L1 : len b1 = 1).
    { rewrite <- (contents_length b1 H1), C1, C0. reflexivity. }
    destruct (append_ok b1 a 4 H1) as [b2 [E2 [H2 [K2 C2]]]].
    { lia. }
    { rewrite L1, K1, K0. unfold BUF_SIZE. lia. }
    rewrite E2. exists b2. split; [reflexivity|]. split; [exact H2|].
    split; [congruence|].
    rewrite C2, C1, C0, <- La, firstn_all. reflexivity.
  - destruct (push_ok (balloc BUF_SIZE) 4 H0) as [b1 [E1 [H1 [K1 C1]]]].
    { rewrite L0, K0. unfold BUF_SIZE. lia. }
    rewrite E1, bind_Ok.
    assert (L1 : len b1 = 1).
    { rewrite <- (contents_length b1 H1), C1, C0. reflexivity. }
    destruct (append_ok b1 a 16 H1) as [b2 [E2 [H2 [K2 C2]]]].
    { lia. }
    { rewrite L1, K1, K0. unfold BUF_SIZE. lia. }
    rewrite E2. exists b2. split; [reflexivity|]. split; [exact H2|].
    split; [congruence|].
    rewrite C2, C1, C0, <- La, firstn_all. reflexivity.
  - destruct (push_ok (balloc BUF_SIZE) 3 H0) as [b1 [E1 [H1 [K1 C1]]]].
    { rewrite L0, K0. unfold BUF_SIZE. lia. }
    rewrite E1, bind_Ok.
    assert (L1 : len b1 = 1).
    { rewrite <- (contents_length b1 H1), C1, C0. reflexivity. }
    destruct (push_ok b1 (Z.of_nat (length (host sa)) mod 256) H1)
      as [b2 [E2 [H2 [K2 C2]]]].
    { rewrite L1, K1, K0. unfold BUF_SIZE. lia. }
    rewrite E2, bind_Ok.
    assert (L2 : len b2 = 2).
    { rewrite <- (contents_length b2 H2), C2, C1, C0. reflexivity. }
    destruct (append_ok b2 (host sa) (length (host sa)) H2)
      as [b3 [E3 [H3 [K3 C3]]]].
    { lia. }
    { rewrite L2, K2, K1, K0. lia. }
    rewrite E3. exists b3. split; [reflexivity|]. split; [exact H3|].
    split; [congruence|].
    rewrite C3, C2, C1, C0, firstn_all. reflexivity.
Qed.


(** the first byte of a buffer replaced *)
Lemma flag_first (abuf : buffer_t) (v : Z) :
  buffer_ok abuf -> 0 < abuf.(len) ->
  exists a,
    Mem.get abuf.(array) 0 = Ok (hd 0%Z (contents abuf))
    /\ Mem.set abuf.(array) 0 v = Ok a
    /\ buffer_ok (set_array abuf a)
    /\ contents (set_array abuf a) = v :: tl (contents abuf).
Proof.
  intros [Lb Hb] Hpos. unfold Mem.set.
  rewrite MemFacts.get_ok by lia.
  destruct (MemFacts.write_ex (array abuf) 0 [v]) as [a [Ea [La [Fa [_ [_ Sa]]]]]].
  { simpl length. lia. }
  exists a. split.
  { f_equal. unfold contents.
    destruct (array abuf) as [|x l]; [simpl in Lb; lia|].
    destruct (len abuf); [lia | reflexivity]. }
  split; [exact Ea|]. split.
  { unfold buffer_ok. cbn [len array capacity set_array]. lia. }
  unfold contents. cbn [len array set_array].
  simpl in Fa. specialize (Sa 1 ltac:(simpl; lia)).
  destruct a as [|y a']; [discriminate Fa|].
  injection Fa as ->. cbn [skipn] in Sa.
  destruct (array abuf) as [|x l]; [simpl in Lb; lia|]. cbn [skipn] in Sa.
  destruct (len abuf) as [|n]; [lia|]. cbn [firstn tl]. rewrite Sa. reflexivity.
Qed.

(** the header without the flag and the MAC *)
Definition plain_header (sa : ss_addr_t) (ip : Z) (a : list Z) : list Z :=
  address_bytes sa ip a ++ htons_bytes sa.(port).

(** the header with the flag set in its first byte *)
Definition flagged_header (sa : ss_addr_t) (ip : Z) (a : list Z) : list Z :=
  Z.lor (hd 0%Z (plain_header sa ip a)) ONETIMEAUTH_FLAG
  :: tl (plain_header sa ip a).

Lemma request_header_ok (g : globals) (sa : ss_addr_t) (ip : Z) (a : list Z)
      (auth : Z) (e_iv : list Z) :
  Laws.hmac_law B -> auth_ready g e_iv -> address_fits sa ip a ->
  exists abuf,
    request_header g sa ip (Some a) auth e_iv = Ok abuf
    /\ buffer_ok abuf
    /\ contents abuf
       = if (auth =? 0)%Z then plain_header sa ip a
         else flagged_header sa ip a
              ++ header_mac g e_iv (flagged_header sa ip a).
Proof.
  intros HL Hready Hfit. unfold request_header.
  destruct (address_header_ok sa ip a Hfit) as [b1 [E1 [H1 [K1 C1]]]].
  rewrite E1, bind_Ok.
  assert (L1 : len b1 + 2 <= 2048).
  { rewrite <- (contents_length b1 H1), C1. unfold address_bytes.
    unfold address_fits, BUF_SIZE in Hfit.
    destruct Hfit as [[-> La] | [[-> La] | [-> Lh]]];
      cbn [Z.eqb Pos.eqb length]; lia. }
  destruct (append_ok b1 (htons_bytes (port sa)) 2 H1) as [b2 [E2 [H2 [K2 C2]]]].
  { reflexivity. }
  { rewrite K1. unfold BUF_SIZE. lia. }
  rewrite E2, bind_Ok.
  change (firstn 2 (htons_bytes (port sa))) with (htons_bytes (port sa)) in C2.
  rewrite C1 in C2. fold (plain_header sa ip a) in C2.
  destruct (Z.eqb_spec auth 0) as [E0 | N0]; cbn [negb].
  - exists b2. repeat split; try assumption; apply H2.
  - destruct (flag_first b2 (Z.lor (hd 0%Z (contents b2)) ONETIMEAUTH_FLAG) H2)
      as [a' [Eg [Es [H3 C3]]]].
    { rewrite <- (contents_length b2 H2), C2. unfold plain_header.
      rewrite length_app. simpl. lia. }
    rewrite Eg, bind_Ok, Es, bind_Ok.
    destruct (ss_onetimeauth_ok g (set_array b2 a') e_iv BUF_SIZE HL Hready H3)
      as [signed [Eo [Ho [_ Co]]]].
    rewrite Eo, bind_Ok. cbv beta iota.
    exists signed. split; [reflexivity|]. split; [exact Ho|].
    rewrite Co, C3, C2. reflexivity.
Qed.

(** X15.  The header that [remote_send_cb] of the tunnel builds for its
    destination: type 1 and the 4 bytes of an IPv4 literal, type 4 and the
    16 bytes of an IPv6 literal, or type 3, the length of the name modulo
    256 and the name; then the port in network order.  With [auth] set the
    first byte has the flag 0x10 and the first 10 bytes of the HMAC of all
    this, under the IV followed by the key, come last. *)
Theorem request_header_layout (g : globals) (sa : ss_addr_t) (ip : Z)
        (a : list Z) (one_time : Z) (e_iv : list Z) :
  Laws.hmac_law B -> auth_ready g e_iv ->
  (ip = 4%Z /\ length a = 4) \/ (ip = 6%Z /\ length a = 16)
  \/ (ip = (-1)%Z /\ length sa.(host) + 4 <= BUF_SIZE) ->
  let t := if (ip =? -1)%Z then 3%Z else if (ip =? 4)%Z then 1%Z else 4%Z in
  let body := (if (ip =? -1)%Z
               then (Z.of_nat (length sa.(host)) mod 256)%Z :: sa.(host)
               else a) ++ htons_bytes sa.(port) in
  exists abuf,
    request_header g sa ip (Some a) one_time e_iv = Ok abuf
    /\ buffer_ok abuf
    /\ contents abuf
       = if (one_time =? 0)%Z then t :: body
         else (Z.lor t ONETIMEAUTH_FLAG :: body)
              ++ header_mac g e_iv (Z.lor t ONETIMEAUTH_FLAG :: body).
Proof.
  intros HL Hready Hfit t body.
  destruct (request_header_ok g sa ip a one_time e_iv HL Hready Hfit)
    as [abuf [E [H C]]].
  exists abuf. split; [exact E|]. split; [exact H|]. rewrite C.
  assert (Hp : plain_header sa ip a = t :: body).
  { unfold plain_header, address_bytes, t, body.
    destruct Hfit as [[-> _] | [[-> _] | [-> _]]]; reflexivity. }
  unfold flagged_header. rewrite Hp. reflexivity.
Qed.

End Header.

(** *** The tunnel and the server *)

Section Interop.
Context {B : Backend}.

Lemma ctx_iv_of (c : option enc_ctx_t) : ctx_iv c = iv_of c.
Proof. destruct c; reflexivity. Qed.

(** X16.  The tunnel and the server agree on the first bytes of a
    connection.  For a destination that is an IP literal, the header that
    the tunnel builds followed by what it makes of the first payload (the
    chunk frame of [ss_gen_hash] when [auth] is set, the payload itself
    otherwise) is accepted by stage 0 of a server that has the same key and
    IV: it connects to the address and the port the tunnel was set up
    with and hands exactly the payload over; with [auth] set it marks the
    connection as authenticated, and both ends have the same chunk counter
    afterwards. *)
Theorem tunnel_request_is_served
        (gt : globals) (sa : ss_addr_t) (ip : Z) (a : list Z) (one_time : Z)
        (e_ctx : option enc_ctx_t) (pbuf hdr fr : buffer_t)
        (counter counter' : Z)
        (w : world) (s : server_t) (ipq : Z) (tfo : tfo_result) :
  Laws.hmac_law B ->
  enc_iv_len gt = enc_iv_len w.(g) -> enc_key_len gt = enc_key_len w.(g) ->
  enc_key gt = enc_key w.(g) -> iv_of e_ctx = iv_of s.(d_ctx) ->
  auth_ready gt (iv_of e_ctx) -> chunk_ready gt e_ctx ->
  (ip = 4%Z /\ length a = 4) \/ (ip = 6%Z /\ length a = 16) ->
  buffer_ok pbuf -> (Z.of_nat pbuf.(len) < 65536)%Z ->
  (one_time = 0%Z -> w.(cfg_auth) = 0%Z) -> w.(fast_open) = false ->
  s.(auth) = 0%Z -> idle s.(chunk) -> s.(chunk).(chunk_counter) = counter ->
  request_header gt sa ip (Some a) one_time (iv_of e_ctx) = Ok hdr ->
  payload_frame gt one_time pbuf counter e_ctx = Ok (fr, counter') ->
  buffer_ok s.(buf) -> s.(buf).(len) <= Server.BUF_SIZE ->
  contents s.(buf) = contents hdr ++ contents fr ->
  exists s' r',
    server_handshake w s ipq (Connecting tfo)
    = Ok (set_remote (set_server w (Some s')) (Some r'))
    /\ s'.(stage) = 4%Z
    /\ s'.(auth) = (if (one_time =? 0)%Z then 0%Z else 1%Z)
    /\ s'.(chunk).(chunk_counter) = counter'
    /\ r'.(peer) = {| family := ip; Server.host := a;
                      Server.port := htons_bytes sa.(port) |}
    /\ contents r'.(rbuf) = contents pbuf
    /\ r'.(rbuf).(idx) = 0.
Proof.
  intros HL Eiv Ekl Ek Ectx Hauth Hchunk Hlit Hp Hsz Hcfg Hfo Hsa Hidle Hcnt
         Ehdr Efr Hbuf Hsize Hc.
  assert (Hfit : address_fits sa ip a) by (unfold address_fits; tauto).
  destruct (request_header_ok gt sa ip a one_time (iv_of e_ctx) HL Hauth Hfit)
    as [hdr' [E [_ C]]].
  rewrite Ehdr in E. injection E as <-.
  unfold payload_frame in Efr.
  assert (Htype : forall flag,
            (flag = 0%Z \/ flag = 16%Z) ->
            (Z.land (Z.lor (if (ip =? 4)%Z then 1 else 4) flag) ADDRTYPE_MASK = 1%Z
             /\ length a = 4 /\ ip = 4%Z)
            \/ (Z.land (Z.lor (if (ip =? 4)%Z then 1 else 4) flag) ADDRTYPE_MASK = 4%Z
                /\ length a = 16 /\ ip = 6%Z)).
  { intros flag [-> | ->]; destruct Hlit as [[-> La] | [-> La]];
      cbn; tauto. }
  assert (Hplain : plain_header sa ip a
                   = (if (ip =? 4)%Z then 1%Z else 4%Z) :: a ++ htons_bytes (port sa)).
  { unfold plain_header, address_bytes.
    destruct Hlit as [[-> La] | [-> La]]; reflexivity. }
  destruct (Z.eqb_spec one_time 0) as [E0 | N0]; cbn [negb] in Efr.
  - injection Efr as <- <-.
    rewrite C, Hplain in Hc.
    destruct (handshake_direct w s (if (ip =? 4)%Z then 1%Z else 4%Z) ip a
                (htons_bytes (port sa)) (contents pbuf) ipq tfo
                (Hcfg E0) Hfo Hsa) as [s' [r' [E H]]].
    + destruct Hlit as [[-> La] | [-> La]]; reflexivity.
    + specialize (Htype 0%Z (or_introl eq_refl)).
      destruct Hlit as [[-> La] | [-> La]]; exact Htype.
    + reflexivity.
    + exact Hbuf.
    + exact Hsize.
    + rewrite Hc. cbn [app]. rewrite <- app_assoc. reflexivity.
    + exists s', r'. split; [exact E|].
      destruct H as [H1 [_ [_ [H4 [H5 [_ [_ [H8 [H9 [H10 _]]]]]]]]]].
      rewrite H5. repeat split; assumption.
  - destruct (ss_gen_hash_ok gt pbuf counter e_ctx BUF_SIZE HL Hchunk Hp)
      as [fr' [Eg [_ Cf]]].
    rewrite Eg, bind_Ok in Efr. cbv beta iota in Efr. injection Efr as <- <-.
    assert (Hflag : flagged_header sa ip a
                    = Z.lor (if (ip =? 4)%Z then 1 else 4) 16
                      :: a ++ htons_bytes (port sa)).
    { unfold flagged_header. rewrite Hplain. reflexivity. }
    rewrite C, Hflag, Cf in Hc.
    assert (Ekey : auth_key_of gt (iv_of e_ctx)
                   = auth_key_of (g w) (ctx_iv (d_ctx s))).
    { unfold auth_key_of. rewrite (ctx_iv_of (d_ctx s)). congruence. }
    assert (Eframe : frame_of gt e_ctx counter (contents pbuf)
                     = frame_of (g w) (d_ctx s) counter (contents pbuf)).
    { unfold frame_of, chunk_key_of. congruence. }
    destruct (handshake_authenticated w s
                (Z.lor (if (ip =? 4)%Z then 1 else 4) 16) ip a
                (htons_bytes (port sa)) [contents pbuf] ipq tfo HL)
      as [s' [r' [E H]]].
    + rewrite (ctx_iv_of (d_ctx s)). unfold auth_ready in *.
      destruct Hauth as [A1 [A2 [A3 A4]]]. repeat split; congruence.
    + unfold chunk_ready in *. destruct Hchunk as [A1 A2]. split; congruence.
    + exact Hfo.
    + right. destruct Hlit as [[-> La] | [-> La]]; discriminate.
    + apply Htype. right. reflexivity.
    + reflexivity.
    + constructor; [|constructor].
      rewrite (contents_length pbuf Hp). lia.
    + exact Hidle.
    + exact Hbuf.
    + exact Hsize.
    + rewrite Hc. unfold header_mac. rewrite Ekey.
      cbn [frames_from]. rewrite app_nil_r, Hcnt, Eframe.
      rewrite <- app_assoc. reflexivity.
    + exists s', r'. split; [exact E|].
      destruct H as [H1 [H2 [_ [_ [_ [H6 [H7 [H8 [H9 _]]]]]]]]].
      rewrite H6, Hcnt. cbn [length Nat.iter concat] in *.
      rewrite app_nil_r in H8.
      repeat split; assumption.
Qed.

End Interop.

(** the tunnel set up for 93.184.216.34:80 with one-time authentication,
    its first two bytes of payload, and the end of its connection that
    [Samples.s_handshake] is *)
Definition sa_example : ss_addr_t :=
  {| Tunnel.host := [57; 51; 46; 49; 56; 52; 46; 50; 49; 54; 46; 51; 52]%Z;
     Tunnel.port := 80 |}.

Definition g_example : globals := Samples.w_handshake.(g).

Definition e_ctx_example : option enc_ctx_t := Samples.s_handshake.(d_ctx).

Definition hdr_example : buffer_t :=
  Eval vm_compute in
    match request_header (B := Toy.backend) g_example sa_example 4
                         (Some [93; 184; 216; 34]%Z) 1 (iv_of e_ctx_example) with
    | Ok b => b
    | _ => balloc 0
    end.

Definition fr_example : buffer_t :=
  Eval vm_compute in
    match payload_frame (B := Toy.backend) g_example 1
                        (holding BUF_SIZE [104; 105]%Z) 0 e_ctx_example with
    | Ok (b, _) => b
    | _ => balloc 0
    end.

Lemma request_header_layout_witness :
  exists abuf,
    request_header (B := Toy.backend) g_example sa_example 4
                   (Some [93; 184; 216; 34]%Z) 1 (iv_of e_ctx_example) = Ok abuf
    /\ buffer_ok abuf
    /\ contents abuf
       = (17 :: [93; 184; 216; 34] ++ [0; 80])%Z
         ++ header_mac (B := Toy.backend) g_example (iv_of e_ctx_example)
                       (17 :: [93; 184; 216; 34] ++ [0; 80])%Z.
Proof.
  apply (@request_header_layout Toy.backend g_example sa_example 4
           [93; 184; 216; 34]%Z 1 (iv_of e_ctx_example)).
  - exact toy_hmac_law.
  - repeat split; vm_compute; lia.
  - left. split; reflexivity.
Defined.

Lemma tunnel_request_is_served_witness :
  exists s' r',
    server_handshake Samples.w_handshake Samples.s_handshake 0
                     (Connecting TfoInProgress)
    = Ok (set_remote (set_server Samples.w_handshake (Some s')) (Some r'))
    /\ s'.(stage) = 4%Z
    /\ s'.(auth) = 1%Z
    /\ s'.(chunk).(chunk_counter) = 1%Z
    /\ r'.(peer) = {| family := 4; Server.host := [93; 184; 216; 34]%Z;
                      Server.port := [0; 80]%Z |}
    /\ contents r'.(rbuf) = [104; 105]%Z
    /\ r'.(rbuf).(idx) = 0.
Proof.
  apply (@tunnel_request_is_served Toy.backend g_example sa_example 4
           [93; 184; 216; 34]%Z 1 e_ctx_example
           (holding BUF_SIZE [104; 105]%Z) hdr_example fr_example 0 1
           Samples.w_handshake Samples.s_handshake 0 TfoInProgress).
  - exact toy_hmac_law.
  - reflexivity.
  - reflexivity.
  - reflexivity.
  - reflexivity.
  - repeat split; vm_compute; lia.
  - split; vm_compute; lia.
  - left. split; reflexivity.
  - split; vm_compute; lia.
  - vm_compute. reflexivity.
  - discriminate.
  - reflexivity.
  - reflexivity.
  - split; reflexivity.
  - reflexivity.
  - vm_compute. reflexivity.
  - vm_compute. reflexivity.
  - split; vm_compute; [reflexivity | lia].
  - vm_compute; lia.
  - vm_compute. reflexivity.
Defined.

End TunnelFacts.
